(* ===== verification/_CoqProject ===== *)
-Q . S2P
Prelude.v
Error.v
ErrorChain.v
Util.v
Crc.v
Codec.v
Types.v
V5.v
V5Facts.v
PropsBlock.v
Frame.v
AckPackets.v
PublishPacket.v
SubPackets.v
Config.v
ConnectPackets.v
Packets.v
PacketTheorems.v
PacketIO.v
PacketIOTheorems.v
Ttrie.v
TtrieFacts.v
TtrieTheorems.v
Timer.v
TimerTheorems.v
Retained.v
RetainedTheorems.v
Spinlock.v
SpinlockTheorems.v
LockedCell.v
State.v
Queue.v
Thread.v
Server.v
ServerTheorems.v
KeepAlive.v
Socket.v
Flusher.v
Listener.v
Ticker.v
ServiceTheorems.v
Session.v
Miot.v
Shard.v
ShardLoop.v
SessionTheorems.v
ShardTheorems.v
ShardInvariant.v
ShardQueues.v
ShardFlow.v
SocketTheorems.v
MiotTheorems.v
Cluster.v
ClusterTheorems.v
Admission.v
TakeOver.v
Mqcl.v
Chash.v
Arbitrary.v
ArbitraryPackets.v
ArbitraryTheorems.v
