(* ===== verification/Prelude.v ===== *)
(** A model of mqtr, an MQTT v5 broker in Rust, and the theorems about it.

    * The program

    The broker is a set of threads that serve each other's requests ([src/thread.rs]).
    A listener ([src/listener.rs]) accepts connections; for each one a handshake thread
    reads the CONNECT ([src/handshake.rs]) and hands it to the cluster
    ([src/cluster.rs]), which starts the others, with a ticker that wakes them
    ([src/ticker.rs]), and maps the client to one of its shards by a hash
    ([src/rebalance.rs]).  A shard ([src/shard.rs]) hosts the sessions of its clients
    ([src/session.rs]); a miot thread ([src/miot.rs]) moves packets between the
    connections ([src/socket.rs]) and the queues of the sessions; a flusher
    ([src/flush.rs]) finishes connections that end.  Sessions publish through their
    shard: subscriptions are looked up in a trie that all shards share
    ([src/ttrie.rs], over [src/spinlock.rs]), messages go to the other shards by
    queues and are numbered and acknowledged ([src/message.rs]); retained messages
    belong to the cluster, with a timer for those that expire ([src/timer.rs]).
    Packets are those of [src/v5], read and written by [src/packet.rs] over the types
    of [src/types.rs].

    * The files, and the code they model

    - [Prelude], [State]: outcomes of fallible code ([Ok], [Err], [Panic], [Diverge]),
      the state monad of methods on [&mut self] with its invariants ([keeps]), ordered
      maps, tactics and hints.
    - [Error], [Util]: [src/error.rs], [src/util.rs], UTF-8 and string splitting.
    - [ErrorChain]: the texts of errors and their chains of causes.
    - [Codec], [Types]: the [Packetize] interface with its laws as type classes, and
      the field types of [src/types.rs].
    - [V5], [V5Facts], [PropsBlock], [Frame]: the fixed header and the properties of
      [src/v5/mod.rs]; the generic theorems that the packets instantiate.
    - [AckPackets], [PublishPacket], [SubPackets], [ConnectPackets]: the packets, one
      file of [src/v5] each or several; [Packets]: their union and [Subscription].
    - [Config]: [src/config.rs].
    - [PacketIO]: the readers and writers of [src/packet.rs].
    - [Ttrie], [TtrieFacts]: [src/ttrie.rs].
    - [Timer], [Spinlock], [KeepAlive]: the files of [src] of these names.
    - [Retained]: the retained messages of [src/cluster.rs].
    - [Queue]: [QueueStatus] and the ends of the packet, message and request queues
      ([src/lib.rs], [src/socket.rs], [src/message.rs], [src/thread.rs]).
    - [LockedCell]: the tries under their lock, [Ttrie] put together with [Spinlock].
    - [Thread]: the channels and the handles of [src/thread.rs]; [Server]: what a type
      promises to be run as a thread ([Threadable]), the loops that drain its requests,
      and the steps of such a thread among those that talk to it.
    - [Flusher], [Listener], [Ticker]: the threads of these names, with their handles.
      They are instances of [Threadable], as the four below are: [Shard], [Miot],
      [Handshake] and [Cluster].
    - [Session]: messages, and sessions as far as they need no shard; [Shard]: a shard's
      state, routing, and the methods of sessions that take a shard; [ShardLoop]: the
      rounds and the requests of a shard's thread.
    - [Socket], [Miot]: connections, the threads that serve them, and handshakes.  What the
      poller, the shard and the sockets answer a miot is a [MiotEnv].
    - [Cluster]: topologies, nodes, the partition of sessions, the cluster's requests,
      and how a shard and the cluster are spawned.
    - [Mqcl]: the program of [src/bin/mqcl] that starts a broker.
    - [Crc], [Chash]: [src/crc.rs] and [src/chash.rs], which no module of the crate
      includes.
    - [Arbitrary], [ArbitraryPackets]: the generators of test data, the implementations of
      [Arbitrary] and [normalize] all over [src/types.rs] and [src/v5], as computations
      that consume their input ([Gen]).

    The theorems are in the files of the same names with [Theorems], in [ShardInvariant],
    [ShardQueues], [ShardFlow], [Admission] and [TakeOver]; a definition carries the lines of the source
    it translates.  A record has the fields of the struct that code branches on, an inductive type the
    variants of the enum, a definition the name of the function, with its type before
    it.  A [BTreeMap] is a [gmap], walked in the order of its keys ([btree_iter]).

    * What the theorems show

    - Packets ([PacketTheorems], [PacketIOTheorems]): which packets go through the wire
      unchanged ([valid_Packet]), and which do not; every frame is decoded or refused,
      without a panic; lengths are minimal and topics what MQTT says; which deliveries of a
      packet in pieces are put together ([header_arrives]) and which never are; and a
      prefix of a packet is written, whatever the socket answers.
    - Tries ([TtrieTheorems]): subscribing, unsubscribing and matching refine a map from
      filters to subscriptions; matching is the matching of MQTT.
    - Time and locks ([TimerTheorems], [RetainedTheorems], [SpinlockTheorems]): no
      timeout is late; retained messages refine a map, up to the two operations that
      panic; the lock excludes and does not
      deadlock, in every interleaving of its atomic steps.
    - The tries under their lock ([LockedCell]): every interleaving of calls on a trie
      is one of snapshots and commits, and no call sees a value that was dropped; calls
      that do not overlap apply in order; a match that overlaps a subscription undoes it.
    - Threads ([ServerTheorems], [ServiceTheorems]): of every instance of [Threadable],
      requests are handled in order and responses reach their senders; a thread that polls answers every request; the
      flusher, which waits for full batches, does not; the listener ends with its first
      connection; the ticker wakes all until it is closed.
    - Errors ([ErrorChain]): which kinds are found in a chain of causes.
    - Sessions ([SessionTheorems]): out-bound publishes, duplicates, topic aliases, the
      back-log.
    - Shards ([ShardTheorems], [ShardInvariant], [ShardQueues], [ShardFlow]): to whom a
      publish is routed, in which order and under which numbers; what a subscription
      records; both only in a shard that runs, and never where its state is set aside,
      as it is when its own loop handles a packet; which messages are acknowledged; the
      invariant of every state a shard can reach; messages between shards arrive once, in
      order; where a message or an acknowledgement goes astray; and that no round begun
      with a session lets a shard of a cluster go on.
    - Connections ([SocketTheorems], [MiotTheorems]): packets reach the session in
      order; when a pass over the connections goes through, and that it then posts the
      failed ones to the shard, once each; tokens are distinct until their number
      overflows; handshakes end.
    - Hashing ([Crc], [Chash]): the table-driven checksum is the one of its polynomial;
      shards move no further than nodes that come and go make them.
    - The cluster ([ClusterTheorems], [Mqcl]): every connection finds its shard; comparing
      topologies finds what moves; spawning a cluster ends in a panic, and so no command
      line starts a broker.
    - All of it ([Admission], [TakeOver]): from the pieces of a CONNECT on the socket, through the
      handshake and the cluster, to the session on its shard and the CONNACK in its queue,
      for the CONNECTs that get so far; and what becomes of the session that the client had.
    - Generators ([ArbitraryTheorems]): what they give is valid and, normalized, comes back
      from the wire; when the generation of a topic ends; and which generated packets are
      refused.

    Some theorems state what the code does where it is not what it means to do: the
    inverted tests of the keep-alive, of the time limits and of duplicate properties,
    the writer that is set aside before it writes, the collection of the timer that
    panics, the routing that delivers under the publisher's name, the [todo!]s that end
    a round, the handles that are dropped or copied where that panics, and those of the
    packet codecs.

    * The outside

    A socket, a queue, the clock and the other threads are given by their answers: a
    function from the number of the access, or from the buffer it is given, to the
    answer.  A request that a thread makes of another and waits for may be answered, fail,
    panic, or never be answered: so a shard's of its miot and of the flusher ([Env]), and a
    miot's of its shard ([MiotEnv]).  The hash of [cityhash_rs] and the number of cores are parameters.  Uuids
    come with the request that needs one, or are parameters.  Calls to the operating
    system (binding a port, making a poller or a waker, polling) answer whether they
    succeed.  The interleavings of threads are modelled where they share memory, the
    atomic steps of the spinlock and the calls on a trie ([locked_step] of
    [LockedCell], [cell_step] of [Ttrie]), and where they share a channel of requests
    ([sys_step] of [Server]) or of messages ([queue_run] of [ShardQueues]); within the
    handling of one request, the other threads are answers.

    * Fuel and bounds

    The loop over properties has as fuel the length of its stream and always ends
    within it ([PropsBlock]); binary search has the length of the list; draining a
    queue has one more than the batch ([draining_ends]).  Loops on a socket or a clock
    (sending, reading, writing, flushing, the handshake) recur over the list of the
    answers they get, and [Diverge] says that the list was at its end: [write_completes]
    and [handshake_ends] bound it.  A generator chooses the text of a topic again while it is
    empty, without a bound: [nonempty] has fuel for it, and [topic_generation_ends] says
    when it ends, and that more fuel changes nothing then.  A request that is waited for and
    never answered is [Diverge], too.  Integers are in [Z], with the wrap-around or the
    saturation of the code written out where it has one; lengths are [nat].

    * What is not modelled

    The operating system's side of the threads: which events the poller reports, the
    registration of sockets with it but for its success, the scheduling of threads; names and the content of
    log messages, and the channel on which a thread tells the application that it
    panics; the textual forms of packets and of statistics; the parser of TOML and the one
    of the command line; the set-up of the log, the program that prints sizes and the fuzz
    driver.  Of the code that is modelled, the methods that are [todo!()] panic here as they
    do there. *)

From stdpp Require Export base list gmap strings sorting.
From Stdlib Require Export ZArith Lia.

(** * Outcomes

    A Rust function of type [Result<T>] either returns [Ok], returns [Err], or
    panics ([unwrap] on the wrong variant, [unreachable!], a slice index out of
    range).  [Diverge] is the value a fuelled loop takes when the fuel runs out, which
    the theorems about loops exclude or bound, and that of waiting for an answer that
    never comes. *)
Inductive outcome (E A : Type) : Type :=
| Ok (a : A)
| Err (e : E)
| Panic
| Diverge.
Arguments Ok {E A} a.
Arguments Err {E A} e.
Arguments Panic {E A}.
Arguments Diverge {E A}.

#[export] Instance outcome_ret {E} : MRet (outcome E) := λ A x, Ok x.
#[export] Instance outcome_bind {E} : MBind (outcome E) := λ A B f m,
  match m with
  | Ok a => f a
  | Err e => Err e
  | Panic => Panic
  | Diverge => Diverge
  end.
#[export] Instance outcome_fmap {E} : FMap (outcome E) := λ A B f m,
  match m with
  | Ok a => Ok (f a)
  | Err e => Err e
  | Panic => Panic
  | Diverge => Diverge
  end.

(** [Result::unwrap]: panics on an error. *)
Definition unwrap {E A} (m : outcome E A) : outcome E A :=
  match m with Err _ => Panic | m => m end.

(** An outcome is settled when the code returned: with a value or an error. *)
Definition settled {E A} (m : outcome E A) : Prop :=
  match m with Ok _ | Err _ => True | Panic | Diverge => False end.

(** Every value the outcome may carry satisfies [P]. *)
Definition ensures {E A} (P : A → Prop) (m : outcome E A) : Prop :=
  match m with Ok a => P a | _ => True end.

Section outcome_lemmas.
Context {E A B : Type}.
Implicit Types (m : outcome E A) (f : A → outcome E B).

Lemma bind_Ok m f b : (m ≫= f) = Ok b ↔ ∃ a, m = Ok a ∧ f a = Ok b.
Proof.
  split.
  - destruct m; cbn; try discriminate; eauto.
  - intros (a & -> & H). exact H.
Qed.

Lemma bind_Ok_1 (a : A) f : (Ok (E := E) a ≫= f) = f a.
Proof. reflexivity. Qed.

Lemma settled_bind m f :
  settled m → (∀ a, m = Ok a → settled (f a)) → settled (m ≫= f).
Proof. destruct m; cbn; auto. Qed.

Lemma ensures_bind (P : A → Prop) (Q : B → Prop) m f :
  ensures P m → (∀ a, P a → ensures Q (f a)) → ensures Q (m ≫= f).
Proof. destruct m; cbn; auto. Qed.

Lemma ensures_Ok (P : A → Prop) m a : ensures P m → m = Ok a → P a.
Proof. intros H ->. exact H. Qed.
End outcome_lemmas.

Create HintDb outcome.
Create Rewrite HintDb codec.
#[export] Hint Resolve settled_bind : outcome.

(** [outcome_inv H] takes a successful computation apart, bind by bind. *)
Ltac outcome_inv H :=
  lazymatch type of H with
  | (_ ≫= _) = Ok _ =>
      let a := fresh "r" in let H1 := fresh "Hr" in
      apply bind_Ok in H; destruct H as (a & H1 & H);
      lazymatch type of a with
      | (_ * _)%type => destruct a as [? ?]
      | unit => destruct a
      | _ => idtac
      end;
      outcome_inv H
  | Ok _ = Ok _ => injection H; clear H; intros; subst
  | Err _ = Ok _ => discriminate H
  | Panic = Ok _ => discriminate H
  | Diverge = Ok _ => discriminate H
  | _ => idtac
  end.

(** * Machine integers

    A w-bit integer is a [Z] in range; the type is an abbreviation, the range a
    predicate.  [usize] values (offsets and lengths) are [nat]. *)
Abbreviation u8 := Z (only parsing).
Abbreviation u16 := Z (only parsing).
Abbreviation u32 := Z (only parsing).
Abbreviation u64 := Z (only parsing).
Abbreviation bytes := (list Z) (only parsing).

Definition is_u8 (z : Z) : Prop := (0 ≤ z < 256)%Z.
Definition is_u16 (z : Z) : Prop := (0 ≤ z < 65536)%Z.
Definition is_u32 (z : Z) : Prop := (0 ≤ z < 4294967296)%Z.
Abbreviation is_bytes := (Forall is_u8).

(** [to_be_bytes] and [from_be_bytes] of the standard library, for a w-byte
    integer. *)
Fixpoint to_be_bytes (w : nat) (v : Z) : bytes :=
  match w with
  | O => []
  | S w' => Z.land (Z.shiftr v (8 * Z.of_nat w')) 255 :: to_be_bytes w' v
  end.
Definition from_be_bytes (bs : bytes) : Z :=
  fold_left (λ acc b, Z.lor (Z.shiftl acc 8) b) bs 0%Z.

Lemma land_255 v : Z.land v 255 = (v `mod` 256)%Z.
Proof. exact (Z.land_ones v 8 ltac:(lia)). Qed.

Lemma length_to_be_bytes w v : length (to_be_bytes w v) = w.
Proof. induction w; cbn; congruence. Qed.

Lemma to_be_bytes_is_bytes w v : is_bytes (to_be_bytes w v).
Proof.
  induction w as [|w IH]; constructor; [|exact IH].
  rewrite land_255. unfold is_u8. apply Z.mod_pos_bound. lia.
Qed.

(** A byte shifted in from the right is an addition. *)
Lemma lor_shiftl_add a b k :
  (0 ≤ k)%Z → (0 ≤ b < 2 ^ k)%Z → Z.lor (Z.shiftl a k) b = (a * 2 ^ k + b)%Z.
Proof.
  intros Hk Hb.
  assert (Z.land (Z.shiftl a k) b = 0%Z) as H0.
  { apply Z.bits_inj'. intros i Hi. rewrite Z.land_spec, Z.testbit_0_l.
    destruct (Z.lt_ge_cases i k) as [Hlt|Hge].
    - rewrite Z.shiftl_spec_low by lia. reflexivity.
    - rewrite <- (Z.mod_small b (2 ^ k)) by lia.
      rewrite Z.mod_pow2_bits_high by lia. apply andb_false_r. }
  pose proof (Z.add_lor_land (Z.shiftl a k) b) as H.
  rewrite Z.shiftl_mul_pow2 in * by lia. lia.
Qed.

Lemma from_to_be_bytes_2 v : is_u16 v → from_be_bytes (to_be_bytes 2 v) = v.
Proof.
  intros Hv. unfold is_u16 in Hv. cbn -[Z.shiftl Z.shiftr Z.land Z.lor].
  rewrite !land_255, Z.shiftr_0_r, Z.shiftr_div_pow2 by lia.
  rewrite !lor_shiftl_add by (Z.to_euclidean_division_equations; lia).
  Z.to_euclidean_division_equations; lia.
Qed.

Lemma from_to_be_bytes_4 v : is_u32 v → from_be_bytes (to_be_bytes 4 v) = v.
Proof.
  intros Hv. unfold is_u32 in Hv. cbn -[Z.shiftl Z.shiftr Z.land Z.lor].
  rewrite !land_255, Z.shiftr_0_r, !Z.shiftr_div_pow2 by lia.
  rewrite !lor_shiftl_add by (Z.to_euclidean_division_equations; lia).
  Z.to_euclidean_division_equations; lia.
Qed.

Lemma from_be_bytes_bound2 a b : is_u8 a → is_u8 b → is_u16 (from_be_bytes [a; b]).
Proof.
  unfold is_u8, is_u16. intros Ha Hb. cbn -[Z.shiftl Z.lor].
  rewrite !lor_shiftl_add by lia. lia.
Qed.

Lemma from_be_bytes_bound4 a b c d :
  is_u8 a → is_u8 b → is_u8 c → is_u8 d → is_u32 (from_be_bytes [a; b; c; d]).
Proof.
  unfold is_u8, is_u32. intros Ha Hb Hc Hd. cbn -[Z.shiftl Z.lor].
  rewrite !lor_shiftl_add by lia. lia.
Qed.

Arguments to_be_bytes : simpl never.
Arguments from_be_bytes : simpl never.

(** * Slices

    [&l[n..m]] panics unless [n <= m <= l.len()]. *)
Definition slice_range {E A} (n m : nat) (l : list A) : outcome E (list A) :=
  if decide (n ≤ m ∧ m ≤ length l) then Ok (take (m - n) (drop n l)) else Panic.

Lemma slice_range_ok {E A} n m (l : list A) :
  n ≤ m → m ≤ length l → slice_range (E := E) n m l = Ok (take (m - n) (drop n l)).
Proof. intros. unfold slice_range. rewrite decide_True by lia. reflexivity. Qed.

Lemma Forall_take_drop {A} (P : A → Prop) n m (l : list A) :
  Forall P l → Forall P (take n (drop m l)).
Proof. intros H. apply Forall_take, Forall_drop, H. Qed.
#[export] Hint Resolve Forall_take Forall_drop Forall_take_drop : outcome.

(** [skip_while] of the standard library's iterators. *)
Fixpoint skip_while {A} (p : A → bool) (l : list A) : list A :=
  match l with
  | [] => []
  | x :: l' => if p x then skip_while p l' else l
  end.

Lemma skip_while_suffix {A} (p : A → bool) l : skip_while p l `suffix_of` l.
Proof.
  induction l as [|x l IH]; cbn; [apply suffix_nil|].
  destruct (p x); [apply suffix_cons_r, IH|reflexivity].
Qed.
