(* ===== verification/Error.v ===== *)
(** Model of [src/error.rs]: the error kinds, the MQTT reason codes and their
    one-byte representation.  The description, cause and location an [Error]
    carries are diagnostics that no other code of the model branches on; they are in
    [ErrorChain]. *)

From S2P Require Import Prelude.

(** src/error.rs:286-306 [ErrorKind] *)
Module ErrorKind.
Inductive ErrorKind :=
| NoError | InvalidInput
| MalformedPacket | ProtocolError | UnsupportedProtocolVersion
| InsufficientBytes | SessionTakenOver
| Disconnected | SlowClient
| IPCFail | RxClosed | TxFinish
| TryFromIntError | IOError.
End ErrorKind.
Abbreviation ErrorKind := ErrorKind.ErrorKind.

(** src/error.rs:339-383 [ReasonCode] *)
Module ReasonCode.
Inductive ReasonCode :=
| Success | QoS1 | QoS2
| DiconnectWillMessage | NoMatchingSubscribers | NoSubscriptionExisted
| ContinueAuthentication | ReAuthenticate | UnspecifiedError
| MalformedPacket | ProtocolError | ImplementationError
| UnsupportedProtocolVersion | InvalidClientID | BadLogin
| NotAuthorized | ServerNotAvailable | ServerBusy
| Banned | ServerShutdown | BadAuthenticationMethod
| KeepAliveTimeout | SessionTakenOver | InvalidTopicFilter
| TopicNameInvalid | PacketIdInuse | PacketIdNotFound
| ExceededReceiveMaximum | TopicAliasInvalid | PacketTooLarge
| ExceedMessageRate | QuotaExceeded | AdminAction
| PayloadFormatInvalid | RetainNotSupported | QoSNotSupported
| UseAnotherServer | ServerMoved | UnsupportedSharedSubscription
| ExceedConnectionRate | ExceedMaximumConnectTime | SubscriptionIdNotSupported
| WildcardSubscriptionsNotSupported.
End ReasonCode.
Abbreviation ReasonCode := ReasonCode.ReasonCode.

#[export] Instance ErrorKind_eq_dec : EqDecision ErrorKind.
Proof. solve_decision. Defined.
#[export] Instance ReasonCode_eq_dec : EqDecision ReasonCode.
Proof. solve_decision. Defined.

(** The discriminants of the [repr(u8)] enum, what [code as u8] gives. *)
(** src/error.rs:338-383 [ReasonCode as u8] *)
Definition ReasonCode_as_u8 (code : ReasonCode) : u8 :=
  match code with
  | ReasonCode.Success => 0x00
  | ReasonCode.QoS1 => 0x01
  | ReasonCode.QoS2 => 0x02
  | ReasonCode.DiconnectWillMessage => 0x04
  | ReasonCode.NoMatchingSubscribers => 0x10
  | ReasonCode.NoSubscriptionExisted => 0x11
  | ReasonCode.ContinueAuthentication => 0x18
  | ReasonCode.ReAuthenticate => 0x19
  | ReasonCode.UnspecifiedError => 0x80
  | ReasonCode.MalformedPacket => 0x81
  | ReasonCode.ProtocolError => 0x82
  | ReasonCode.ImplementationError => 0x83
  | ReasonCode.UnsupportedProtocolVersion => 0x84
  | ReasonCode.InvalidClientID => 0x85
  | ReasonCode.BadLogin => 0x86
  | ReasonCode.NotAuthorized => 0x87
  | ReasonCode.ServerNotAvailable => 0x88
  | ReasonCode.ServerBusy => 0x89
  | ReasonCode.Banned => 0x8a
  | ReasonCode.ServerShutdown => 0x8b
  | ReasonCode.BadAuthenticationMethod => 0x8c
  | ReasonCode.KeepAliveTimeout => 0x8d
  | ReasonCode.SessionTakenOver => 0x8e
  | ReasonCode.InvalidTopicFilter => 0x8f
  | ReasonCode.TopicNameInvalid => 0x90
  | ReasonCode.PacketIdInuse => 0x91
  | ReasonCode.PacketIdNotFound => 0x92
  | ReasonCode.ExceededReceiveMaximum => 0x93
  | ReasonCode.TopicAliasInvalid => 0x94
  | ReasonCode.PacketTooLarge => 0x95
  | ReasonCode.ExceedMessageRate => 0x96
  | ReasonCode.QuotaExceeded => 0x97
  | ReasonCode.AdminAction => 0x98
  | ReasonCode.PayloadFormatInvalid => 0x99
  | ReasonCode.RetainNotSupported => 0x9a
  | ReasonCode.QoSNotSupported => 0x9b
  | ReasonCode.UseAnotherServer => 0x9c
  | ReasonCode.ServerMoved => 0x9d
  | ReasonCode.UnsupportedSharedSubscription => 0x9e
  | ReasonCode.ExceedConnectionRate => 0x9f
  | ReasonCode.ExceedMaximumConnectTime => 0xa0
  | ReasonCode.SubscriptionIdNotSupported => 0xa1
  | ReasonCode.WildcardSubscriptionsNotSupported => 0xa2
  end%Z.

(** src/error.rs:160-175 [Error] *)
Record Error := mkError {
  kind : ErrorKind;
  code : option ReasonCode;
}.

(** The result type of the crate, [std::result::Result<T, Error>], extended
    with the outcomes of a panic and of a loop out of fuel. *)
Abbreviation Result A := (outcome Error A).

(** src/error.rs:73-86 [err!(kind, code: code, ..)] *)
Definition err {A} (k : ErrorKind) (c : ReasonCode) : Result A :=
  Err (mkError k (Some c)).

(** src/error.rs:101-113 [err!(kind, desc: ..)] *)
Definition err_desc {A} (k : ErrorKind) : Result A := Err (mkError k None).

(** A result of another library, its error replaced by one of kind [k]. *)
(** src/error.rs:46-61 [err!(kind, try: ..)] *)
Definition err_try {E A} (k : ErrorKind) (res : outcome E A) : Result A :=
  match res with
  | Ok val => Ok val
  | Err _ => err_desc k
  | Panic => Panic
  | Diverge => Diverge
  end.

(** What is sent to the application before is left out. *)
(** src/error.rs:146-159 [allow_panic!] *)
Definition allow_panic {A} (r : Result A) : Result A :=
  match r with Err _ => Panic | _ => r end.

(** src/error.rs:268-270 [Error::code] *)
Definition Error_code (e : Error) : ReasonCode :=
  default ReasonCode.UnspecifiedError (code e).

(** [usize::try_into::<u32>], through [From<TryFromIntError>]. *)
(** src/error.rs:228-233 [From<TryFromIntError> for Error] *)
Definition u32_try_from (n : nat) : Result u32 :=
  if (Z.of_nat n <? 4294967296)%Z then Ok (Z.of_nat n)
  else err_desc ErrorKind.TryFromIntError.

(** src/error.rs:391-442 [ReasonCode::try_from] *)
Definition ReasonCode_try_from (val : u8) : Result ReasonCode :=
  match val with
  | 0x00 => Ok ReasonCode.Success
  | 0x01 => Ok ReasonCode.QoS1
  | 0x02 => Ok ReasonCode.QoS2
  | 0x04 => Ok ReasonCode.DiconnectWillMessage
  | 0x10 => Ok ReasonCode.NoMatchingSubscribers
  | 0x11 => Ok ReasonCode.NoSubscriptionExisted
  | 0x18 => Ok ReasonCode.ContinueAuthentication
  | 0x19 => Ok ReasonCode.ReAuthenticate
  | 0x80 => Ok ReasonCode.UnspecifiedError
  | 0x81 => Ok ReasonCode.MalformedPacket
  | 0x82 => Ok ReasonCode.ProtocolError
  | 0x83 => Ok ReasonCode.ImplementationError
  | 0x84 => Ok ReasonCode.UnsupportedProtocolVersion
  | 0x85 => Ok ReasonCode.InvalidClientID
  | 0x86 => Ok ReasonCode.BadLogin
  | 0x87 => Ok ReasonCode.NotAuthorized
  | 0x88 => Ok ReasonCode.ServerNotAvailable
  | 0x89 => Ok ReasonCode.ServerBusy
  | 0x8a => Ok ReasonCode.Banned
  | 0x8b => Ok ReasonCode.ServerShutdown
  | 0x8c => Ok ReasonCode.BadAuthenticationMethod
  | 0x8d => Ok ReasonCode.KeepAliveTimeout
  | 0x8e => Ok ReasonCode.SessionTakenOver
  | 0x8f => Ok ReasonCode.InvalidTopicFilter
  | 0x90 => Ok ReasonCode.TopicNameInvalid
  | 0x91 => Ok ReasonCode.PacketIdInuse
  | 0x92 => Ok ReasonCode.PacketIdNotFound
  | 0x93 => Ok ReasonCode.ExceededReceiveMaximum
  | 0x94 => Ok ReasonCode.TopicAliasInvalid
  | 0x95 => Ok ReasonCode.PacketTooLarge
  | 0x96 => Ok ReasonCode.ExceedMessageRate
  | 0x97 => Ok ReasonCode.QuotaExceeded
  | 0x98 => Ok ReasonCode.AdminAction
  | 0x99 => Ok ReasonCode.PayloadFormatInvalid
  | 0x9a => Ok ReasonCode.RetainNotSupported
  | 0x9b => Ok ReasonCode.QoSNotSupported
  | 0x9c => Ok ReasonCode.UseAnotherServer
  | 0x9d => Ok ReasonCode.ServerMoved
  | 0x9e => Ok ReasonCode.UnsupportedSharedSubscription
  | 0x9f => Ok ReasonCode.ExceedConnectionRate
  | 0xa0 => Ok ReasonCode.ExceedMaximumConnectTime
  | 0xa1 => Ok ReasonCode.SubscriptionIdNotSupported
  | 0xa2 => Ok ReasonCode.WildcardSubscriptionsNotSupported
  | _ => err ErrorKind.MalformedPacket ReasonCode.MalformedPacket
  end%Z.

(** * Lemmas *)

Lemma ReasonCode_u8_roundtrip c : ReasonCode_try_from (ReasonCode_as_u8 c) = Ok c.
Proof. destruct c; reflexivity. Qed.

Lemma ReasonCode_as_u8_byte c : is_u8 (ReasonCode_as_u8 c).
Proof. destruct c; unfold is_u8; cbn; lia. Qed.

Lemma u32_try_from_Ok n z :
  u32_try_from n = Ok z → z = Z.of_nat n ∧ is_u32 z.
Proof.
  unfold u32_try_from, is_u32.
  destruct (Z.ltb_spec (Z.of_nat n) 4294967296); intros [= <-]. lia.
Qed.

Lemma u32_try_from_settled n : settled (u32_try_from n).
Proof. unfold u32_try_from. destruct (_ <? _)%Z; exact I. Qed.

#[export] Hint Resolve ReasonCode_as_u8_byte u32_try_from_settled : outcome.
