(* ===== verification/ErrorChain.v ===== *)
(** Model of the diagnostics of [src/error.rs]: an [Error] with its description,
    location and chain of causes, the [err!] macro that builds them, the textual
    forms, and the queries [kinds] and [has] that walk the chain.  [Error.v] keeps of
    an error what the rest of the program branches on; the lemmas at the end show
    that each form of the macro yields that part. *)

From stdpp Require Import strings.
From S2P Require Import Prelude Error.

(** src/error.rs:308-337 [ErrorKind as Display] *)
Definition ErrorKind_to_string (k : ErrorKind) : string :=
  match k with
  | ErrorKind.NoError => "NoError"
  | ErrorKind.InvalidInput => "InvalidInput"
  | ErrorKind.ProtocolError => "ProtocolError"
  | ErrorKind.UnsupportedProtocolVersion => "UnsupportedProtocolVersion"
  | ErrorKind.InsufficientBytes => "InsufficientBytes"
  | ErrorKind.MalformedPacket => "MalformedPacket"
  | ErrorKind.SessionTakenOver => "SessionTakenOver"
  | ErrorKind.Disconnected => "Disconnected"
  | ErrorKind.SlowClient => "SlowClient"
  | ErrorKind.IPCFail => "IPCFail"
  | ErrorKind.RxClosed => "RxClosed"
  | ErrorKind.TxFinish => "TxFinish"
  | ErrorKind.TryFromIntError => "TryFromIntError"
  | ErrorKind.IOError => "IOError"
  end.

(** src/error.rs:443-496 [ReasonCode as Display] *)
Definition ReasonCode_to_string (c : ReasonCode) : string :=
  match c with
  | ReasonCode.Success => "Success"
  | ReasonCode.QoS1 => "Granted QoS 1"
  | ReasonCode.QoS2 => "Granted QoS 2"
  | ReasonCode.DiconnectWillMessage => "Disconnect with Will Message"
  | ReasonCode.NoMatchingSubscribers => "No matching subscribers"
  | ReasonCode.NoSubscriptionExisted => "No subscription existed"
  | ReasonCode.ContinueAuthentication => "Continue authentication"
  | ReasonCode.ReAuthenticate => "Re-authenticate"
  | ReasonCode.UnspecifiedError => "Unspecified error"
  | ReasonCode.MalformedPacket => "Malformed Packet"
  | ReasonCode.ProtocolError => "Protocol Error"
  | ReasonCode.ImplementationError => "Implementation specific error"
  | ReasonCode.UnsupportedProtocolVersion => "Unsupported Protocol Version"
  | ReasonCode.InvalidClientID => "Client Identifier not valid"
  | ReasonCode.BadLogin => "Bad User Name or Password"
  | ReasonCode.NotAuthorized => "Not authorized"
  | ReasonCode.ServerNotAvailable => "Server unavailable"
  | ReasonCode.ServerBusy => "Server busy"
  | ReasonCode.Banned => "Banned"
  | ReasonCode.ServerShutdown => "Server shutting down"
  | ReasonCode.BadAuthenticationMethod => "Bad authentication method"
  | ReasonCode.KeepAliveTimeout => "Keep Alive timeout"
  | ReasonCode.SessionTakenOver => "Session taken over"
  | ReasonCode.InvalidTopicFilter => "Topic Filter invalid"
  | ReasonCode.TopicNameInvalid => "Topic Name invalid"
  | ReasonCode.PacketIdInuse => "Packet Identifier in use"
  | ReasonCode.PacketIdNotFound => "Packet Identifier not found"
  | ReasonCode.ExceededReceiveMaximum => "Receive Maximum exceeded"
  | ReasonCode.TopicAliasInvalid => "Topic Alias invalid"
  | ReasonCode.PacketTooLarge => "Packet too large"
  | ReasonCode.ExceedMessageRate => "Message rate too high"
  | ReasonCode.QuotaExceeded => "Quota exceeded"
  | ReasonCode.AdminAction => "Administrative action"
  | ReasonCode.PayloadFormatInvalid => "Payload format invalid"
  | ReasonCode.RetainNotSupported => "Retain not supported"
  | ReasonCode.QoSNotSupported => "QoS not supported"
  | ReasonCode.UseAnotherServer => "Use another server"
  | ReasonCode.ServerMoved => "Server moved"
  | ReasonCode.UnsupportedSharedSubscription => "Shared Subscriptions not supported"
  | ReasonCode.ExceedConnectionRate => "Connection rate exceeded"
  | ReasonCode.ExceedMaximumConnectTime => "Maximum connect time"
  | ReasonCode.SubscriptionIdNotSupported => "Subscription Identifiers not supported"
  | ReasonCode.WildcardSubscriptionsNotSupported => "Wildcard Subscriptions not supported"
  end.

(** src/error.rs:385-389 [ReasonCode::default] *)
Definition ReasonCode_default : ReasonCode := ReasonCode.Success.

Section ErrorChain.

(** The errors of other libraries. *)
Context {F : Type}.

(** src/error.rs:160-175 [Error] *)
Inductive ErrorValue :=
  mkErrorValue (kind : ErrorKind) (description : string) (code : option ReasonCode)
    (cause : option DynError) (loc : string)
with DynError :=
| OwnError (err : ErrorValue)
| ForeignError (err : F).

(** src/error.rs:246-249 [Error::kind] *)
Definition ErrorValue_kind (self : ErrorValue) : ErrorKind :=
  let 'mkErrorValue kind _ _ _ _ := self in kind.

(** src/error.rs:209-211 [Error::description] *)
Definition ErrorValue_description (self : ErrorValue) : string :=
  let 'mkErrorValue _ description _ _ _ := self in description.

(** src/error.rs:202-218 [Error::source] *)
Definition ErrorValue_source (self : ErrorValue) : option DynError :=
  let 'mkErrorValue _ _ _ cause _ := self in cause.

(** src/error.rs:267-270 [Error::code] *)
Definition ErrorValue_code (self : ErrorValue) : ReasonCode :=
  let 'mkErrorValue _ _ code _ _ := self in default ReasonCode.UnspecifiedError code.

(** src/error.rs:177-189 [Error::default] *)
Definition ErrorValue_default : ErrorValue :=
  mkErrorValue ErrorKind.InvalidInput "" None None "".

(** src/error.rs:191-195 [Error as Display] *)
Definition ErrorValue_to_string (self : ErrorValue) : string :=
  let 'mkErrorValue kind description _ _ _ := self in
  ErrorKind_to_string kind +:+ ":" +:+ description.

(** src/error.rs:197-201 [Error as Debug] *)
Definition ErrorValue_debug (self : ErrorValue) : string :=
  let 'mkErrorValue kind description _ _ loc := self in
  "<" +:+ ErrorKind_to_string kind +:+ "," +:+ description +:+ "," +:+ loc +:+ ">".

Section text.
(** The text [to_string] gives for an error of another library. *)
Context (to_string : F → string).

Definition DynError_to_string (err : DynError) : string :=
  match err with
  | OwnError err => ErrorValue_to_string err
  | ForeignError err => to_string err
  end.

(** ** The macro [err!], with the location it is used at *)

(** src/error.rs:27-40 [err!(kind, code: code, cause: cause, ..)] *)
Definition err_code_cause {A} (loc : string) (v : ErrorKind) (code : ReasonCode)
    (cause : DynError) (description : string) : outcome ErrorValue A :=
  Err (mkErrorValue v description (Some code) (Some cause) loc).

(** src/error.rs:41-57 [err!(kind, try: res, ..)] *)
Definition err_try_msg {A} (loc : string) (v : ErrorKind) (res : outcome DynError A)
    (description : string) : outcome ErrorValue A :=
  match res with
  | Ok val => Ok val
  | Err err => Err (mkErrorValue v description None (Some err) loc)
  | Panic => Panic
  | Diverge => Diverge
  end.

(** src/error.rs:58-72 [err!(kind, try: res)] *)
Definition err_try_res {A} (loc : string) (v : ErrorKind) (res : outcome DynError A)
    : outcome ErrorValue A :=
  match res with
  | Ok val => Ok val
  | Err err => Err (mkErrorValue v (DynError_to_string err) None (Some err) loc)
  | Panic => Panic
  | Diverge => Diverge
  end.

(** src/error.rs:73-86 [err!(kind, code: code, ..)] *)
Definition err_code {A} (loc : string) (v : ErrorKind) (code : ReasonCode)
    (description : string) : outcome ErrorValue A :=
  Err (mkErrorValue v description (Some code) None loc).

(** src/error.rs:87-100 [err!(kind, cause: cause, ..)] *)
Definition err_cause {A} (loc : string) (v : ErrorKind) (cause : DynError)
    (description : string) : outcome ErrorValue A :=
  Err (mkErrorValue v description None (Some cause) loc).

(** src/error.rs:101-113 [err!(kind, desc: ..)] *)
Definition err_message {A} (loc : string) (v : ErrorKind) (description : string)
    : outcome ErrorValue A :=
  Err (mkErrorValue v description None None loc).

(** [err!] logs what it built: the two lines of text, with the cause's own text.  *)
(** src/error.rs:117-142 [log_error!] *)
Definition log_error (e : ErrorValue) : list string :=
  (ErrorKind_to_string (ErrorValue_kind e) +:+ ": " +:+ ErrorValue_description e)
    :: match ErrorValue_source e with
       | Some cause => ["cause:" +:+ DynError_to_string cause]
       | None => []
       end.

(** src/error.rs:228-233 [From<TryFromIntError> for Error] *)
Definition ErrorValue_from_int (loc : string) (val : F) : outcome ErrorValue ErrorValue :=
  match err_cause (A:=unit) loc ErrorKind.TryFromIntError (ForeignError val) (to_string val) with
  | Err e => Ok e
  | _ => Panic
  end.

(** src/error.rs:235-240 [From<io::Error> for Error] *)
Definition ErrorValue_from_io (loc : string) (val : F) : outcome ErrorValue ErrorValue :=
  match err_cause (A:=unit) loc ErrorKind.IOError (ForeignError val) (to_string val) with
  | Err e => Ok e
  | _ => Panic
  end.

End text.

(** ** The chain of causes *)

(** [downcast_ref::<Error>().unwrap()] panics on the error of another library. *)
(** src/error.rs:255-265 [Error::kinds] *)
Fixpoint kinds (self : ErrorValue) : outcome ErrorValue (list ErrorKind) :=
  let 'mkErrorValue kind _ _ cause _ := self in
  match cause with
  | Some (OwnError err) => ks ← kinds err; Ok (kind :: ks)
  | Some (ForeignError _) => Panic
  | None => Ok [kind]
  end.

(** src/error.rs:272-281 [Error::has] *)
Fixpoint has (self : ErrorValue) (k : ErrorKind) : outcome ErrorValue bool :=
  let 'mkErrorValue kind _ _ cause _ := self in
  if decide (kind = k) then Ok true
  else match cause with
       | Some (OwnError err) => has err k
       | Some (ForeignError _) => Panic
       | None => Ok false
       end.

(** * The chain, as a list *)

(** The kinds of an error and of the errors that led to it, up to the first that is
    not of this program; and whether there is one. *)
Fixpoint chain (self : ErrorValue) : list ErrorKind * bool :=
  let 'mkErrorValue kind _ _ cause _ := self in
  match cause with
  | Some (OwnError err) => let '(ks, foreign) := chain err in (kind :: ks, foreign)
  | Some (ForeignError _) => ([kind], true)
  | None => ([kind], false)
  end.

(** What the rest of the program sees of an error. *)
Definition abs_error (e : ErrorValue) : Error :=
  let 'mkErrorValue kind _ code _ _ := e in mkError kind code.

Definition abs_result {A} (r : outcome ErrorValue A) : Result A :=
  match r with
  | Ok a => Ok a
  | Err e => Err (abs_error e)
  | Panic => Panic
  | Diverge => Diverge
  end.

(** Induction along the causes. *)
Lemma ErrorValue_chain_ind (P : ErrorValue → Prop) :
  (∀ k d c l, P (mkErrorValue k d c None l)) →
  (∀ k d c f l, P (mkErrorValue k d c (Some (ForeignError f)) l)) →
  (∀ k d c e l, P e → P (mkErrorValue k d c (Some (OwnError e)) l)) →
  ∀ e, P e.
Proof.
  intros Hn Hf Ho. fix IH 1. intros [k d c [[e|f]|] l]; [apply Ho, IH|apply Hf|apply Hn].
Qed.

(** Every form of the macro gives the error that [Error.v] has in its place. *)
Lemma err_code_abs {A} loc k c d :
  abs_result (A:=A) (err_code loc k c d) = err k c.
Proof. reflexivity. Qed.

Lemma err_code_cause_abs {A} loc k c e d :
  abs_result (A:=A) (err_code_cause loc k c e d) = err k c.
Proof. reflexivity. Qed.

Lemma err_cause_abs {A} loc k e d :
  abs_result (A:=A) (err_cause loc k e d) = err_desc k.
Proof. reflexivity. Qed.

Lemma err_message_abs {A} loc k d :
  abs_result (A:=A) (err_message loc k d) = err_desc k.
Proof. reflexivity. Qed.

Lemma err_try_msg_abs {A} loc k (r : outcome DynError A) d :
  abs_result (err_try_msg loc k r d) = err_try k r.
Proof. by destruct r. Qed.

Lemma err_try_res_abs {A} to_string loc k (r : outcome DynError A) :
  abs_result (err_try_res to_string loc k r) = err_try k r.
Proof. by destruct r. Qed.

Lemma ErrorValue_code_abs e : ErrorValue_code e = Error_code (abs_error e).
Proof. by destruct e. Qed.

(** [kinds] gives the whole chain, or panics at its end. *)
Lemma kinds_chain e :
  kinds e = if (chain e).2 then Panic else Ok (chain e).1.
Proof.
  induction e as [| |k d c e l IH] using ErrorValue_chain_ind; [done..|].
  cbn. rewrite IH. destruct (chain e) as [ks []]; done.
Qed.

(** Looking a kind up in an error finds it exactly when one of the errors of the
    chain of causes has it, up to the first cause that another library made: there
    [has] panics, as [kinds] does, instead of answering. *)
Theorem has_searches_the_chain e k :
  has e k = (if decide (k ∈ (chain e).1) then Ok true
             else if (chain e).2 then Panic else Ok false) ∧
  (∀ ks, kinds e = Ok ks → has e k = Ok (bool_decide (k ∈ ks))).
Proof.
  assert (has e k = (if decide (k ∈ (chain e).1) then Ok true
             else if (chain e).2 then Panic else Ok false)) as Hhas.
  { induction e as [| |k' d c e l IH] using ErrorValue_chain_ind; cbn;
      [repeat case_decide; set_solver..|].
    rewrite IH. destruct (chain e) as [ks f]; cbn. repeat case_decide; set_solver. }
  split; [done|]. intros ks. rewrite kinds_chain, Hhas.
  destruct (chain e) as [l []]; cbn; [done|]. intros [= ->]. rewrite bool_decide_decide. by destruct (decide _).
Qed.

(** An error made from one of the standard library, which is how every error of a
    socket, a channel or a conversion enters the program, makes [kinds] panic. *)
Lemma library_errors_have_no_kinds to_string loc f e :
  ErrorValue_from_io to_string loc f = Ok e ∨ ErrorValue_from_int to_string loc f = Ok e →
  kinds e = Panic ∧ ∀ k, k ≠ ErrorValue_kind e → has e k = Panic.
Proof. intros [[= <-]|[= <-]]; split; try done; intros k Hk; cbn in *; by case_decide. Qed.

End ErrorChain.

(** The textual forms tell the values apart. *)
#[export] Instance ErrorKind_to_string_inj : Inj (=) (=) ErrorKind_to_string.
Proof. intros k1 k2. by destruct k1, k2. Qed.

#[export] Instance ReasonCode_to_string_inj : Inj (=) (=) ReasonCode_to_string.
Proof.
  intros c1 c2 E. destruct c1, c2; first [reflexivity | discriminate E].
Qed.

(** A malformed packet that ends the connection it came from. *)
Definition ex_chain : ErrorValue (F:=string) :=
  mkErrorValue ErrorKind.Disconnected "MQTTRead::Header" None
    (Some (OwnError (mkErrorValue ErrorKind.MalformedPacket "reason-code 9"
                       (Some ReasonCode.MalformedPacket) None "error.rs:438")))
    "packet.rs:109".

Lemma has_searches_the_chain_witness :
  kinds ex_chain = Ok [ErrorKind.Disconnected; ErrorKind.MalformedPacket] ∧
  has ex_chain ErrorKind.MalformedPacket = Ok true ∧
  has ex_chain ErrorKind.IOError = Ok false.
Proof.
  split; [reflexivity|]. split.
  - exact (proj2 (has_searches_the_chain ex_chain ErrorKind.MalformedPacket)
      [ErrorKind.Disconnected; ErrorKind.MalformedPacket] eq_refl).
  - exact (proj2 (has_searches_the_chain ex_chain ErrorKind.IOError)
      [ErrorKind.Disconnected; ErrorKind.MalformedPacket] eq_refl).
Defined.
