(* ===== verification/Util.v ===== *)
(** Model of [src/util.rs], and of the pieces of the standard library's string
    type the crate uses: UTF-8 validation ([str::from_utf8]), the characters of a
    string ([str::chars]) and splitting at a slash ([str::split('/')]).

    A Rust [String] is its bytes; [valid_str] is the invariant its type carries.
    A [char] is its code point. *)

From S2P Require Import Prelude Error.

(** * UTF-8 *)

Section utf8.
Local Open Scope Z_scope.

Definition in_range (lo hi b : Z) : bool := (lo <=? b) && (b <=? hi).
Definition is_cont (b : Z) : bool := in_range 0x80 0xBF b.

(** Second byte of a three-byte sequence: no overlong form, no surrogate. *)
Definition second_of_3 (b0 b1 : Z) : bool :=
  if b0 =? 0xE0 then in_range 0xA0 0xBF b1
  else if b0 =? 0xED then in_range 0x80 0x9F b1
  else in_range 0xE1 0xEF b0 && is_cont b1.

(** Second byte of a four-byte sequence: no overlong form, at most U+10FFFF. *)
Definition second_of_4 (b0 b1 : Z) : bool :=
  if b0 =? 0xF0 then in_range 0x90 0xBF b1
  else if b0 =? 0xF4 then in_range 0x80 0x8F b1
  else in_range 0xF1 0xF3 b0 && is_cont b1.

(** The characters of a byte sequence, [None] when it is not UTF-8 (the table
    of well-formed sequences of the Unicode standard, which is what
    [str::from_utf8] accepts). *)
Fixpoint utf8_chars (s : bytes) : option (list Z) :=
  match s with
  | [] => Some []
  | b0 :: r0 =>
      if in_range 0 0x7F b0 then cons b0 <$> utf8_chars r0
      else match r0 with
      | [] => None
      | b1 :: r1 =>
          if in_range 0xC2 0xDF b0 && is_cont b1 then
            cons ((b0 - 0xC0) * 64 + (b1 - 0x80)) <$> utf8_chars r1
          else match r1 with
          | [] => None
          | b2 :: r2 =>
              if second_of_3 b0 b1 && is_cont b2 then
                cons (((b0 - 0xE0) * 64 + (b1 - 0x80)) * 64 + (b2 - 0x80))
                  <$> utf8_chars r2
              else match r2 with
              | [] => None
              | b3 :: r3 =>
                  if second_of_4 b0 b1 && is_cont b2 && is_cont b3 then
                    cons ((((b0 - 0xF0) * 64 + (b1 - 0x80)) * 64 + (b2 - 0x80)) * 64
                            + (b3 - 0x80)) <$> utf8_chars r3
                  else None
              end
          end
      end
  end.
End utf8.

(** [std::str::from_utf8(s).is_ok()] *)
Definition from_utf8 (s : bytes) : bool :=
  match utf8_chars s with Some _ => true | None => false end.

(** [s.chars()], for a string. *)
Definition chars (s : bytes) : list Z := default [] (utf8_chars s).

(** The invariant of Rust's [String]. *)
Definition valid_str (s : bytes) : Prop := is_bytes s ∧ from_utf8 s = true.

(** [s.split('/')]: at least one level, levels may be empty.  The separator is
    ASCII, so splitting the bytes splits the characters. *)
Fixpoint split_slash (s : bytes) : list bytes :=
  match s with
  | [] => [[]]
  | b :: r =>
      if (b =? 0x2F)%Z then [] :: split_slash r
      else match split_slash r with
           | l :: ls => (b :: l) :: ls
           | [] => [[b]]
           end
  end.

Lemma split_slash_not_nil s : split_slash s ≠ [].
Proof.
  destruct s as [|b r]; cbn; [discriminate|].
  destruct (b =? 0x2F)%Z; [discriminate|]. destruct (split_slash r); discriminate.
Qed.

(** Joining the levels back: the levels determine the string. *)
Fixpoint join_slash (ls : list bytes) : bytes :=
  match ls with
  | [] => []
  | [l] => l
  | l :: ls' => l ++ 0x2F%Z :: join_slash ls'
  end.

Lemma join_split_slash s : join_slash (split_slash s) = s.
Proof.
  induction s as [|b r IH]; cbn; [reflexivity|].
  pose proof (split_slash_not_nil r) as Hne.
  destruct (Z.eqb_spec b 0x2F) as [->|Hb].
  - cbn. destruct (split_slash r) as [|l ls]; [done|]. by rewrite IH.
  - destruct (split_slash r) as [|l [|l' ls]]; [done| |]; cbn in *; congruence.
Qed.

Lemma split_slash_inj s1 s2 : split_slash s1 = split_slash s2 → s1 = s2.
Proof.
  intros H. rewrite <- (join_split_slash s1), <- (join_split_slash s2). by rewrite H.
Qed.

(** The order of strings ([str::cmp]): bytes, lexicographically. *)
Fixpoint str_cmp (s1 s2 : bytes) : comparison :=
  match s1, s2 with
  | [], [] => Eq
  | [], _ :: _ => Lt
  | _ :: _, [] => Gt
  | b1 :: s1, b2 :: s2 =>
      match (b1 ?= b2)%Z with Eq => str_cmp s1 s2 | c => c end
  end.

(** * util.rs *)

(** src/util.rs:4-8 [is_valid_utf8_code_point] *)
Definition is_valid_utf8_code_point (c : Z) : bool :=
  (let invalid :=
    ((0xD800 <=? c) && (c <=? 0xDFFF)) || (c <=? 0x1F) || ((0x7F <=? c) && (c <=? 0x9F)) in
  negb invalid)%Z.

(** src/util.rs:10-16 [advance] *)
Definition advance (stream : bytes) (n : nat) : Result bytes :=
  if decide (n ≤ length stream) then Ok (drop n stream)
  else err ErrorKind.InsufficientBytes ReasonCode.MalformedPacket.

(** src/util.rs:18-26 [is_power_of_2] *)
Definition is_power_of_2 (n : u32) : bool :=
  negb (n =? 0)%Z && (Z.land n (n - 1) =? 0)%Z.

(** src/util.rs:28-34 [ceil_power_of_2] *)
Definition ceil_power_of_2 (n : u32) : u64 :=
  match skip_while (λ i, (Z.shiftl 1 (Z.of_nat i) <? n)%Z) (seq 0 32) with
  | i :: _ => Z.shiftl 1 (Z.of_nat i)
  | [] => Z.shiftl 1 32
  end.

(** * Lemmas *)

Lemma str_cmp_eq s1 s2 : str_cmp s1 s2 = Eq ↔ s1 = s2.
Proof.
  revert s2. induction s1 as [|b1 s1 IH]; intros [|b2 s2]; cbn; try done.
  destruct (Z.compare_spec b1 b2) as [->|H|H].
  - rewrite IH. split; [by intros ->|congruence].
  - split; [done|]. intros E. injection E as E _. lia.
  - split; [done|]. intros E. injection E as E _. lia.
Qed.

Lemma str_cmp_antisym s1 s2 : str_cmp s2 s1 = CompOpp (str_cmp s1 s2).
Proof.
  revert s2. induction s1 as [|b1 s1 IH]; intros [|b2 s2]; cbn; try done.
  rewrite (Z.compare_antisym b1 b2). by destruct (b1 ?= b2)%Z; cbn.
Qed.

Lemma str_cmp_trans s1 s2 s3 : str_cmp s1 s2 = Lt → str_cmp s2 s3 = Lt → str_cmp s1 s3 = Lt.
Proof.
  revert s2 s3. induction s1 as [|b1 s1 IH]; intros [|b2 s2] [|b3 s3]; cbn; try done.
  destruct (Z.compare_spec b1 b2) as [->|H|H]; [|destruct (Z.compare_spec b2 b3) as [->|H'|H']|];
    try done.
  - destruct (Z.compare_spec b2 b3); [apply IH|done..].
  - intros _ _. by rewrite (proj2 (Z.compare_lt_iff _ _)).
  - intros _ _. by rewrite (proj2 (Z.compare_lt_iff _ _)) by lia.
Qed.

Lemma advance_Ok s n s' : advance s n = Ok s' ↔ n ≤ length s ∧ s' = drop n s.
Proof. unfold advance. case_decide; split; [intros [= <-]|intros [_ ->]|..]; try done. lia. Qed.

Lemma advance_app s1 s2 n : n = length s1 → advance (s1 ++ s2) n = Ok s2.
Proof.
  intros ->. apply advance_Ok. rewrite length_app. split; [lia|].
  by rewrite drop_app_length.
Qed.

Lemma advance_settled s n : settled (advance s n).
Proof. unfold advance. case_decide; exact I. Qed.
#[export] Hint Resolve advance_settled : outcome.

Lemma advance_0 s : advance s 0 = Ok s.
Proof. reflexivity. Qed.

(** ASCII bytes are characters, so that a separator or a wildcard is found in the
    bytes exactly where it is found in the characters. *)
Lemma utf8_chars_ascii n : ∀ s cs b,
  length s ≤ n → utf8_chars s = Some cs → b ∈ s → (b < 128)%Z → b ∈ cs.
Proof.
  induction n as [|n IH]; intros [|b0 s] cs b Hl H Hb Hlt;
    [by apply elem_of_nil in Hb|cbn in Hl; lia|by apply elem_of_nil in Hb|].
  assert (∀ r c, length r < length (b0 :: s) → cons c <$> utf8_chars r = Some cs → b ∈ r → b ∈ cs)
    as Hrec.
  { intros r c Hr H' Hbr. destruct (utf8_chars r) as [cs'|] eqn:E; [|done].
    injection H' as <-. right. apply (IH r); [cbn in *; lia|done..]. }
  cbn [utf8_chars] in H. unfold second_of_3, second_of_4, is_cont, in_range in H.
  repeat match type of H with
  | (if ?c then _ else _) = _ =>
      let E := fresh "E" in destruct c eqn:E; [|]
  | (match ?r with [] => None | _ :: _ => _ end) = _ => destruct r; [discriminate H|]
  | None = _ => discriminate H
  end; repeat setoid_rewrite elem_of_cons in Hb.
  - destruct Hb as [->|Hb]; [|by apply (Hrec s b0); [cbn; lia|..]].
    destruct (utf8_chars s); [|done]. injection H as <-. by left.
  - eapply (Hrec s); [cbn; lia|exact H|]. clear Hrec IH H.
    destruct Hb as [->|[->|Hb]]; [lia..|done].
  - eapply (Hrec s); [cbn; lia|exact H|]. clear Hrec IH H.
    destruct (Z.eqb_spec b0 224), (Z.eqb_spec b0 237); destruct Hb as [->|[->|[->|Hb]]]; done || lia.
  - eapply (Hrec s); [cbn; lia|exact H|]. clear Hrec IH H.
    destruct (Z.eqb_spec b0 240), (Z.eqb_spec b0 244); destruct Hb as [->|[->|[->|[->|Hb]]]]; done || lia.
Qed.

Lemma elem_of_chars s b : valid_str s → b ∈ s → (b < 128)%Z → b ∈ chars s.
Proof.
  intros [_ Hs] Hb Hlt. unfold from_utf8, chars in *. destruct (utf8_chars s) eqn:E; [|done].
  by apply (utf8_chars_ascii (length s) s).
Qed.

Lemma elem_of_split_slash l s b : l ∈ split_slash s → b ∈ l → b ∈ s.
Proof.
  revert l. induction s as [|c s IH]; intros l; cbn.
  { intros ->%list_elem_of_singleton. by intros ?%elem_of_nil. }
  destruct (c =? 0x2F)%Z.
  - intros [->|Hl]%elem_of_cons Hb; [by apply elem_of_nil in Hb|]. right. eauto.
  - destruct (split_slash s) as [|l' ls] eqn:E; [by destruct (split_slash_not_nil s)|].
    intros [->|Hl]%elem_of_cons Hb.
    + apply elem_of_cons in Hb as [->|Hb]; [by left|]. right. apply (IH l'); [by left|done].
    + right. apply (IH l); [by right|done].
Qed.

(** * Powers of two *)

Section power_of_2.
Local Open Scope Z_scope.

Lemma power_of_2_spec n : 0 ≤ n → is_power_of_2 n = true → n = 2 ^ Z.log2 n.
Proof.
  unfold is_power_of_2. intros H0 [Hn Hl]%andb_true_iff.
  apply negb_true_iff, Z.eqb_neq in Hn. apply Z.eqb_eq in Hl.
  destruct (Z.log2_spec n ltac:(lia)) as [Hle Hlt].
  destruct (Z.eq_dec n (2 ^ Z.log2 n)) as [|Hne]; [done|exfalso].
  assert (Z.log2 (n - 1) = Z.log2 n) as El by (apply Z.log2_unique; [apply Z.log2_nonneg|lia]).
  pose proof (Z.pow_pos_nonneg 2 (Z.log2 n) ltac:(lia) (Z.log2_nonneg n)) as Hpos.
  assert (Z.testbit (Z.land n (n - 1)) (Z.log2 n) = true) as Hb.
  { rewrite Z.land_spec, Z.bit_log2 by lia. rewrite <- El. by rewrite Z.bit_log2 by lia. }
  by rewrite Hl, Z.bits_0 in Hb.
Qed.

(** The mask that is one less than a power of two is the remainder. *)
Lemma land_power_of_2 n x : 0 ≤ n → is_power_of_2 n = true → Z.land x (n - 1) = x mod n.
Proof.
  intros H0 Hp. pose proof (power_of_2_spec n H0 Hp) as E.
  rewrite E at 1. replace (2 ^ Z.log2 n - 1) with (Z.ones (Z.log2 n)) by (rewrite Z.ones_equiv; lia).
  by rewrite Z.land_ones, <- E by apply Z.log2_nonneg.
Qed.
End power_of_2.

(** * Sorting by a key *)

Section sort_by_key.
Local Open Scope Z_scope.
Context {A : Type} (key : A → Z).

(** [slice::sort_by_key], which is stable. *)
Fixpoint insert_by_key (x : A) (l : list A) : list A :=
  match l with
  | [] => [x]
  | y :: l' => if key x <=? key y then x :: l else y :: insert_by_key x l'
  end.
Definition sort_by_key (l : list A) : list A := foldr insert_by_key [] l.

Definition key_le (x y : A) : Prop := key x ≤ key y.

Lemma insert_by_key_permutation x l : insert_by_key x l ≡ₚ x :: l.
Proof.
  induction l as [|y l IH]; cbn; [done|]. destruct (_ <=? _); [done|]. rewrite IH. constructor.
Qed.

Lemma sort_by_key_permutation l : sort_by_key l ≡ₚ l.
Proof.
  induction l as [|x l IH]; cbn; [done|]. fold (sort_by_key l).
  by rewrite insert_by_key_permutation, IH.
Qed.

Lemma insert_by_key_sorted x l :
  StronglySorted key_le l → StronglySorted key_le (insert_by_key x l).
Proof.
  induction 1 as [|y l Hs IH Hf]; cbn; [by repeat constructor|].
  destruct (Z.leb_spec (key x) (key y)).
  - constructor; [by constructor|]. constructor; [done|]. eapply Forall_impl; [exact Hf|].
    unfold key_le. lia.
  - constructor; [done|]. rewrite insert_by_key_permutation. constructor; [unfold key_le; lia|done].
Qed.

Lemma sort_by_key_sorted l : StronglySorted key_le (sort_by_key l).
Proof. induction l as [|x l IH]; cbn; [constructor|]. by apply insert_by_key_sorted. Qed.
End sort_by_key.
