(* ===== verification/Crc.v ===== *)
(** Model of [src/crc.rs]: the table-driven checksum of a key, and the shard it selects.  No
    module of the crate includes the file.

    The checksum is compared with its definition, one bit at a time, by the polynomial
    that the table is made from. *)

From S2P Require Import Prelude Error Util.
Local Open Scope Z_scope.

(** src/crc.rs:9-47 [CRC32TAB] *)
Definition CRC32TAB : list u32 :=
  [
    0x00000000; 0x77073096; 0xee0e612c; 0x990951ba; 0x076dc419; 0x706af48f; 0xe963a535; 0x9e6495a3;
    0x0edb8832; 0x79dcb8a4; 0xe0d5e91e; 0x97d2d988; 0x09b64c2b; 0x7eb17cbd; 0xe7b82d07; 0x90bf1d91;
    0x1db71064; 0x6ab020f2; 0xf3b97148; 0x84be41de; 0x1adad47d; 0x6ddde4eb; 0xf4d4b551; 0x83d385c7;
    0x136c9856; 0x646ba8c0; 0xfd62f97a; 0x8a65c9ec; 0x14015c4f; 0x63066cd9; 0xfa0f3d63; 0x8d080df5;
    0x3b6e20c8; 0x4c69105e; 0xd56041e4; 0xa2677172; 0x3c03e4d1; 0x4b04d447; 0xd20d85fd; 0xa50ab56b;
    0x35b5a8fa; 0x42b2986c; 0xdbbbc9d6; 0xacbcf940; 0x32d86ce3; 0x45df5c75; 0xdcd60dcf; 0xabd13d59;
    0x26d930ac; 0x51de003a; 0xc8d75180; 0xbfd06116; 0x21b4f4b5; 0x56b3c423; 0xcfba9599; 0xb8bda50f;
    0x2802b89e; 0x5f058808; 0xc60cd9b2; 0xb10be924; 0x2f6f7c87; 0x58684c11; 0xc1611dab; 0xb6662d3d;
    0x76dc4190; 0x01db7106; 0x98d220bc; 0xefd5102a; 0x71b18589; 0x06b6b51f; 0x9fbfe4a5; 0xe8b8d433;
    0x7807c9a2; 0x0f00f934; 0x9609a88e; 0xe10e9818; 0x7f6a0dbb; 0x086d3d2d; 0x91646c97; 0xe6635c01;
    0x6b6b51f4; 0x1c6c6162; 0x856530d8; 0xf262004e; 0x6c0695ed; 0x1b01a57b; 0x8208f4c1; 0xf50fc457;
    0x65b0d9c6; 0x12b7e950; 0x8bbeb8ea; 0xfcb9887c; 0x62dd1ddf; 0x15da2d49; 0x8cd37cf3; 0xfbd44c65;
    0x4db26158; 0x3ab551ce; 0xa3bc0074; 0xd4bb30e2; 0x4adfa541; 0x3dd895d7; 0xa4d1c46d; 0xd3d6f4fb;
    0x4369e96a; 0x346ed9fc; 0xad678846; 0xda60b8d0; 0x44042d73; 0x33031de5; 0xaa0a4c5f; 0xdd0d7cc9;
    0x5005713c; 0x270241aa; 0xbe0b1010; 0xc90c2086; 0x5768b525; 0x206f85b3; 0xb966d409; 0xce61e49f;
    0x5edef90e; 0x29d9c998; 0xb0d09822; 0xc7d7a8b4; 0x59b33d17; 0x2eb40d81; 0xb7bd5c3b; 0xc0ba6cad;
    0xedb88320; 0x9abfb3b6; 0x03b6e20c; 0x74b1d29a; 0xead54739; 0x9dd277af; 0x04db2615; 0x73dc1683;
    0xe3630b12; 0x94643b84; 0x0d6d6a3e; 0x7a6a5aa8; 0xe40ecf0b; 0x9309ff9d; 0x0a00ae27; 0x7d079eb1;
    0xf00f9344; 0x8708a3d2; 0x1e01f268; 0x6906c2fe; 0xf762575d; 0x806567cb; 0x196c3671; 0x6e6b06e7;
    0xfed41b76; 0x89d32be0; 0x10da7a5a; 0x67dd4acc; 0xf9b9df6f; 0x8ebeeff9; 0x17b7be43; 0x60b08ed5;
    0xd6d6a3e8; 0xa1d1937e; 0x38d8c2c4; 0x4fdff252; 0xd1bb67f1; 0xa6bc5767; 0x3fb506dd; 0x48b2364b;
    0xd80d2bda; 0xaf0a1b4c; 0x36034af6; 0x41047a60; 0xdf60efc3; 0xa867df55; 0x316e8eef; 0x4669be79;
    0xcb61b38c; 0xbc66831a; 0x256fd2a0; 0x5268e236; 0xcc0c7795; 0xbb0b4703; 0x220216b9; 0x5505262f;
    0xc5ba3bbe; 0xb2bd0b28; 0x2bb45a92; 0x5cb36a04; 0xc2d7ffa7; 0xb5d0cf31; 0x2cd99e8b; 0x5bdeae1d;
    0x9b64c2b0; 0xec63f226; 0x756aa39c; 0x026d930a; 0x9c0906a9; 0xeb0e363f; 0x72076785; 0x05005713;
    0x95bf4a82; 0xe2b87a14; 0x7bb12bae; 0x0cb61b38; 0x92d28e9b; 0xe5d5be0d; 0x7cdcefb7; 0x0bdbdf21;
    0x86d3d2d4; 0xf1d4e242; 0x68ddb3f8; 0x1fda836e; 0x81be16cd; 0xf6b9265b; 0x6fb077e1; 0x18b74777;
    0x88085ae6; 0xff0f6a70; 0x66063bca; 0x11010b5c; 0x8f659eff; 0xf862ae69; 0x616bffd3; 0x166ccf45;
    0xa00ae278; 0xd70dd2ee; 0x4e048354; 0x3903b3c2; 0xa7672661; 0xd06016f7; 0x4969474d; 0x3e6e77db;
    0xaed16a4a; 0xd9d65adc; 0x40df0b66; 0x37d83bf0; 0xa9bcae53; 0xdebb9ec5; 0x47b2cf7f; 0x30b5ffe9;
    0xbdbdf21c; 0xcabac28a; 0x53b39330; 0x24b4a3a6; 0xbad03605; 0xcdd70693; 0x54de5729; 0x23d967bf;
    0xb3667a2e; 0xc4614ab8; 0x5d681b02; 0x2a6f2b94; 0xb40bbe37; 0xc30c8ea1; 0x5a05df1b; 0x2d02ef8d
  ].

(** src/crc.rs:57-58 [client_to_shard] *)
Definition crc_step (crc : u32) (k : u8) : Result u32 :=
  let off := Z.land (Z.lxor crc k) 0xff in
  match CRC32TAB !! Z.to_nat off with
  | Some word => Ok (Z.lxor (Z.shiftr crc 8) word)
  | None => Panic
  end.

(** src/crc.rs:73-76 [crc32] *)
Fixpoint crc_loop (crc : u32) (key : bytes) : Result u32 :=
  match key with
  | [] => Ok crc
  | k :: key => crc ← crc_step crc k; crc_loop crc key
  end.

(** src/crc.rs:69-79 [crc32] *)
Definition crc32 (key : bytes) : Result u32 := crc_loop 0xffffffff key.

(** Testing for a power of two panics on what does not fit in 32 bits. *)
(** src/crc.rs:49-67 [client_to_shard] *)
Definition client_to_shard (key : bytes) (nshards : nat) : Result u32 :=
  n ← unwrap (u32_try_from nshards);
  if is_power_of_2 n then
    crc ← crc_loop 0xffffffff key;
    nshards ← u32_try_from nshards;
    Ok (Z.land (Z.shiftr (Z.lxor crc 0xffffffff) 16) (nshards - 1))
  else err_desc ErrorKind.InvalidInput.

(** * The checksum, one bit at a time *)

(** The polynomial of CRC-32, its lowest coefficient in the highest bit. *)
Definition CRC_POLY : u32 := 0xedb88320.

Definition crc_bit (crc : u32) : u32 :=
  Z.lxor (Z.shiftr crc 1) (if Z.odd crc then CRC_POLY else 0).

Definition crc_byte (crc : u32) (k : u8) : u32 := Nat.iter 8 crc_bit (Z.lxor crc k).

Definition crc_spec (key : bytes) : u32 := foldl crc_byte 0xffffffff key.

(** ** The table *)

Lemma crc_bit_lxor x y : crc_bit (Z.lxor x y) = Z.lxor (crc_bit x) (crc_bit y).
Proof.
  unfold crc_bit. rewrite Z.shiftr_lxor.
  assert (Z.odd (Z.lxor x y) = xorb (Z.odd x) (Z.odd y)) as -> by (rewrite <- !Z.bit0_odd; apply Z.lxor_spec).
  apply Z.bits_inj'. intros i Hi. rewrite !Z.lxor_spec.
  destruct (Z.odd x), (Z.odd y); cbn [xorb]; rewrite ?Z.bits_0;
    destruct (Z.testbit (Z.shiftr x 1) i), (Z.testbit (Z.shiftr y 1) i), (Z.testbit CRC_POLY i); done.
Qed.

Lemma crc_bits_lxor n x y :
  Nat.iter n crc_bit (Z.lxor x y) = Z.lxor (Nat.iter n crc_bit x) (Nat.iter n crc_bit y).
Proof. induction n as [|n IH]; [done|]. rewrite ?Nat.iter_succ. by rewrite IH, crc_bit_lxor. Qed.

(** Bits that are not shifted out do not meet the polynomial. *)
Lemma crc_bits_high n x : Nat.iter n crc_bit (Z.shiftl x (Z.of_nat n)) = x.
Proof.
  revert x. induction n as [|n IH]; intros x; [by rewrite Z.shiftl_0_r|].
  rewrite ?Nat.iter_succ. replace (Z.of_nat (S n)) with (1 + Z.of_nat n) by lia.
  rewrite <- Z.shiftl_shiftl by lia. rewrite IH. unfold crc_bit.
  rewrite Z.shiftr_shiftl_l by lia. change (1 - 1) with 0.
  rewrite (Z.shiftl_mul_pow2 x 1), Z.mul_comm by lia. change (2 ^ 1) with 2. rewrite Z.odd_mul.
  change (Z.odd 2 && Z.odd x) with false. cbv iota. by rewrite Z.lxor_0_r, Z.shiftl_0_r.
Qed.

Lemma table_is_bitwise i : 0 ≤ i < 256 → CRC32TAB !! Z.to_nat i = Some (Nat.iter 8 crc_bit i).
Proof.
  intros Hi.
  assert (Forall (λ n, CRC32TAB !! n = Some (Nat.iter 8 crc_bit (Z.of_nat n))) (seq 0 256)) as H
    by (apply (bool_decide_unpack _); vm_compute; exact I).
  rewrite Forall_forall in H. specialize (H (Z.to_nat i)). rewrite Z2Nat.id in H by lia.
  apply H, elem_of_seq. lia.
Qed.

Lemma crc_step_is_bitwise crc k : is_u8 k → crc_step crc k = Ok (crc_byte crc k).
Proof.
  intros Hk. unfold crc_step, crc_byte. set (x := Z.lxor crc k).
  change 0xff with (Z.ones 8). rewrite Z.land_ones by lia.
  rewrite table_is_bitwise by (apply Z.mod_pos_bound; lia). f_equal.
  assert (Z.shiftr crc 8 = Z.shiftr x 8) as ->.
  { unfold x. rewrite Z.shiftr_lxor. rewrite (Z.shiftr_div_pow2 k) by lia.
    unfold is_u8 in Hk. by rewrite (Z.div_small k), Z.lxor_0_r by lia. }
  assert (x = Z.lxor (Z.shiftl (Z.shiftr x 8) (Z.of_nat 8)) (x mod 2 ^ 8)) as Hx.
  { change (Z.of_nat 8) with 8. rewrite Z.shiftr_div_pow2, Z.shiftl_mul_pow2 by lia.
    apply Z.bits_inj'. intros i Hi. rewrite Z.lxor_spec. destruct (Z.lt_ge_cases i 8).
    - by rewrite Z.mul_pow2_bits_low, Z.mod_pow2_bits_low by lia.
    - rewrite Z.mul_pow2_bits, Z.div_pow2_bits, Z.mod_pow2_bits_high by lia.
      rewrite xorb_false_r. f_equal. lia. }
  rewrite Hx at 3. by rewrite crc_bits_lxor, crc_bits_high.
Qed.

Lemma crc_loop_is_bitwise key : ∀ crc, is_bytes key → crc_loop crc key = Ok (foldl crc_byte crc key).
Proof.
  induction key as [|k key IH]; intros crc Hk; [done|]. apply Forall_cons in Hk as [Hk Hkey].
  cbn [crc_loop foldl]. rewrite crc_step_is_bitwise, bind_Ok_1 by done. by apply IH.
Qed.

Lemma lxor_u32 x y : is_u32 x → is_u32 y → is_u32 (Z.lxor x y).
Proof.
  unfold is_u32. intros Hx Hy. assert (0 ≤ Z.lxor x y) as H0 by (apply Z.lxor_nonneg; lia).
  split; [done|]. destruct (Z.eq_dec (Z.lxor x y) 0) as [->|Hne]; [lia|].
  change 4294967296 with (2 ^ 32). apply Z.log2_lt_pow2; [lia|].
  pose proof (Z.log2_lxor x y ltac:(lia) ltac:(lia)) as Hl.
  assert (∀ z, 0 ≤ z < 2 ^ 32 → Z.log2 z < 32) as Hb.
  { intros z Hz. destruct (Z.eq_dec z 0) as [->|]; [done|]. apply Z.log2_lt_pow2; lia. }
  pose proof (Hb x Hx). pose proof (Hb y Hy). lia.
Qed.

Lemma crc_bits_u32 n x : is_u32 x → is_u32 (Nat.iter n crc_bit x).
Proof.
  intros Hx. induction n as [|n IH]; [done|]. rewrite Nat.iter_succ.
  revert IH. generalize (Nat.iter n crc_bit x). intros y Hy. unfold crc_bit. apply lxor_u32.
  - rewrite Z.shiftr_div_pow2 by lia. unfold is_u32 in *. change (2 ^ 1) with 2.
    split; [apply Z.div_pos; lia|apply Z.div_lt_upper_bound; lia].
  - destruct (Z.odd _); unfold is_u32, CRC_POLY; lia.
Qed.

Lemma crc_spec_u32 key : is_bytes key → is_u32 (crc_spec key).
Proof.
  unfold crc_spec. assert (is_u32 0xffffffff) as H0 by (unfold is_u32; lia). revert H0.
  generalize 0xffffffff. induction key as [|k key IH]; intros crc Hc Hk; [done|].
  apply Forall_cons in Hk as [Hk Hkey]. apply IH; [|done].
  apply crc_bits_u32, lxor_u32; [done|unfold is_u8, is_u32 in *; lia].
Qed.

Lemma complement_u32 x : is_u32 x → Z.lxor x 0xffffffff = 0xffffffff - x.
Proof.
  unfold is_u32. intros Hx. change 0xffffffff with (Z.ones 32).
  assert (∀ n, 32 ≤ n → Z.testbit x n = false) as Hhigh.
  { intros n Hn. rewrite <- (Z.mod_small x (2 ^ 32)) by lia. by rewrite Z.mod_pow2_bits_high by lia. }
  rewrite Z.sub_nocarry_ldiff.
  - apply Z.bits_inj'. intros n Hn. rewrite Z.lxor_spec, Z.ldiff_spec, Z.testbit_ones_nonneg by lia.
    destruct (Z.ltb_spec n 32); [by destruct (Z.testbit x n)|by rewrite Hhigh].
  - apply Z.bits_inj'. intros n Hn. rewrite Z.ldiff_spec, Z.testbit_ones_nonneg, Z.bits_0 by lia.
    destruct (Z.ltb_spec n 32); [apply andb_false_r|by rewrite Hhigh].
Qed.

(** The table-driven checksum is the one of the polynomial, taken a bit at a time, for
    every key; and the shard of a client is the upper half of its complement, modulo the
    number of shards.  So it is one of the shards, and one of the first 65536 of them,
    however many there are; a number that is not a power of two is refused, and one that
    does not fit in 32 bits panics. *)
Theorem crc_is_bitwise key nshards :
  is_bytes key →
  crc32 key = Ok (crc_spec key) ∧
  client_to_shard key nshards
  = (if Z.of_nat nshards <? 2 ^ 32 then
       if is_power_of_2 (Z.of_nat nshards)
       then Ok ((0xffffffff - crc_spec key) / 2 ^ 16 mod Z.of_nat nshards)
       else Err (mkError ErrorKind.InvalidInput None)
     else Panic) ∧
  ∀ id, client_to_shard key nshards = Ok id → 0 ≤ id < Z.min (Z.of_nat nshards) 65536.
Proof.
  intros Hk. pose proof (crc_spec_u32 key Hk) as Hu.
  assert (client_to_shard key nshards
  = (if Z.of_nat nshards <? 2 ^ 32 then
       if is_power_of_2 (Z.of_nat nshards)
       then Ok ((0xffffffff - crc_spec key) / 2 ^ 16 mod Z.of_nat nshards)
       else Err (mkError ErrorKind.InvalidInput None)
     else Panic)) as E.
  { unfold client_to_shard, u32_try_from. change 4294967296 with (2 ^ 32).
    destruct (_ <? _); [|done]. cbn [unwrap]. rewrite bind_Ok_1.
    destruct (is_power_of_2 _) eqn:Hp; [|done]. rewrite crc_loop_is_bitwise, !bind_Ok_1 by done.
    fold (crc_spec key). by rewrite complement_u32, Z.shiftr_div_pow2, land_power_of_2 by (done || lia). }
  split; [by apply crc_loop_is_bitwise|]. split; [done|]. intros id. rewrite E.
  destruct (_ <? _); [|done]. destruct (is_power_of_2 _) eqn:Hp; [|done]. intros [= <-].
  assert (Z.of_nat nshards ≠ 0) as Hn by by intros Hz; rewrite Hz in Hp.
  assert (0 ≤ (0xffffffff - crc_spec key) / 2 ^ 16 < 65536) as Hd.
  { unfold is_u32 in Hu. split; [apply Z.div_pos; lia|apply Z.div_lt_upper_bound; lia]. }
  pose proof (Z.mod_pos_bound ((0xffffffff - crc_spec key) / 2 ^ 16) (Z.of_nat nshards) ltac:(lia)) as Hm.
  pose proof (Z.mod_le ((0xffffffff - crc_spec key) / 2 ^ 16) (Z.of_nat nshards) ltac:(lia) ltac:(lia)). lia.
Qed.

(** The digits from one to nine: the complement of their checksum is the one that is
    published for CRC-32, and [crc32] does not take it. *)
Example crc32_of_digits :
  crc32 [0x31; 0x32; 0x33; 0x34; 0x35; 0x36; 0x37; 0x38; 0x39] = Ok (0xffffffff - 0xcbf43926).
Proof. by vm_compute. Qed.

Lemma crc_is_bitwise_witness :
  client_to_shard [0x31; 0x32; 0x33; 0x34; 0x35; 0x36; 0x37; 0x38; 0x39] 16 = Ok (0xcbf4 mod 16).
Proof.
  refine (eq_trans (proj1 (proj2 (crc_is_bitwise _ 16 _))) _).
  - repeat (constructor; [unfold is_u8; lia|]). constructor.
  - vm_compute. reflexivity.
Defined.
