(* ===== verification/Codec.v ===== *)
(** The [Packetize] trait of [src/lib.rs] and [Blob] of [src/types.rs]: what a
    codec is, the field macro of [src/v5/mod.rs], and the laws one codec promises
    to the packets built from it.

    The trait is a record of the two operations; the laws are type classes over a
    codec and the values its Rust type admits, so that the packet theorems are
    proved against the interface and every field codec discharges it. *)

From S2P Require Import Prelude Error Util.

(** src/types.rs:60-63 [Blob] *)
Inductive Blob :=
| Small (data : bytes) (size : nat)
| Large (data : bytes).

(** src/types.rs:65-72 [Blob::as_ref] *)
Definition as_ref (b : Blob) : bytes :=
  match b with
  | Small data size => take size data
  | Large data => data
  end.

(** A zeroed [[u8; 32]] whose first bytes have been overwritten by [bs]. *)
Definition small (bs : bytes) : Blob :=
  Small (bs ++ replicate (32 - length bs) 0%Z) (length bs).

(** src/lib.rs:84-91 [Packetize] *)
Record Packetize (A : Type) := mkPacketize {
  decode : bytes → Result (A * nat);
  encode : A → Result Blob;
}.
Arguments mkPacketize {A} _ _.
Arguments decode {A} _ _.
Arguments encode {A} _ _.

(** [dec_field!(type, stream, n)], the unconditional form. *)
(** src/v5/mod.rs:27-30 [dec_field!] *)
Definition dec_field {A} (c : Packetize A) (stream : bytes) (n : nat) : Result (A * nat) :=
  s ← advance stream n;
  '(val, m) ← decode c s;
  Ok (val, n + m).

(** [dec_field!(type, stream, n; pred)], the conditional form. *)
(** src/v5/mod.rs:19-26 [dec_field!] *)
Definition dec_field_if {A} (c : Packetize A) (stream : bytes) (n : nat) (pred : bool)
    : Result (option A * nat) :=
  if pred then
    s ← advance stream n;
    '(val, m) ← decode c s;
    Ok (Some val, n + m)
  else Ok (None, n).

(** * Laws *)

(** What encodes decodes back, whatever follows it in the stream, and the
    decoder consumes exactly the encoded bytes. *)
Class RoundTrip {A} (c : Packetize A) (valid : A → Prop) : Prop := {
  encode_settled : ∀ v, valid v → settled (encode c v);
  encode_bytes : ∀ v b, valid v → encode c v = Ok b → is_bytes (as_ref b);
  round_trip : ∀ v b rest, valid v → encode c v = Ok b →
    decode c (as_ref b ++ rest) = Ok (v, length (as_ref b));
}.

(** On every byte stream the decoder returns, without a panic; when it accepts,
    it consumed at least a byte and no more than the stream holds, and the value
    satisfies the invariant of its type. *)
Class TotalDecoder {A} (c : Packetize A) (valid : A → Prop) : Prop := {
  decode_settled : ∀ s, is_bytes s → settled (decode c s);
  decode_bound : ∀ s v n, is_bytes s → decode c s = Ok (v, n) →
    0 < n ≤ length s ∧ valid v;
}.

(** * Lemmas *)

Lemma as_ref_small bs : as_ref (small bs) = bs.
Proof. apply take_app_length. Qed.

Lemma as_ref_Large bs : as_ref (Large bs) = bs.
Proof. reflexivity. Qed.
Arguments as_ref : simpl never.
Arguments small : simpl never.
#[export] Hint Rewrite as_ref_small as_ref_Large : codec.

Section dec_field.
Context {A} (c : Packetize A) (valid : A → Prop).

Lemma dec_field_app `{!RoundTrip c valid} v b pre rest n :
  valid v → encode c v = Ok b → n = length pre →
  dec_field c (pre ++ as_ref b ++ rest) n = Ok (v, n + length (as_ref b)).
Proof.
  intros Hv He ->. unfold dec_field. rewrite advance_app by reflexivity.
  cbn. by rewrite (round_trip v b rest Hv He).
Qed.

Lemma dec_field_if_true (stream : bytes) n :
  dec_field_if c stream n true = '(v, m) ← dec_field c stream n; Ok (Some v, m).
Proof.
  unfold dec_field_if, dec_field. destruct (advance stream n); [|done..]. cbn.
  destruct (decode c a) as [[??]| | |]; reflexivity.
Qed.

Lemma dec_field_settled `{!TotalDecoder c valid} s n :
  is_bytes s → settled (dec_field c s n).
Proof.
  intros Hs. unfold dec_field. apply settled_bind; [apply advance_settled|].
  intros s' [_ ->]%advance_Ok. apply settled_bind.
  - apply decode_settled. by apply Forall_drop.
  - intros [??] _. exact I.
Qed.

Lemma dec_field_bound `{!TotalDecoder c valid} s n v m :
  is_bytes s → dec_field c s n = Ok (v, m) → n < m ≤ length s ∧ valid v.
Proof.
  intros Hs H. unfold dec_field in H. outcome_inv H.
  apply advance_Ok in Hr as [Hn ->].
  apply decode_bound in Hr0 as [? ?]; [|by apply Forall_drop].
  rewrite length_drop in *. split; [lia|done].
Qed.

Lemma dec_field_if_settled `{!TotalDecoder c valid} s n p :
  is_bytes s → settled (dec_field_if c s n p).
Proof.
  intros Hs. destruct p; [|exact I]. rewrite dec_field_if_true.
  apply settled_bind; [by apply dec_field_settled|]. by intros [??] _.
Qed.

Lemma dec_field_if_bound `{!TotalDecoder c valid} s n p v m :
  is_bytes s → n ≤ length s → dec_field_if c s n p = Ok (v, m) →
  n ≤ m ≤ length s ∧ (∀ x, v = Some x → valid x) ∧ (is_Some v ↔ p = true).
Proof.
  intros Hs Hn. destruct p.
  - rewrite dec_field_if_true. intros H. outcome_inv H.
    apply dec_field_bound in Hr as [? ?]; [|done].
    split; [lia|]. split; [by intros ? [= <-]|]. split; eauto.
  - intros [= <- <-]. split; [lia|]. split; [done|].
    split; [by intros [??]|done].
Qed.
End dec_field.

(** * Cursors

    [at_pos s n tl]: reading [s] from offset [n] on finds [tl].  A decoder that
    threads an offset moves a cursor over the fields an encoder wrote. *)
Definition at_pos (s : bytes) (n : nat) (tl : bytes) : Prop :=
  n ≤ length s ∧ drop n s = tl.

Lemma at_pos_0 s : at_pos s 0 s.
Proof. split; [lia|done]. Qed.

Lemma at_pos_next s n d tl : at_pos s n (d ++ tl) → at_pos s (n + length d) tl.
Proof.
  intros [Hn Hd]. pose proof (length_drop s n) as Hl. rewrite Hd, length_app in Hl.
  split; [lia|]. rewrite <- drop_drop, Hd. apply drop_app_length.
Qed.

Lemma at_pos_end d rest n : at_pos (d ++ rest) n rest → n = length d.
Proof.
  intros [Hn Hd]. apply (f_equal length) in Hd. rewrite length_drop, length_app in *. lia.
Qed.

Lemma at_pos_slice {E} s n d tl :
  at_pos s n (d ++ tl) → slice_range (E := E) n (n + length d) s = Ok d.
Proof.
  intros [Hn Hd]. pose proof (length_drop s n) as Hl. rewrite Hd, length_app in Hl.
  rewrite slice_range_ok by lia. rewrite Hd.
  replace (n + length d - n) with (length d) by lia. by rewrite take_app_length.
Qed.

Lemma at_pos_length s n tl : at_pos s n tl → length s = n + length tl.
Proof. intros [Hn <-]. rewrite length_drop. lia. Qed.

Section cursor.
Context {A} (c : Packetize A) (valid : A → Prop) `{!RoundTrip c valid}.

Lemma dec_field_at s n v b tl :
  at_pos s n (as_ref b ++ tl) → valid v → encode c v = Ok b →
  dec_field c s n = Ok (v, n + length (as_ref b)).
Proof.
  intros [Hn Hd] Hv He. unfold dec_field.
  rewrite (proj2 (advance_Ok s n _) (conj Hn (eq_sym Hd))). cbn.
  by rewrite (round_trip v b tl Hv He).
Qed.

(** A conditional field: present exactly when the predicate holds. *)
Lemma dec_field_if_at s n o p d tl :
  at_pos s n (d ++ tl) → (is_Some o ↔ p = true) → (∀ v, o = Some v → valid v) →
  match o with
  | Some v => ∃ b, encode c v = Ok b ∧ d = as_ref b
  | None => d = []
  end →
  dec_field_if c s n p = Ok (o, n + length d).
Proof.
  intros Ha Hp Hv He. destruct o as [v|].
  - destruct He as (b & He & ->). rewrite (proj1 Hp) by eauto.
    rewrite dec_field_if_true, (dec_field_at _ _ _ _ _ Ha (Hv v eq_refl) He). done.
  - subst d. destruct p; [by destruct (proj2 Hp eq_refl)|].
    cbn. by rewrite Nat.add_0_r.
Qed.
End cursor.
