(* ===== verification/Types.v ===== *)
(** Model of [src/types.rs]: the field types of the MQTT framing and their
    codecs.  Strings are their UTF-8 bytes ([Util.valid_str]); [TopicName] and
    [TopicFilter] are strings with a validation of their own. *)

From S2P Require Import Prelude Error Util Codec.
Local Open Scope Z_scope.

(** src/types.rs:24-27 [MqttProtocol] *)
Module MqttProtocol.
Inductive MqttProtocol := V4 | V5.
End MqttProtocol.
Abbreviation MqttProtocol := MqttProtocol.MqttProtocol.
#[export] Instance MqttProtocol_eq_dec : EqDecision MqttProtocol.
Proof. solve_decision. Defined.

(** src/types.rs:29-44 [MqttProtocol::try_from] *)
Definition MqttProtocol_try_from (val : u8) : Result MqttProtocol :=
  match val with
  | 4 => Ok MqttProtocol.V4
  | 5 => Ok MqttProtocol.V5
  | _ => err ErrorKind.MalformedPacket ReasonCode.UnsupportedProtocolVersion
  end.

(** src/types.rs:46-53 [u8::from(MqttProtocol)] *)
Definition u8_from_MqttProtocol (val : MqttProtocol) : u8 :=
  match val with MqttProtocol.V4 => 4 | MqttProtocol.V5 => 5 end.

(** * Integers *)

(** src/types.rs:474-481 [u8::decode] *)
Definition u8_decode (stream : bytes) : Result (u8 * nat) :=
  match stream with
  | b :: _ => Ok (b, 1%nat)
  | _ => err ErrorKind.InsufficientBytes ReasonCode.MalformedPacket
  end.

(** src/types.rs:483-491 [u8::encode] *)
Definition u8_encode (v : u8) : Result Blob := Ok (small [v]).

(** src/types.rs:495-502 [u16::decode] *)
Definition u16_decode (stream : bytes) : Result (u16 * nat) :=
  if decide (2 ≤ length stream)%nat then Ok (from_be_bytes (take 2 stream), 2%nat)
  else err ErrorKind.InsufficientBytes ReasonCode.MalformedPacket.

(** src/types.rs:504-512 [u16::encode] *)
Definition u16_encode (v : u16) : Result Blob := Ok (small (to_be_bytes 2 v)).

(** src/types.rs:516-523 [u32::decode] *)
Definition u32_decode (stream : bytes) : Result (u32 * nat) :=
  if decide (4 ≤ length stream)%nat then Ok (from_be_bytes (take 4 stream), 4%nat)
  else err ErrorKind.InsufficientBytes ReasonCode.MalformedPacket.

(** src/types.rs:525-533 [u32::encode] *)
Definition u32_encode (v : u32) : Result Blob := Ok (small (to_be_bytes 4 v)).

(** src/types.rs:473-492 [Packetize for u8] *)
Definition u8_codec : Packetize u8 := mkPacketize u8_decode u8_encode.
(** src/types.rs:494-513 [Packetize for u16] *)
Definition u16_codec : Packetize u16 := mkPacketize u16_decode u16_encode.
(** src/types.rs:515-534 [Packetize for u32] *)
Definition u32_codec : Packetize u32 := mkPacketize u32_decode u32_encode.

(** * Variable-length integers *)

(** src/types.rs:348-348 [VarU32] *)
Record VarU32 := mkVarU32 { varu32 : u32 }.
#[export] Instance VarU32_eq_dec : EqDecision VarU32.
Proof. solve_decision. Defined.

(** src/types.rs:417-419 [VarU32::MAX] *)
Definition VarU32_MAX : u32 := 268435455.

(** The [for i in 0..n] loop over the first bytes; [out] cannot exceed 28 bits,
    so the [u32] addition never overflows ([varu32_loop_bound]). *)
(** src/types.rs:373-382 [VarU32::decode] *)
Fixpoint varu32_loop (bs : bytes) (i : nat) (out : u32) : Result (VarU32 * nat) :=
  match bs with
  | [] => err ErrorKind.MalformedPacket ReasonCode.MalformedPacket
  | b :: bs' =>
      let val := Z.shiftl (Z.land b 0x7f) (7 * Z.of_nat i) in
      let out := out + val in
      if b <? 0x80 then Ok (mkVarU32 out, S i) else varu32_loop bs' (S i) out
  end.

(** src/types.rs:367-383 [VarU32::decode] *)
Definition VarU32_decode (stream : bytes) : Result (VarU32 * nat) :=
  let n := Nat.min (length stream) 4 in
  varu32_loop (take n stream) 0 0.

(** src/types.rs:385-414 [VarU32::encode] *)
Definition VarU32_encode (self : VarU32) : Result Blob :=
  let val := varu32 self in
  if val <? 128 then Ok (small [Z.land val 0x7f])
  else if val <? 16384 then
    Ok (small [Z.lor (Z.land val 0x7f) 0x80;
               Z.land (Z.shiftr val 7) 0x7f])
  else if val <? 2097152 then
    Ok (small [Z.lor (Z.land val 0x7f) 0x80;
               Z.lor (Z.land (Z.shiftr val 7) 0x7f) 0x80;
               Z.land (Z.shiftr val 14) 0x7f])
  else if val <=? VarU32_MAX then
    Ok (small [Z.lor (Z.land val 0x7f) 0x80;
               Z.lor (Z.land (Z.shiftr val 7) 0x7f) 0x80;
               Z.lor (Z.land (Z.shiftr val 14) 0x7f) 0x80;
               Z.land (Z.shiftr val 21) 0x7f])
  else err_desc ErrorKind.ProtocolError.

(** src/types.rs:366-415 [Packetize for VarU32] *)
Definition VarU32_codec : Packetize VarU32 := mkPacketize VarU32_decode VarU32_encode.

(** * Strings and byte vectors *)

(** src/types.rs:537-559 [String::decode] *)
Definition String_decode (stream : bytes) : Result (bytes * nat) :=
  '(len, _) ← u16_decode stream;
  let len := Z.to_nat len in
  if decide (length stream < len + 2)%nat then
    err ErrorKind.InsufficientBytes ReasonCode.MalformedPacket
  else
    s ← slice_range 2 (2 + len) stream;
    if from_utf8 s then
      if negb (forallb is_valid_utf8_code_point (chars s)) then
        err ErrorKind.MalformedPacket ReasonCode.MalformedPacket
      else Ok (s, (2 + len)%nat)
    else err ErrorKind.MalformedPacket ReasonCode.MalformedPacket.

(** src/types.rs:561-583 [String::encode] *)
Definition String_encode (self : bytes) : Result Blob :=
  if negb (forallb is_valid_utf8_code_point (chars self)) then
    err_desc ErrorKind.ProtocolError
  else
    let n := length self in
    if 65535 <? Z.of_nat n then err_desc ErrorKind.ProtocolError
    else if (n <? 30)%nat then Ok (small (to_be_bytes 2 (Z.of_nat n) ++ self))
    else Ok (Large (to_be_bytes 2 (Z.of_nat n) ++ self)).

(** src/types.rs:536-584 [Packetize for String] *)
Definition String_codec : Packetize bytes := mkPacketize String_decode String_encode.

(** src/types.rs:587-596 [Vec<u8>::decode] *)
Definition Vec_decode (stream : bytes) : Result (bytes * nat) :=
  '(len, _) ← u16_decode stream;
  let len := Z.to_nat len in
  if decide (length stream < len + 2)%nat then
    err ErrorKind.InsufficientBytes ReasonCode.MalformedPacket
  else
    s ← slice_range 2 (2 + len) stream;
    Ok (s, (2 + len)%nat).

(** src/types.rs:598-610 [Vec<u8>::encode] *)
Definition Vec_encode (self : bytes) : Result Blob :=
  let n := length self in
  if 65535 <? Z.of_nat n then err_desc ErrorKind.ProtocolError
  else Ok (Large (to_be_bytes 2 (Z.of_nat n) ++ self)).

(** src/types.rs:586-611 [Packetize for Vec<u8>] *)
Definition Vec_codec : Packetize bytes := mkPacketize Vec_decode Vec_encode.

(** src/types.rs:422-422 [UserProperty] *)
Definition UserProperty : Type := bytes * bytes.

(** src/types.rs:445-451 [UserProperty::decode] *)
Definition UserProperty_decode (stream : bytes) : Result (UserProperty * nat) :=
  '(key, m) ← String_decode stream;
  s ← advance stream m;
  '(val, n) ← String_decode s;
  Ok ((key, val), (m + n)%nat).

(** src/types.rs:453-470 [UserProperty::encode] *)
Definition UserProperty_encode (self : UserProperty) : Result Blob :=
  key_blob ← String_encode self.1;
  val_blob ← String_encode self.2;
  let m := length (as_ref key_blob) in
  let n := length (as_ref val_blob) in
  if (m + n <? 32)%nat then Ok (small (as_ref key_blob ++ as_ref val_blob))
  else Ok (Large (as_ref key_blob ++ as_ref val_blob)).

(** src/types.rs:444-471 [Packetize for UserProperty] *)
Definition UserProperty_codec : Packetize UserProperty :=
  mkPacketize UserProperty_decode UserProperty_encode.

(** * Topics *)

(** src/types.rs:120-120 [TopicName] *)
Record TopicName := mkTopicName { topic_name_str : bytes }.
(** src/types.rs:223-223 [TopicFilter] *)
Record TopicFilter := mkTopicFilter { topic_filter_str : bytes }.
#[export] Instance TopicName_eq_dec : EqDecision TopicName.
Proof. solve_decision. Defined.
#[export] Instance TopicFilter_eq_dec : EqDecision TopicFilter.
Proof. solve_decision. Defined.

(** [matches!(ch, '#' | '+')] *)
Definition is_wildcard (ch : Z) : bool := (ch =? 0x23) || (ch =? 0x2B).
Definition HASH : bytes := [0x23].
Definition PLUS : bytes := [0x2B].

(** src/types.rs:201-203 [TopicName::iter_topic_path] *)
Definition TopicName_iter_topic_path (self : TopicName) : list bytes :=
  split_slash (topic_name_str self).

(** src/types.rs:265-267 [TopicFilter::iter_topic_path] *)
Definition TopicFilter_iter_topic_path (self : TopicFilter) : list bytes :=
  split_slash (topic_filter_str self).

(** src/types.rs:207-218 [TopicName::validate] *)
Definition TopicName_validate (self : TopicName) : Result unit :=
  if (length (topic_name_str self) =? 0)%nat then
    err ErrorKind.MalformedPacket ReasonCode.MalformedPacket
  else if existsb (λ ch, is_wildcard ch || (ch =? 0)) (chars (topic_name_str self)) then
    err ErrorKind.MalformedPacket ReasonCode.MalformedPacket
  else Ok ().

(** src/types.rs:314-336 [TopicFilter::validate] *)
Definition TopicFilter_validate (self : TopicFilter) : Result unit :=
  if (length (topic_filter_str self) =? 0)%nat then
    err ErrorKind.MalformedPacket ReasonCode.MalformedPacket
  else if existsb (λ ch, ch =? 0) (chars (topic_filter_str self)) then
    err ErrorKind.MalformedPacket ReasonCode.MalformedPacket
  else
    let levels := TopicFilter_iter_topic_path self in
    if existsb (λ l, existsb is_wildcard (chars l))
         (filter (λ l, (1 < length l)%nat) levels) then
      err ErrorKind.MalformedPacket ReasonCode.MalformedPacket
    else
      match skip_while (λ l, negb (bool_decide (l = HASH))) levels with
      | _ :: _ :: _ => err ErrorKind.MalformedPacket ReasonCode.MalformedPacket
      | _ => Ok ()
      end.

(** src/types.rs:182-190 [TopicName::decode] *)
Definition TopicName_decode (stream : bytes) : Result (TopicName * nat) :=
  '(val, n) ← String_decode stream;
  let val := mkTopicName val in
  _ ← TopicName_validate val;
  Ok (val, n).

(** src/types.rs:192-195 [TopicName::encode] *)
Definition TopicName_encode (self : TopicName) : Result Blob :=
  _ ← TopicName_validate self;
  String_encode (topic_name_str self).

(** src/types.rs:181-196 [Packetize for TopicName] *)
Definition TopicName_codec : Packetize TopicName :=
  mkPacketize TopicName_decode TopicName_encode.

(** src/types.rs:246-254 [TopicFilter::decode] *)
Definition TopicFilter_decode (stream : bytes) : Result (TopicFilter * nat) :=
  '(val, n) ← String_decode stream;
  let val := mkTopicFilter val in
  _ ← TopicFilter_validate val;
  Ok (val, n).

(** src/types.rs:256-259 [TopicFilter::encode] *)
Definition TopicFilter_encode (self : TopicFilter) : Result Blob :=
  _ ← TopicFilter_validate self;
  String_encode (topic_filter_str self).

(** src/types.rs:245-260 [Packetize for TopicFilter] *)
Definition TopicFilter_codec : Packetize TopicFilter :=
  mkPacketize TopicFilter_decode TopicFilter_encode.

(** src/types.rs:76-76 [ClientID] *)
Record ClientID := mkClientID { client_id_str : bytes }.
#[export] Instance ClientID_eq_dec : EqDecision ClientID.
Proof. solve_decision. Defined.

(** The fresh identifier [uuid::Uuid::new_v4] generates is an argument. *)
(** src/types.rs:110-115 [ClientID::from_connect] *)
Definition ClientID_from_connect (uuid_v4 : bytes) (client_id : ClientID) : ClientID :=
  match length (client_id_str client_id) with
  | O => mkClientID uuid_v4
  | _ => client_id
  end.

(** * Lemmas: integers *)

#[export] Instance u8_round_trip : RoundTrip u8_codec is_u8.
Proof.
  split; cbn; [done|..].
  - intros v b Hv [= <-]. rewrite as_ref_small. by apply Forall_singleton.
  - intros v b rest Hv [= <-]. by rewrite as_ref_small.
Qed.

#[export] Instance u8_total : TotalDecoder u8_codec is_u8.
Proof.
  split; cbn.
  - by intros [|b s] _.
  - intros [|b s] v n Hs; [done|]. intros [= <- <-]. cbn.
    split; [lia|]. by apply Forall_cons_1 in Hs as [? _].
Qed.

#[export] Instance u16_round_trip : RoundTrip u16_codec is_u16.
Proof.
  split; cbn -[to_be_bytes]; [done|..].
  - intros v b Hv [= <-]. rewrite as_ref_small. apply to_be_bytes_is_bytes.
  - intros v b rest Hv [= <-]. rewrite as_ref_small. unfold u16_decode.
    rewrite decide_True by (rewrite length_app, length_to_be_bytes; lia).
    change (take 2 _) with (to_be_bytes 2 v). by rewrite from_to_be_bytes_2.
Qed.

#[export] Instance u16_total : TotalDecoder u16_codec is_u16.
Proof.
  split; cbn.
  - intros s _. unfold u16_decode. case_decide; exact I.
  - intros s v n Hs. unfold u16_decode. case_decide; [|done].
    intros [= <- <-]. split; [lia|]. destruct s as [|a [|b s]]; cbn in *; try lia.
    inversion_clear Hs as [|?? Ha Hs']. inversion_clear Hs' as [|?? Hb _].
    exact (from_be_bytes_bound2 a b Ha Hb).
Qed.

#[export] Instance u32_round_trip : RoundTrip u32_codec is_u32.
Proof.
  split; cbn -[to_be_bytes]; [done|..].
  - intros v b Hv [= <-]. rewrite as_ref_small. apply to_be_bytes_is_bytes.
  - intros v b rest Hv [= <-]. rewrite as_ref_small. unfold u32_decode.
    rewrite decide_True by (rewrite length_app, length_to_be_bytes; lia).
    change (take 4 _) with (to_be_bytes 4 v). by rewrite from_to_be_bytes_4.
Qed.

#[export] Instance u32_total : TotalDecoder u32_codec is_u32.
Proof.
  split; cbn.
  - intros s _. unfold u32_decode. case_decide; exact I.
  - intros s v n Hs. unfold u32_decode. case_decide; [|done].
    intros [= <- <-]. split; [lia|].
    destruct s as [|a [|b [|c [|d s]]]]; cbn in *; try lia.
    do 4 (apply Forall_cons_1 in Hs as [? Hs]).
    by apply from_be_bytes_bound4.
Qed.

(** * Lemmas: variable-length integers *)

Definition is_VarU32 (v : VarU32) : Prop := 0 ≤ varu32 v ≤ VarU32_MAX.

Lemma land_7f z : Z.land z 0x7f = z `mod` 128.
Proof. exact (Z.land_ones z 7 ltac:(lia)). Qed.

Lemma lor_80 z : 0 ≤ z < 128 → Z.lor z 0x80 = z + 128.
Proof.
  intros Hz. rewrite Z.lor_comm.
  transitivity (1 * 2 ^ 7 + z); [|lia]. apply (lor_shiftl_add 1 z 7); lia.
Qed.

(** The seven-bit groups of a value, as the encoder writes them. *)
Lemma VarU32_encode_eq v :
  VarU32_encode v =
    let x := varu32 v in
    let g k := Z.shiftr x k `mod` 128 in
    if x <? 128 then Ok (small [g 0])
    else if x <? 16384 then Ok (small [g 0 + 128; g 7])
    else if x <? 2097152 then Ok (small [g 0 + 128; g 7 + 128; g 14])
    else if x <=? VarU32_MAX then
      Ok (small [g 0 + 128; g 7 + 128; g 14 + 128; g 21])
    else err_desc ErrorKind.ProtocolError.
Proof.
  unfold VarU32_encode. cbv zeta. rewrite Z.shiftr_0_r, !land_7f.
  rewrite !lor_80 by (apply Z.mod_pos_bound; lia). reflexivity.
Qed.

Lemma varu32_loop_cons b bs i out :
  is_u8 b →
  varu32_loop (b :: bs) i out =
    if b <? 128 then Ok (mkVarU32 (out + b * 2 ^ (7 * Z.of_nat i)), S i)
    else varu32_loop bs (S i) (out + (b - 128) * 2 ^ (7 * Z.of_nat i)).
Proof.
  intros Hb. unfold is_u8 in Hb. cbn -[Z.shiftl Z.land Z.mul].
  rewrite land_7f, Z.shiftl_mul_pow2 by lia.
  destruct (Z.ltb_spec b 128).
  - rewrite Z.mod_small by lia. reflexivity.
  - replace (b `mod` 128) with (b - 128); [reflexivity|].
    Z.to_euclidean_division_equations; lia.
Qed.

(** The value read from [k] more groups stays under [2^28]. *)
Lemma varu32_loop_bound bs : ∀ i out v n,
  is_bytes bs → (i + length bs ≤ 4)%nat → 0 ≤ out < 2 ^ (7 * Z.of_nat i) →
  varu32_loop bs i out = Ok (v, n) →
  (i < n ≤ i + length bs)%nat ∧ 0 ≤ varu32 v < 2 ^ (7 * Z.of_nat n).
Proof.
  induction bs as [|b bs IH]; intros i out v n Hs Hi Ho H; [done|].
  apply Forall_cons_1 in Hs as [Hb Hs]. rewrite varu32_loop_cons in H by done.
  unfold is_u8 in Hb. cbn [length] in *.
  assert (2 ^ (7 * Z.of_nat (S i)) = 128 * 2 ^ (7 * Z.of_nat i)) as E.
  { replace (7 * Z.of_nat (S i)) with (7 + 7 * Z.of_nat i) by lia.
    rewrite Z.pow_add_r by lia. reflexivity. }
  destruct (Z.ltb_spec b 128).
  - injection H as <- <-. split; [lia|]. cbn [varu32]. rewrite E. nia.
  - apply IH in H; [|done|lia|rewrite E; nia]. split; [lia|]. apply H.
Qed.

Lemma varu32_loop_settled bs : ∀ i out, settled (varu32_loop bs i out).
Proof.
  induction bs as [|b bs IH]; intros i out; cbn; [exact I|].
  destruct (b <? 128); [exact I|apply IH].
Qed.

#[export] Instance VarU32_total : TotalDecoder VarU32_codec is_VarU32.
Proof.
  split; cbn.
  - intros s _. apply varu32_loop_settled.
  - intros s v n Hs H. apply varu32_loop_bound in H; cbn.
    + rewrite length_take in H. destruct H as [? Hv]. split; [lia|].
      unfold is_VarU32, VarU32_MAX.
      pose proof (Z.pow_le_mono_r 2 (7 * Z.of_nat n) 28 ltac:(lia) ltac:(lia)).
      change (2 ^ 28) with 268435456 in *. lia.
    + by apply Forall_take.
    + rewrite length_take. lia.
    + lia.
Qed.

(** A list of at most four bytes in front is what the decoder looks at. *)
Lemma VarU32_decode_app pre rest v :
  (length pre ≤ 4)%nat →
  (∀ tl, varu32_loop (pre ++ tl) 0 0 = Ok (v, length pre)) →
  VarU32_decode (pre ++ rest) = Ok (v, length pre).
Proof.
  intros Hl H. unfold VarU32_decode. rewrite take_app_ge.
  2:{ rewrite length_app. lia. }
  apply H.
Qed.

#[export] Instance VarU32_round_trip : RoundTrip VarU32_codec is_VarU32.
Proof.
  split; cbn; unfold is_VarU32, VarU32_MAX.
  - intros v Hv. rewrite VarU32_encode_eq. cbv zeta. repeat case_match; exact I.
  - intros [x] b Hv. cbn in Hv. rewrite VarU32_encode_eq. cbv zeta. cbn [varu32].
    repeat case_match; intros [= <-]; rewrite as_ref_small.
    all: repeat (apply Forall_cons_2; [|try apply Forall_nil_2]).
    all: match goal with |- is_u8 (?z `mod` 128 + _) =>
           pose proof (Z.mod_pos_bound z 128 ltac:(lia))
         | |- is_u8 (?z `mod` 128) => pose proof (Z.mod_pos_bound z 128 ltac:(lia)) end.
    all: unfold is_u8; lia.
  - intros [x] b rest Hv. cbn in Hv. rewrite VarU32_encode_eq. cbv zeta. cbn [varu32].
    rewrite Z.shiftr_0_r, !Z.shiftr_div_pow2 by lia.
    assert (∀ z, 0 ≤ z `mod` 128 < 128) as Hm by (intros; apply Z.mod_pos_bound; lia).
    repeat case_match; intros [= <-]; rewrite as_ref_small;
      apply VarU32_decode_app; cbn [length]; try lia; intros tl; cbn [app];
      repeat (rewrite varu32_loop_cons by (unfold is_u8; pose proof (Hm x);
        pose proof (Hm (x `div` 2 ^ 7)); pose proof (Hm (x `div` 2 ^ 14));
        pose proof (Hm (x `div` 2 ^ 21)); lia);
      case_match; try (pose proof (Hm x); pose proof (Hm (x `div` 2 ^ 7));
        pose proof (Hm (x `div` 2 ^ 14)); pose proof (Hm (x `div` 2 ^ 21)); lia)).
    all: do 3 f_equal; change (2 ^ (7 * Z.of_nat 0)) with 1;
      change (2 ^ (7 * Z.of_nat 1)) with 128;
      change (2 ^ (7 * Z.of_nat 2)) with 16384;
      change (2 ^ (7 * Z.of_nat 3)) with 2097152;
      change (2 ^ 7) with 128 in *; change (2 ^ 14) with 16384 in *;
      change (2 ^ 21) with 2097152 in *; clear Hm;
      Z.to_euclidean_division_equations; lia.
Qed.

(** * Lemmas: strings and byte vectors *)

(** What a length-prefixed block looks like to both string decoders. *)
Lemma u16_decode_prefix (s rest : bytes) :
  Z.of_nat (length s) ≤ 65535 →
  u16_decode (to_be_bytes 2 (Z.of_nat (length s)) ++ s ++ rest)
  = Ok (Z.of_nat (length s), 2%nat).
Proof.
  intros Hl.
  assert (is_u16 (Z.of_nat (length s))) as Hu by (unfold is_u16; lia).
  pose proof (round_trip (c := u16_codec) _ _ (s ++ rest) Hu eq_refl) as H.
  rewrite as_ref_small in H. by rewrite length_to_be_bytes in H.
Qed.

Lemma slice_prefix {E} (s rest : bytes) v :
  slice_range (E := E) 2 (2 + length s) (to_be_bytes 2 v ++ s ++ rest) = Ok s.
Proof.
  rewrite slice_range_ok; [|lia|rewrite !length_app, length_to_be_bytes; lia].
  f_equal. change (drop 2 _) with (s ++ rest).
  replace (2 + length s - 2)%nat with (length s) by lia. apply take_app_length.
Qed.

Lemma Vec_decode_app (s rest : bytes) :
  Z.of_nat (length s) ≤ 65535 →
  Vec_decode (to_be_bytes 2 (Z.of_nat (length s)) ++ s ++ rest)
  = Ok (s, (2 + length s)%nat).
Proof.
  intros Hl. unfold Vec_decode. rewrite u16_decode_prefix by done. cbn -[slice_range].
  rewrite Nat2Z.id, decide_False.
  2:{ rewrite !length_app, length_to_be_bytes. lia. }
  change (S (S (length s))) with (2 + length s)%nat.
  by rewrite slice_prefix.
Qed.

Lemma String_decode_app s rest :
  Z.of_nat (length s) ≤ 65535 → from_utf8 s = true →
  forallb is_valid_utf8_code_point (chars s) = true →
  String_decode (to_be_bytes 2 (Z.of_nat (length s)) ++ s ++ rest)
  = Ok (s, (2 + length s)%nat).
Proof.
  intros Hl Hu Hc. unfold String_decode. rewrite u16_decode_prefix by done.
  cbn -[slice_range]. rewrite Nat2Z.id, decide_False.
  2:{ rewrite !length_app, length_to_be_bytes. lia. }
  change (S (S (length s))) with (2 + length s)%nat.
  rewrite slice_prefix. cbn. by rewrite Hu, Hc.
Qed.

(** The encoder in one equation: the blob variant does not show in the bytes. *)
Lemma String_encode_Ok s b :
  String_encode s = Ok b →
  as_ref b = to_be_bytes 2 (Z.of_nat (length s)) ++ s ∧ Z.of_nat (length s) ≤ 65535 ∧
  forallb is_valid_utf8_code_point (chars s) = true.
Proof.
  unfold String_encode. destruct (forallb _ _) eqn:Hc; cbn; [|done].
  destruct (Z.ltb_spec 65535 (Z.of_nat (length s))); [done|].
  case_match; intros [= <-]; rewrite ?as_ref_small, ?as_ref_Large;
    (split; [done|split; [lia|done]]).
Qed.

Lemma Vec_encode_Ok s b :
  Vec_encode s = Ok b →
  as_ref b = to_be_bytes 2 (Z.of_nat (length s)) ++ s ∧ Z.of_nat (length s) ≤ 65535.
Proof.
  unfold Vec_encode. destruct (Z.ltb_spec 65535 (Z.of_nat (length s))); [done|].
  intros [= <-]. rewrite as_ref_Large. split; [done|lia].
Qed.

#[export] Instance String_round_trip : RoundTrip String_codec valid_str.
Proof.
  split; cbn.
  - intros s _. unfold String_encode. repeat case_match; exact I.
  - intros s b [Hs _] (-> & _ & _)%String_encode_Ok.
    apply Forall_app_2; [apply to_be_bytes_is_bytes|done].
  - intros s b rest [Hs Hu] (-> & Hl & Hc)%String_encode_Ok.
    rewrite <- app_assoc, String_decode_app by done.
    by rewrite length_app, length_to_be_bytes.
Qed.

#[export] Instance Vec_round_trip : RoundTrip Vec_codec is_bytes.
Proof.
  split; cbn.
  - intros s _. unfold Vec_encode. repeat case_match; exact I.
  - intros s b Hs [-> _]%Vec_encode_Ok.
    apply Forall_app_2; [apply to_be_bytes_is_bytes|done].
  - intros s b rest Hs [-> Hl]%Vec_encode_Ok.
    rewrite <- app_assoc, Vec_decode_app by done.
    by rewrite length_app, length_to_be_bytes.
Qed.

Lemma slice_range_Ok {E A} n m (l s : list A) :
  slice_range (E := E) n m l = Ok s →
  (n ≤ m)%nat ∧ (m ≤ length l)%nat ∧ s = take (m - n) (drop n l).
Proof. unfold slice_range. case_decide as H; [|done]. intros [= <-]. split; [apply H|]. split; [apply H|done]. Qed.

#[export] Instance Vec_total : TotalDecoder Vec_codec is_bytes.
Proof.
  split; cbn.
  - intros s Hs. unfold Vec_decode. apply settled_bind; [exact (decode_settled (c := u16_codec) s Hs)|].
    intros [len n] H. apply (decode_bound (c := u16_codec)) in H as [? ?]; [|done].
    case_decide; [exact I|]. rewrite slice_range_ok by lia. exact I.
  - intros s v n Hs H. unfold Vec_decode in H. outcome_inv H.
    case_decide; [done|]. outcome_inv H.
    apply slice_range_Ok in Hr0 as (? & ? & ->). split; [lia|].
    by apply Forall_take_drop.
Qed.

#[export] Instance String_total : TotalDecoder String_codec valid_str.
Proof.
  split; cbn.
  - intros s Hs. unfold String_decode. apply settled_bind; [exact (decode_settled (c := u16_codec) s Hs)|].
    intros [len n] H. apply (decode_bound (c := u16_codec)) in H as [? ?]; [|done].
    case_decide; [exact I|]. rewrite slice_range_ok by lia. cbn -[take drop].
    repeat case_match; exact I.
  - intros s v n Hs H. unfold String_decode in H. outcome_inv H.
    case_decide; [done|]. outcome_inv H.
    apply slice_range_Ok in Hr0 as (? & ? & ->).
    destruct (from_utf8 _) eqn:Hu; [|done]. destruct (negb _); [done|].
    injection H as <- <-. split; [lia|]. split; [by apply Forall_take_drop|done].
Qed.

Definition valid_UserProperty (p : UserProperty) : Prop :=
  valid_str p.1 ∧ valid_str p.2.

Lemma UserProperty_encode_Ok p b :
  UserProperty_encode p = Ok b →
  ∃ kb vb, String_encode p.1 = Ok kb ∧ String_encode p.2 = Ok vb ∧
           as_ref b = as_ref kb ++ as_ref vb.
Proof.
  unfold UserProperty_encode. intros H.
  apply bind_Ok in H as (kb & Hk & H). apply bind_Ok in H as (vb & Hv & H).
  exists kb, vb. case_match; injection H as <-;
    rewrite ?as_ref_small, ?as_ref_Large; done.
Qed.

#[export] Instance UserProperty_round_trip :
  RoundTrip UserProperty_codec valid_UserProperty.
Proof.
  split; cbn.
  - intros p [Hk Hv]. unfold UserProperty_encode.
    apply settled_bind; [exact (encode_settled (c := String_codec) _ Hk)|intros kb _].
    apply settled_bind; [exact (encode_settled (c := String_codec) _ Hv)|intros vb _].
    case_match; exact I.
  - intros p b [Hk Hv] (kb & vb & Ek & Ev & ->)%UserProperty_encode_Ok.
    apply Forall_app_2.
    + exact (encode_bytes (c := String_codec) _ _ Hk Ek).
    + exact (encode_bytes (c := String_codec) _ _ Hv Ev).
  - intros [k v] b rest [Hk Hv] (kb & vb & Ek & Ev & ->)%UserProperty_encode_Ok.
    unfold UserProperty_decode. rewrite <- app_assoc.
    assert (∀ x bx tl, valid_str x → String_encode x = Ok bx →
      String_decode (as_ref bx ++ tl) = Ok (x, length (as_ref bx))) as Hrt
      by (intros x bx tl Hx; exact (round_trip (c := String_codec) x bx tl Hx)).
    rewrite (Hrt k kb _ Hk Ek).
    rewrite bind_Ok_1, advance_app by done. rewrite bind_Ok_1.
    rewrite (Hrt v vb _ Hv Ev), bind_Ok_1. by rewrite length_app.
Qed.

#[export] Instance UserProperty_total :
  TotalDecoder UserProperty_codec valid_UserProperty.
Proof.
  split; cbn.
  - intros s Hs. unfold UserProperty_decode.
    apply settled_bind; [exact (decode_settled (c := String_codec) s Hs)|intros [k m] _].
    apply settled_bind; [apply advance_settled|intros s' [_ ->]%advance_Ok].
    apply settled_bind; [|intros [??] _; exact I].
    apply (decode_settled (c := String_codec)). by apply Forall_drop.
  - intros s [k v] n Hs H. unfold UserProperty_decode in H. outcome_inv H.
    apply (decode_bound (c := String_codec)) in Hr as [? ?]; [|done].
    apply advance_Ok in Hr0 as [? ->].
    apply (decode_bound (c := String_codec)) in Hr1 as [? ?]; [|by apply Forall_drop].
    rewrite length_drop in *. split; [lia|]. split; done.
Qed.

(** * Lemmas: topics *)

Definition valid_TopicName (t : TopicName) : Prop := valid_str (topic_name_str t).
Definition valid_TopicFilter (t : TopicFilter) : Prop := valid_str (topic_filter_str t).
(** What a decoder hands out: a string that also passed the validation. *)
Definition checked_TopicName (t : TopicName) : Prop :=
  valid_TopicName t ∧ TopicName_validate t = Ok ().
Definition checked_TopicFilter (t : TopicFilter) : Prop :=
  valid_TopicFilter t ∧ TopicFilter_validate t = Ok ().

Lemma TopicName_validate_settled t : settled (TopicName_validate t).
Proof. unfold TopicName_validate. repeat case_match; exact I. Qed.
Lemma TopicFilter_validate_settled t : settled (TopicFilter_validate t).
Proof. unfold TopicFilter_validate. repeat case_match; exact I. Qed.
#[export] Hint Resolve TopicName_validate_settled TopicFilter_validate_settled : outcome.

(** A string newtype whose codec checks the value on both sides. *)
Section checked_string.
Context {T : Type} (mk : bytes → T) (un : T → bytes) (check : T → Result unit).
Hypothesis un_mk : ∀ s, un (mk s) = s.
Hypothesis mk_un : ∀ t, mk (un t) = t.
Hypothesis check_settled : ∀ t, settled (check t).

Definition checked_codec : Packetize T := mkPacketize
  (λ stream, '(val, n) ← String_decode stream; _ ← check (mk val); Ok (mk val, n))
  (λ self, _ ← check self; String_encode (un self)).

Lemma checked_round_trip : RoundTrip checked_codec (λ t, valid_str (un t)).
Proof.
  split; cbn.
  - intros t Ht. apply settled_bind; [done|intros _ _].
    exact (encode_settled (c := String_codec) _ Ht).
  - intros t b Ht H. apply bind_Ok in H as (_ & _ & H).
    exact (encode_bytes (c := String_codec) _ _ Ht H).
  - intros t b rest Ht H. apply bind_Ok in H as ([] & Hc & H).
    pose proof (round_trip (c := String_codec) _ _ rest Ht H) as E.
    cbn [decode String_codec] in E. rewrite E. cbn. by rewrite mk_un, Hc.
Qed.

Lemma checked_total :
  TotalDecoder checked_codec (λ t, valid_str (un t) ∧ check t = Ok ()).
Proof.
  split; cbn.
  - intros s Hs. apply settled_bind; [exact (decode_settled (c := String_codec) s Hs)|].
    intros [v n] _. apply settled_bind; [done|]. intros _ _. exact I.
  - intros s t n Hs H. apply bind_Ok in H as ([v m] & Hd & H).
    apply bind_Ok in H as ([] & Hc & H). injection H as <- <-.
    apply (decode_bound (c := String_codec)) in Hd as [? ?]; [|done].
    rewrite un_mk. done.
Qed.
End checked_string.

#[export] Instance TopicName_round_trip : RoundTrip TopicName_codec valid_TopicName.
Proof. apply (checked_round_trip mkTopicName topic_name_str); [by intros []|auto with outcome]. Qed.
#[export] Instance TopicFilter_round_trip : RoundTrip TopicFilter_codec valid_TopicFilter.
Proof. apply (checked_round_trip mkTopicFilter topic_filter_str); [by intros []|auto with outcome]. Qed.
#[export] Instance TopicName_total : TotalDecoder TopicName_codec checked_TopicName.
Proof. apply (checked_total mkTopicName topic_name_str); [done|auto with outcome]. Qed.
#[export] Instance TopicFilter_total : TotalDecoder TopicFilter_codec checked_TopicFilter.
Proof. apply (checked_total mkTopicFilter topic_filter_str); [done|auto with outcome]. Qed.

(** The grammar of MQTT topic filters, level by level. *)
Definition level_wf (l : bytes) : Prop :=
  l = HASH ∨ l = PLUS ∨ Forall (λ c, is_wildcard c = false) (chars l).
Definition filter_levels_wf (ls : list bytes) : Prop :=
  Forall level_wf ls ∧ (∀ i, ls !! i = Some HASH → S i = length ls).

Lemma existsb_false_Forall {A} (p : A → bool) l :
  existsb p l = false ↔ Forall (λ x, p x = false) l.
Proof.
  induction l as [|x l IH]; cbn; [by split|].
  rewrite orb_false_iff, IH, Forall_cons. done.
Qed.

Lemma chars_singleton c : chars [c] = [c] ∨ chars [c] = [].
Proof. unfold chars. cbn. destruct (in_range 0 127 c); [by left|by right]. Qed.

Lemma level_wf_short l : (length l ≤ 1)%nat → level_wf l.
Proof.
  destruct l as [|c [|]]; [by right; right; constructor| |cbn; lia]. intros _.
  destruct (is_wildcard c) eqn:Hc.
  - unfold is_wildcard in Hc. apply orb_true_iff in Hc as [Hc%Z.eqb_eq | Hc%Z.eqb_eq]; subst c.
    + by left.
    + by right; left.
  - right; right. destruct (chars_singleton c) as [-> | ->]; repeat constructor. done.
Qed.

Lemma level_wf_long l :
  (1 < length l)%nat → level_wf l ↔ Forall (λ c, is_wildcard c = false) (chars l).
Proof.
  intros Hl. split; [|by right; right]. intros [-> | [-> | H]]; [cbn in Hl; lia..|exact H].
Qed.

(** The scan of [validate] for a [#] that is not last. *)
Lemma skip_while_hash ls :
  (∀ l1 l2 r, skip_while (λ l, negb (bool_decide (l = HASH))) ls ≠ l1 :: l2 :: r) ↔
  (∀ i, ls !! i = Some HASH → S i = length ls).
Proof.
  induction ls as [|l ls IH]; cbn; [by split|].
  case_bool_decide as Hl; cbn.
  - split.
    + intros H [|i] Hi; (destruct ls as [|l' ls]; [done|by edestruct H]).
    + intros H l1 l2 r E. injection E as _ E'. subst ls.
      specialize (H 0%nat ltac:(by rewrite Hl)). cbn in H. lia.
  - rewrite IH. split.
    + intros H [|i] Hi; cbn in Hi; [congruence|]. by rewrite (H i Hi).
    + intros H i Hi. specialize (H (S i) Hi). lia.
Qed.

Lemma levels_scan ls :
  existsb (λ l, existsb is_wildcard (chars l)) (filter (λ l, (1 < length l)%nat) ls) = false
  ↔ Forall level_wf ls.
Proof.
  rewrite existsb_false_Forall, !Forall_forall. split.
  - intros H l Hl. destruct (decide (1 < length l)%nat) as [Hn|Hn].
    + apply level_wf_long; [done|]. apply existsb_false_Forall, H.
      by apply list_elem_of_filter.
    + apply level_wf_short. lia.
  - intros H l [Hn Hl]%list_elem_of_filter. apply existsb_false_Forall.
    by apply level_wf_long, H.
Qed.

Lemma TopicFilter_validate_spec f :
  TopicFilter_validate f = Ok () ↔
  topic_filter_str f ≠ [] ∧ 0 ∉ chars (topic_filter_str f) ∧
  filter_levels_wf (TopicFilter_iter_topic_path f).
Proof.
  unfold TopicFilter_validate, filter_levels_wf.
  rewrite <- levels_scan, <- skip_while_hash.
  destruct (topic_filter_str f) as [|b s] eqn:Hf; cbn [length Nat.eqb]; [naive_solver|].
  destruct (existsb _ (chars _)) eqn:H0.
  - split; [done|]. intros (_ & Hn & _). apply existsb_exists in H0 as (c & Hc & ->%Z.eqb_eq).
    by apply list_elem_of_In in Hc.
  - apply existsb_false_Forall in H0. rewrite Forall_forall in H0.
    assert (0 ∉ chars (b :: s)) as Hn by (intros Hc%H0; done).
    destruct (existsb _ (filter _ _)); [naive_solver|].
    destruct (skip_while _ _) as [|l1 [|l2 r]]; [naive_solver..|].
    split; [done|]. intros (_ & _ & _ & H). by edestruct H.
Qed.

Lemma TopicName_validate_spec t :
  TopicName_validate t = Ok () ↔
  topic_name_str t ≠ [] ∧
  Forall (λ c, is_wildcard c = false ∧ c ≠ 0) (chars (topic_name_str t)).
Proof.
  unfold TopicName_validate.
  destruct (topic_name_str t) as [|b s] eqn:Ht; cbn [length Nat.eqb]; [naive_solver|].
  destruct (existsb _ _) eqn:H0.
  - split; [done|]. intros (_ & Hn). apply existsb_exists in H0 as (c & Hc & H).
    rewrite Forall_forall in Hn. apply list_elem_of_In, Hn in Hc as [Hw Hc].
    rewrite Hw in H. by apply Z.eqb_eq in H.
  - split; [intros _|done]. split; [done|]. apply existsb_false_Forall in H0.
    eapply Forall_impl; [exact H0|]. cbn. intros c [? ?%Z.eqb_neq]%orb_false_iff. done.
Qed.

(** No level of a checked topic name is a wildcard. *)
Lemma checked_TopicName_levels t l :
  checked_TopicName t → l ∈ TopicName_iter_topic_path t → l ≠ HASH ∧ l ≠ PLUS.
Proof.
  intros [Hv Ht] Hl. apply TopicName_validate_spec in Ht as [_ Hc].
  rewrite Forall_forall in Hc.
  assert (∀ b, b ∈ l → b < 128 → is_wildcard b = false) as H.
  { intros b Hb Hlt. apply Hc, elem_of_chars; [done| |done]. by eapply elem_of_split_slash. }
  split; intros ->.
  - specialize (H 0x23 ltac:(by left) ltac:(lia)). done.
  - specialize (H 0x2B ltac:(by left) ltac:(lia)). done.
Qed.
