(* ===== verification/V5.v ===== *)
(** Model of [src/v5/mod.rs]: packet types, QoS, the fixed header, the property
    table and the property blocks every packet carries, with the decode loop the
    eleven property structures share. *)

From S2P Require Import Prelude Error Util Codec Types.
Local Open Scope Z_scope.

(** src/v5/mod.rs:189-205 [PacketType] *)
Module PacketType.
Inductive PacketType :=
| Connect | ConnAck | Publish | PubAck
| PubRec | PubRel | PubComp | Subscribe
| SubAck | UnSubscribe | UnsubAck | PingReq
| PingResp | Disconnect | Auth.
End PacketType.
Abbreviation PacketType := PacketType.PacketType.

(** src/v5/mod.rs:391-395 [QoS] *)
Module QoS.
Inductive QoS := AtMostOnce | AtLeastOnce | ExactlyOnce.
End QoS.
Abbreviation QoS := QoS.QoS.

(** src/v5/mod.rs:1061-1064 [PayloadFormat] *)
Module PayloadFormat.
Inductive PayloadFormat := Binary | Utf8.
End PayloadFormat.
Abbreviation PayloadFormat := PayloadFormat.PayloadFormat.

(** src/v5/mod.rs:668-696 [PropertyType] *)
Module PropertyType.
Inductive PropertyType :=
| PayloadFormatIndicator | MessageExpiryInterval | ContentType
| ResponseTopic | CorrelationData | SubscriptionIdentifier
| SessionExpiryInterval | AssignedClientIdentifier | ServerKeepAlive
| AuthenticationMethod | AuthenticationData | RequestProblemInformation
| WillDelayInterval | RequestResponseInformation | ResponseInformation
| ServerReference | ReasonString | ReceiveMaximum
| TopicAliasMaximum | TopicAlias | MaximumQoS
| RetainAvailable | UserProp | MaximumPacketSize
| WildcardSubscriptionAvailable | SubscriptionIdentifierAvailable | SharedSubscriptionAvailable.
End PropertyType.
Abbreviation PropertyType := PropertyType.PropertyType.

(** src/v5/mod.rs:746-774 [Property] *)
Module Property.
Inductive Property :=
| PayloadFormatIndicator (val : u8)
| MessageExpiryInterval (val : u32)
| ContentType (val : bytes)
| ResponseTopic (val : TopicName)
| CorrelationData (val : bytes)
| SubscriptionIdentifier (val : VarU32)
| SessionExpiryInterval (val : u32)
| AssignedClientIdentifier (val : bytes)
| ServerKeepAlive (val : u16)
| AuthenticationMethod (val : bytes)
| AuthenticationData (val : bytes)
| RequestProblemInformation (val : u8)
| WillDelayInterval (val : u32)
| RequestResponseInformation (val : u8)
| ResponseInformation (val : bytes)
| ServerReference (val : bytes)
| ReasonString (val : bytes)
| ReceiveMaximum (val : u16)
| TopicAliasMaximum (val : u16)
| TopicAlias (val : u16)
| MaximumQoS (val : QoS)
| RetainAvailable (val : u8)
| UserProp (val : UserProperty)
| MaximumPacketSize (val : u32)
| WildcardSubscriptionAvailable (val : u8)
| SubscriptionIdentifierAvailable (val : u8)
| SharedSubscriptionAvailable (val : u8).
End Property.
Abbreviation Property := Property.Property.

#[export] Instance PacketType_eq_dec : EqDecision PacketType.
Proof. solve_decision. Defined.
#[export] Instance QoS_eq_dec : EqDecision QoS.
Proof. solve_decision. Defined.
#[export] Instance PayloadFormat_eq_dec : EqDecision PayloadFormat.
Proof. solve_decision. Defined.
#[export] Instance PropertyType_eq_dec : EqDecision PropertyType.
Proof. solve_decision. Defined.

(** src/v5/mod.rs:207-232 [PacketType::try_from] *)
Definition PacketType_try_from (val : u8) : Result PacketType :=
  match val with
  | 1 => Ok PacketType.Connect
  | 2 => Ok PacketType.ConnAck
  | 3 => Ok PacketType.Publish
  | 4 => Ok PacketType.PubAck
  | 5 => Ok PacketType.PubRec
  | 6 => Ok PacketType.PubRel
  | 7 => Ok PacketType.PubComp
  | 8 => Ok PacketType.Subscribe
  | 9 => Ok PacketType.SubAck
  | 10 => Ok PacketType.UnSubscribe
  | 11 => Ok PacketType.UnsubAck
  | 12 => Ok PacketType.PingReq
  | 13 => Ok PacketType.PingResp
  | 14 => Ok PacketType.Disconnect
  | 15 => Ok PacketType.Auth
  | _ => err ErrorKind.MalformedPacket ReasonCode.MalformedPacket
  end.

(** src/v5/mod.rs:234-254 [u8::from(PacketType)] *)
Definition u8_from_PacketType (val : PacketType) : u8 :=
  match val with
  | PacketType.Connect => 1
  | PacketType.ConnAck => 2
  | PacketType.Publish => 3
  | PacketType.PubAck => 4
  | PacketType.PubRec => 5
  | PacketType.PubRel => 6
  | PacketType.PubComp => 7
  | PacketType.Subscribe => 8
  | PacketType.SubAck => 9
  | PacketType.UnSubscribe => 10
  | PacketType.UnsubAck => 11
  | PacketType.PingReq => 12
  | PacketType.PingResp => 13
  | PacketType.Disconnect => 14
  | PacketType.Auth => 15
  end.

(** src/v5/mod.rs:397-410 [QoS::try_from] *)
Definition QoS_try_from (val : u8) : Result QoS :=
  match val with
  | 0 => Ok QoS.AtMostOnce
  | 1 => Ok QoS.AtLeastOnce
  | 2 => Ok QoS.ExactlyOnce
  | _ => err ErrorKind.MalformedPacket ReasonCode.MalformedPacket
  end.

(** src/v5/mod.rs:412-420 [u8::from(QoS)] *)
Definition u8_from_QoS (val : QoS) : u8 :=
  match val with
  | QoS.AtMostOnce => 0
  | QoS.AtLeastOnce => 1
  | QoS.ExactlyOnce => 2
  end.

(** src/v5/mod.rs:1066-1070 [PayloadFormat::default] *)
Definition PayloadFormat_default : PayloadFormat := PayloadFormat.Binary.

(** src/v5/mod.rs:1072-1089 [PayloadFormat::try_from] *)
Definition PayloadFormat_try_from (val : u8) : Result PayloadFormat :=
  match val with
  | 0 => Ok PayloadFormat.Binary
  | 1 => Ok PayloadFormat.Utf8
  | _ => err ErrorKind.MalformedPacket ReasonCode.MalformedPacket
  end.

(** src/v5/mod.rs:1091-1098 [u8::from(PayloadFormat)] *)
Definition u8_from_PayloadFormat (val : PayloadFormat) : u8 :=
  match val with PayloadFormat.Binary => 0 | PayloadFormat.Utf8 => 1 end.

(** src/v5/mod.rs:1101-1103 [PayloadFormat::is_binary] *)
Definition PayloadFormat_is_binary (self : PayloadFormat) : bool :=
  bool_decide (self = PayloadFormat.Binary).

(** src/v5/mod.rs:1105-1107 [PayloadFormat::is_utf8] *)
Definition PayloadFormat_is_utf8 (self : PayloadFormat) : bool :=
  bool_decide (self = PayloadFormat.Utf8).

(** src/v5/mod.rs:667-696 [PropertyType as u32] *)
Definition PropertyType_as_u32 (pt : PropertyType) : u32 :=
  match pt with
  | PropertyType.PayloadFormatIndicator => 1
  | PropertyType.MessageExpiryInterval => 2
  | PropertyType.ContentType => 3
  | PropertyType.ResponseTopic => 8
  | PropertyType.CorrelationData => 9
  | PropertyType.SubscriptionIdentifier => 11
  | PropertyType.SessionExpiryInterval => 17
  | PropertyType.AssignedClientIdentifier => 18
  | PropertyType.ServerKeepAlive => 19
  | PropertyType.AuthenticationMethod => 21
  | PropertyType.AuthenticationData => 22
  | PropertyType.RequestProblemInformation => 23
  | PropertyType.WillDelayInterval => 24
  | PropertyType.RequestResponseInformation => 25
  | PropertyType.ResponseInformation => 26
  | PropertyType.ServerReference => 28
  | PropertyType.ReasonString => 31
  | PropertyType.ReceiveMaximum => 33
  | PropertyType.TopicAliasMaximum => 34
  | PropertyType.TopicAlias => 35
  | PropertyType.MaximumQoS => 36
  | PropertyType.RetainAvailable => 37
  | PropertyType.UserProp => 38
  | PropertyType.MaximumPacketSize => 39
  | PropertyType.WildcardSubscriptionAvailable => 40
  | PropertyType.SubscriptionIdentifierAvailable => 41
  | PropertyType.SharedSubscriptionAvailable => 42
  end.

(** src/v5/mod.rs:698-742 [PropertyType::try_from] *)
Definition PropertyType_try_from (val : u32) : Result PropertyType :=
  match val with
  | 1 => Ok PropertyType.PayloadFormatIndicator
  | 2 => Ok PropertyType.MessageExpiryInterval
  | 3 => Ok PropertyType.ContentType
  | 8 => Ok PropertyType.ResponseTopic
  | 9 => Ok PropertyType.CorrelationData
  | 11 => Ok PropertyType.SubscriptionIdentifier
  | 17 => Ok PropertyType.SessionExpiryInterval
  | 18 => Ok PropertyType.AssignedClientIdentifier
  | 19 => Ok PropertyType.ServerKeepAlive
  | 21 => Ok PropertyType.AuthenticationMethod
  | 22 => Ok PropertyType.AuthenticationData
  | 23 => Ok PropertyType.RequestProblemInformation
  | 24 => Ok PropertyType.WillDelayInterval
  | 25 => Ok PropertyType.RequestResponseInformation
  | 26 => Ok PropertyType.ResponseInformation
  | 28 => Ok PropertyType.ServerReference
  | 31 => Ok PropertyType.ReasonString
  | 33 => Ok PropertyType.ReceiveMaximum
  | 34 => Ok PropertyType.TopicAliasMaximum
  | 35 => Ok PropertyType.TopicAlias
  | 36 => Ok PropertyType.MaximumQoS
  | 37 => Ok PropertyType.RetainAvailable
  | 38 => Ok PropertyType.UserProp
  | 39 => Ok PropertyType.MaximumPacketSize
  | 40 => Ok PropertyType.WildcardSubscriptionAvailable
  | 41 => Ok PropertyType.SubscriptionIdentifierAvailable
  | 42 => Ok PropertyType.SharedSubscriptionAvailable
  | _ => err ErrorKind.MalformedPacket ReasonCode.MalformedPacket
  end.

(** * The fixed header *)

(** src/v5/mod.rs:435-441 [FixedHeader] *)
Record FixedHeader := mkFixedHeader {
  byte1 : u8;
  remaining_len : VarU32;
}.

(** src/v5/mod.rs:523-526 [FixedHeader::HDR_RETAIN] *)
Definition HDR_RETAIN : u8 := 0x01.
Definition HDR_QOS : u8 := 0x06.
Definition HDR_DUP : u8 := 0x08.
Definition HDR_PKT_TYPE : u8 := 0xF0.

(** [fixed_byte!(pkt_type, retain, qos, dup)]; [pkt_type] is under 16, so the
    shift loses no bit. *)
(** src/v5/mod.rs:444-453 [fixed_byte!] *)
Definition fixed_byte (pkt_type : u8) (retain : bool) (qos : QoS) (dup : bool) : u8 :=
  let retain := if retain then 0x01 else 0x00 in
  let qos := Z.shiftl (u8_from_QoS qos) 1 in
  let dup := if dup then 0x08 else 0x00 in
  let pkt_type := Z.shiftl pkt_type 4 in
  Z.lor (Z.lor (Z.lor pkt_type retain) qos) dup.

(** src/v5/mod.rs:530-536 [FixedHeader::new] *)
Definition FixedHeader_new (pkt_type : PacketType) (remaining_len : VarU32)
    : Result FixedHeader :=
  if VarU32_MAX <? varu32 remaining_len then err_desc ErrorKind.ProtocolError
  else Ok (mkFixedHeader (Z.shiftl (u8_from_PacketType pkt_type) 4) remaining_len).

(** src/v5/mod.rs:539-555 [FixedHeader::new_publish] *)
Definition FixedHeader_new_publish (retain : bool) (qos : QoS) (dup : bool)
    (remaining_len : VarU32) : Result FixedHeader :=
  if VarU32_MAX <? varu32 remaining_len then err_desc ErrorKind.ProtocolError
  else Ok (mkFixedHeader
             (fixed_byte (u8_from_PacketType PacketType.Publish) retain qos dup)
             remaining_len).

(** src/v5/mod.rs:558-570 [FixedHeader::new_pubrel] *)
Definition FixedHeader_new_pubrel (remaining_len : VarU32) : Result FixedHeader :=
  if VarU32_MAX <? varu32 remaining_len then err_desc ErrorKind.ProtocolError
  else Ok (mkFixedHeader
             (fixed_byte (u8_from_PacketType PacketType.PubRel) false QoS.AtLeastOnce false)
             remaining_len).

(** src/v5/mod.rs:573-585 [FixedHeader::new_subscribe] *)
Definition FixedHeader_new_subscribe (remaining_len : VarU32) : Result FixedHeader :=
  if VarU32_MAX <? varu32 remaining_len then err_desc ErrorKind.ProtocolError
  else Ok (mkFixedHeader
             (fixed_byte (u8_from_PacketType PacketType.Subscribe) false QoS.AtLeastOnce false)
             remaining_len).

(** src/v5/mod.rs:588-600 [FixedHeader::new_unsubscribe] *)
Definition FixedHeader_new_unsubscribe (remaining_len : VarU32) : Result FixedHeader :=
  if VarU32_MAX <? varu32 remaining_len then err_desc ErrorKind.ProtocolError
  else Ok (mkFixedHeader
             (fixed_byte (u8_from_PacketType PacketType.UnSubscribe) false QoS.AtLeastOnce false)
             remaining_len).

(** (packet-type, retain, qos, dup); panics on a reserved QoS or packet type. *)
(** src/v5/mod.rs:603-610 [FixedHeader::unwrap] *)
Definition FixedHeader_unwrap (self : FixedHeader) : Result (PacketType * bool * QoS * bool) :=
  pkt_type ← unwrap (PacketType_try_from (Z.shiftr (byte1 self) 4));
  let retain := 0 <? Z.land (byte1 self) HDR_RETAIN in
  qos ← unwrap (QoS_try_from (Z.shiftr (Z.land (byte1 self) HDR_QOS) 1));
  let dup := 0 <? Z.land (byte1 self) HDR_DUP in
  Ok (pkt_type, retain, qos, dup).

(** src/v5/mod.rs:615-630 [FixedHeader::len] *)
Definition FixedHeader_len (self : FixedHeader) : Result nat :=
  let n := varu32 (remaining_len self) in
  val ← (if n <? 128 then Ok 1%nat
         else if n <? 16384 then Ok 2%nat
         else if n <? 2097152 then Ok 3%nat
         else if n <? VarU32_MAX then Ok 4%nat
         else err ErrorKind.MalformedPacket ReasonCode.MalformedPacket);
  Ok (1 + val)%nat.

(** src/v5/mod.rs:632-662 [FixedHeader::validate] *)
Definition FixedHeader_validate (self : FixedHeader) : Result unit :=
  _ ← QoS_try_from (Z.shiftr (Z.land (byte1 self) HDR_QOS) 1);
  _ ← PacketType_try_from (Z.shiftr (Z.land (byte1 self) HDR_PKT_TYPE) 4);
  '(pkt_type, retain, qos, dup) ← FixedHeader_unwrap self;
  let at_most_once := bool_decide (qos = QoS.AtMostOnce) && negb retain && negb dup in
  let at_least_once := bool_decide (qos = QoS.AtLeastOnce) && negb retain && negb dup in
  let accepted :=
    match pkt_type with
    | PacketType.Connect => at_most_once
    | PacketType.ConnAck => at_most_once
    | PacketType.Publish => true
    | PacketType.PubAck => at_most_once
    | PacketType.PubRec => at_most_once
    | PacketType.PubRel => at_least_once
    | PacketType.PubComp => at_most_once
    | PacketType.Subscribe => at_least_once
    | PacketType.SubAck => at_most_once
    | PacketType.UnSubscribe => at_least_once
    | PacketType.UnsubAck => at_most_once
    | PacketType.Disconnect => at_most_once
    | PacketType.Auth => at_most_once
    | _ => false
    end in
  if accepted then Ok ()
  else if retain || dup || negb (bool_decide (qos = QoS.AtMostOnce)) then
    err ErrorKind.MalformedPacket ReasonCode.MalformedPacket
  else Ok ().

(** src/v5/mod.rs:495-505 [FixedHeader::decode] *)
Definition FixedHeader_decode (stream : bytes) : Result (FixedHeader * nat) :=
  '(byte1, n) ← dec_field u8_codec stream 0;
  '(remaining_len, n) ← dec_field VarU32_codec stream n;
  let fh := mkFixedHeader byte1 remaining_len in
  _ ← FixedHeader_validate fh;
  Ok (fh, n).

(** src/v5/mod.rs:507-519 [FixedHeader::encode] *)
Definition FixedHeader_encode (self : FixedHeader) : Result Blob :=
  _ ← FixedHeader_validate self;
  byte1 ← u8_encode (byte1 self);
  remaining_len ← VarU32_encode (remaining_len self);
  Ok (small (as_ref byte1 ++ as_ref remaining_len)).

(** src/v5/mod.rs:494-520 [Packetize for FixedHeader] *)
Definition FixedHeader_codec : Packetize FixedHeader :=
  mkPacketize FixedHeader_decode FixedHeader_encode.

(** The bytes of the header go in front of the data ([extend_from_slice] makes
    room, [copy_within] moves the data up, [copy_from_slice] writes the header). *)
(** src/v5/mod.rs:1110-1122 [insert_fixed_header] *)
Definition insert_fixed_header (fh : FixedHeader) (data : bytes) : Result bytes :=
  fh_blob ← FixedHeader_encode fh;
  Ok (as_ref fh_blob ++ data).

(** src/v5/mod.rs:1124-1138 [insert_property_len] *)
Definition insert_property_len (n : nat) (data : bytes) : Result bytes :=
  n ← u32_try_from n;
  blob ← VarU32_encode (mkVarU32 n);
  Ok (as_ref blob ++ data).

(** * Properties *)

(** [dec_prop!(variant, type, stream)] *)
(** src/v5/mod.rs:35-40 [dec_prop!] *)
Definition dec_prop {A} (mk : A → Property) (c : Packetize A) (stream : bytes)
    : Result (Property * nat) :=
  '(val, n) ← decode c stream;
  Ok (mk val, n).

(** [enc_prop!(data, variant, val)] *)
(** src/v5/mod.rs:98-103 [enc_prop!] *)
Definition enc_prop {A} (data : bytes) (pt : PropertyType) (c : Packetize A) (val : A)
    : Result bytes :=
  pt_blob ← VarU32_encode (mkVarU32 (PropertyType_as_u32 pt));
  val_blob ← encode c val;
  Ok (data ++ as_ref pt_blob ++ as_ref val_blob).

(** [enc_prop!(opt: data, variant, val)] *)
(** src/v5/mod.rs:91-97 [enc_prop!] *)
Definition enc_prop_opt {A} (data : bytes) (pt : PropertyType) (c : Packetize A)
    (val : option A) : Result bytes :=
  match val with
  | Some val => enc_prop data pt c val
  | None => Ok data
  end.

(** The match of [Property::decode] on the property type. *)
(** src/v5/mod.rs:913-964 [Property::decode] *)
Definition Property_decode_value (prop_type : PropertyType) (stream : bytes)
    : Result (Property * nat) :=
  match prop_type with
  | PropertyType.PayloadFormatIndicator => dec_prop Property.PayloadFormatIndicator u8_codec stream
  | PropertyType.MessageExpiryInterval => dec_prop Property.MessageExpiryInterval u32_codec stream
  | PropertyType.ContentType => dec_prop Property.ContentType String_codec stream
  | PropertyType.ResponseTopic => dec_prop Property.ResponseTopic TopicName_codec stream
  | PropertyType.CorrelationData => dec_prop Property.CorrelationData Vec_codec stream
  | PropertyType.SubscriptionIdentifier => dec_prop Property.SubscriptionIdentifier VarU32_codec stream
  | PropertyType.SessionExpiryInterval => dec_prop Property.SessionExpiryInterval u32_codec stream
  | PropertyType.AssignedClientIdentifier => dec_prop Property.AssignedClientIdentifier String_codec stream
  | PropertyType.ServerKeepAlive => dec_prop Property.ServerKeepAlive u16_codec stream
  | PropertyType.AuthenticationMethod => dec_prop Property.AuthenticationMethod String_codec stream
  | PropertyType.AuthenticationData => dec_prop Property.AuthenticationData Vec_codec stream
  | PropertyType.RequestProblemInformation => dec_prop Property.RequestProblemInformation u8_codec stream
  | PropertyType.WillDelayInterval => dec_prop Property.WillDelayInterval u32_codec stream
  | PropertyType.RequestResponseInformation => dec_prop Property.RequestResponseInformation u8_codec stream
  | PropertyType.ResponseInformation => dec_prop Property.ResponseInformation String_codec stream
  | PropertyType.ServerReference => dec_prop Property.ServerReference String_codec stream
  | PropertyType.ReasonString => dec_prop Property.ReasonString String_codec stream
  | PropertyType.ReceiveMaximum => dec_prop Property.ReceiveMaximum u16_codec stream
  | PropertyType.TopicAliasMaximum => dec_prop Property.TopicAliasMaximum u16_codec stream
  | PropertyType.TopicAlias => dec_prop Property.TopicAlias u16_codec stream
  | PropertyType.MaximumQoS =>
      '(val, n) ← u8_decode stream;
      qos ← QoS_try_from val;
      Ok (Property.MaximumQoS qos, n)
  | PropertyType.RetainAvailable => dec_prop Property.RetainAvailable u8_codec stream
  | PropertyType.UserProp => dec_prop Property.UserProp UserProperty_codec stream
  | PropertyType.MaximumPacketSize => dec_prop Property.MaximumPacketSize u32_codec stream
  | PropertyType.WildcardSubscriptionAvailable => dec_prop Property.WildcardSubscriptionAvailable u8_codec stream
  | PropertyType.SubscriptionIdentifierAvailable => dec_prop Property.SubscriptionIdentifierAvailable u8_codec stream
  | PropertyType.SharedSubscriptionAvailable => dec_prop Property.SharedSubscriptionAvailable u8_codec stream
  end.

(** src/v5/mod.rs:905-968 [Property::decode] *)
Definition Property_decode (stream : bytes) : Result (Property * nat) :=
  '(prop_type, n) ← dec_field VarU32_codec stream 0;
  stream ← advance stream n;
  prop_type ← PropertyType_try_from (varu32 prop_type);
  '(property, m) ← Property_decode_value prop_type stream;
  Ok (property, (n + m)%nat).

(** src/v5/mod.rs:970-1017 [Property::encode] *)
Definition Property_encode (self : Property) : Result Blob :=
  data ←
    match self with
    | Property.PayloadFormatIndicator val => enc_prop [] PropertyType.PayloadFormatIndicator u8_codec val
    | Property.MessageExpiryInterval val => enc_prop [] PropertyType.MessageExpiryInterval u32_codec val
    | Property.ContentType val => enc_prop [] PropertyType.ContentType String_codec val
    | Property.ResponseTopic val => enc_prop [] PropertyType.ResponseTopic TopicName_codec val
    | Property.CorrelationData val => enc_prop [] PropertyType.CorrelationData Vec_codec val
    | Property.SubscriptionIdentifier val => enc_prop [] PropertyType.SubscriptionIdentifier VarU32_codec val
    | Property.SessionExpiryInterval val => enc_prop [] PropertyType.SessionExpiryInterval u32_codec val
    | Property.AssignedClientIdentifier val => enc_prop [] PropertyType.AssignedClientIdentifier String_codec val
    | Property.ServerKeepAlive val => enc_prop [] PropertyType.ServerKeepAlive u16_codec val
    | Property.AuthenticationMethod val => enc_prop [] PropertyType.AuthenticationMethod String_codec val
    | Property.AuthenticationData val => enc_prop [] PropertyType.AuthenticationData Vec_codec val
    | Property.RequestProblemInformation val => enc_prop [] PropertyType.RequestProblemInformation u8_codec val
    | Property.WillDelayInterval val => enc_prop [] PropertyType.WillDelayInterval u32_codec val
    | Property.RequestResponseInformation val => enc_prop [] PropertyType.RequestResponseInformation u8_codec val
    | Property.ResponseInformation val => enc_prop [] PropertyType.ResponseInformation String_codec val
    | Property.ServerReference val => enc_prop [] PropertyType.ServerReference String_codec val
    | Property.ReasonString val => enc_prop [] PropertyType.ReasonString String_codec val
    | Property.ReceiveMaximum val => enc_prop [] PropertyType.ReceiveMaximum u16_codec val
    | Property.TopicAliasMaximum val => enc_prop [] PropertyType.TopicAliasMaximum u16_codec val
    | Property.TopicAlias val => enc_prop [] PropertyType.TopicAlias u16_codec val
    | Property.MaximumQoS val => enc_prop [] PropertyType.MaximumQoS u8_codec (u8_from_QoS val)
    | Property.RetainAvailable val => enc_prop [] PropertyType.RetainAvailable u8_codec val
    | Property.UserProp val => enc_prop [] PropertyType.UserProp UserProperty_codec val
    | Property.MaximumPacketSize val => enc_prop [] PropertyType.MaximumPacketSize u32_codec val
    | Property.WildcardSubscriptionAvailable val => enc_prop [] PropertyType.WildcardSubscriptionAvailable u8_codec val
    | Property.SubscriptionIdentifierAvailable val => enc_prop [] PropertyType.SubscriptionIdentifierAvailable u8_codec val
    | Property.SharedSubscriptionAvailable val => enc_prop [] PropertyType.SharedSubscriptionAvailable u8_codec val
    end;
  Ok (Large data).

(** src/v5/mod.rs:904-1018 [Packetize for Property] *)
Definition Property_codec : Packetize Property := mkPacketize Property_decode Property_encode.

(** src/v5/mod.rs:1021-1055 [Property::to_property_type] *)
Definition Property_to_property_type (self : Property) : PropertyType :=
  match self with
  | Property.PayloadFormatIndicator _ => PropertyType.PayloadFormatIndicator
  | Property.MessageExpiryInterval _ => PropertyType.MessageExpiryInterval
  | Property.ContentType _ => PropertyType.ContentType
  | Property.ResponseTopic _ => PropertyType.ResponseTopic
  | Property.CorrelationData _ => PropertyType.CorrelationData
  | Property.SubscriptionIdentifier _ => PropertyType.SubscriptionIdentifier
  | Property.SessionExpiryInterval _ => PropertyType.SessionExpiryInterval
  | Property.AssignedClientIdentifier _ => PropertyType.AssignedClientIdentifier
  | Property.ServerKeepAlive _ => PropertyType.ServerKeepAlive
  | Property.AuthenticationMethod _ => PropertyType.AuthenticationMethod
  | Property.AuthenticationData _ => PropertyType.AuthenticationData
  | Property.RequestProblemInformation _ => PropertyType.RequestProblemInformation
  | Property.WillDelayInterval _ => PropertyType.WillDelayInterval
  | Property.RequestResponseInformation _ => PropertyType.RequestResponseInformation
  | Property.ResponseInformation _ => PropertyType.ResponseInformation
  | Property.ServerReference _ => PropertyType.ServerReference
  | Property.ReasonString _ => PropertyType.ReasonString
  | Property.ReceiveMaximum _ => PropertyType.ReceiveMaximum
  | Property.TopicAliasMaximum _ => PropertyType.TopicAliasMaximum
  | Property.TopicAlias _ => PropertyType.TopicAlias
  | Property.MaximumQoS _ => PropertyType.MaximumQoS
  | Property.RetainAvailable _ => PropertyType.RetainAvailable
  | Property.UserProp _ => PropertyType.UserProp
  | Property.MaximumPacketSize _ => PropertyType.MaximumPacketSize
  | Property.WildcardSubscriptionAvailable _ => PropertyType.WildcardSubscriptionAvailable
  | Property.SubscriptionIdentifierAvailable _ => PropertyType.SubscriptionIdentifierAvailable
  | Property.SharedSubscriptionAvailable _ => PropertyType.SharedSubscriptionAvailable
  end.

(** The Rust type invariant of the value a property carries. *)
Definition valid_Property (p : Property) : Prop :=
  match p with
  | Property.PayloadFormatIndicator val => is_u8 val
  | Property.MessageExpiryInterval val => is_u32 val
  | Property.ContentType val => valid_str val
  | Property.ResponseTopic val => valid_TopicName val
  | Property.CorrelationData val => is_bytes val
  | Property.SubscriptionIdentifier val => is_VarU32 val
  | Property.SessionExpiryInterval val => is_u32 val
  | Property.AssignedClientIdentifier val => valid_str val
  | Property.ServerKeepAlive val => is_u16 val
  | Property.AuthenticationMethod val => valid_str val
  | Property.AuthenticationData val => is_bytes val
  | Property.RequestProblemInformation val => is_u8 val
  | Property.WillDelayInterval val => is_u32 val
  | Property.RequestResponseInformation val => is_u8 val
  | Property.ResponseInformation val => valid_str val
  | Property.ServerReference val => valid_str val
  | Property.ReasonString val => valid_str val
  | Property.ReceiveMaximum val => is_u16 val
  | Property.TopicAliasMaximum val => is_u16 val
  | Property.TopicAlias val => is_u16 val
  | Property.MaximumQoS val => True
  | Property.RetainAvailable val => is_u8 val
  | Property.UserProp val => valid_UserProperty val
  | Property.MaximumPacketSize val => is_u32 val
  | Property.WildcardSubscriptionAvailable val => is_u8 val
  | Property.SubscriptionIdentifierAvailable val => is_u8 val
  | Property.SharedSubscriptionAvailable val => is_u8 val
  end.

(** * Property blocks *)

(** The loop of the property structures' [decode].  [dup_err pt seen] is the
    test that reports a repeated property, [step] the match that stores one. *)
Section props.
Context {P : Type}.
Variable dup_err : PropertyType → bool → bool.
Variable step : P → Property → Result P.

(** [dups[pt as usize]] and its update, on the array of 256 flags. *)
Definition dups_get (dups : list bool) (pt : PropertyType) : bool :=
  nth (Z.to_nat (PropertyType_as_u32 pt)) dups false.
Definition dups_set (dups : list bool) (pt : PropertyType) : list bool :=
  <[Z.to_nat (PropertyType_as_u32 pt) := true]> dups.

(** Fuel: every property takes at least a byte of the stream, so the length of
    the stream is enough ([props_loop_settled]). *)
(** src/v5/connect.rs:425-475 [ConnectProperties::decode] *)
Fixpoint props_loop (fuel : nat) (stream : bytes) (limit : Z) (n : nat)
    (dups : list bool) (props : P) : Result (P * nat) :=
  if Z.of_nat n <? limit then
    match fuel with
    | O => Diverge
    | S fuel =>
        '(property, m) ← dec_field Property_codec stream n;
        let n := m in
        let pt := Property_to_property_type property in
        if dup_err pt (dups_get dups pt) then
          err ErrorKind.ProtocolError ReasonCode.ProtocolError
        else
          props ← step props property;
          props_loop fuel stream limit n (dups_set dups pt) props
    end
  else Ok (props, n).

(** src/v5/connect.rs:414-476 [ConnectProperties::decode] *)
Definition props_decode (init : P) (stream : bytes) : Result (P * nat) :=
  '(len, n) ← dec_field VarU32_codec stream 0;
  let limit := varu32 len + Z.of_nat n in
  props_loop (S (length stream)) stream limit n (replicate 256 false) init.
End props.

(** The test all but [PublishProperties] make. *)
(** src/v5/connect.rs:430-432 [ConnectProperties::decode] *)
Definition dup_err_std (pt : PropertyType) (seen : bool) : bool :=
  negb (bool_decide (pt = PropertyType.UserProp)) && seen.

(** src/v5/mod.rs:68-86 [dec_props!] *)
Definition dec_props {P} (props_decode : bytes → Result (P * nat)) (stream : bytes) (n : nat)
    : Result (option P * nat) :=
  s ← advance stream n;
  '(p, m) ← VarU32_decode s;
  if varu32 p =? 0 then Ok (None, (n + m)%nat)
  else
    s ← advance stream n;
    '(properties, r) ← props_decode s;
    if Z.of_nat r =? Z.of_nat m + varu32 p then Ok (Some properties, (n + r)%nat)
    else err ErrorKind.ProtocolError ReasonCode.ProtocolError.

(** src/v5/mod.rs:45-67 [dec_props!] *)
Definition dec_props_if {P} (props_decode : bytes → Result (P * nat)) (stream : bytes)
    (n : nat) (pred : bool) : Result (option P * nat) :=
  if pred then dec_props props_decode stream n else Ok (None, n).

(** The loop over a repeatable property, the user properties at the end of every
    block and the subscription identifiers of a PUBLISH. *)
(** src/v5/connect.rs:498-500 [ConnectProperties::encode] *)
Fixpoint enc_prop_each {A} (data : bytes) (pt : PropertyType) (c : Packetize A)
    (vals : list A) : Result bytes :=
  match vals with
  | [] => Ok data
  | val :: rest =>
      data ← enc_prop data pt c val;
      enc_prop_each data pt c rest
  end.

(** A boolean property: [if let Some(val)], then 0 or 1 as a byte. *)
(** src/v5/connect.rs:487-490 [ConnectProperties::encode] *)
Definition enc_prop_bool (data : bytes) (pt : PropertyType) (val : option bool) : Result bytes :=
  match val with
  | Some val =>
      let val := if val then 1 else 0 in
      enc_prop data pt u8_codec val
  | None => Ok data
  end.

(** The text of an indicator is written only for UTF-8, binary is the default. *)
(** src/v5/connect.rs:637-640 [WillProperties::encode] *)
Definition enc_prop_format (data : bytes) (val : PayloadFormat) : Result bytes :=
  if PayloadFormat_is_utf8 val then
    let val := u8_from_PayloadFormat PayloadFormat.Utf8 in
    enc_prop data PropertyType.PayloadFormatIndicator u8_codec val
  else Ok data.

(** A property block, or the zero length when the packet has none. *)
(** src/v5/connect.rs:241-245 [Connect::encode] *)
Definition enc_props {P} (props_encode : P → Result Blob) (properties : option P)
    : Result bytes :=
  match properties with
  | Some properties => b ← props_encode properties; Ok (as_ref b)
  | None => b ← VarU32_encode (mkVarU32 0); Ok (as_ref b)
  end.
