(* ===== verification/V5Facts.v ===== *)
(** Facts about [V5]: the fixed header survives its encoding and is total on
    every byte stream; a property and a block of properties survive theirs; the
    property loop terminates.  The packet files rest on these and on the interface of
    [PropsBlock]. *)

From S2P Require Import Prelude Error Util Codec Types V5.
Local Open Scope Z_scope.

(** * The fixed header *)

(** A decidable property of a byte, checked on the 256 bytes. *)
Lemma u8_exhaust (p : Z → bool) :
  forallb p (Z.of_nat <$> seq 0 256) = true → ∀ b, is_u8 b → p b = true.
Proof.
  rewrite forallb_forall. intros H b Hb. apply H, list_elem_of_In.
  unfold is_u8 in Hb. rewrite <- (Z2Nat.id b) by lia.
  apply list_elem_of_fmap_2, elem_of_seq. lia.
Qed.

Definition is_Ok {A} (m : Result A) : bool := match m with Ok _ => true | _ => false end.
Definition is_settled {A} (m : Result A) : bool :=
  match m with Ok _ | Err _ => true | _ => false end.
Lemma is_settled_spec {A} (m : Result A) : is_settled m = true → settled m.
Proof. by destruct m. Qed.

(** [validate] and [unwrap] look at the first byte only. *)
Definition hdr0 (b : u8) : FixedHeader := mkFixedHeader b (mkVarU32 0).

Lemma FixedHeader_validate_settled fh :
  is_u8 (byte1 fh) → settled (FixedHeader_validate fh).
Proof.
  intros Hb. apply is_settled_spec.
  change (is_settled (FixedHeader_validate (hdr0 (byte1 fh))) = true).
  revert Hb. generalize (byte1 fh).
  apply (u8_exhaust (λ b, is_settled (FixedHeader_validate (hdr0 b)))). by vm_compute.
Qed.

(** After [validate] the two [unwrap]s of [FixedHeader::unwrap] succeed. *)
Lemma FixedHeader_unwrap_validated fh :
  is_u8 (byte1 fh) → FixedHeader_validate fh = Ok () →
  ∃ u, FixedHeader_unwrap fh = Ok u.
Proof.
  intros Hb Hv.
  assert (is_Ok (FixedHeader_unwrap (hdr0 (byte1 fh))) ||
          negb (is_Ok (FixedHeader_validate (hdr0 (byte1 fh)))) = true) as H.
  { revert Hb. generalize (byte1 fh).
    apply (u8_exhaust (λ b, is_Ok (FixedHeader_unwrap (hdr0 b)) ||
                            negb (is_Ok (FixedHeader_validate (hdr0 b))))).
    by vm_compute. }
  change (FixedHeader_validate (hdr0 (byte1 fh))) with (FixedHeader_validate fh) in H.
  change (FixedHeader_unwrap (hdr0 (byte1 fh))) with (FixedHeader_unwrap fh) in H.
  rewrite Hv in H. destruct (FixedHeader_unwrap fh); [eauto|discriminate..].
Qed.

Definition valid_FixedHeader (fh : FixedHeader) : Prop :=
  is_u8 (byte1 fh) ∧ is_VarU32 (remaining_len fh).
Definition checked_FixedHeader (fh : FixedHeader) : Prop :=
  valid_FixedHeader fh ∧ FixedHeader_validate fh = Ok ().

Lemma FixedHeader_encode_Ok fh b :
  FixedHeader_encode fh = Ok b →
  FixedHeader_validate fh = Ok () ∧
  ∃ lb, VarU32_encode (remaining_len fh) = Ok lb ∧ as_ref b = byte1 fh :: as_ref lb.
Proof.
  unfold FixedHeader_encode. intros H.
  apply bind_Ok in H as ([] & Hv & H). split; [done|].
  apply bind_Ok in H as (bb & [= <-] & H). apply bind_Ok in H as (lb & Hl & [= <-]).
  exists lb. split; [done|]. by rewrite !as_ref_small.
Qed.

#[export] Instance FixedHeader_round_trip : RoundTrip FixedHeader_codec valid_FixedHeader.
Proof.
  split; cbn.
  - intros fh [Hb Hl]. unfold FixedHeader_encode.
    apply settled_bind; [by apply FixedHeader_validate_settled|intros _ _].
    apply settled_bind; [done|intros bb _].
    apply settled_bind; [exact (encode_settled (c := VarU32_codec) _ Hl)|done].
  - intros fh b [Hb Hl] (_ & lb & He & ->)%FixedHeader_encode_Ok.
    apply Forall_cons_2; [done|]. exact (encode_bytes (c := VarU32_codec) _ _ Hl He).
  - intros [b1 rl] b rest [Hb Hl] (Hv & lb & He & ->)%FixedHeader_encode_Ok.
    cbn [byte1 remaining_len] in *. unfold FixedHeader_decode.
    change (dec_field u8_codec ((b1 :: as_ref lb) ++ rest) 0) with (Ok (E := Error) (b1, 1%nat)).
    rewrite bind_Ok_1. pose proof (dec_field_app VarU32_codec is_VarU32 rl lb [b1] rest 1 Hl He eq_refl) as E.
    cbn [app] in E |- *. rewrite E. cbn. by rewrite Hv.
Qed.

#[export] Instance FixedHeader_total : TotalDecoder FixedHeader_codec checked_FixedHeader.
Proof.
  split; cbn; unfold FixedHeader_decode.
  - intros s Hs. apply settled_bind; [by apply (dec_field_settled u8_codec is_u8)|].
    intros [b1 n] H. apply (dec_field_bound u8_codec is_u8) in H as [? Hb]; [|done].
    apply settled_bind; [by apply (dec_field_settled VarU32_codec is_VarU32)|].
    intros [rl m] _.
    apply settled_bind; [by apply FixedHeader_validate_settled|done].
  - intros s fh n Hs H. outcome_inv H.
    apply (dec_field_bound u8_codec is_u8) in Hr as [? Hb]; [|done].
    apply (dec_field_bound VarU32_codec is_VarU32) in Hr0 as [? Hl]; [|done].
    split; [lia|]. done.
Qed.

(** Prepending a header that was built for the data. *)
Lemma insert_fixed_header_Ok fh data out :
  insert_fixed_header fh data = Ok out →
  ∃ fhb, FixedHeader_encode fh = Ok fhb ∧ out = as_ref fhb ++ data.
Proof.
  unfold insert_fixed_header. intros H. apply bind_Ok in H as (fhb & ? & [= <-]). eauto.
Qed.

Lemma insert_property_len_Ok n data out :
  insert_property_len n data = Ok out →
  ∃ lb, VarU32_encode (mkVarU32 (Z.of_nat n)) = Ok lb ∧ out = as_ref lb ++ data ∧
        is_VarU32 (mkVarU32 (Z.of_nat n)).
Proof.
  unfold insert_property_len. intros H. apply bind_Ok in H as (z & Hz & H).
  apply u32_try_from_Ok in Hz as [-> Hz].
  apply bind_Ok in H as (lb & Hl & [= <-]). exists lb. split; [done|]. split; [done|].
  unfold is_VarU32. cbn. split; [lia|].
  rewrite VarU32_encode_eq in Hl. cbv zeta in Hl. cbn [varu32] in Hl.
  destruct (Z.leb_spec (Z.of_nat n) VarU32_MAX); [done|].
  unfold VarU32_MAX in *. repeat case_match; try discriminate; lia.
Qed.

Lemma VarU32_encode_is_VarU32 v b :
  0 ≤ varu32 v → VarU32_encode v = Ok b → is_VarU32 v.
Proof.
  intros H0 H. split; [done|]. rewrite VarU32_encode_eq in H. cbv zeta in H.
  destruct (Z.leb_spec (varu32 v) VarU32_MAX); [done|].
  unfold VarU32_MAX in *. repeat case_match; try discriminate; lia.
Qed.

(** The encoding of zero is one zero byte. *)
Lemma VarU32_encode_0 : VarU32_encode (mkVarU32 0) = Ok (small [0]).
Proof. reflexivity. Qed.

(** * One property *)

Lemma PropertyType_roundtrip pt : PropertyType_try_from (PropertyType_as_u32 pt) = Ok pt.
Proof. by destruct pt. Qed.

Lemma PropertyType_as_u32_inj : Inj (=) (=) PropertyType_as_u32.
Proof.
  intros pt1 pt2 H. pose proof (PropertyType_roundtrip pt1) as H1.
  rewrite H, PropertyType_roundtrip in H1. congruence.
Qed.

Lemma PropertyType_as_u32_bound pt : 1 ≤ PropertyType_as_u32 pt < 43.
Proof. destruct pt; cbn; lia. Qed.

Lemma PropertyType_tag pt :
  VarU32_encode (mkVarU32 (PropertyType_as_u32 pt)) = Ok (small [PropertyType_as_u32 pt]).
Proof. by destruct pt. Qed.

Lemma enc_prop_Ok {A} data pt (c : Packetize A) v d :
  enc_prop data pt c v = Ok d ↔
  ∃ vb, encode c v = Ok vb ∧ d = data ++ PropertyType_as_u32 pt :: as_ref vb.
Proof.
  unfold enc_prop. rewrite PropertyType_tag, bind_Ok_1, bind_Ok, as_ref_small. cbn.
  split; intros (vb & He & H); exists vb; (split; [done|]); congruence.
Qed.

(** A tag byte in front selects the arm of the match. *)
Lemma Property_decode_tag pt tl :
  Property_decode (PropertyType_as_u32 pt :: tl) =
  '(p, m) ← Property_decode_value pt tl; Ok (p, S m).
Proof.
  unfold Property_decode.
  assert (dec_field VarU32_codec (PropertyType_as_u32 pt :: tl) 0
          = Ok (mkVarU32 (PropertyType_as_u32 pt), 1%nat)) as E.
  { pose proof (PropertyType_as_u32_bound pt) as Hb.
    apply (dec_field_app VarU32_codec is_VarU32 _ (small [PropertyType_as_u32 pt]) [] tl);
      [|apply PropertyType_tag|done].
    unfold is_VarU32, VarU32_MAX. cbn. lia. }
  rewrite E, bind_Ok_1.
  assert (∀ x, advance (x :: tl) 1 = Ok tl) as -> by (intros x; exact (advance_app [x] tl 1 eq_refl)).
  rewrite bind_Ok_1. cbn [varu32]. by rewrite PropertyType_roundtrip, bind_Ok_1.
Qed.

(** [dec_prop] undoes what [enc_prop] wrote after the tag. *)
Lemma dec_prop_app {A} (mk : A → Property) (c : Packetize A) valid
    `{!RoundTrip c valid} v vb rest :
  valid v → encode c v = Ok vb →
  dec_prop mk c (as_ref vb ++ rest) = Ok (mk v, length (as_ref vb)).
Proof. intros Hv He. unfold dec_prop. by rewrite (round_trip v vb rest Hv He). Qed.

Lemma u8_from_QoS_byte q : is_u8 (u8_from_QoS q).
Proof. destruct q; unfold is_u8; cbn; lia. Qed.

Lemma QoS_roundtrip q : QoS_try_from (u8_from_QoS q) = Ok q.
Proof. by destruct q. Qed.

Lemma Property_encode_Ok p b :
  Property_encode p = Ok b → valid_Property p →
  ∃ tl, as_ref b = PropertyType_as_u32 (Property_to_property_type p) :: tl ∧
        is_bytes tl ∧
        ∀ rest, Property_decode_value (Property_to_property_type p) (tl ++ rest)
                = Ok (p, length tl).
Proof.
  unfold Property_encode. intros H Hv. apply bind_Ok in H as (d & H & [= <-]).
  rewrite as_ref_Large.
  destruct p; cbn [Property_to_property_type valid_Property] in *;
    apply enc_prop_Ok in H as (vb & He & ->); cbn [app];
    exists (as_ref vb); (split; [done|]).
  all: try (split; [exact (encode_bytes _ _ Hv He)|];
            intros rest; exact (dec_prop_app _ _ _ _ _ rest Hv He)).
  (* MaximumQoS *)
  injection He as <-. rewrite as_ref_small.
  split; [apply Forall_singleton, u8_from_QoS_byte|].
  intros rest. cbn. by rewrite QoS_roundtrip.
Qed.

Lemma enc_prop_settled {A} data pt (c : Packetize A) valid `{!RoundTrip c valid} v :
  valid v → settled (enc_prop data pt c v).
Proof.
  intros Hv. unfold enc_prop. rewrite PropertyType_tag, bind_Ok_1.
  apply settled_bind; [by apply encode_settled|done].
Qed.

#[export] Instance Property_round_trip : RoundTrip Property_codec valid_Property.
Proof.
  split; cbn [encode decode Property_codec].
  - intros p Hv. unfold Property_encode. apply settled_bind; [|done].
    destruct p; cbn [valid_Property] in Hv;
      try exact (enc_prop_settled _ _ _ _ _ Hv).
    apply (enc_prop_settled _ _ _ is_u8), u8_from_QoS_byte.
  - intros p b Hv H. destruct (Property_encode_Ok p b H Hv) as (tl & -> & Htl & _).
    apply Forall_cons_2; [|done].
    pose proof (PropertyType_as_u32_bound (Property_to_property_type p)).
    unfold is_u8. lia.
  - intros p b rest Hv H. destruct (Property_encode_Ok p b H Hv) as (tl & -> & _ & Hd).
    cbn [app]. rewrite Property_decode_tag, Hd. done.
Qed.

(** Every arm of the match is a decoder that returns a property of its type. *)
Lemma dec_prop_total {A} (mk : A → Property) (c : Packetize A) valid
    `{!TotalDecoder c valid} (Q : Property → Prop) s :
  is_bytes s → (∀ v, valid v → Q (mk v)) →
  settled (dec_prop mk c s) ∧
  ∀ p n, dec_prop mk c s = Ok (p, n) → (0 < n ≤ length s)%nat ∧ Q p.
Proof.
  intros Hs HQ. unfold dec_prop. split.
  - apply settled_bind; [by apply decode_settled|by intros [??] _].
  - intros p n H. outcome_inv H. apply decode_bound in Hr as [? ?]; [|done].
    split; [done|]. by apply HQ.
Qed.

Lemma Property_decode_value_total pt s :
  is_bytes s →
  settled (Property_decode_value pt s) ∧
  ∀ p n, Property_decode_value pt s = Ok (p, n) →
    (0 < n ≤ length s)%nat ∧ valid_Property p.
Proof.
  intros Hs. destruct pt; cbn [Property_decode_value];
    try exact (dec_prop_total _ _ _ valid_Property s Hs (λ v Hv, Hv)).
  - exact (dec_prop_total _ _ _ valid_Property s Hs (λ v Hv, proj1 Hv)).
  - split.
    + apply settled_bind; [exact (decode_settled (c := u8_codec) s Hs)|intros [v n] _].
      apply settled_bind; [|done]. unfold QoS_try_from. repeat case_match; exact I.
    + intros p n H. outcome_inv H.
      apply (decode_bound (c := u8_codec)) in Hr as [? _]; [|done]. split; [lia|done].
Qed.

#[export] Instance Property_total : TotalDecoder Property_codec valid_Property.
Proof.
  split; cbn [decode Property_codec]; unfold Property_decode; intros s.
  - intros Hs. apply settled_bind; [by apply (dec_field_settled VarU32_codec is_VarU32)|].
    intros [t n] _. apply settled_bind; [apply advance_settled|].
    intros s' [_ ->]%advance_Ok. apply settled_bind.
    + unfold PropertyType_try_from. repeat case_match; exact I.
    + intros pt _. apply settled_bind; [|by intros [??] _].
      apply Property_decode_value_total. by apply Forall_drop.
  - intros p n Hs H. outcome_inv H.
    apply (dec_field_bound VarU32_codec is_VarU32) in Hr as [? _]; [|done].
    apply advance_Ok in Hr0 as [? ->].
    apply Property_decode_value_total in Hr2 as [? ?]; [|by apply Forall_drop].
    rewrite length_drop in *. split; [lia|done].
Qed.
