(* ===== verification/PropsBlock.v ===== *)
(** Property blocks against their specification.

    A property structure stands for a list of properties, in the order its
    encoder writes them.  [PropsBlock] is the interface between a structure of a
    packet file and the generic theorems: the encoder writes that list, and
    folding the structure's [step] over it rebuilds the structure.  From it
    follow the round trip of the block and of the optional block of a packet;
    termination and bounds of the decode loop hold for every structure. *)

From S2P Require Import Prelude Error Util Codec Types V5 V5Facts.
Local Open Scope Z_scope.

(** * Lists of properties on the wire *)

Fixpoint enc_list (ps : list Property) : Result bytes :=
  match ps with
  | [] => Ok []
  | p :: ps => b ← Property_encode p; d ← enc_list ps; Ok (as_ref b ++ d)
  end.

Lemma enc_list_app ps qs d e :
  enc_list ps = Ok d → enc_list qs = Ok e → enc_list (ps ++ qs) = Ok (d ++ e).
Proof.
  revert d. induction ps as [|p ps IH]; cbn; intros d Hd He; [by injection Hd as <-|].
  outcome_inv Hd. rewrite Hr. cbn. rewrite (IH _ Hr0 He). cbn. by rewrite app_assoc.
Qed.

(** [emits a ps b]: appending the properties [ps] to the data [a] gives [b]. *)
Definition emits (a : bytes) (ps : list Property) (b : bytes) : Prop :=
  ∃ d, enc_list ps = Ok d ∧ b = a ++ d.

Lemma emits_nil a : emits a [] a.
Proof. exists []. by rewrite app_nil_r. Qed.

Lemma emits_trans a ps b qs c : emits a ps b → emits b qs c → emits a (ps ++ qs) c.
Proof.
  intros (d & Hd & ->) (e & He & ->). exists (d ++ e).
  split; [by apply enc_list_app|by rewrite app_assoc].
Qed.

(** The property an optional field stands for, if any. *)
Definition opt_prop {A} (mk : A → Property) (o : option A) : list Property :=
  match o with Some v => [mk v] | None => [] end.

Lemma opt_prop_valid {A} (mk : A → Property) (o : option A) :
  (∀ x, o = Some x → valid_Property (mk x)) → Forall valid_Property (opt_prop mk o).
Proof. intros H. destruct o as [x|]; cbn; constructor; auto. Qed.

Lemma emits_prop {A} p pt (c : Packetize A) a v b :
  (Property_encode p = d ← enc_prop [] pt c v; Ok (Large d)) →
  enc_prop a pt c v = Ok b → emits a [p] b.
Proof.
  intros Hp (vb & He & ->)%enc_prop_Ok. unfold emits. cbn. rewrite Hp.
  assert (enc_prop [] pt c v = Ok (PropertyType_as_u32 pt :: as_ref vb)) as ->.
  { apply enc_prop_Ok. eauto. }
  eexists. split; [reflexivity|]. rewrite as_ref_Large, app_nil_r. done.
Qed.

Lemma emits_opt {A} (mk : A → Property) pt (c : Packetize A) a o b :
  (∀ v, Property_encode (mk v) = d ← enc_prop [] pt c v; Ok (Large d)) →
  enc_prop_opt a pt c o = Ok b → emits a (opt_prop mk o) b.
Proof.
  intros Hmk. destruct o; cbn.
  - by apply emits_prop.
  - intros [= <-]. apply emits_nil.
Qed.

Definition bool_u8 (b : bool) : u8 := if b then 1 else 0.

Lemma emits_bool (mk : u8 → Property) pt a o b :
  (∀ v, Property_encode (mk v) = d ← enc_prop [] pt u8_codec v; Ok (Large d)) →
  enc_prop_bool a pt o = Ok b → emits a (opt_prop (λ v, mk (bool_u8 v)) o) b.
Proof.
  intros Hmk. destruct o; cbn.
  - by apply emits_prop.
  - intros [= <-]. apply emits_nil.
Qed.

(** The list of a payload format: written for UTF-8 only. *)
Definition format_prop (f : PayloadFormat) : list Property :=
  match f with
  | PayloadFormat.Binary => []
  | PayloadFormat.Utf8 => [Property.PayloadFormatIndicator 1]
  end.

Lemma emits_format a f b : enc_prop_format a f = Ok b → emits a (format_prop f) b.
Proof.
  destruct f; cbn.
  - intros [= <-]. apply emits_nil.
  - by apply emits_prop.
Qed.

Lemma emits_QoS a o b :
  enc_prop_opt a PropertyType.MaximumQoS u8_codec (u8_from_QoS <$> o) = Ok b →
  emits a (opt_prop Property.MaximumQoS o) b.
Proof.
  destruct o as [q|].
  - by apply (emits_prop _ PropertyType.MaximumQoS u8_codec).
  - intros [= <-]. apply emits_nil.
Qed.

(** Authentication data written through the codec of strings: the same bytes. *)
Lemma emits_auth_data a o b :
  enc_prop_opt a PropertyType.AuthenticationData String_codec o = Ok b →
  emits a (opt_prop Property.AuthenticationData o) b.
Proof.
  destruct o as [v|]; [|intros [= <-]; apply emits_nil].
  cbn [enc_prop_opt opt_prop]. intros (vb & He & ->)%enc_prop_Ok.
  apply String_encode_Ok in He as (E & Hl & _). unfold emits.
  cbn [enc_list]. unfold Property_encode.
  assert (enc_prop [] PropertyType.AuthenticationData Vec_codec v
          = Ok (PropertyType_as_u32 PropertyType.AuthenticationData :: as_ref vb)) as ->.
  { apply enc_prop_Ok. exists (Large (as_ref vb)). split; [|by rewrite as_ref_Large].
    cbn. unfold Vec_encode. rewrite (proj2 (Z.ltb_ge _ _)) by lia. by rewrite E. }
  eexists. split; [reflexivity|]. by rewrite as_ref_Large, app_nil_r.
Qed.

Lemma emits_each {A} (mk : A → Property) pt (c : Packetize A) a vals b :
  (∀ v, Property_encode (mk v) = d ← enc_prop [] pt c v; Ok (Large d)) →
  enc_prop_each a pt c vals = Ok b → emits a (mk <$> vals) b.
Proof.
  intros Hmk. revert a. induction vals as [|v vals IH]; cbn; intros a H.
  - injection H as <-. apply emits_nil.
  - outcome_inv H. apply (emits_trans _ [mk v] r); [by eapply emits_prop|by apply IH].
Qed.

(** * Encoders do not panic *)

(** The encoder of a field returns on every value. *)
Class SettledEncoder {A} (c : Packetize A) : Prop :=
  encoder_settled : ∀ v, settled (encode c v).

#[export] Instance u8_settled_enc : SettledEncoder u8_codec.
Proof. done. Qed.
#[export] Instance u16_settled_enc : SettledEncoder u16_codec.
Proof. done. Qed.
#[export] Instance u32_settled_enc : SettledEncoder u32_codec.
Proof. done. Qed.
#[export] Instance VarU32_settled_enc : SettledEncoder VarU32_codec.
Proof. intros v. cbn. unfold VarU32_encode. repeat case_match; exact I. Qed.
#[export] Instance String_settled_enc : SettledEncoder String_codec.
Proof. intros v. cbn. unfold String_encode. repeat case_match; exact I. Qed.
#[export] Instance Vec_settled_enc : SettledEncoder Vec_codec.
Proof. intros v. cbn. unfold Vec_encode. repeat case_match; exact I. Qed.
#[export] Instance UserProperty_settled_enc : SettledEncoder UserProperty_codec.
Proof.
  intros [k v]. cbn. unfold UserProperty_encode.
  repeat first [exact I | apply String_settled_enc | case_match
               | apply settled_bind; [|intros ? _]].
Qed.
#[export] Instance TopicName_settled_enc : SettledEncoder TopicName_codec.
Proof.
  intros v. cbn. unfold TopicName_encode.
  repeat first [exact I | apply TopicName_validate_settled | apply String_settled_enc
               | apply settled_bind; [|intros ? _]].
Qed.
#[export] Instance TopicFilter_settled_enc : SettledEncoder TopicFilter_codec.
Proof.
  intros v. cbn. unfold TopicFilter_encode.
  repeat first [exact I | apply TopicFilter_validate_settled | apply String_settled_enc
               | apply settled_bind; [|intros ? _]].
Qed.

Section settled_encode.
Context {A} (c : Packetize A) `{!SettledEncoder c}.

Lemma enc_prop_any_settled data pt v : settled (enc_prop data pt c v).
Proof.
  unfold enc_prop. rewrite PropertyType_tag, bind_Ok_1.
  apply settled_bind; [apply encoder_settled|done].
Qed.

Lemma enc_prop_opt_settled data pt o : settled (enc_prop_opt data pt c o).
Proof. destruct o; [apply enc_prop_any_settled|exact I]. Qed.

Lemma enc_prop_each_settled data pt vals : settled (enc_prop_each data pt c vals).
Proof.
  revert data. induction vals as [|v vals IH]; intros data; [exact I|].
  cbn [enc_prop_each]. apply settled_bind; [apply enc_prop_any_settled|intros; apply IH].
Qed.
End settled_encode.

Lemma enc_prop_bool_settled data pt o : settled (enc_prop_bool data pt o).
Proof. destruct o; [by apply enc_prop_any_settled|exact I]. Qed.

Lemma enc_prop_format_settled data f : settled (enc_prop_format data f).
Proof. destruct f; exact I. Qed.

Lemma insert_property_len_settled n data : settled (insert_property_len n data).
Proof.
  unfold insert_property_len. apply settled_bind; [apply u32_try_from_settled|intros z _].
  apply settled_bind; [exact (encoder_settled (c := VarU32_codec) _)|done].
Qed.

(** Walks an encoder, write by write. *)
Ltac settle_encode :=
  repeat first
    [ exact I
    | apply encoder_settled
    | apply enc_prop_any_settled; exact _ | apply enc_prop_opt_settled; exact _
    | apply enc_prop_each_settled; exact _
    | apply enc_prop_bool_settled | apply enc_prop_format_settled
    | apply insert_property_len_settled | apply u32_try_from_settled
    | apply settled_bind; [|intros ? ?] ].

Lemma enc_list_bytes ps d :
  Forall valid_Property ps → enc_list ps = Ok d → is_bytes d.
Proof.
  revert d. induction ps as [|p ps IH]; cbn; intros d Hv H; [injection H as <-; constructor|].
  apply Forall_cons_1 in Hv as [Hp Hv]. outcome_inv H.
  apply Forall_app_2; [exact (encode_bytes (c := Property_codec) _ _ Hp Hr)|auto].
Qed.

Lemma enc_list_length ps d :
  Forall valid_Property ps → enc_list ps = Ok d → (length ps ≤ length d)%nat.
Proof.
  revert d. induction ps as [|p ps IH]; cbn; intros d Hv H; [injection H as <-; done|].
  apply Forall_cons_1 in Hv as [Hp Hv]. outcome_inv H.
  destruct (Property_encode_Ok _ _ Hr Hp) as (tl & -> & _). rewrite length_app. cbn.
  specialize (IH _ Hv Hr0). lia.
Qed.

(** * The decode loop *)

Section loop.
Context {P : Type} (dup_err : PropertyType → bool → bool) (step : P → Property → Result P).

(** The loop on a list of properties instead of a stream. *)
Fixpoint fold_props (dups : list bool) (props : P) (ps : list Property) : Result P :=
  match ps with
  | [] => Ok props
  | p :: ps =>
      let pt := Property_to_property_type p in
      if dup_err pt (dups_get dups pt) then
        err ErrorKind.ProtocolError ReasonCode.ProtocolError
      else
        props ← step props p;
        fold_props (dups_set dups pt) props ps
  end.

(** On the encoding of a list the loop is the fold. *)
Lemma props_loop_fold ps : ∀ fuel pre body rest dups props,
  Forall valid_Property ps → enc_list ps = Ok body → (length ps ≤ fuel)%nat →
  props_loop dup_err step fuel (pre ++ body ++ rest)
    (Z.of_nat (length pre + length body)) (length pre) dups props
  = (props ← fold_props dups props ps; Ok (props, (length pre + length body)%nat)).
Proof.
  induction ps as [|p ps IH]; intros fuel pre body rest dups props Hv He Hf.
  - injection He as <-. cbn [length]. rewrite Nat.add_0_r.
    destruct fuel; cbn; by rewrite Z.ltb_irrefl.
  - apply Forall_cons_1 in Hv as [Hp Hv]. cbn [enc_list] in He. outcome_inv He.
    destruct (Property_encode_Ok _ _ Hr Hp) as (tl & Eb & _).
    assert (0 < length (as_ref r))%nat as Hpos by (rewrite Eb; cbn; lia).
    destruct fuel as [|fuel]; [cbn in Hf; lia|]. cbn [props_loop fold_props].
    rewrite (proj2 (Z.ltb_lt _ _)) by (rewrite length_app; lia).
    rewrite <- app_assoc.
    rewrite (dec_field_app Property_codec valid_Property p r pre) by done.
    rewrite bind_Ok_1. destruct (dup_err _ _); [done|].
    destruct (step props p) as [props'| | |]; [|done..]. cbn [mbind outcome_bind].
    specialize (IH fuel (pre ++ as_ref r) r0 rest
      (dups_set dups (Property_to_property_type p)) props' Hv Hr0
      ltac:(cbn in Hf; lia)).
    rewrite <- !app_assoc, length_app in IH.
    rewrite length_app, Nat.add_assoc. exact IH.
Qed.

(** A length and the encoding of a list of properties, decoded. *)
Lemma props_decode_list init ps lb d rest :
  Forall valid_Property ps → enc_list ps = Ok d →
  VarU32_encode (mkVarU32 (Z.of_nat (length d))) = Ok lb →
  is_VarU32 (mkVarU32 (Z.of_nat (length d))) →
  props_decode dup_err step init (as_ref lb ++ d ++ rest)
  = (x ← fold_props (replicate 256 false) init ps;
     Ok (x, (length (as_ref lb) + length d)%nat)).
Proof.
  intros Hps Hd Hlb Hr. unfold props_decode.
  pose proof (dec_field_app VarU32_codec is_VarU32 _ lb [] (d ++ rest) 0 Hr Hlb eq_refl) as E.
  cbn [app] in E. rewrite E, bind_Ok_1. cbn [varu32].
  replace (Z.of_nat (length d) + Z.of_nat (0 + length (as_ref lb)))%Z
    with (Z.of_nat (length (as_ref lb) + length d)) by lia.
  cbn [Nat.add]. rewrite (props_loop_fold ps); [done..|].
  pose proof (enc_list_length _ _ Hps Hd). rewrite !length_app. lia.
Qed.

Hypothesis step_settled : ∀ props p, settled (step props p).

(** With the stream's length as fuel the loop returns. *)
Lemma props_loop_settled fuel : ∀ stream limit n dups props,
  is_bytes stream → (length stream < n + fuel)%nat → (n ≤ length stream)%nat →
  settled (props_loop dup_err step fuel stream limit n dups props).
Proof.
  induction fuel as [|fuel IH]; intros stream limit n dups props Hs Hf Hn; [lia|].
  cbn [props_loop]. destruct (_ <? _); [|exact I].
  apply settled_bind; [by apply (dec_field_settled Property_codec valid_Property)|].
  intros [p m] H. apply (dec_field_bound Property_codec valid_Property) in H as [? _]; [|done].
  destruct (dup_err _ _); [exact I|].
  apply settled_bind; [done|intros props' _]. apply IH; [done|lia..].
Qed.

Lemma props_loop_bound fuel : ∀ stream limit n dups props props' m,
  is_bytes stream → (n ≤ length stream)%nat →
  props_loop dup_err step fuel stream limit n dups props = Ok (props', m) →
  (n ≤ m ≤ length stream)%nat.
Proof.
  induction fuel as [|fuel IH]; intros stream limit n dups props props' m Hs Hn;
    cbn [props_loop]; destruct (_ <? _); try done; try (intros [= <- <-]; lia).
  intros H. apply bind_Ok in H as ([p k] & Hd & H).
  apply (dec_field_bound Property_codec valid_Property) in Hd as [? _]; [|done].
  destruct (dup_err _ _); [done|]. apply bind_Ok in H as (props1 & _ & H).
  apply IH in H; [lia|done|lia].
Qed.

Lemma props_decode_settled init stream :
  is_bytes stream → settled (props_decode dup_err step init stream).
Proof.
  intros Hs. unfold props_decode.
  apply settled_bind; [by apply (dec_field_settled VarU32_codec is_VarU32)|].
  intros [len n] H. apply (dec_field_bound VarU32_codec is_VarU32) in H as [? _]; [|done].
  apply props_loop_settled; [done|lia..].
Qed.

Lemma props_decode_bound init stream props n :
  is_bytes stream → props_decode dup_err step init stream = Ok (props, n) →
  (0 < n ≤ length stream)%nat.
Proof.
  intros Hs H. unfold props_decode in H. apply bind_Ok in H as ([len k] & Hd & H).
  apply (dec_field_bound VarU32_codec is_VarU32) in Hd as [? _]; [|done].
  apply props_loop_bound in H; [lia|done|lia].
Qed.
End loop.

(** * Repeated properties *)

(** [nth] and the update of the flags, on property types. *)
Lemma dups_get_set dups pt pt' :
  length dups = 256%nat →
  dups_get (dups_set dups pt) pt' = if decide (pt = pt') then true else dups_get dups pt'.
Proof.
  intros Hl. unfold dups_get, dups_set. rewrite !nth_lookup.
  pose proof (PropertyType_as_u32_bound pt). pose proof (PropertyType_as_u32_bound pt').
  case_decide as E.
  - subst pt'. by rewrite list_lookup_insert_eq by lia.
  - rewrite list_lookup_insert_ne; [done|]. intros E'. apply E.
    apply PropertyType_as_u32_inj. lia.
Qed.

Fixpoint foldM {P} (step : P → Property → Result P) (props : P) (ps : list Property) : Result P :=
  match ps with
  | [] => Ok props
  | p :: ps => props ← step props p; foldM step props ps
  end.

(** The types a duplicate test watches, in a list of properties. *)
Definition watched_types (watched : PropertyType → bool) (ps : list Property)
    : list PropertyType :=
  filter (λ pt, watched pt = true) (Property_to_property_type <$> ps).

(** Without a repeated watched type the duplicate test never fires. *)
Lemma fold_props_foldM {P} dup_err watched (step : P → Property → Result P) ps :
  (∀ pt seen, dup_err pt seen = watched pt && seen) →
  ∀ dups props, length dups = 256%nat →
  NoDup (watched_types watched ps) →
  (∀ pt, pt ∈ watched_types watched ps → dups_get dups pt = false) →
  fold_props dup_err step dups props ps = foldM step props ps.
Proof.
  intros Hw. induction ps as [|p ps IH]; intros dups props Hl Hnd Hd; [done|].
  cbn [fold_props foldM]. rewrite Hw.
  set (pt := Property_to_property_type p) in *.
  assert (watched pt && dups_get dups pt = false) as ->.
  { destruct (watched pt) eqn:E; [|done]. cbn. apply Hd.
    unfold watched_types. cbn [fmap list_fmap]. fold pt.
    rewrite filter_cons_True by done. apply list_elem_of_here. }
  destruct (step props p) as [props'| | |]; [|done..]. cbn [mbind outcome_bind].
  unfold watched_types in *. cbn [fmap list_fmap] in *. fold pt in Hnd, Hd.
  apply IH.
  - unfold dups_set. by rewrite length_insert.
  - destruct (decide (watched pt = true)) as [E|E].
    + rewrite filter_cons_True in Hnd by done. by inversion Hnd.
    + by rewrite filter_cons_False in Hnd.
  - intros pt' Hin. rewrite dups_get_set by done. case_decide as E.
    + subst pt'. exfalso. pose proof Hin as [Hwt _]%list_elem_of_filter.
      rewrite filter_cons_True in Hnd by done. by inversion Hnd.
    + apply Hd. destruct (decide (watched pt = true)).
      * rewrite filter_cons_True by done. by apply list_elem_of_further.
      * by rewrite filter_cons_False.
Qed.

(** And a repeated one never gets through. *)
Lemma fold_props_NoDup {P} dup_err watched (step : P → Property → Result P) ps :
  (∀ pt seen, dup_err pt seen = watched pt && seen) →
  ∀ dups props x, length dups = 256%nat →
  fold_props dup_err step dups props ps = Ok x →
  NoDup (watched_types watched ps) ∧
  ∀ pt, pt ∈ watched_types watched ps → dups_get dups pt = false.
Proof.
  intros Hw. induction ps as [|p ps IH]; intros dups props x Hl H.
  { split; [constructor|]. by intros pt ?%elem_of_nil. }
  cbn [fold_props] in H. rewrite Hw in H. set (pt := Property_to_property_type p) in *.
  destruct (watched pt && dups_get dups pt) eqn:E; [done|].
  apply bind_Ok in H as (props' & _ & H).
  apply IH in H as [Hnd Hd]; [|unfold dups_set; by rewrite length_insert].
  assert (∀ pt', pt' ∈ watched_types watched ps → pt ≠ pt' ∧ dups_get dups pt' = false) as Hd'.
  { intros pt' Hin. specialize (Hd pt' Hin). rewrite dups_get_set in Hd by done.
    by case_decide. }
  unfold watched_types in *. cbn [fmap list_fmap]. fold pt.
  destruct (decide (watched pt = true)) as [Hwt|Hwt].
  - rewrite filter_cons_True by done. split.
    + constructor; [|done]. intros Hin. by destruct (Hd' pt Hin).
    + intros pt' [->|Hin]%elem_of_cons; [by rewrite Hwt in E|by apply Hd'].
  - rewrite filter_cons_False by done. split; [done|]. intros pt' Hin. by apply Hd'.
Qed.

Lemma dups_get_init pt : dups_get (replicate 256 false) pt = false.
Proof. by destruct pt. Qed.

Lemma foldM_app {P} (step : P → Property → Result P) props ps qs :
  foldM step props (ps ++ qs) = props ← foldM step props ps; foldM step props qs.
Proof.
  revert props. induction ps as [|p ps IH]; intros props; [done|].
  cbn. destruct (step props p); cbn; done.
Qed.

(** One optional field, set through [set]. *)
Lemma foldM_opt {P A} (set : option A → P → P) step (mk : A → Property) o props :
  (∀ v, o = Some v → step props (mk v) = Ok (set (Some v) props)) →
  set None props = props →
  foldM step props (opt_prop mk o) = Ok (set o props).
Proof.
  intros H1 H2. destruct o as [v|]; cbn; [by rewrite H1|by rewrite H2].
Qed.

(** A list field, pushed one element at a time. *)
Lemma foldM_push {P A} (set : list A → P → P) step (mk : A → Property) l :
  (∀ acc v props, step (set acc props) (mk v) = Ok (set (acc ++ [v]) props)) →
  ∀ acc props, foldM step (set acc props) (mk <$> l) = Ok (set (acc ++ l) props).
Proof.
  intros H. induction l as [|v l IH]; intros acc props; cbn.
  - by rewrite app_nil_r.
  - rewrite H. cbn. rewrite IH. by rewrite <- app_assoc.
Qed.

Lemma watched_types_app w ps qs :
  watched_types w (ps ++ qs) = watched_types w ps ++ watched_types w qs.
Proof. unfold watched_types. by rewrite fmap_app, filter_app. Qed.

(** A field contributes its type at most once to the watched types. *)
Lemma watched_opt {A} w (mk : A → Property) pt o :
  (∀ v, Property_to_property_type (mk v) = pt) →
  watched_types w (opt_prop mk o) `sublist_of` [pt].
Proof.
  intros H. destruct o as [v|]; cbn [opt_prop]; [|apply sublist_nil_l].
  unfold watched_types. cbn [fmap list_fmap]. rewrite H.
  destruct (decide (w pt = true)).
  - by rewrite filter_cons_True.
  - rewrite filter_cons_False by done. apply sublist_nil_l.
Qed.

Lemma watched_format w f :
  watched_types w (format_prop f) `sublist_of` [PropertyType.PayloadFormatIndicator].
Proof.
  destruct f; [apply sublist_nil_l|].
  exact (watched_opt w Property.PayloadFormatIndicator PropertyType.PayloadFormatIndicator
           (Some 1) (λ _, eq_refl)).
Qed.

(** A list with at most one element. *)
Lemma watched_le1 {A} w (mk : A → Property) pt (l : list A) :
  (∀ v, Property_to_property_type (mk v) = pt) → (length l ≤ 1)%nat →
  watched_types w (mk <$> l) `sublist_of` [pt].
Proof.
  intros H Hl. destruct l as [|v [|? ?]]; [apply sublist_nil_l| |cbn in Hl; lia].
  exact (watched_opt w mk pt (Some v) H).
Qed.

Lemma watched_none {A} w (mk : A → Property) pt (l : list A) :
  (∀ v, Property_to_property_type (mk v) = pt) → w pt = false →
  watched_types w (mk <$> l) = [].
Proof.
  intros H Hw. unfold watched_types. induction l as [|v l IH]; [done|].
  cbn [fmap list_fmap] in *. rewrite H, filter_cons_False by congruence. exact IH.
Qed.

Definition watched_std (pt : PropertyType) : bool := negb (bool_decide (pt = PropertyType.UserProp)).

(** A payload format, set through [set]. *)
Lemma foldM_format {P} (set : PayloadFormat → P → P) step f props :
  step props (Property.PayloadFormatIndicator 1) = Ok (set PayloadFormat.Utf8 props) →
  set PayloadFormat.Binary props = props →
  foldM step props (format_prop f) = Ok (set f props).
Proof. intros H1 H2. destruct f; cbn; [by rewrite H2|by rewrite H1]. Qed.

Lemma dup_err_std_watched pt seen : dup_err_std pt seen = watched_std pt && seen.
Proof. done. Qed.

(** The duplicate test does not fire when the watched types are among a list
    without repetition. *)
Lemma fold_props_watched {P} dup_err watched types (step : P → Property → Result P)
    init ps x :
  (∀ pt seen, dup_err pt seen = watched pt && seen) →
  watched_types watched ps `sublist_of` types → NoDup types →
  foldM step init ps = Ok x →
  fold_props dup_err step (replicate 256 false) init ps = Ok x.
Proof.
  intros Hw Hs Hnd H. rewrite (fold_props_foldM _ watched) by
    (first [done | apply length_replicate | by eapply sublist_NoDup | intros; apply dups_get_init]).
  exact H.
Qed.

(** * The interface *)

Class PropsBlock {P} (enc : P → Result Blob) (dup_err : PropertyType → bool → bool)
    (step : P → Property → Result P) (init : P) (to_props : P → list Property)
    (valid : P → Prop) : Prop := {
  block_valid : ∀ x, valid x → Forall valid_Property (to_props x);
  block_encode : ∀ x b, enc x = Ok b →
    ∃ body data, emits [] (to_props x) body ∧
      insert_property_len (length body) body = Ok data ∧ as_ref b = data;
  block_fold : ∀ x, valid x →
    fold_props dup_err step (replicate 256 false) init (to_props x) = Ok x;
  block_step_settled : ∀ x p, settled (step x p);
  block_encode_returns : ∀ x, settled (enc x);
}.

Section block.
Context {P} (enc : P → Result Blob) (dup_err : PropertyType → bool → bool)
  (step : P → Property → Result P) (init : P)
  (to_props : P → list Property) (valid : P → Prop).
Context `{B : !PropsBlock enc dup_err step init to_props valid}.

Lemma block_bytes x b : valid x → enc x = Ok b → is_bytes (as_ref b).
Proof.
  intros Hv (body & data & (d & Hd & ->) & Hl & ->)%(block_encode (PropsBlock := B)).
  apply insert_property_len_Ok in Hl as (lb & Hlb & -> & Hr).
  apply Forall_app_2; [exact (encode_bytes (c := VarU32_codec) _ _ Hr Hlb)|].
  eapply enc_list_bytes; [|exact Hd]. by apply (block_valid (PropsBlock := B)).
Qed.

(** The decoder gives the structure back, and stops at the end of the block. *)
Lemma block_round_trip x b rest :
  valid x → enc x = Ok b →
  props_decode dup_err step init (as_ref b ++ rest) = Ok (x, length (as_ref b)).
Proof.
  intros Hv (body & data & (d & Hd & ->) & Hl & ->)%(block_encode (PropsBlock := B)).
  apply insert_property_len_Ok in Hl as (lb & Hlb & -> & Hr). cbn [app] in *.
  rewrite <- app_assoc, (props_decode_list dup_err step init (to_props x)) by
    (done || by apply (block_valid (PropsBlock := B))).
  by rewrite (block_fold (PropsBlock := B) x Hv), bind_Ok_1, length_app.
Qed.

Lemma block_nil_init x : valid x → to_props x = [] → x = init.
Proof.
  intros Hv E. pose proof (block_fold (PropsBlock := B) x Hv) as H.
  rewrite E in H. cbn in H. congruence.
Qed.

End block.

(** * The block of a packet

    What a packet needs to know about its property structure: the bytes are a
    length followed by a body that is not empty, and they decode back. *)
Class BlockCodec {P} (enc : P → Result Blob) (dec : bytes → Result (P * nat))
    (valid : P → Prop) : Prop := {
  block_shape : ∀ x b, valid x → enc x = Ok b →
    ∃ lb d, VarU32_encode (mkVarU32 (Z.of_nat (length d))) = Ok lb ∧
      is_VarU32 (mkVarU32 (Z.of_nat (length d))) ∧
      as_ref b = as_ref lb ++ d ∧ is_bytes d ∧ d ≠ [];
  block_decode : ∀ x b rest, valid x → enc x = Ok b →
    dec (as_ref b ++ rest) = Ok (x, length (as_ref b));
  block_enc_settled : ∀ x, settled (enc x);
  block_settled : ∀ s, is_bytes s → settled (dec s);
  block_bound : ∀ s x n, is_bytes s → dec s = Ok (x, n) → (0 < n ≤ length s)%nat;
}.

(** The structures that are a fold: an empty one is written as a zero length and
    read back as no structure, hence [x ≠ init]. *)
Lemma PropsBlock_codec {P} (enc : P → Result Blob)
    (dup_err : PropertyType → bool → bool) step init to_props valid :
  PropsBlock enc dup_err step init to_props valid →
  BlockCodec enc (props_decode dup_err step init) (λ x, valid x ∧ x ≠ init).
Proof.
  intros B. split.
  - intros x b [Hv Hne] (body & data & (d & Hd & ->) & Hl & ->)%(block_encode (PropsBlock := B)).
    apply insert_property_len_Ok in Hl as (lb & Hlb & -> & Hr). cbn [app] in *.
    exists lb, d. repeat split; [done|apply Hr..|by eapply enc_list_bytes, Hd;
      apply (block_valid (PropsBlock := B))|].
    intros ->. apply Hne, (block_nil_init enc dup_err step init to_props valid); [done|].
    pose proof (enc_list_length _ _ (block_valid (PropsBlock := B) x Hv) Hd).
    destruct (to_props x); [done|cbn in *; lia].
  - intros x b rest [Hv _] He. by eapply block_round_trip.
  - apply (block_encode_returns (PropsBlock := B)).
  - intros s Hs. apply props_decode_settled; [|done]. apply (block_step_settled (PropsBlock := B)).
  - intros s x n Hs. by apply props_decode_bound.
Qed.

Section packet_block.
Context {P} (enc : P → Result Blob) (dec : bytes → Result (P * nat)) (valid : P → Prop).
Context `{B : !BlockCodec enc dec valid}.

Lemma dec_props_at s n o data tl :
  at_pos s n (data ++ tl) → (∀ x, o = Some x → valid x) → enc_props enc o = Ok data →
  dec_props dec s n = Ok (o, (n + length data)%nat).
Proof.
  intros [Hn Hd] Ho He. unfold dec_props.
  rewrite (proj2 (advance_Ok s n _) (conj Hn (eq_sym Hd))), bind_Ok_1.
  destruct o as [x|]; cbn [enc_props] in He.
  - apply bind_Ok in He as (b & Hb & [= <-]).
    pose proof (block_decode (BlockCodec := B) x b tl (Ho x eq_refl) Hb) as Ert. revert Ert.
    apply (block_shape (BlockCodec := B)) in Hb as (lb & d & Hlb & Hr & -> & _ & Hne); [|auto].
    rewrite <- app_assoc. intros Ert.
    pose proof (round_trip (c := VarU32_codec) _ _ (d ++ tl) Hr Hlb) as E.
    cbn [decode VarU32_codec] in E. rewrite E, bind_Ok_1. cbn [varu32].
    destruct (Z.eqb_spec (Z.of_nat (length d)) 0) as [Hz|Hz]; [by destruct d|].
    rewrite bind_Ok_1, Ert, bind_Ok_1, length_app.
    rewrite (proj2 (Z.eqb_eq _ _)) by lia. done.
  - apply bind_Ok in He as (b & Hb & [= <-]). injection Hb as <-.
    by rewrite as_ref_small.
Qed.

Lemma enc_props_settled o : settled (enc_props enc o).
Proof.
  destruct o; cbn; [|exact I].
  apply settled_bind; [apply (block_enc_settled (BlockCodec := B))|done].
Qed.

Lemma enc_props_bytes o data :
  (∀ x, o = Some x → valid x) → enc_props enc o = Ok data → is_bytes data ∧ data ≠ [].
Proof.
  intros Ho He. destruct o as [x|]; cbn [enc_props] in He.
  - apply bind_Ok in He as (b & Hb & [= <-]).
    apply (block_shape (BlockCodec := B)) in Hb as (lb & d & Hlb & Hr & -> & Hd & Hne); [|auto].
    split; [|by intros [_ ->]%app_eq_nil].
    apply Forall_app_2; [exact (encode_bytes (c := VarU32_codec) _ _ Hr Hlb)|done].
  - rewrite VarU32_encode_0, bind_Ok_1, as_ref_small in He. injection He as <-.
    split; [|done]. apply Forall_singleton. unfold is_u8. lia.
Qed.

Lemma dec_props_settled stream n : is_bytes stream → settled (dec_props dec stream n).
Proof.
  intros Hs. unfold dec_props.
  destruct (advance stream n) as [s'| | |] eqn:Ea; [|exact I|..].
  2,3: pose proof (advance_settled stream n) as H; by rewrite Ea in H.
  apply advance_Ok in Ea as [_ ->]. rewrite !bind_Ok_1.
  assert (is_bytes (drop n stream)) as Hd by by apply Forall_drop.
  apply settled_bind; [exact (decode_settled (c := VarU32_codec) _ Hd)|].
  intros [p m] _. destruct (_ =? 0); [exact I|]. rewrite bind_Ok_1.
  apply settled_bind; [by apply (block_settled (BlockCodec := B))|]. intros [x r] _.
  destruct (_ =? _); exact I.
Qed.

Lemma dec_props_bound stream n o m :
  is_bytes stream → dec_props dec stream n = Ok (o, m) → (n < m ≤ length stream)%nat.
Proof.
  intros Hs H. unfold dec_props in H.
  apply bind_Ok in H as (s' & [Hn ->]%advance_Ok & H).
  assert (is_bytes (drop n stream)) as Hd by by apply Forall_drop.
  apply bind_Ok in H as ([p k] & Hp & H).
  apply (decode_bound (c := VarU32_codec)) in Hp as [Hk _]; [|done].
  rewrite length_drop in Hk. destruct (_ =? 0); [injection H as <- <-; lia|].
  apply bind_Ok in H as (s'' & [_ ->]%advance_Ok & H).
  apply bind_Ok in H as ([x r] & Hx & H). apply (block_bound (BlockCodec := B)) in Hx; [|done].
  rewrite length_drop in Hx. destruct (_ =? _); [injection H as <- <-; lia|done].
Qed.

Lemma dec_props_if_settled stream n p :
  is_bytes stream → settled (dec_props_if dec stream n p).
Proof. intros Hs. destruct p; [by apply dec_props_settled|exact I]. Qed.

Lemma dec_props_if_bound stream n p o m :
  is_bytes stream → (n ≤ length stream)%nat → dec_props_if dec stream n p = Ok (o, m) →
  (n ≤ m ≤ length stream)%nat.
Proof.
  intros Hs Hn. destruct p; cbn.
  - intros H%dec_props_bound; [lia|done].
  - intros [= <- <-]. lia.
Qed.
End packet_block.

(** * Automation for the instances *)

(** Walks an encoder's chain of property writes. *)
Ltac solve_emits :=
  first
    [ eapply emits_trans;
      [ first
          [ eapply emits_opt; [|eassumption]; intros; reflexivity
          | eapply emits_bool; [|eassumption]; intros; reflexivity
          | eapply emits_format; eassumption
          | eapply emits_QoS; eassumption
          | eapply emits_each; [|eassumption]; intros; reflexivity
          | eapply emits_auth_data; eassumption
          | eapply emits_prop; [|eassumption]; reflexivity ]
      | solve_emits ]
    | eapply emits_each; [|eassumption]; intros; reflexivity ].

Ltac solve_block_encode :=
  let x := fresh "x" in let b := fresh "b" in let H := fresh "H" in
  intros x b H;
  match type of H with ?f x = _ => unfold f in H end; cbv zeta in H;
  outcome_inv H; eexists _, _;
  split; [|split; [eassumption|apply as_ref_Large]]; solve_emits.

(** The watched types of the list a structure stands for are a sublist of the
    fields' types, which are distinct. *)
Ltac solve_watched_field :=
  first [ eapply watched_opt; intros; cbn; reflexivity
        | apply watched_format
        | eapply watched_le1; [intros; cbn; reflexivity|eassumption]
        | erewrite watched_none; [apply (sublist_nil_l [])|intros; cbn; reflexivity|reflexivity] ].
Ltac solve_watched :=
  rewrite ?watched_types_app;
  first [ apply sublist_app; [solve_watched_field|solve_watched]
        | solve_watched_field ].

Ltac is_varu32 v := lazymatch type of v with VarU32 => idtac end.

(** One field of a structure through the decode loop. *)
Ltac fold_field :=
  first
    [ reflexivity | intros; reflexivity
    | let v := fresh "v" in intros v ?; destruct v; reflexivity
    | let v := fresh "v" in let E := fresh "E" in
      intros v ?; try (is_varu32 v; destruct v as [v]); cbn;
      destruct (Z.eqb_spec v 0) as [E|E]; [subst v; congruence|reflexivity] ].
(** The structure built so far, in constructor form. *)
Ltac fold_norm :=
  match goal with |- foldM ?step ?X ?ps = _ =>
    let X' := eval cbv in X in change (foldM step X ps) with (foldM step X' ps)
  end.
Ltac fold_opt set :=
  fold_norm; rewrite foldM_app, (foldM_opt set) by fold_field; rewrite bind_Ok_1.
Ltac fold_format set :=
  fold_norm; rewrite foldM_app, (foldM_format set) by reflexivity; rewrite bind_Ok_1.
Ltac fold_push set :=
  fold_norm; rewrite ?foldM_app;
  match goal with |- context [foldM ?step ?X (?mk <$> ?l)] =>
    let E := fresh "E" in
    assert (foldM step X (mk <$> l) = Ok (set ([] ++ l) X)) as E
      by exact (foldM_push set step mk l ltac:(intros; reflexivity) [] X);
    rewrite E; clear E
  end; cbn [app]; rewrite ?bind_Ok_1.

(** A step of the decode loop returns, and so does the encoder. *)
Ltac settle_step := let p := fresh "p" in intros ? p; destruct p; cbn;
  unfold PayloadFormat_try_from; repeat case_match; try discriminate; exact I.
Ltac settle_block_encode :=
  let x := fresh "x" in intros x;
  match goal with |- settled (?f x) => unfold f end; cbv zeta; settle_encode.
Ltac solve_NoDup := refine (bool_decide_unpack _ _); vm_compute; exact I.
