(* ===== verification/Frame.v ===== *)
(** What the packets of [src/v5] share: the match of the payload packets on the
    end of their frame, and the lemmas by which a packet's encoder and decoder
    meet - at the header, at the payload, at a property block. *)

From S2P Require Import Prelude Error Util Codec Types V5 V5Facts PropsBlock.
Local Open Scope Z_scope.

(** [m] is the end of the frame, [n] the offset the decoder has reached: nothing
    left, something left, or a frame longer than the stream. *)
(** src/v5/publish.rs:58-62 [Publish::decode] *)
Definition frame_tail {A} (stream : bytes) (m : Z) (n : nat) (none : Result A)
    (some : bytes → Result A) (short : Result A) : Result A :=
  if m =? Z.of_nat n then none
  else if m <=? Z.of_nat (length stream) then
    s ← slice_range n (Z.to_nat m) stream; some s
  else short.

(** An optional field of a packet: [if let Some(val)], then its encoding. *)
(** src/v5/publish.rs:84-86 [Publish::encode] *)
Definition enc_field_opt {A} (c : Packetize A) (val : option A) : Result bytes :=
  match val with
  | Some val => b ← encode c val; Ok (as_ref b)
  | None => Ok []
  end.

(** The end of every packet's [encode]: the header that [mkfh] builds for the
    length of the data goes in front of it. *)
(** src/v5/publish.rs:96-104 [Publish::encode] *)
Definition frame_encode (mkfh : VarU32 → Result FixedHeader) (data : bytes) : Result Blob :=
  remlen ← u32_try_from (length data);
  fh ← mkfh (mkVarU32 remlen);
  data ← insert_fixed_header fh data;
  Ok (Large data).

(** A stream that holds one frame: its header announces exactly the bytes that
    follow it.  It is what the packet reader hands to [Packet::decode]. *)
Definition framed (stream : bytes) : Prop :=
  ∀ fh n, dec_field FixedHeader_codec stream 0 = Ok (fh, n) →
    Z.of_nat n + varu32 (remaining_len fh) = Z.of_nat (length stream).

(** The packet type its header announces. *)
Definition frame_type (stream : bytes) (pt : PacketType) : Prop :=
  ∃ fh n r q d, dec_field FixedHeader_codec stream 0 = Ok (fh, n) ∧
    FixedHeader_unwrap fh = Ok (pt, r, q, d).

(** The law of a packet decoder, for frames of its packet types: on one frame it
    returns, and it does not read past the stream. *)
Class FrameDecoder {A} (c : Packetize A) (types : PacketType → bool) : Prop := {
  frame_settled : ∀ s pt, is_bytes s → framed s → frame_type s pt → types pt = true →
    settled (decode c s);
  frame_bound : ∀ s v n, is_bytes s → decode c s = Ok (v, n) → (0 < n ≤ length s)%nat;
}.

(** * The header *)

(** What the constructors of [FixedHeader] promise: a valid header that carries
    the remaining length it was given, or an error. *)
Class HeaderMaker (mkfh : VarU32 → Result FixedHeader) : Prop :=
  header_maker : ∀ rl, settled (mkfh rl) ∧
    ∀ fh, mkfh rl = Ok fh → remaining_len fh = rl ∧ is_u8 (byte1 fh) ∧ varu32 rl ≤ VarU32_MAX.

Ltac solve_header :=
  let rl := fresh "rl" in let H := fresh "H" in
  intros rl;
  match goal with |- context [?f rl] => idtac end;
  cbv delta [FixedHeader_new FixedHeader_new_publish FixedHeader_new_pubrel
             FixedHeader_new_subscribe FixedHeader_new_unsubscribe] beta;
  destruct (Z.ltb_spec VarU32_MAX (varu32 rl)); (split; [exact I|]); [done|];
  intros fh [= <-]; repeat split; [..|done]; vm_compute; congruence.

#[export] Instance header_new pt : HeaderMaker (FixedHeader_new pt).
Proof. destruct pt; solve_header. Qed.
#[export] Instance header_new_publish r q d : HeaderMaker (FixedHeader_new_publish r q d).
Proof. destruct r, q, d; solve_header. Qed.
#[export] Instance header_new_pubrel : HeaderMaker FixedHeader_new_pubrel.
Proof. solve_header. Qed.
#[export] Instance header_new_subscribe : HeaderMaker FixedHeader_new_subscribe.
Proof. solve_header. Qed.
#[export] Instance header_new_unsubscribe : HeaderMaker FixedHeader_new_unsubscribe.
Proof. solve_header. Qed.

Lemma insert_fixed_header_settled fh data :
  is_u8 (byte1 fh) → is_VarU32 (remaining_len fh) → settled (insert_fixed_header fh data).
Proof.
  intros Hb Hr. unfold insert_fixed_header.
  apply settled_bind; [|done]. by apply (encode_settled (c := FixedHeader_codec)).
Qed.

(** Decoding starts with the header that was inserted, and continues at the data. *)
Lemma frame_decode fh data out rest :
  valid_FixedHeader fh → insert_fixed_header fh data = Ok out →
  ∃ n, dec_field FixedHeader_codec (out ++ rest) 0 = Ok (fh, n) ∧
       FixedHeader_validate fh = Ok () ∧
       at_pos (out ++ rest) n (data ++ rest) ∧
       (n + length data = length out)%nat.
Proof.
  intros Hv (fhb & He & ->)%insert_fixed_header_Ok.
  pose proof (at_pos_0 ((as_ref fhb ++ data) ++ rest)) as Ha. rewrite <- app_assoc in Ha |- *.
  exists (length (as_ref fhb)). split; [|split; [|split]].
  - exact (dec_field_at FixedHeader_codec valid_FixedHeader _ _ _ _ _ Ha Hv He).
  - by apply FixedHeader_encode_Ok in He as [? _].
  - exact (at_pos_next _ _ _ _ Ha).
  - by rewrite length_app.
Qed.

Lemma frame_bytes fh data out :
  valid_FixedHeader fh → is_bytes data → insert_fixed_header fh data = Ok out → is_bytes out.
Proof.
  intros Hv Hd (fhb & He & ->)%insert_fixed_header_Ok.
  apply Forall_app_2; [exact (encode_bytes (c := FixedHeader_codec) _ _ Hv He)|done].
Qed.

(** A packet built by [frame_encode], as its decoder sees it. *)
Section frame_encode.
Context (mkfh : VarU32 → Result FixedHeader) `{!HeaderMaker mkfh}.

Lemma frame_encode_settled data : settled (frame_encode mkfh data).
Proof.
  unfold frame_encode. apply settled_bind; [apply u32_try_from_settled|].
  intros z [-> Hz]%u32_try_from_Ok.
  destruct (header_maker (mkfh := mkfh) (mkVarU32 (Z.of_nat (length data)))) as [Hs Hok].
  apply settled_bind; [done|intros fh (Hr & Hb & Hm)%Hok].
  apply settled_bind; [|done]. apply insert_fixed_header_settled; [done|].
  rewrite Hr. split; cbn in *; lia.
Qed.

Lemma frame_encode_Ok data b :
  frame_encode mkfh data = Ok b →
  ∃ fh, valid_FixedHeader fh ∧ mkfh (mkVarU32 (Z.of_nat (length data))) = Ok fh ∧
    remaining_len fh = mkVarU32 (Z.of_nat (length data)) ∧
    (is_bytes data → is_bytes (as_ref b)) ∧
    ∀ rest, ∃ n, dec_field FixedHeader_codec (as_ref b ++ rest) 0 = Ok (fh, n) ∧
      FixedHeader_validate fh = Ok () ∧
      at_pos (as_ref b ++ rest) n (data ++ rest) ∧
      (n + length data = length (as_ref b))%nat.
Proof.
  unfold frame_encode. intros (z & [-> Hz]%u32_try_from_Ok & H)%bind_Ok.
  apply bind_Ok in H as (fh & Hfh & H). apply bind_Ok in H as (out & Ho & [= <-]).
  rewrite as_ref_Large.
  destruct (header_maker (mkfh := mkfh) (mkVarU32 (Z.of_nat (length data)))) as [_ Hok].
  destruct (Hok _ Hfh) as (Hr & Hb & Hm).
  assert (valid_FixedHeader fh) as Hv.
  { split; [done|]. rewrite Hr. split; cbn in *; lia. }
  exists fh. split; [done|]. split; [done|]. split; [done|]. split.
  - intros Hd. by eapply frame_bytes.
  - intros rest. by apply frame_decode.
Qed.
End frame_encode.

(** * The payload *)

Section tail.
Context {A} (stream : bytes) (none : Result A) (some : bytes → Result A) (short : Result A).

Lemma frame_tail_at n d rest m :
  at_pos stream n (d ++ rest) → m = Z.of_nat (n + length d) → d ≠ [] →
  frame_tail stream m n none some short = some d.
Proof.
  intros Ha -> Hd. unfold frame_tail.
  pose proof (at_pos_length _ _ _ Ha) as Hl. rewrite length_app in Hl.
  assert (0 < length d)%nat by (destruct d; [done|cbn; lia]).
  rewrite (proj2 (Z.eqb_neq _ _)), (proj2 (Z.leb_le _ _)), Nat2Z.id by lia.
  by rewrite (at_pos_slice _ _ _ _ Ha).
Qed.

Lemma frame_tail_none n : frame_tail stream (Z.of_nat n) n none some short = none.
Proof. unfold frame_tail. by rewrite Z.eqb_refl. Qed.

(** On one frame the slice is in range. *)
Lemma frame_tail_settled n :
  (n ≤ length stream)%nat →
  settled none → settled short →
  (∀ s, s = drop n stream → settled (some s)) →
  settled (frame_tail stream (Z.of_nat (length stream)) n none some short).
Proof.
  intros Hn Hnone Hshort Hsome. unfold frame_tail.
  destruct (_ =? _); [done|]. destruct (_ <=? _); [|done].
  rewrite Nat2Z.id, slice_range_ok by lia. rewrite bind_Ok_1. apply Hsome.
  rewrite <- length_drop. by apply take_ge.
Qed.

Lemma frame_tail_inv m n x :
  frame_tail stream m n none some short = Ok x →
  (m = Z.of_nat n ∧ none = Ok x) ∨
  (∃ s, (n ≤ Z.to_nat m ≤ length stream)%nat ∧
        s = take (Z.to_nat m - n) (drop n stream) ∧ some s = Ok x) ∨
  short = Ok x.
Proof.
  unfold frame_tail. destruct (Z.eqb_spec m (Z.of_nat n)) as [->|Hm]; [by left|].
  destruct (Z.leb_spec m (Z.of_nat (length stream))); [|by right; right].
  intros (s & Hs & H')%bind_Ok. right; left. apply slice_range_Ok in Hs as (? & ? & ->).
  eexists; split; [|by split]. lia.
Qed.
End tail.

Section enc_field_opt.
Context {A} (c : Packetize A) (valid : A → Prop) `{!RoundTrip c valid} (o : option A).
Hypothesis Hv : ∀ v, o = Some v → valid v.

Lemma enc_field_opt_bytes d : enc_field_opt c o = Ok d → is_bytes d.
Proof.
  destruct o as [v|]; cbn; [|intros [= <-]; constructor].
  intros (b & Hb & [= <-])%bind_Ok. by eapply encode_bytes; [apply Hv|].
Qed.

Lemma enc_field_opt_at s n p d tl :
  at_pos s n (d ++ tl) → enc_field_opt c o = Ok d → (is_Some o ↔ p = true) →
  dec_field_if c s n p = Ok (o, (n + length d)%nat).
Proof.
  intros Ha He Hp. eapply dec_field_if_at; [done..|]. destruct o as [v|]; cbn in He.
  - apply bind_Ok in He as (b & Hb & [= <-]). eauto.
  - by injection He as <-.
Qed.
End enc_field_opt.

Lemma enc_field_opt_settled {A} (c : Packetize A) `{!SettledEncoder c} o :
  settled (enc_field_opt c o).
Proof. destruct o; [|exact I]. apply settled_bind; [apply encoder_settled|done]. Qed.

Lemma length_u16 v b : u16_encode v = Ok b → length (as_ref b) = 2%nat.
Proof. intros [= <-]. by rewrite as_ref_small. Qed.

Lemma length_u8 v b : u8_encode v = Ok b → length (as_ref b) = 1%nat.
Proof. intros [= <-]. by rewrite as_ref_small. Qed.

(** The end of the frame, for the decoders that read a payload. *)
Lemma framed_end s fh n :
  framed s → dec_field FixedHeader_codec s 0 = Ok (fh, n) →
  Z.of_nat n + varu32 (remaining_len fh) = Z.of_nat (length s).
Proof. intros Hf. apply Hf. Qed.

(** * Tactics for the packets *)

(** Moves the cursor over the next field, and over the property block. *)
Ltac dec_next c valid Hv He :=
  match goal with Ha : at_pos _ _ _ |- _ =>
    rewrite (dec_field_at c valid _ _ _ _ _ Ha Hv He), bind_Ok_1;
    apply at_pos_next in Ha
  end.
Ltac dec_block Hv He :=
  match goal with Ha : at_pos _ _ _ |- _ =>
    erewrite (dec_props_at _ _ _ _ _ _ _ _ Ha Hv He), bind_Ok_1;
    apply at_pos_next in Ha
  end.
Ltac dec_opt c valid Hv He Hp :=
  match goal with Ha : at_pos _ _ _ |- _ =>
    rewrite (enc_field_opt_at c valid _ Hv _ _ _ _ _ Ha He Hp), bind_Ok_1;
    apply at_pos_next in Ha
  end.
(** The cursor has reached the end of the packet. *)
Ltac dec_end :=
  match goal with Ha : at_pos _ _ _ |- _ => rewrite (at_pos_end _ _ _ Ha) end.

(** The header of a decoded packet: introduces the cursor [Ha]. *)
Ltac dec_header He rest :=
  let fh := fresh "fh" in let n := fresh "n" in
  let Hfv := fresh "Hfv" in let Hmk := fresh "Hmk" in let Hrl := fresh "Hrl" in
  let Hd := fresh "Hd" in let Hh := fresh "Hh" in let Hval := fresh "Hval" in
  let Ha := fresh "Ha" in let Hlen := fresh "Hlen" in
  apply frame_encode_Ok in He; [|exact _];
  destruct He as (fh & Hfv & Hmk & Hrl & _ & Hd);
  destruct (Hd rest) as (n & Hh & Hval & Ha & Hlen); clear Hd;
  rewrite <- ?app_assoc in Ha; rewrite Hh, bind_Ok_1, Hval, bind_Ok_1.

(** Walks the encoder of a packet: it returns. *)
Ltac settle_packet :=
  repeat first
    [ exact I
    | apply encoder_settled
    | apply enc_field_opt_settled; exact _
    | match goal with |- settled (enc_props ?enc _) => eapply (enc_props_settled enc); exact _ end
    | apply frame_encode_settled; exact _
    | apply settled_bind; [|intros ? ?] ].

(** Walks the decoder of a packet on a byte stream: it returns, and the offset
    stays in range. *)
Ltac settle_decoder Hs :=
  repeat (cbv beta iota zeta;
  match goal with
  | |- settled (Ok _) => exact I
  | |- settled (err _ _) => exact I
  | |- settled (dec_field ?c ?s ?n ≫= _) =>
      apply settled_bind;
      [ eapply (dec_field_settled c); [exact _|exact Hs]
      | let H := fresh "Hd" in let H' := fresh "Hb" in
        intros [? ?] H; pose proof (dec_field_bound c _ _ _ _ _ Hs H) as [H' ?] ]
  | |- settled (dec_field_if ?c ?s ?n ?p ≫= _) =>
      apply settled_bind;
      [ eapply (dec_field_if_settled c); [exact _|exact Hs]
      | let H := fresh "Hd" in let H' := fresh "Hb" in
        intros [? ?] H; apply (dec_field_if_bound c _ _ _ _ _ _ Hs) in H as [H' ?]; [|lia] ]
  | |- settled (dec_props ?d ?s ?n ≫= _) =>
      apply settled_bind;
      [ eapply (dec_props_settled _ d); [exact _|exact Hs]
      | let H := fresh "Hd" in intros [? ?] H;
        eapply (dec_props_bound _ d) in H; [|exact _|exact Hs] ]
  | |- settled (dec_props_if ?d ?s ?n ?p ≫= _) =>
      apply settled_bind;
      [ eapply (dec_props_if_settled _ d); [exact _|exact Hs]
      | let H := fresh "Hd" in let H' := fresh "Hb" in intros [? ?] H; pose proof H as H';
        eapply (dec_props_if_bound _ d) in H'; [|exact _|exact Hs|lia] ]
  | |- settled (FixedHeader_validate _ ≫= _) =>
      apply settled_bind; [ apply FixedHeader_validate_settled;
                           match goal with H : checked_FixedHeader _ |- _ =>
                             exact (proj1 (proj1 H)) end
                         | intros [] ? ]
  | |- settled (if ?b then _ else _) => destruct b eqn:?
  end).

(** Takes an accepted stream apart, with the same bounds. *)
Ltac bound_decoder Hs :=
  repeat (cbv beta iota zeta in *;
  match goal with
  | H : (_ ≫= _) = Ok _ |- _ =>
      let a := fresh "a" in let Ha := fresh "Hd" in
      apply bind_Ok in H as (a & Ha & H);
      lazymatch type of Ha with
      | dec_field ?c _ _ = Ok _ =>
          destruct a as [? ?]; apply (dec_field_bound c _ _ _ _ _ Hs) in Ha as [Ha ?]
      | dec_field_if ?c _ _ _ = Ok _ =>
          destruct a as [? ?]; apply (dec_field_if_bound c _ _ _ _ _ _ Hs) in Ha as [Ha ?]; [|lia]
      | dec_props ?d _ _ = Ok _ =>
          destruct a as [? ?]; eapply (dec_props_bound _ d) in Ha; [|exact _|exact Hs]
      | dec_props_if ?d _ _ _ = Ok _ =>
          destruct a as [? ?]; eapply (dec_props_if_bound _ d) in Ha; [|exact _|exact Hs|lia]
      | _ => lazymatch type of a with (_ * _)%type => destruct a as [? ?] | _ => idtac end
      end
  | H : (let '(_, _) := ?p in _) = Ok _ |- _ => is_var p; destruct p as [? ?]
  | H : (if ?b then _ else _) = Ok _ |- _ => destruct b eqn:?
  | H : Ok _ = Ok _ |- _ => injection H; clear H; intros; subst
  | H : err _ _ = Ok _ |- _ => discriminate H
  end).
