(* ===== verification/AckPackets.v ===== *)
(** Model of the acknowledgement packets of [src/v5]: PUBACK, PUBREC, PUBREL,
    PUBCOMP ([pubaclc.rs]), SUBACK, UNSUBACK, DISCONNECT, AUTH and the pings, each
    with its property structure; and their round trips. *)

From S2P Require Import Prelude Error Util Codec Types V5 V5Facts PropsBlock Frame.
Local Open Scope Z_scope.

(** src/v5/pubaclc.rs:218-223 [PubProperties] *)
Module PubProperties.
Record PubProperties := mk {
  reason_string : option bytes;
  user_properties : list UserProperty;
}.
Definition set_reason_string (v : option bytes) (p : PubProperties) : PubProperties :=
  mk v (user_properties p).
Definition set_user_properties (v : list UserProperty) (p : PubProperties) : PubProperties :=
  mk (reason_string p) v.
End PubProperties.
Abbreviation PubProperties := PubProperties.PubProperties.

(** src/v5/pubaclc.rs:217-217 [PubProperties::default] *)
Definition PubProperties_default : PubProperties := PubProperties.mk None [].

(** src/v5/pubaclc.rs:268-277 [PubProperties::decode] *)
Definition PubProperties_step (props : PubProperties) (property : Property) : Result PubProperties :=
  match property with
  | Property.ReasonString val => Ok (PubProperties.set_reason_string (Some val) props)
  | Property.UserProp val =>
      Ok (PubProperties.set_user_properties (PubProperties.user_properties props ++ [val]) props)
  | _ => err ErrorKind.ProtocolError ReasonCode.ProtocolError
  end.

(** src/v5/pubaclc.rs:249-281 [PubProperties::decode] *)
Definition PubProperties_decode (stream : bytes) : Result (PubProperties * nat) :=
  props_decode dup_err_std PubProperties_step PubProperties_default stream.

(** src/v5/pubaclc.rs:283-297 [PubProperties::encode] *)
Definition PubProperties_encode (self : PubProperties) : Result Blob :=
  let data := [] in
  data ← enc_prop_opt data PropertyType.ReasonString String_codec
           (PubProperties.reason_string self);
  data ← enc_prop_each data PropertyType.UserProp UserProperty_codec
           (PubProperties.user_properties self);
  data ← insert_property_len (length data) data;
  Ok (Large data).

(** src/v5/suback.rs:18-31 [SubAckReasonCode] *)
Module SubAckReasonCode.
Inductive SubAckReasonCode :=
| QoS0 | QoS1 | QoS2
| UnspecifiedError | ImplementationError | NotAuthorized
| InvalidTopicFilter | PacketIdInuse | QuotaExceeded
| SharedSubscriptionsNotSupported | SubscriptionIdNotSupported | WildcardSubscriptionsNotSupported.
End SubAckReasonCode.
Abbreviation SubAckReasonCode := SubAckReasonCode.SubAckReasonCode.

(** src/v5/suback.rs:17-31 [SubAckReasonCode as u8] *)
Definition SubAckReasonCode_as_u8 (code : SubAckReasonCode) : u8 :=
  match code with
  | SubAckReasonCode.QoS0 => 0x0
  | SubAckReasonCode.QoS1 => 0x1
  | SubAckReasonCode.QoS2 => 0x2
  | SubAckReasonCode.UnspecifiedError => 0x80
  | SubAckReasonCode.ImplementationError => 0x83
  | SubAckReasonCode.NotAuthorized => 0x87
  | SubAckReasonCode.InvalidTopicFilter => 0x8f
  | SubAckReasonCode.PacketIdInuse => 0x91
  | SubAckReasonCode.QuotaExceeded => 0x97
  | SubAckReasonCode.SharedSubscriptionsNotSupported => 0x9e
  | SubAckReasonCode.SubscriptionIdNotSupported => 0xa1
  | SubAckReasonCode.WildcardSubscriptionsNotSupported => 0xa2
  end.

(** src/v5/suback.rs:33-61 [SubAckReasonCode::try_from] *)
Definition SubAckReasonCode_try_from (val : u8) : Result SubAckReasonCode :=
  match val with
  | 0x0 => Ok SubAckReasonCode.QoS0
  | 0x1 => Ok SubAckReasonCode.QoS1
  | 0x2 => Ok SubAckReasonCode.QoS2
  | 0x80 => Ok SubAckReasonCode.UnspecifiedError
  | 0x83 => Ok SubAckReasonCode.ImplementationError
  | 0x87 => Ok SubAckReasonCode.NotAuthorized
  | 0x8f => Ok SubAckReasonCode.InvalidTopicFilter
  | 0x91 => Ok SubAckReasonCode.PacketIdInuse
  | 0x97 => Ok SubAckReasonCode.QuotaExceeded
  | 0x9e => Ok SubAckReasonCode.SharedSubscriptionsNotSupported
  | 0xa1 => Ok SubAckReasonCode.SubscriptionIdNotSupported
  | 0xa2 => Ok SubAckReasonCode.WildcardSubscriptionsNotSupported
  | _ => err ErrorKind.MalformedPacket ReasonCode.MalformedPacket
  end.

(** src/v5/suback.rs:157-160 [SubAckProperties] *)
Module SubAckProperties.
Record SubAckProperties := mk {
  reason_string : option bytes;
  user_properties : list UserProperty;
}.
Definition set_reason_string (v : option bytes) (p : SubAckProperties) : SubAckProperties :=
  mk v (user_properties p).
Definition set_user_properties (v : list UserProperty) (p : SubAckProperties) : SubAckProperties :=
  mk (reason_string p) v.
End SubAckProperties.
Abbreviation SubAckProperties := SubAckProperties.SubAckProperties.

(** src/v5/suback.rs:156-156 [SubAckProperties::default] *)
Definition SubAckProperties_default : SubAckProperties := SubAckProperties.mk None [].

(** src/v5/suback.rs:205-211 [SubAckProperties::decode] *)
Definition SubAckProperties_step (props : SubAckProperties) (property : Property) : Result SubAckProperties :=
  match property with
  | Property.ReasonString val => Ok (SubAckProperties.set_reason_string (Some val) props)
  | Property.UserProp val =>
      Ok (SubAckProperties.set_user_properties (SubAckProperties.user_properties props ++ [val]) props)
  | _ => err ErrorKind.ProtocolError ReasonCode.ProtocolError
  end.

(** src/v5/suback.rs:186-215 [SubAckProperties::decode] *)
Definition SubAckProperties_decode (stream : bytes) : Result (SubAckProperties * nat) :=
  props_decode dup_err_std SubAckProperties_step SubAckProperties_default stream.

(** src/v5/suback.rs:217-231 [SubAckProperties::encode] *)
Definition SubAckProperties_encode (self : SubAckProperties) : Result Blob :=
  let data := [] in
  data ← enc_prop_opt data PropertyType.ReasonString String_codec
           (SubAckProperties.reason_string self);
  data ← enc_prop_each data PropertyType.UserProp UserProperty_codec
           (SubAckProperties.user_properties self);
  data ← insert_property_len (length data) data;
  Ok (Large data).

(** src/v5/unsuback.rs:18-26 [UnsubAckReasonCode] *)
Module UnsubAckReasonCode.
Inductive UnsubAckReasonCode :=
| QoS0 | NoSubscriptionExisted | UnspecifiedError
| ImplementationError | NotAuthorized | InvalidTopicFilter
| PacketIdInuse.
End UnsubAckReasonCode.
Abbreviation UnsubAckReasonCode := UnsubAckReasonCode.UnsubAckReasonCode.

(** src/v5/unsuback.rs:17-26 [UnsubAckReasonCode as u8] *)
Definition UnsubAckReasonCode_as_u8 (code : UnsubAckReasonCode) : u8 :=
  match code with
  | UnsubAckReasonCode.QoS0 => 0x0
  | UnsubAckReasonCode.NoSubscriptionExisted => 0x11
  | UnsubAckReasonCode.UnspecifiedError => 0x80
  | UnsubAckReasonCode.ImplementationError => 0x83
  | UnsubAckReasonCode.NotAuthorized => 0x87
  | UnsubAckReasonCode.InvalidTopicFilter => 0x8f
  | UnsubAckReasonCode.PacketIdInuse => 0x91
  end.

(** src/v5/unsuback.rs:28-51 [UnsubAckReasonCode::try_from] *)
Definition UnsubAckReasonCode_try_from (val : u8) : Result UnsubAckReasonCode :=
  match val with
  | 0x0 => Ok UnsubAckReasonCode.QoS0
  | 0x11 => Ok UnsubAckReasonCode.NoSubscriptionExisted
  | 0x80 => Ok UnsubAckReasonCode.UnspecifiedError
  | 0x83 => Ok UnsubAckReasonCode.ImplementationError
  | 0x87 => Ok UnsubAckReasonCode.NotAuthorized
  | 0x8f => Ok UnsubAckReasonCode.InvalidTopicFilter
  | 0x91 => Ok UnsubAckReasonCode.PacketIdInuse
  | _ => err ErrorKind.MalformedPacket ReasonCode.MalformedPacket
  end.

(** src/v5/unsuback.rs:147-150 [UnsubAckProperties] *)
Module UnsubAckProperties.
Record UnsubAckProperties := mk {
  reason_string : option bytes;
  user_properties : list UserProperty;
}.
Definition set_reason_string (v : option bytes) (p : UnsubAckProperties) : UnsubAckProperties :=
  mk v (user_properties p).
Definition set_user_properties (v : list UserProperty) (p : UnsubAckProperties) : UnsubAckProperties :=
  mk (reason_string p) v.
End UnsubAckProperties.
Abbreviation UnsubAckProperties := UnsubAckProperties.UnsubAckProperties.

(** src/v5/unsuback.rs:146-146 [UnsubAckProperties::default] *)
Definition UnsubAckProperties_default : UnsubAckProperties := UnsubAckProperties.mk None [].

(** src/v5/unsuback.rs:195-201 [UnsubAckProperties::decode] *)
Definition UnsubAckProperties_step (props : UnsubAckProperties) (property : Property) : Result UnsubAckProperties :=
  match property with
  | Property.ReasonString val => Ok (UnsubAckProperties.set_reason_string (Some val) props)
  | Property.UserProp val =>
      Ok (UnsubAckProperties.set_user_properties (UnsubAckProperties.user_properties props ++ [val]) props)
  | _ => err ErrorKind.ProtocolError ReasonCode.ProtocolError
  end.

(** src/v5/unsuback.rs:176-205 [UnsubAckProperties::decode] *)
Definition UnsubAckProperties_decode (stream : bytes) : Result (UnsubAckProperties * nat) :=
  props_decode dup_err_std UnsubAckProperties_step UnsubAckProperties_default stream.

(** src/v5/unsuback.rs:207-221 [UnsubAckProperties::encode] *)
Definition UnsubAckProperties_encode (self : UnsubAckProperties) : Result Blob :=
  let data := [] in
  data ← enc_prop_opt data PropertyType.ReasonString String_codec
           (UnsubAckProperties.reason_string self);
  data ← enc_prop_each data PropertyType.UserProp UserProperty_codec
           (UnsubAckProperties.user_properties self);
  data ← insert_property_len (length data) data;
  Ok (Large data).

(** src/v5/disconnect.rs:18-48 [DisconnReasonCode] *)
Module DisconnReasonCode.
Inductive DisconnReasonCode :=
| NormalDisconnect | DiconnectWillMessage | UnspecifiedError
| MalformedPacket | ProtocolError | ImplementationError
| NotAuthorized | ServerBusy | ServerShutdown
| KeepAliveTimeout | SessionTakenOver | InvalidTopicFilter
| TopicNameInvalid | ExceededReceiveMaximum | TopicAliasInvalid
| PacketTooLarge | ExceedMessageRate | QuotaExceeded
| AdminAction | PayloadFormatInvalid | RetainNotSupported
| QoSNotSupported | UseAnotherServer | ServerMoved
| UnsupportedSharedSubscription | ExceedConnectionRate | ExceedMaximumConnectTime
| SubscriptionIdNotSupported | WildcardSubscriptionsNotSupported.
End DisconnReasonCode.
Abbreviation DisconnReasonCode := DisconnReasonCode.DisconnReasonCode.

(** src/v5/disconnect.rs:17-48 [DisconnReasonCode as u8] *)
Definition DisconnReasonCode_as_u8 (code : DisconnReasonCode) : u8 :=
  match code with
  | DisconnReasonCode.NormalDisconnect => 0x00
  | DisconnReasonCode.DiconnectWillMessage => 0x04
  | DisconnReasonCode.UnspecifiedError => 0x80
  | DisconnReasonCode.MalformedPacket => 0x81
  | DisconnReasonCode.ProtocolError => 0x82
  | DisconnReasonCode.ImplementationError => 0x83
  | DisconnReasonCode.NotAuthorized => 0x87
  | DisconnReasonCode.ServerBusy => 0x89
  | DisconnReasonCode.ServerShutdown => 0x8b
  | DisconnReasonCode.KeepAliveTimeout => 0x8d
  | DisconnReasonCode.SessionTakenOver => 0x8e
  | DisconnReasonCode.InvalidTopicFilter => 0x8f
  | DisconnReasonCode.TopicNameInvalid => 0x90
  | DisconnReasonCode.ExceededReceiveMaximum => 0x93
  | DisconnReasonCode.TopicAliasInvalid => 0x94
  | DisconnReasonCode.PacketTooLarge => 0x95
  | DisconnReasonCode.ExceedMessageRate => 0x96
  | DisconnReasonCode.QuotaExceeded => 0x97
  | DisconnReasonCode.AdminAction => 0x98
  | DisconnReasonCode.PayloadFormatInvalid => 0x99
  | DisconnReasonCode.RetainNotSupported => 0x9a
  | DisconnReasonCode.QoSNotSupported => 0x9b
  | DisconnReasonCode.UseAnotherServer => 0x9c
  | DisconnReasonCode.ServerMoved => 0x9d
  | DisconnReasonCode.UnsupportedSharedSubscription => 0x9e
  | DisconnReasonCode.ExceedConnectionRate => 0x9f
  | DisconnReasonCode.ExceedMaximumConnectTime => 0xa0
  | DisconnReasonCode.SubscriptionIdNotSupported => 0xa1
  | DisconnReasonCode.WildcardSubscriptionsNotSupported => 0xa2
  end.

(** src/v5/disconnect.rs:50-95 [DisconnReasonCode::try_from] *)
Definition DisconnReasonCode_try_from (val : u8) : Result DisconnReasonCode :=
  match val with
  | 0x00 => Ok DisconnReasonCode.NormalDisconnect
  | 0x04 => Ok DisconnReasonCode.DiconnectWillMessage
  | 0x80 => Ok DisconnReasonCode.UnspecifiedError
  | 0x81 => Ok DisconnReasonCode.MalformedPacket
  | 0x82 => Ok DisconnReasonCode.ProtocolError
  | 0x83 => Ok DisconnReasonCode.ImplementationError
  | 0x87 => Ok DisconnReasonCode.NotAuthorized
  | 0x89 => Ok DisconnReasonCode.ServerBusy
  | 0x8b => Ok DisconnReasonCode.ServerShutdown
  | 0x8d => Ok DisconnReasonCode.KeepAliveTimeout
  | 0x8e => Ok DisconnReasonCode.SessionTakenOver
  | 0x8f => Ok DisconnReasonCode.InvalidTopicFilter
  | 0x90 => Ok DisconnReasonCode.TopicNameInvalid
  | 0x93 => Ok DisconnReasonCode.ExceededReceiveMaximum
  | 0x94 => Ok DisconnReasonCode.TopicAliasInvalid
  | 0x95 => Ok DisconnReasonCode.PacketTooLarge
  | 0x96 => Ok DisconnReasonCode.ExceedMessageRate
  | 0x97 => Ok DisconnReasonCode.QuotaExceeded
  | 0x98 => Ok DisconnReasonCode.AdminAction
  | 0x99 => Ok DisconnReasonCode.PayloadFormatInvalid
  | 0x9a => Ok DisconnReasonCode.RetainNotSupported
  | 0x9b => Ok DisconnReasonCode.QoSNotSupported
  | 0x9c => Ok DisconnReasonCode.UseAnotherServer
  | 0x9d => Ok DisconnReasonCode.ServerMoved
  | 0x9e => Ok DisconnReasonCode.UnsupportedSharedSubscription
  | 0x9f => Ok DisconnReasonCode.ExceedConnectionRate
  | 0xa0 => Ok DisconnReasonCode.ExceedMaximumConnectTime
  | 0xa1 => Ok DisconnReasonCode.SubscriptionIdNotSupported
  | 0xa2 => Ok DisconnReasonCode.WildcardSubscriptionsNotSupported
  | _ => err ErrorKind.MalformedPacket ReasonCode.MalformedPacket
  end.

(** src/v5/disconnect.rs:191-196 [DisconnProperties] *)
Module DisconnProperties.
Record DisconnProperties := mk {
  session_expiry_interval : option u32;
  reason_string : option bytes;
  user_properties : list UserProperty;
  server_reference : option bytes;
}.
Definition set_session_expiry_interval (v : option u32) (p : DisconnProperties) : DisconnProperties :=
  mk v (reason_string p) (user_properties p) (server_reference p).
Definition set_reason_string (v : option bytes) (p : DisconnProperties) : DisconnProperties :=
  mk (session_expiry_interval p) v (user_properties p) (server_reference p).
Definition set_user_properties (v : list UserProperty) (p : DisconnProperties) : DisconnProperties :=
  mk (session_expiry_interval p) (reason_string p) v (server_reference p).
Definition set_server_reference (v : option bytes) (p : DisconnProperties) : DisconnProperties :=
  mk (session_expiry_interval p) (reason_string p) (user_properties p) v.
End DisconnProperties.
Abbreviation DisconnProperties := DisconnProperties.DisconnProperties.

(** src/v5/disconnect.rs:190-190 [DisconnProperties::default] *)
Definition DisconnProperties_default : DisconnProperties := DisconnProperties.mk None None [] None.

(** src/v5/disconnect.rs:251-259 [DisconnProperties::decode] *)
Definition DisconnProperties_step (props : DisconnProperties) (property : Property) : Result DisconnProperties :=
  match property with
  | Property.SessionExpiryInterval val => Ok (DisconnProperties.set_session_expiry_interval (Some val) props)
  | Property.ReasonString val => Ok (DisconnProperties.set_reason_string (Some val) props)
  | Property.ServerReference val => Ok (DisconnProperties.set_server_reference (Some val) props)
  | Property.UserProp val =>
      Ok (DisconnProperties.set_user_properties (DisconnProperties.user_properties props ++ [val]) props)
  | _ => err ErrorKind.ProtocolError ReasonCode.ProtocolError
  end.

(** src/v5/disconnect.rs:230-263 [DisconnProperties::decode] *)
Definition DisconnProperties_decode (stream : bytes) : Result (DisconnProperties * nat) :=
  props_decode dup_err_std DisconnProperties_step DisconnProperties_default stream.

(** src/v5/disconnect.rs:265-281 [DisconnProperties::encode] *)
Definition DisconnProperties_encode (self : DisconnProperties) : Result Blob :=
  let data := [] in
  data ← enc_prop_opt data PropertyType.SessionExpiryInterval u32_codec
           (DisconnProperties.session_expiry_interval self);
  data ← enc_prop_opt data PropertyType.ReasonString String_codec
           (DisconnProperties.reason_string self);
  data ← enc_prop_opt data PropertyType.ServerReference String_codec
           (DisconnProperties.server_reference self);
  data ← enc_prop_each data PropertyType.UserProp UserProperty_codec
           (DisconnProperties.user_properties self);
  data ← insert_property_len (length data) data;
  Ok (Large data).

(** src/v5/auth.rs:17-21 [AuthReasonCode] *)
Module AuthReasonCode.
Inductive AuthReasonCode :=
| Success | ContinueAuthentication | ReAuthenticate.
End AuthReasonCode.
Abbreviation AuthReasonCode := AuthReasonCode.AuthReasonCode.

(** src/v5/auth.rs:16-21 [AuthReasonCode as u8] *)
Definition AuthReasonCode_as_u8 (code : AuthReasonCode) : u8 :=
  match code with
  | AuthReasonCode.Success => 0x00
  | AuthReasonCode.ContinueAuthentication => 0x18
  | AuthReasonCode.ReAuthenticate => 0x19
  end.

(** src/v5/auth.rs:23-34 [AuthReasonCode::try_from] *)
Definition AuthReasonCode_try_from (val : u8) : Result AuthReasonCode :=
  match val with
  | 0x00 => Ok AuthReasonCode.Success
  | 0x18 => Ok AuthReasonCode.ContinueAuthentication
  | 0x19 => Ok AuthReasonCode.ReAuthenticate
  | _ => err ErrorKind.ProtocolError ReasonCode.ProtocolError
  end.

(** * PUBACK, PUBREC, PUBREL, PUBCOMP *)

(** src/v5/pubaclc.rs:66-71 [Pub] *)
Module Pub.
Record Pub := mk {
  packet_type : PacketType;
  packet_id : u16;
  code : ReasonCode;
  properties : option PubProperties;
}.
End Pub.
Abbreviation Pub := Pub.Pub.

(** src/v5/pubaclc.rs:186-213 [Pub::validate] *)
Definition Pub_validate (self : Pub) : Result unit :=
  invalid_code ←
    match Pub.packet_type self with
    | PacketType.PubAck | PacketType.PubRec =>
        Ok match Pub.code self with
           | ReasonCode.Success => false
           | ReasonCode.NoMatchingSubscribers => false
           | ReasonCode.UnspecifiedError => false
           | ReasonCode.ImplementationError => false
           | ReasonCode.NotAuthorized => false
           | ReasonCode.TopicNameInvalid => false
           | ReasonCode.PacketIdInuse => false
           | ReasonCode.PacketIdNotFound => false
           | ReasonCode.QuotaExceeded => false
           | ReasonCode.PayloadFormatInvalid => false
           | _ => true
           end
    | PacketType.PubRel | PacketType.PubComp =>
        Ok match Pub.code self with
           | ReasonCode.Success => false
           | ReasonCode.PacketIdNotFound => false
           | _ => true
           end
    | _ => Panic
    end;
  if invalid_code : bool then err ErrorKind.MalformedPacket ReasonCode.MalformedPacket
  else Ok ().

(** src/v5/pubaclc.rs:105-145 [Pub::decode] *)
Definition Pub_decode (stream : bytes) : Result (Pub * nat) :=
  '(fh, n) ← dec_field FixedHeader_codec stream 0;
  _ ← FixedHeader_validate fh;
  '(packet_type, _, _, _) ← FixedHeader_unwrap fh;
  '(packet_id, n) ← dec_field u16_codec stream n;
  '(packet, n) ←
    (if varu32 (remaining_len fh) =? 2 then
       Ok (Pub.mk packet_type packet_id ReasonCode.Success None, n)
     else if varu32 (remaining_len fh) =? 3 then
       '(val, n) ← dec_field u8_codec stream n;
       code ← ReasonCode_try_from val;
       Ok (Pub.mk packet_type packet_id code None, n)
     else
       '(val, n) ← dec_field u8_codec stream n;
       code ← ReasonCode_try_from val;
       '(properties, n) ← dec_props PubProperties_decode stream n;
       Ok (Pub.mk packet_type packet_id code properties, n));
  _ ← Pub_validate packet;
  Ok (packet, n).

(** src/v5/pubaclc.rs:147-173 [Pub::encode] *)
Definition Pub_encode (self : Pub) : Result Blob :=
  packet_id ← u16_encode (Pub.packet_id self);
  code ← u8_encode (ReasonCode_as_u8 (Pub.code self));
  properties ← enc_props PubProperties_encode (Pub.properties self);
  let data := as_ref packet_id ++ as_ref code ++ properties in
  frame_encode
    (λ remlen,
       match Pub.packet_type self with
       | PacketType.PubAck => FixedHeader_new PacketType.PubAck remlen
       | PacketType.PubRel => FixedHeader_new_pubrel remlen
       | PacketType.PubRec => FixedHeader_new PacketType.PubRec remlen
       | PacketType.PubComp => FixedHeader_new PacketType.PubComp remlen
       | _ => err_desc ErrorKind.ProtocolError
       end) data.

(** src/v5/pubaclc.rs:104-174 [Packetize for Pub] *)
Definition Pub_codec : Packetize Pub := mkPacketize Pub_decode Pub_encode.

(** * SUBACK and UNSUBACK *)

(** src/v5/suback.rs:65-69 [SubAck] *)
Module SubAck.
Record SubAck := mk {
  packet_id : u16;
  properties : option SubAckProperties;
  return_codes : list SubAckReasonCode;
}.
End SubAck.
Abbreviation SubAck := SubAck.SubAck.

(** The loop that turns the payload into return codes. *)
(** src/v5/suback.rs:107-110 [SubAck::decode] *)
Fixpoint dec_codes {C} (try_from : u8 → Result C) (payload : bytes) : Result (list C) :=
  match payload with
  | [] => Ok []
  | code :: payload =>
      code ← try_from code;
      return_codes ← dec_codes try_from payload;
      Ok (code :: return_codes)
  end.

(** src/v5/suback.rs:90-116 [SubAck::decode] *)
Definition SubAck_decode (stream : bytes) : Result (SubAck * nat) :=
  '(fh, fh_len) ← dec_field FixedHeader_codec stream 0;
  _ ← FixedHeader_validate fh;
  '(packet_id, n) ← dec_field u16_codec stream fh_len;
  '(properties, n) ← dec_props SubAckProperties_decode stream n;
  let m := Z.of_nat fh_len + varu32 (remaining_len fh) in
  '(payload, n) ← frame_tail stream m n
    (err ErrorKind.MalformedPacket ReasonCode.MalformedPacket)
    (λ s, Ok (s, Z.to_nat m))
    (err ErrorKind.MalformedPacket ReasonCode.MalformedPacket);
  return_codes ← dec_codes SubAckReasonCode_try_from payload;
  Ok (SubAck.mk packet_id properties return_codes, n).

(** src/v5/suback.rs:118-137 [SubAck::encode] *)
Definition SubAck_encode (self : SubAck) : Result Blob :=
  packet_id ← u16_encode (SubAck.packet_id self);
  properties ← enc_props SubAckProperties_encode (SubAck.properties self);
  let data := as_ref packet_id ++ properties ++
              (SubAckReasonCode_as_u8 <$> SubAck.return_codes self) in
  frame_encode (FixedHeader_new PacketType.SubAck) data.

(** src/v5/suback.rs:89-138 [Packetize for SubAck] *)
Definition SubAck_codec : Packetize SubAck := mkPacketize SubAck_decode SubAck_encode.

(** src/v5/unsuback.rs:55-59 [UnsubAck] *)
Module UnsubAck.
Record UnsubAck := mk {
  packet_id : u16;
  properties : option UnsubAckProperties;
  return_codes : list UnsubAckReasonCode;
}.
End UnsubAck.
Abbreviation UnsubAck := UnsubAck.UnsubAck.

(** src/v5/unsuback.rs:80-106 [UnsubAck::decode] *)
Definition UnsubAck_decode (stream : bytes) : Result (UnsubAck * nat) :=
  '(fh, fh_len) ← dec_field FixedHeader_codec stream 0;
  _ ← FixedHeader_validate fh;
  '(packet_id, n) ← dec_field u16_codec stream fh_len;
  '(properties, n) ← dec_props UnsubAckProperties_decode stream n;
  let m := Z.of_nat fh_len + varu32 (remaining_len fh) in
  '(payload, n) ← frame_tail stream m n
    (err ErrorKind.MalformedPacket ReasonCode.MalformedPacket)
    (λ s, Ok (s, Z.to_nat m))
    (err ErrorKind.MalformedPacket ReasonCode.MalformedPacket);
  return_codes ← dec_codes UnsubAckReasonCode_try_from payload;
  Ok (UnsubAck.mk packet_id properties return_codes, n).

(** The header is built with the packet type of SUBACK. *)
(** src/v5/unsuback.rs:108-127 [UnsubAck::encode] *)
Definition UnsubAck_encode (self : UnsubAck) : Result Blob :=
  packet_id ← u16_encode (UnsubAck.packet_id self);
  properties ← enc_props UnsubAckProperties_encode (UnsubAck.properties self);
  let data := as_ref packet_id ++ properties ++
              (UnsubAckReasonCode_as_u8 <$> UnsubAck.return_codes self) in
  frame_encode (FixedHeader_new PacketType.SubAck) data.

(** src/v5/unsuback.rs:79-128 [Packetize for UnsubAck] *)
Definition UnsubAck_codec : Packetize UnsubAck := mkPacketize UnsubAck_decode UnsubAck_encode.

(** * DISCONNECT *)

(** src/v5/disconnect.rs:99-102 [Disconnect] *)
Module Disconnect.
Record Disconnect := mk {
  code : DisconnReasonCode;
  properties : option DisconnProperties;
}.
End Disconnect.
Abbreviation Disconnect := Disconnect.Disconnect.

(** src/v5/disconnect.rs:117-119 [Disconnect::new] *)
Definition Disconnect_new (code : DisconnReasonCode) (props : option DisconnProperties)
    : Disconnect := Disconnect.mk code props.

(** src/v5/disconnect.rs:132-160 [Disconnect::decode] *)
Definition Disconnect_decode (stream : bytes) : Result (Disconnect * nat) :=
  '(fh, n) ← dec_field FixedHeader_codec stream 0;
  _ ← FixedHeader_validate fh;
  let m := varu32 (remaining_len fh) in
  if m =? 0 then Ok (Disconnect.mk DisconnReasonCode.NormalDisconnect None, n)
  else if m <? 2 then
    '(code, n) ← dec_field u8_codec stream n;
    code ← DisconnReasonCode_try_from code;
    Ok (Disconnect.mk code None, n)
  else
    '(code, n) ← dec_field u8_codec stream n;
    code ← DisconnReasonCode_try_from code;
    '(properties, n) ← dec_props DisconnProperties_decode stream n;
    Ok (Disconnect.mk code properties, n).

(** src/v5/disconnect.rs:162-180 [Disconnect::encode] *)
Definition Disconnect_encode (self : Disconnect) : Result Blob :=
  code ← u8_encode (DisconnReasonCode_as_u8 (Disconnect.code self));
  properties ← enc_props DisconnProperties_encode (Disconnect.properties self);
  let data := as_ref code ++ properties in
  frame_encode (FixedHeader_new PacketType.Disconnect) data.

(** src/v5/disconnect.rs:131-181 [Packetize for Disconnect] *)
Definition Disconnect_codec : Packetize Disconnect :=
  mkPacketize Disconnect_decode Disconnect_encode.

(** * AUTH *)

(** src/v5/auth.rs:104-113 [AuthProperties] *)
Module AuthProperties.
Record AuthProperties := mk {
  authentication_method : bytes;
  authentication_data : bytes;
  reason_string : option bytes;
  user_properties : list UserProperty;
}.
Definition set_authentication_method (v : bytes) (p : AuthProperties) : AuthProperties :=
  mk v (authentication_data p) (reason_string p) (user_properties p).
Definition set_authentication_data (v : bytes) (p : AuthProperties) : AuthProperties :=
  mk (authentication_method p) v (reason_string p) (user_properties p).
Definition set_reason_string (v : option bytes) (p : AuthProperties) : AuthProperties :=
  mk (authentication_method p) (authentication_data p) v (user_properties p).
Definition set_user_properties (v : list UserProperty) (p : AuthProperties) : AuthProperties :=
  mk (authentication_method p) (authentication_data p) (reason_string p) v.
End AuthProperties.
Abbreviation AuthProperties := AuthProperties.AuthProperties.

(** src/v5/auth.rs:103-103 [AuthProperties::default] *)
Definition AuthProperties_default : AuthProperties := AuthProperties.mk [] [] None [].

(** The two local variables of the loop, and the structure. *)
(** src/v5/auth.rs:154-155 [AuthProperties::decode] *)
Definition AuthLocals : Type := option bytes * option bytes * AuthProperties.

(** src/v5/auth.rs:166-174 [AuthProperties::decode] *)
Definition AuthProperties_step (st : AuthLocals) (property : Property) : Result AuthLocals :=
  let '(authentication_method, authentication_data, props) := st in
  match property with
  | Property.AuthenticationMethod val => Ok (Some val, authentication_data, props)
  | Property.AuthenticationData val => Ok (authentication_method, Some val, props)
  | Property.ReasonString val =>
      Ok (authentication_method, authentication_data,
          AuthProperties.set_reason_string (Some val) props)
  | Property.UserProp val =>
      Ok (authentication_method, authentication_data,
          AuthProperties.set_user_properties (AuthProperties.user_properties props ++ [val]) props)
  | _ => err ErrorKind.ProtocolError ReasonCode.ProtocolError
  end.

(** src/v5/auth.rs:177-185 [AuthProperties::decode] *)
Definition AuthProperties_finish (st : AuthLocals) : Result AuthProperties :=
  let '(authentication_method, authentication_data, props) := st in
  props ← match authentication_method with
          | Some val => Ok (AuthProperties.set_authentication_method val props)
          | None => err ErrorKind.ProtocolError ReasonCode.ProtocolError
          end;
  match authentication_data with
  | Some val => Ok (AuthProperties.set_authentication_data val props)
  | None => err ErrorKind.ProtocolError ReasonCode.ProtocolError
  end.

(** src/v5/auth.rs:143-189 [AuthProperties::decode] *)
Definition AuthProperties_decode (stream : bytes) : Result (AuthProperties * nat) :=
  '(st, n) ← props_decode dup_err_std AuthProperties_step
               (None, None, AuthProperties_default) stream;
  props ← AuthProperties_finish st;
  Ok (props, n).

(** src/v5/auth.rs:191-207 [AuthProperties::encode] *)
Definition AuthProperties_encode (self : AuthProperties) : Result Blob :=
  let data := [] in
  data ← enc_prop data PropertyType.AuthenticationMethod String_codec
           (AuthProperties.authentication_method self);
  data ← enc_prop data PropertyType.AuthenticationData Vec_codec
           (AuthProperties.authentication_data self);
  data ← enc_prop_opt data PropertyType.ReasonString String_codec
           (AuthProperties.reason_string self);
  data ← enc_prop_each data PropertyType.UserProp UserProperty_codec
           (AuthProperties.user_properties self);
  data ← insert_property_len (length data) data;
  Ok (Large data).

(** src/v5/auth.rs:38-41 [Auth] *)
Module Auth.
Record Auth := mk {
  code : AuthReasonCode;
  properties : option AuthProperties;
}.
End Auth.
Abbreviation Auth := Auth.Auth.

(** src/v5/auth.rs:56-75 [Auth::decode] *)
Definition Auth_decode (stream : bytes) : Result (Auth * nat) :=
  '(fh, n) ← dec_field FixedHeader_codec stream 0;
  _ ← FixedHeader_validate fh;
  if varu32 (remaining_len fh) =? 0 then Ok (Auth.mk AuthReasonCode.Success None, n)
  else
    '(code, n) ← dec_field u8_codec stream n;
    code ← AuthReasonCode_try_from code;
    '(properties, n) ← dec_props AuthProperties_decode stream n;
    Ok (Auth.mk code properties, n).

(** src/v5/auth.rs:77-93 [Auth::encode] *)
Definition Auth_encode (self : Auth) : Result Blob :=
  code ← u8_encode (AuthReasonCode_as_u8 (Auth.code self));
  properties ← enc_props AuthProperties_encode (Auth.properties self);
  let data := as_ref code ++ properties in
  frame_encode (FixedHeader_new PacketType.Auth) data.

(** src/v5/auth.rs:55-94 [Packetize for Auth] *)
Definition Auth_codec : Packetize Auth := mkPacketize Auth_decode Auth_encode.

(** * PINGREQ and PINGRESP *)

(** src/v5/ping.rs:11-11 [PingReq] *)
Inductive PingReq := mkPingReq.
(** src/v5/ping.rs:36-36 [PingResp] *)
Inductive PingResp := mkPingResp.

(** src/v5/ping.rs:14-21 [PingReq::decode] *)
Definition PingReq_decode (stream : bytes) : Result (PingReq * nat) :=
  '(fh, n) ← dec_field FixedHeader_codec stream 0;
  _ ← FixedHeader_validate fh;
  Ok (mkPingReq, n).

(** [copy_from_slice] panics unless the header is two bytes long. *)
(** src/v5/ping.rs:23-30 [PingReq::encode] *)
Definition PingReq_encode (self : PingReq) : Result Blob :=
  fh ← FixedHeader_new PacketType.PingResp (mkVarU32 0);
  blob ← FixedHeader_encode fh;
  if decide (length (as_ref blob) = 2%nat) then
    Ok (Small (as_ref blob ++ replicate 30 0) 2)
  else Panic.

(** src/v5/ping.rs:13-31 [Packetize for PingReq] *)
Definition PingReq_codec : Packetize PingReq := mkPacketize PingReq_decode PingReq_encode.

(** src/v5/ping.rs:39-46 [PingResp::decode] *)
Definition PingResp_decode (stream : bytes) : Result (PingResp * nat) :=
  '(fh, n) ← dec_field FixedHeader_codec stream 0;
  _ ← FixedHeader_validate fh;
  Ok (mkPingResp, n).

(** src/v5/ping.rs:48-55 [PingResp::encode] *)
Definition PingResp_encode (self : PingResp) : Result Blob :=
  fh ← FixedHeader_new PacketType.PingReq (mkVarU32 0);
  blob ← FixedHeader_encode fh;
  if decide (length (as_ref blob) = 2%nat) then
    Ok (Small (as_ref blob ++ replicate 30 0) 2)
  else Panic.

(** src/v5/ping.rs:38-56 [Packetize for PingResp] *)
Definition PingResp_codec : Packetize PingResp := mkPacketize PingResp_decode PingResp_encode.

(** The properties the structure stands for, in the encoder's order. *)
Definition PubProperties_to_props (x : PubProperties) : list Property :=
  opt_prop Property.ReasonString (PubProperties.reason_string x) ++
  (Property.UserProp <$> PubProperties.user_properties x).

Definition valid_PubProperties (x : PubProperties) : Prop :=
  Forall valid_Property (PubProperties_to_props x).

#[export] Instance PubProperties_block :
  PropsBlock PubProperties_encode dup_err_std PubProperties_step PubProperties_default
    PubProperties_to_props valid_PubProperties.
Proof.
  split.
  - by intros x Hv.
  - solve_block_encode.
  - intros x Hv. unfold PubProperties_to_props.
    eapply (fold_props_watched _ watched_std);
      [apply dup_err_std_watched|solve_watched|solve_NoDup|]. destruct x.
    fold_opt PubProperties.set_reason_string.
    fold_push PubProperties.set_user_properties. done.
  - settle_step.
  - settle_block_encode.
Qed.

(** What a packet may carry: a structure with something in it. *)
Definition normal_PubProperties (x : PubProperties) : Prop := valid_PubProperties x ∧ x ≠ PubProperties_default.

#[export] Instance PubProperties_codec_ok :
  BlockCodec PubProperties_encode PubProperties_decode normal_PubProperties.
Proof. exact (PropsBlock_codec _ _ _ _ _ _ PubProperties_block). Qed.

Lemma SubAckReasonCode_roundtrip c : SubAckReasonCode_try_from (SubAckReasonCode_as_u8 c) = Ok c.
Proof. by destruct c. Qed.

Lemma SubAckReasonCode_byte c : is_u8 (SubAckReasonCode_as_u8 c).
Proof. by destruct c. Qed.

Lemma SubAckReasonCode_try_settled v : settled (SubAckReasonCode_try_from v).
Proof. unfold SubAckReasonCode_try_from. repeat case_match; exact I. Qed.

(** The properties the structure stands for, in the encoder's order. *)
Definition SubAckProperties_to_props (x : SubAckProperties) : list Property :=
  opt_prop Property.ReasonString (SubAckProperties.reason_string x) ++
  (Property.UserProp <$> SubAckProperties.user_properties x).

Definition valid_SubAckProperties (x : SubAckProperties) : Prop :=
  Forall valid_Property (SubAckProperties_to_props x).

#[export] Instance SubAckProperties_block :
  PropsBlock SubAckProperties_encode dup_err_std SubAckProperties_step SubAckProperties_default
    SubAckProperties_to_props valid_SubAckProperties.
Proof.
  split.
  - by intros x Hv.
  - solve_block_encode.
  - intros x Hv. unfold SubAckProperties_to_props.
    eapply (fold_props_watched _ watched_std);
      [apply dup_err_std_watched|solve_watched|solve_NoDup|]. destruct x.
    fold_opt SubAckProperties.set_reason_string.
    fold_push SubAckProperties.set_user_properties. done.
  - settle_step.
  - settle_block_encode.
Qed.

(** What a packet may carry: a structure with something in it. *)
Definition normal_SubAckProperties (x : SubAckProperties) : Prop := valid_SubAckProperties x ∧ x ≠ SubAckProperties_default.

#[export] Instance SubAckProperties_codec_ok :
  BlockCodec SubAckProperties_encode SubAckProperties_decode normal_SubAckProperties.
Proof. exact (PropsBlock_codec _ _ _ _ _ _ SubAckProperties_block). Qed.

Lemma UnsubAckReasonCode_roundtrip c : UnsubAckReasonCode_try_from (UnsubAckReasonCode_as_u8 c) = Ok c.
Proof. by destruct c. Qed.

Lemma UnsubAckReasonCode_byte c : is_u8 (UnsubAckReasonCode_as_u8 c).
Proof. by destruct c. Qed.

Lemma UnsubAckReasonCode_try_settled v : settled (UnsubAckReasonCode_try_from v).
Proof. unfold UnsubAckReasonCode_try_from. repeat case_match; exact I. Qed.

(** The properties the structure stands for, in the encoder's order. *)
Definition UnsubAckProperties_to_props (x : UnsubAckProperties) : list Property :=
  opt_prop Property.ReasonString (UnsubAckProperties.reason_string x) ++
  (Property.UserProp <$> UnsubAckProperties.user_properties x).

Definition valid_UnsubAckProperties (x : UnsubAckProperties) : Prop :=
  Forall valid_Property (UnsubAckProperties_to_props x).

#[export] Instance UnsubAckProperties_block :
  PropsBlock UnsubAckProperties_encode dup_err_std UnsubAckProperties_step UnsubAckProperties_default
    UnsubAckProperties_to_props valid_UnsubAckProperties.
Proof.
  split.
  - by intros x Hv.
  - solve_block_encode.
  - intros x Hv. unfold UnsubAckProperties_to_props.
    eapply (fold_props_watched _ watched_std);
      [apply dup_err_std_watched|solve_watched|solve_NoDup|]. destruct x.
    fold_opt UnsubAckProperties.set_reason_string.
    fold_push UnsubAckProperties.set_user_properties. done.
  - settle_step.
  - settle_block_encode.
Qed.

(** What a packet may carry: a structure with something in it. *)
Definition normal_UnsubAckProperties (x : UnsubAckProperties) : Prop := valid_UnsubAckProperties x ∧ x ≠ UnsubAckProperties_default.

#[export] Instance UnsubAckProperties_codec_ok :
  BlockCodec UnsubAckProperties_encode UnsubAckProperties_decode normal_UnsubAckProperties.
Proof. exact (PropsBlock_codec _ _ _ _ _ _ UnsubAckProperties_block). Qed.

Lemma DisconnReasonCode_roundtrip c : DisconnReasonCode_try_from (DisconnReasonCode_as_u8 c) = Ok c.
Proof. by destruct c. Qed.

Lemma DisconnReasonCode_byte c : is_u8 (DisconnReasonCode_as_u8 c).
Proof. by destruct c. Qed.

Lemma DisconnReasonCode_try_settled v : settled (DisconnReasonCode_try_from v).
Proof. unfold DisconnReasonCode_try_from. repeat case_match; exact I. Qed.

(** The properties the structure stands for, in the encoder's order. *)
Definition DisconnProperties_to_props (x : DisconnProperties) : list Property :=
  opt_prop Property.SessionExpiryInterval (DisconnProperties.session_expiry_interval x) ++
  opt_prop Property.ReasonString (DisconnProperties.reason_string x) ++
  opt_prop Property.ServerReference (DisconnProperties.server_reference x) ++
  (Property.UserProp <$> DisconnProperties.user_properties x).

Definition valid_DisconnProperties (x : DisconnProperties) : Prop :=
  Forall valid_Property (DisconnProperties_to_props x).

#[export] Instance DisconnProperties_block :
  PropsBlock DisconnProperties_encode dup_err_std DisconnProperties_step DisconnProperties_default
    DisconnProperties_to_props valid_DisconnProperties.
Proof.
  split.
  - by intros x Hv.
  - solve_block_encode.
  - intros x Hv. unfold DisconnProperties_to_props.
    eapply (fold_props_watched _ watched_std);
      [apply dup_err_std_watched|solve_watched|solve_NoDup|]. destruct x.
    fold_opt DisconnProperties.set_session_expiry_interval.
    fold_opt DisconnProperties.set_reason_string.
    fold_opt DisconnProperties.set_server_reference.
    fold_push DisconnProperties.set_user_properties. done.
  - settle_step.
  - settle_block_encode.
Qed.

(** What a packet may carry: a structure with something in it. *)
Definition normal_DisconnProperties (x : DisconnProperties) : Prop := valid_DisconnProperties x ∧ x ≠ DisconnProperties_default.

#[export] Instance DisconnProperties_codec_ok :
  BlockCodec DisconnProperties_encode DisconnProperties_decode normal_DisconnProperties.
Proof. exact (PropsBlock_codec _ _ _ _ _ _ DisconnProperties_block). Qed.

Lemma AuthReasonCode_roundtrip c : AuthReasonCode_try_from (AuthReasonCode_as_u8 c) = Ok c.
Proof. by destruct c. Qed.

Lemma AuthReasonCode_byte c : is_u8 (AuthReasonCode_as_u8 c).
Proof. by destruct c. Qed.

Lemma AuthReasonCode_try_settled v : settled (AuthReasonCode_try_from v).
Proof. unfold AuthReasonCode_try_from. repeat case_match; exact I. Qed.

(** * The four acknowledgements of PUBLISH *)

(** A packet the broker may build: field types, a reason code the packet type
    admits, no empty property structure. *)
Definition valid_Pub (p : Pub) : Prop :=
  is_u16 (Pub.packet_id p) ∧ Pub_validate p = Ok () ∧
  ∀ x, Pub.properties p = Some x → normal_PubProperties x.

Definition Pub_header (p : Pub) (remlen : VarU32) : Result FixedHeader :=
  match Pub.packet_type p with
  | PacketType.PubAck => FixedHeader_new PacketType.PubAck remlen
  | PacketType.PubRel => FixedHeader_new_pubrel remlen
  | PacketType.PubRec => FixedHeader_new PacketType.PubRec remlen
  | PacketType.PubComp => FixedHeader_new PacketType.PubComp remlen
  | _ => err_desc ErrorKind.ProtocolError
  end.

#[export] Instance Pub_header_maker p : HeaderMaker (Pub_header p).
Proof.
  unfold Pub_header. destruct (Pub.packet_type p); try exact _; intros rl; by split.
Qed.

Lemma Pub_header_unwrap p rl fh :
  Pub_header p rl = Ok fh →
  ∃ r q d, FixedHeader_unwrap fh = Ok (Pub.packet_type p, r, q, d).
Proof.
  unfold Pub_header, FixedHeader_new, FixedHeader_new_pubrel.
  destruct (Pub.packet_type p); try done; (destruct (_ <? _); [done|]);
    intros [= <-]; by do 3 eexists.
Qed.

#[export] Instance Pub_round_trip : RoundTrip Pub_codec valid_Pub.
Proof.
  split; cbn [encode decode Pub_codec].
  - intros p _. unfold Pub_encode. cbv zeta. fold (Pub_header p). settle_packet.
  - intros p b (Hid & _ & Hp) He. unfold Pub_encode in He. cbv zeta in He.
    fold (Pub_header p) in He. outcome_inv He.
    apply frame_encode_Ok in He as (fh & _ & _ & _ & Hb & _); [|exact _]. apply Hb.
    apply Forall_app_2; [exact (encode_bytes (c := u16_codec) _ _ Hid Hr)|].
    apply Forall_app_2; [|exact (proj1 (enc_props_bytes _ _ _ _ _ Hp Hr1))].
    exact (encode_bytes (c := u8_codec) _ _ (ReasonCode_as_u8_byte _) Hr0).
  - intros p b rest (Hid & Hc & Hp) He. unfold Pub_encode in He. cbv zeta in He.
    fold (Pub_header p) in He. outcome_inv He. unfold Pub_decode.
    pose proof (enc_props_bytes _ _ _ _ _ Hp Hr1) as [_ Hne].
    dec_header He rest. apply Pub_header_unwrap in Hmk as (r' & q & d & Hu).
    rewrite Hu, bind_Ok_1. dec_next u16_codec is_u16 Hid Hr.
    rewrite Hrl. cbn [varu32].
    assert (4 ≤ length (as_ref r ++ as_ref r0 ++ r1))%nat.
    { rewrite !length_app, (length_u16 _ _ Hr), (length_u8 _ _ Hr0). destruct r1; cbn; [done|lia]. }
    rewrite !(proj2 (Z.eqb_neq _ _)) by lia.
    dec_next u8_codec is_u8 (ReasonCode_as_u8_byte (Pub.code p)) Hr0.
    rewrite ReasonCode_u8_roundtrip, bind_Ok_1.
    dec_block Hp Hr1. destruct p. cbn in Hc |- *. rewrite Hc. cbn. by dec_end.
Qed.

(** PUBACK, PUBREC, PUBREL and PUBCOMP share a decoder. *)
Definition is_pub_ack (pt : PacketType) : bool :=
  match pt with
  | PacketType.PubAck | PacketType.PubRec | PacketType.PubRel | PacketType.PubComp => true
  | _ => false
  end.

Lemma Pub_validate_settled p : is_pub_ack (Pub.packet_type p) = true → settled (Pub_validate p).
Proof.
  unfold Pub_validate. destruct (Pub.packet_type p); try done; intros _; cbn;
    destruct (Pub.code p); exact I.
Qed.

Lemma ReasonCode_try_settled v : settled (ReasonCode_try_from v).
Proof. unfold ReasonCode_try_from. repeat case_match; exact I. Qed.

#[export] Instance Pub_frame_decoder : FrameDecoder Pub_codec is_pub_ack.
Proof.
  split; cbn [decode Pub_codec]; unfold Pub_decode.
  - intros s pt Hs _ (fh & n & r & q & d & Hh & Hu) Hpt.
    rewrite Hh, bind_Ok_1. pose proof (dec_field_bound FixedHeader_codec _ _ _ _ _ Hs Hh) as [? [? Hv]].
    rewrite Hv, bind_Ok_1, Hu, bind_Ok_1.
    assert (∀ id c ps, settled (Pub_validate (Pub.mk pt id c ps))) as Hval
      by (intros; by apply Pub_validate_settled).
    settle_decoder Hs.
    apply settled_bind; [|intros [p m] Hp].
    + settle_decoder Hs; (apply settled_bind; [apply ReasonCode_try_settled|intros c _]);
        settle_decoder Hs.
    + apply settled_bind; [|done].
      assert (Pub.packet_type p = pt) as Hpp.
      { repeat case_match; outcome_inv Hp; done. }
      destruct p; cbn in Hpp; subst; apply Hval.
  - intros s p n Hs H. bound_decoder Hs; lia.
Qed.

(** * SUBACK and UNSUBACK *)

Section dec_codes.
Context {C} (as_u8 : C → u8) (try_from : u8 → Result C).

Lemma dec_codes_as_u8 codes :
  (∀ c, try_from (as_u8 c) = Ok c) → dec_codes try_from (as_u8 <$> codes) = Ok codes.
Proof. intros H. induction codes as [|c codes IH]; cbn; [done|]. rewrite H. cbn. by rewrite IH. Qed.

Lemma dec_codes_settled payload :
  (∀ v, settled (try_from v)) → settled (dec_codes try_from payload).
Proof.
  intros H. induction payload as [|v payload IH]; cbn; [exact I|].
  apply settled_bind; [done|intros c _]. by apply settled_bind.
Qed.

Lemma as_u8_bytes codes : (∀ c, is_u8 (as_u8 c)) → is_bytes (as_u8 <$> codes).
Proof. intros H. apply Forall_fmap, Forall_true, H. Qed.
End dec_codes.

Definition valid_SubAck (p : SubAck) : Prop :=
  is_u16 (SubAck.packet_id p) ∧ SubAck.return_codes p ≠ [] ∧
  ∀ x, SubAck.properties p = Some x → normal_SubAckProperties x.

#[export] Instance SubAck_round_trip : RoundTrip SubAck_codec valid_SubAck.
Proof.
  split; cbn [encode decode SubAck_codec].
  - intros p _. unfold SubAck_encode. cbv zeta. settle_packet.
  - intros p b (Hid & _ & Hp) He. unfold SubAck_encode in He. outcome_inv He.
    apply frame_encode_Ok in He as (fh & _ & _ & _ & Hb & _); [|exact _]. apply Hb.
    apply Forall_app_2; [exact (encode_bytes (c := u16_codec) _ _ Hid Hr)|].
    apply Forall_app_2; [exact (proj1 (enc_props_bytes _ _ _ _ _ Hp Hr0))|].
    apply as_u8_bytes, SubAckReasonCode_byte.
  - intros p b rest (Hid & Hc & Hp) He. unfold SubAck_encode in He. outcome_inv He.
    unfold SubAck_decode. dec_header He rest.
    dec_next u16_codec is_u16 Hid Hr. dec_block Hp Hr0. rewrite Hrl. cbn [varu32].
    rewrite (frame_tail_at _ _ _ _ _ _ _ _ Ha); [|rewrite !length_app; lia|by destruct (SubAck.return_codes p)].
    rewrite bind_Ok_1, (dec_codes_as_u8 _ _ _ SubAckReasonCode_roundtrip), bind_Ok_1.
    apply at_pos_next in Ha. rewrite <- Nat2Z.inj_add, Nat2Z.id, Hlen. by destruct p.
Qed.

#[export] Instance SubAck_frame_decoder : FrameDecoder SubAck_codec (λ _, true).
Proof.
  split; cbn [decode SubAck_codec]; unfold SubAck_decode.
  - intros s pt Hs Hf _ _. settle_decoder Hs.
    rewrite (framed_end _ _ _ Hf Hd). apply settled_bind.
    + apply frame_tail_settled; try exact I; [lia|done].
    + intros [payload m] _. apply settled_bind; [|done].
      apply dec_codes_settled, SubAckReasonCode_try_settled.
  - intros s p n Hs H. bound_decoder Hs.
    apply frame_tail_inv in Hd3 as [[_ ?]|[(d & ? & -> & [= ? ?])|?]]; [done|lia|done].
Qed.

Definition valid_UnsubAck (p : UnsubAck) : Prop :=
  is_u16 (UnsubAck.packet_id p) ∧ UnsubAck.return_codes p ≠ [] ∧
  ∀ x, UnsubAck.properties p = Some x → normal_UnsubAckProperties x.

#[export] Instance UnsubAck_round_trip : RoundTrip UnsubAck_codec valid_UnsubAck.
Proof.
  split; cbn [encode decode UnsubAck_codec].
  - intros p _. unfold UnsubAck_encode. cbv zeta. settle_packet.
  - intros p b (Hid & _ & Hp) He. unfold UnsubAck_encode in He. outcome_inv He.
    apply frame_encode_Ok in He as (fh & _ & _ & _ & Hb & _); [|exact _]. apply Hb.
    apply Forall_app_2; [exact (encode_bytes (c := u16_codec) _ _ Hid Hr)|].
    apply Forall_app_2; [exact (proj1 (enc_props_bytes _ _ _ _ _ Hp Hr0))|].
    apply as_u8_bytes, UnsubAckReasonCode_byte.
  - intros p b rest (Hid & Hc & Hp) He. unfold UnsubAck_encode in He. outcome_inv He.
    unfold UnsubAck_decode. dec_header He rest.
    dec_next u16_codec is_u16 Hid Hr. dec_block Hp Hr0. rewrite Hrl. cbn [varu32].
    rewrite (frame_tail_at _ _ _ _ _ _ _ _ Ha); [|rewrite !length_app; lia|by destruct (UnsubAck.return_codes p)].
    rewrite bind_Ok_1, (dec_codes_as_u8 _ _ _ UnsubAckReasonCode_roundtrip), bind_Ok_1.
    apply at_pos_next in Ha. rewrite <- Nat2Z.inj_add, Nat2Z.id, Hlen. by destruct p.
Qed.

#[export] Instance UnsubAck_frame_decoder : FrameDecoder UnsubAck_codec (λ _, true).
Proof.
  split; cbn [decode UnsubAck_codec]; unfold UnsubAck_decode.
  - intros s pt Hs Hf _ _. settle_decoder Hs.
    rewrite (framed_end _ _ _ Hf Hd). apply settled_bind.
    + apply frame_tail_settled; try exact I; [lia|done].
    + intros [payload m] _. apply settled_bind; [|done].
      apply dec_codes_settled, UnsubAckReasonCode_try_settled.
  - intros s p n Hs H. bound_decoder Hs.
    apply frame_tail_inv in Hd3 as [[_ ?]|[(d & ? & -> & [= ? ?])|?]]; [done|lia|done].
Qed.

(** * DISCONNECT *)

Definition valid_Disconnect (p : Disconnect) : Prop :=
  ∀ x, Disconnect.properties p = Some x → normal_DisconnProperties x.

#[export] Instance Disconnect_round_trip : RoundTrip Disconnect_codec valid_Disconnect.
Proof.
  split; cbn [encode decode Disconnect_codec].
  - intros p _. unfold Disconnect_encode. cbv zeta. settle_packet.
  - intros p b Hp He. unfold Disconnect_encode in He. outcome_inv He.
    apply frame_encode_Ok in He as (fh & _ & _ & _ & Hb & _); [|exact _]. apply Hb.
    apply Forall_app_2; [|exact (proj1 (enc_props_bytes _ _ _ _ _ Hp Hr0))].
    exact (encode_bytes (c := u8_codec) _ _ (DisconnReasonCode_byte _) Hr).
  - intros p b rest Hp He. unfold Disconnect_encode in He. outcome_inv He.
    pose proof (enc_props_bytes _ _ _ _ _ Hp Hr0) as [_ Hne].
    unfold Disconnect_decode. dec_header He rest. rewrite Hrl. cbv zeta. cbn [varu32].
    assert (2 ≤ length (as_ref r ++ r0))%nat.
    { rewrite !length_app, (length_u8 _ _ Hr). destruct r0; cbn; [done|lia]. }
    rewrite (proj2 (Z.eqb_neq _ _)), (proj2 (Z.ltb_ge _ _)) by lia.
    dec_next u8_codec is_u8 (DisconnReasonCode_byte (Disconnect.code p)) Hr.
    rewrite DisconnReasonCode_roundtrip, bind_Ok_1. dec_block Hp Hr0. dec_end. by destruct p.
Qed.

#[export] Instance Disconnect_frame_decoder : FrameDecoder Disconnect_codec (λ _, true).
Proof.
  split; cbn [decode Disconnect_codec]; unfold Disconnect_decode.
  - intros s pt Hs _ _ _. settle_decoder Hs;
      (apply settled_bind; [apply DisconnReasonCode_try_settled|intros c _]); settle_decoder Hs.
  - intros s p n Hs H. bound_decoder Hs; lia.
Qed.

(** * AUTH *)

(** The properties an AUTH structure stands for: method and data always. *)
Definition AuthProperties_to_props (x : AuthProperties) : list Property :=
  opt_prop Property.AuthenticationMethod (Some (AuthProperties.authentication_method x)) ++
  opt_prop Property.AuthenticationData (Some (AuthProperties.authentication_data x)) ++
  opt_prop Property.ReasonString (AuthProperties.reason_string x) ++
  (Property.UserProp <$> AuthProperties.user_properties x).

Definition valid_AuthProperties (x : AuthProperties) : Prop :=
  Forall valid_Property (AuthProperties_to_props x).

Lemma AuthProperties_fold x :
  fold_props dup_err_std AuthProperties_step (replicate 256 false)
    (None, None, AuthProperties_default) (AuthProperties_to_props x)
  = Ok (Some (AuthProperties.authentication_method x),
        Some (AuthProperties.authentication_data x),
        AuthProperties.mk [] [] (AuthProperties.reason_string x)
          (AuthProperties.user_properties x)).
Proof.
  unfold AuthProperties_to_props.
  eapply (fold_props_watched _ watched_std);
    [apply dup_err_std_watched|solve_watched|solve_NoDup|]. destruct x.
  fold_opt (λ (o : option bytes) (st : AuthLocals), (o, st.1.2, st.2)).
  fold_opt (λ (o : option bytes) (st : AuthLocals), (st.1.1, o, st.2)).
  fold_opt (λ (o : option bytes) (st : AuthLocals), (st.1.1, st.1.2, AuthProperties.set_reason_string o st.2)).
  fold_push (λ (l : list UserProperty) (st : AuthLocals), (st.1.1, st.1.2, AuthProperties.set_user_properties l st.2)).
  done.
Qed.

Lemma AuthProperties_encode_Ok x b :
  AuthProperties_encode x = Ok b →
  ∃ lb d, enc_list (AuthProperties_to_props x) = Ok d ∧
    VarU32_encode (mkVarU32 (Z.of_nat (length d))) = Ok lb ∧
    is_VarU32 (mkVarU32 (Z.of_nat (length d))) ∧ as_ref b = as_ref lb ++ d.
Proof.
  intros H.
  assert (∃ body data, emits [] (AuthProperties_to_props x) body ∧
      insert_property_len (length body) body = Ok data ∧ as_ref b = data)
    as (body & data & (d & Hd & ->) & Hl & ->).
  { revert x b H. solve_block_encode. }
  apply insert_property_len_Ok in Hl as (lb & Hlb & -> & Hr). eauto 10.
Qed.

#[export] Instance AuthProperties_codec_ok :
  BlockCodec AuthProperties_encode AuthProperties_decode valid_AuthProperties.
Proof.
  split; unfold AuthProperties_decode.
  - intros x b Hv (lb & d & Hd & Hlb & Hr & ->)%AuthProperties_encode_Ok.
    exists lb, d. split; [done|]. split; [done|]. split; [done|].
    split; [by eapply enc_list_bytes|]. intros ->.
    pose proof (enc_list_length _ _ Hv Hd). cbn in *. lia.
  - intros x b rest Hv (lb & d & Hd & Hlb & Hr & ->)%AuthProperties_encode_Ok.
    rewrite <- app_assoc, (props_decode_list _ _ _ (AuthProperties_to_props x)) by done.
    rewrite AuthProperties_fold, !bind_Ok_1, length_app. by destruct x.
  - settle_block_encode.
  - intros s Hs. apply settled_bind.
    + apply props_decode_settled; [|done]. intros [[m d] props] p. revert p.
      intros []; exact I.
    + intros [[[[m|] [d|]] props] n] _; exact I.
  - intros s x n Hs H. outcome_inv H. by apply props_decode_bound in Hr.
Qed.

Definition valid_Auth (p : Auth) : Prop :=
  ∀ x, Auth.properties p = Some x → valid_AuthProperties x.

#[export] Instance Auth_round_trip : RoundTrip Auth_codec valid_Auth.
Proof.
  split; cbn [encode decode Auth_codec].
  - intros p _. unfold Auth_encode. cbv zeta. settle_packet.
  - intros p b Hp He. unfold Auth_encode in He. outcome_inv He.
    apply frame_encode_Ok in He as (fh & _ & _ & _ & Hb & _); [|exact _]. apply Hb.
    apply Forall_app_2; [|exact (proj1 (enc_props_bytes _ _ _ _ _ Hp Hr0))].
    exact (encode_bytes (c := u8_codec) _ _ (AuthReasonCode_byte _) Hr).
  - intros p b rest Hp He. unfold Auth_encode in He. outcome_inv He.
    unfold Auth_decode. dec_header He rest. rewrite Hrl. cbn [varu32].
    rewrite (proj2 (Z.eqb_neq _ _)) by (rewrite length_app, (length_u8 _ _ Hr); lia).
    dec_next u8_codec is_u8 (AuthReasonCode_byte (Auth.code p)) Hr.
    rewrite AuthReasonCode_roundtrip, bind_Ok_1. dec_block Hp Hr0. dec_end. by destruct p.
Qed.

#[export] Instance Auth_frame_decoder : FrameDecoder Auth_codec (λ _, true).
Proof.
  split; cbn [decode Auth_codec]; unfold Auth_decode.
  - intros s pt Hs _ _ _. settle_decoder Hs.
    apply settled_bind; [apply AuthReasonCode_try_settled|intros c _]. settle_decoder Hs.
  - intros s p n Hs H. bound_decoder Hs; lia.
Qed.

(** * The pings *)

#[export] Instance PingReq_round_trip : RoundTrip PingReq_codec (λ _, True).
Proof. split; [done|intros [] b _ [= <-]; by repeat constructor|by intros [] b rest _ [= <-]]. Qed.

#[export] Instance PingResp_round_trip : RoundTrip PingResp_codec (λ _, True).
Proof. split; [done|intros [] b _ [= <-]; by repeat constructor|by intros [] b rest _ [= <-]]. Qed.

#[export] Instance PingReq_frame_decoder : FrameDecoder PingReq_codec (λ _, true).
Proof.
  split; cbn [decode PingReq_codec]; unfold PingReq_decode.
  - intros s pt Hs _ _ _. settle_decoder Hs.
  - intros s p n Hs H. bound_decoder Hs; lia.
Qed.

#[export] Instance PingResp_frame_decoder : FrameDecoder PingResp_codec (λ _, true).
Proof.
  split; cbn [decode PingResp_codec]; unfold PingResp_decode.
  - intros s pt Hs _ _ _. settle_decoder Hs.
  - intros s p n Hs H. bound_decoder Hs; lia.
Qed.
