(* ===== verification/PublishPacket.v ===== *)
(** Model of [src/v5/publish.rs]: the PUBLISH packet and its properties; its round
    trip, and what the inverted duplicate test of its property decoder does. *)

From S2P Require Import Prelude Error Util Codec Types V5 V5Facts PropsBlock Frame.
Local Open Scope Z_scope.

(** The test that reports a repeated property.  It fires for the two properties
    the list allows to repeat, and for no other. *)
(** src/v5/publish.rs:212-214 [PublishProperties::decode] *)
Definition dup_err_publish (pt : PropertyType) (seen : bool) : bool :=
  let dup_ok := [PropertyType.UserProp; PropertyType.SubscriptionIdentifier] in
  bool_decide (pt ∈ dup_ok) && seen.

(** src/v5/publish.rs:185-194 [PublishProperties] *)
Module PublishProperties.
Record PublishProperties := mk {
  payload_format_indicator : PayloadFormat;
  message_expiry_interval : option u32;
  topic_alias : option u16;
  response_topic : option TopicName;
  correlation_data : option bytes;
  subscribtion_identifier : list VarU32;
  content_type : option bytes;
  user_properties : list UserProperty;
}.
Definition set_payload_format_indicator (v : PayloadFormat) (p : PublishProperties) : PublishProperties :=
    mk v (message_expiry_interval p) (topic_alias p) (response_topic p) (correlation_data p)
    (subscribtion_identifier p) (content_type p) (user_properties p).
Definition set_message_expiry_interval (v : option u32) (p : PublishProperties) : PublishProperties :=
    mk (payload_format_indicator p) v (topic_alias p) (response_topic p) (correlation_data p)
    (subscribtion_identifier p) (content_type p) (user_properties p).
Definition set_topic_alias (v : option u16) (p : PublishProperties) : PublishProperties :=
    mk (payload_format_indicator p) (message_expiry_interval p) v (response_topic p)
    (correlation_data p) (subscribtion_identifier p) (content_type p) (user_properties p).
Definition set_response_topic (v : option TopicName) (p : PublishProperties) : PublishProperties :=
    mk (payload_format_indicator p) (message_expiry_interval p) (topic_alias p) v
    (correlation_data p) (subscribtion_identifier p) (content_type p) (user_properties p).
Definition set_correlation_data (v : option bytes) (p : PublishProperties) : PublishProperties :=
    mk (payload_format_indicator p) (message_expiry_interval p) (topic_alias p) (response_topic
    p) v (subscribtion_identifier p) (content_type p) (user_properties p).
Definition set_subscribtion_identifier (v : list VarU32) (p : PublishProperties) : PublishProperties :=
    mk (payload_format_indicator p) (message_expiry_interval p) (topic_alias p) (response_topic
    p) (correlation_data p) v (content_type p) (user_properties p).
Definition set_content_type (v : option bytes) (p : PublishProperties) : PublishProperties :=
    mk (payload_format_indicator p) (message_expiry_interval p) (topic_alias p) (response_topic
    p) (correlation_data p) (subscribtion_identifier p) v (user_properties p).
Definition set_user_properties (v : list UserProperty) (p : PublishProperties) : PublishProperties :=
    mk (payload_format_indicator p) (message_expiry_interval p) (topic_alias p) (response_topic
    p) (correlation_data p) (subscribtion_identifier p) (content_type p) v.
End PublishProperties.
Abbreviation PublishProperties := PublishProperties.PublishProperties.

(** src/v5/publish.rs:184-184 [PublishProperties::default] *)
Definition PublishProperties_default : PublishProperties := PublishProperties.mk PayloadFormat_default None None None None [] None [].

(** src/v5/publish.rs:219-236 [PublishProperties::decode] *)
Definition PublishProperties_step (props : PublishProperties) (property : Property) : Result PublishProperties :=
  match property with
  | Property.PayloadFormatIndicator val =>
      val ← PayloadFormat_try_from val;
      Ok (PublishProperties.set_payload_format_indicator val props)
  | Property.MessageExpiryInterval val => Ok (PublishProperties.set_message_expiry_interval (Some val) props)
  | Property.TopicAlias val =>
      if val =? 0 then err ErrorKind.ProtocolError ReasonCode.ProtocolError
      else Ok (PublishProperties.set_topic_alias (Some val) props)
  | Property.ResponseTopic val => Ok (PublishProperties.set_response_topic (Some val) props)
  | Property.CorrelationData val => Ok (PublishProperties.set_correlation_data (Some val) props)
  | Property.SubscriptionIdentifier val =>
      Ok (PublishProperties.set_subscribtion_identifier (PublishProperties.subscribtion_identifier props ++ [val]) props)
  | Property.ContentType val => Ok (PublishProperties.set_content_type (Some val) props)
  | Property.UserProp val =>
      Ok (PublishProperties.set_user_properties (PublishProperties.user_properties props ++ [val]) props)
  | _ => err ErrorKind.ProtocolError ReasonCode.ProtocolError
  end.

(** src/v5/publish.rs:197-240 [PublishProperties::decode] *)
Definition PublishProperties_decode (stream : bytes) : Result (PublishProperties * nat) :=
  props_decode dup_err_publish PublishProperties_step PublishProperties_default stream.

(** src/v5/publish.rs:242-267 [PublishProperties::encode] *)
Definition PublishProperties_encode (self : PublishProperties) : Result Blob :=
  let data := [] in
  data ← enc_prop_format data (PublishProperties.payload_format_indicator self);
  data ← enc_prop_opt data PropertyType.MessageExpiryInterval u32_codec
           (PublishProperties.message_expiry_interval self);
  data ← enc_prop_opt data PropertyType.TopicAlias u16_codec (PublishProperties.topic_alias self);
  data ← enc_prop_opt data PropertyType.ResponseTopic TopicName_codec
           (PublishProperties.response_topic self);
  data ← enc_prop_opt data PropertyType.CorrelationData Vec_codec
           (PublishProperties.correlation_data self);
  data ← enc_prop_opt data PropertyType.ContentType String_codec
           (PublishProperties.content_type self);
  data ← enc_prop_each data PropertyType.SubscriptionIdentifier VarU32_codec
           (PublishProperties.subscribtion_identifier self);
  data ← enc_prop_each data PropertyType.UserProp UserProperty_codec
           (PublishProperties.user_properties self);
  data ← insert_property_len (length data) data;
  Ok (Large data).
(** src/v5/publish.rs:271-273 [PublishProperties::is_payload_utf8] *)
Definition PublishProperties_is_payload_utf8 (self : PublishProperties) : bool :=
  PayloadFormat_is_utf8 (PublishProperties.payload_format_indicator self).

(** src/v5/publish.rs:12-20 [Publish] *)
Module Publish.
Record Publish := mk {
  retain : bool;
  qos : QoS;
  duplicate : bool;
  topic_name : TopicName;
  packet_id : option u16;
  properties : option PublishProperties;
  payload : option bytes;
}.
End Publish.
Abbreviation Publish := Publish.Publish.

(** src/v5/publish.rs:35-39 [Publish::cmp] *)
Definition Publish_cmp (self other : Publish) : comparison :=
  str_cmp (topic_name_str (Publish.topic_name self)) (topic_name_str (Publish.topic_name other)).

(** src/v5/publish.rs:29-33 [Publish::partial_cmp] *)
Definition Publish_partial_cmp (self other : Publish) : option comparison :=
  Some (str_cmp (topic_name_str (Publish.topic_name self)) (topic_name_str (Publish.topic_name other))).

(** src/v5/publish.rs:136-169 [Publish::validate] *)
Definition Publish_validate (self : Publish) : Result unit :=
  _ ← match Publish.qos self with
      | QoS.AtMostOnce =>
          if Publish.duplicate self then
            err ErrorKind.MalformedPacket ReasonCode.MalformedPacket
          else Ok ()
      | QoS.AtLeastOnce | QoS.ExactlyOnce =>
          if bool_decide (Publish.packet_id self = None) then
            err ErrorKind.MalformedPacket ReasonCode.MalformedPacket
          else Ok ()
      end;
  match Publish.payload self,
        PublishProperties_is_payload_utf8 <$> Publish.properties self with
  | Some payload, Some true =>
      if from_utf8 payload then Ok ()
      else err ErrorKind.MalformedPacket ReasonCode.PayloadFormatInvalid
  | _, _ => Ok ()
  end.

(** [matches!(qos, QoS::AtLeastOnce | QoS::ExactlyOnce)] *)
(** src/v5/publish.rs:54-54 [Publish::decode] *)
Definition has_packet_id (qos : QoS) : bool :=
  match qos with QoS.AtLeastOnce | QoS.ExactlyOnce => true | _ => false end.

(** src/v5/publish.rs:42-76 [Publish::decode] *)
Definition Publish_decode (stream : bytes) : Result (Publish * nat) :=
  '(fh, fh_len) ← dec_field FixedHeader_codec stream 0;
  _ ← FixedHeader_validate fh;
  '(_, retain, qos, duplicate) ← FixedHeader_unwrap fh;
  '(topic_name, n) ← dec_field TopicName_codec stream fh_len;
  '(packet_id, n) ← dec_field_if u16_codec stream n (has_packet_id qos);
  '(properties, n) ← dec_props PublishProperties_decode stream n;
  let m := Z.of_nat fh_len + varu32 (remaining_len fh) in
  '(payload, n) ← frame_tail stream m n
    (Ok (None, n))
    (λ s, Ok (Some s, Z.to_nat m))
    (err ErrorKind.MalformedPacket ReasonCode.MalformedPacket);
  let val := Publish.mk retain qos duplicate topic_name packet_id properties payload in
  _ ← Publish_validate val;
  Ok (val, n).

(** src/v5/publish.rs:78-105 [Publish::encode] *)
Definition Publish_encode (self : Publish) : Result Blob :=
  topic_name ← TopicName_encode (Publish.topic_name self);
  packet_id ← enc_field_opt u16_codec (Publish.packet_id self);
  properties ← enc_props PublishProperties_encode (Publish.properties self);
  let payload := default [] (Publish.payload self) in
  let data := as_ref topic_name ++ packet_id ++ properties ++ payload in
  frame_encode
    (FixedHeader_new_publish (Publish.retain self) (Publish.qos self) (Publish.duplicate self))
    data.

(** src/v5/publish.rs:41-106 [Packetize for Publish] *)
Definition Publish_codec : Packetize Publish := mkPacketize Publish_decode Publish_encode.

(** src/v5/publish.rs:109-114 [Publish::set_fixed_header] *)
Definition Publish_set_fixed_header (self : Publish) (retain : bool) (qos : QoS) (dup : bool)
    : Publish :=
  Publish.mk retain qos dup (Publish.topic_name self) (Publish.packet_id self)
    (Publish.properties self) (Publish.payload self).

(** src/v5/publish.rs:116-119 [Publish::set_packet_id] *)
Definition Publish_set_packet_id (self : Publish) (packet_id : u16) : Publish :=
  Publish.mk (Publish.retain self) (Publish.qos self) (Publish.duplicate self)
    (Publish.topic_name self) (Some packet_id) (Publish.properties self) (Publish.payload self).

(** src/v5/publish.rs:121-134 [Publish::add_subscription_id] *)
Definition Publish_add_subscription_id (self : Publish) (id : option u32) : Publish :=
  match id with
  | Some id =>
      let properties :=
        match Publish.properties self with
        | Some props =>
            PublishProperties.set_subscribtion_identifier
              (PublishProperties.subscribtion_identifier props ++ [mkVarU32 id]) props
        | None =>
            PublishProperties.set_subscribtion_identifier [mkVarU32 id] PublishProperties_default
        end in
      Publish.mk (Publish.retain self) (Publish.qos self) (Publish.duplicate self)
        (Publish.topic_name self) (Publish.packet_id self) (Some properties)
        (Publish.payload self)
  | None => self
  end.

(** src/v5/publish.rs:175-180 [Publish::topic_alias] *)
Definition Publish_topic_alias (self : Publish) : option u16 :=
  match Publish.properties self with
  | Some props => PublishProperties.topic_alias props
  | None => None
  end.

(** * The property block *)

(** The types [dup_err_publish] watches. *)
Definition watched_publish (pt : PropertyType) : bool :=
  bool_decide (pt ∈ [PropertyType.UserProp; PropertyType.SubscriptionIdentifier]).

Lemma dup_err_publish_watched pt seen : dup_err_publish pt seen = watched_publish pt && seen.
Proof. done. Qed.

(** The properties the structure stands for, in the encoder's order. *)
Definition PublishProperties_to_props (x : PublishProperties) : list Property :=
  format_prop (PublishProperties.payload_format_indicator x) ++
  opt_prop Property.MessageExpiryInterval (PublishProperties.message_expiry_interval x) ++
  opt_prop Property.TopicAlias (PublishProperties.topic_alias x) ++
  opt_prop Property.ResponseTopic (PublishProperties.response_topic x) ++
  opt_prop Property.CorrelationData (PublishProperties.correlation_data x) ++
  opt_prop Property.ContentType (PublishProperties.content_type x) ++
  (Property.SubscriptionIdentifier <$> PublishProperties.subscribtion_identifier x) ++
  (Property.UserProp <$> PublishProperties.user_properties x).

Definition valid_PublishProperties (x : PublishProperties) : Prop :=
  Forall valid_Property (PublishProperties_to_props x) ∧
  PublishProperties.topic_alias x ≠ Some 0 ∧
  (length (PublishProperties.subscribtion_identifier x) ≤ 1)%nat ∧
  (length (PublishProperties.user_properties x) ≤ 1)%nat.

#[export] Instance PublishProperties_block :
  PropsBlock PublishProperties_encode dup_err_publish PublishProperties_step PublishProperties_default
    PublishProperties_to_props valid_PublishProperties.
Proof.
  split.
  - by intros x Hv; apply Hv.
  - solve_block_encode.
  - intros x Hv. destruct Hv as (_ & H0 & H1 & H2). unfold PublishProperties_to_props.
    eapply (fold_props_watched _ watched_publish);
      [apply dup_err_publish_watched|solve_watched|solve_NoDup|]. destruct x.
    fold_format PublishProperties.set_payload_format_indicator.
    fold_opt PublishProperties.set_message_expiry_interval.
    fold_opt PublishProperties.set_topic_alias.
    fold_opt PublishProperties.set_response_topic.
    fold_opt PublishProperties.set_correlation_data.
    fold_opt PublishProperties.set_content_type.
    fold_push PublishProperties.set_subscribtion_identifier.
    fold_push PublishProperties.set_user_properties. done.
  - settle_step.
  - settle_block_encode.
Qed.

(** What a packet may carry: a structure with something in it. *)
Definition normal_PublishProperties (x : PublishProperties) : Prop := valid_PublishProperties x ∧ x ≠ PublishProperties_default.

#[export] Instance PublishProperties_codec_ok :
  BlockCodec PublishProperties_encode PublishProperties_decode normal_PublishProperties.
Proof. exact (PropsBlock_codec _ _ _ _ _ _ PublishProperties_block). Qed.

(** * The packet *)

(** A PUBLISH the encoder and the decoder agree on: field types, a packet
    identifier exactly when the QoS asks for one, what [validate] demands, no
    empty property structure and no empty payload. *)
Definition valid_Publish (p : Publish) : Prop :=
  valid_TopicName (Publish.topic_name p) ∧
  (∀ v, Publish.packet_id p = Some v → is_u16 v) ∧
  (is_Some (Publish.packet_id p) ↔ has_packet_id (Publish.qos p) = true) ∧
  (∀ x, Publish.properties p = Some x → normal_PublishProperties x) ∧
  (∀ d, Publish.payload p = Some d → is_bytes d ∧ d ≠ []) ∧
  Publish_validate p = Ok ().

Lemma Publish_header_unwrap r q d rl fh :
  FixedHeader_new_publish r q d rl = Ok fh →
  FixedHeader_unwrap fh = Ok (PacketType.Publish, r, q, d).
Proof.
  unfold FixedHeader_new_publish. destruct (_ <? _); [done|].
  intros [= <-]. by destruct r, q, d.
Qed.

#[export] Instance Publish_round_trip : RoundTrip Publish_codec valid_Publish.
Proof.
  split; cbn [encode decode Publish_codec].
  - intros p _. unfold Publish_encode. cbv zeta.
    apply settled_bind; [exact (encoder_settled (c := TopicName_codec) _)|intros ? _].
    settle_packet.
  - intros p b (Ht & Hid & _ & Hp & Hd & _) He. unfold Publish_encode in He. outcome_inv He.
    apply frame_encode_Ok in He as (fh & _ & _ & _ & Hb & _); [|exact _]. apply Hb.
    apply Forall_app_2; [exact (encode_bytes (c := TopicName_codec) _ _ Ht Hr)|].
    apply Forall_app_2; [exact (enc_field_opt_bytes u16_codec is_u16 _ Hid _ Hr0)|].
    apply Forall_app_2; [exact (proj1 (enc_props_bytes _ _ _ _ _ Hp Hr1))|].
    destruct (Publish.payload p) as [d|] eqn:E; [by apply Hd|constructor].
  - intros p b rest (Ht & Hid & Hids & Hp & Hd & Hval') He.
    unfold Publish_encode in He. outcome_inv He.
    unfold Publish_decode. dec_header He rest.
    rewrite (Publish_header_unwrap _ _ _ _ _ Hmk), bind_Ok_1.
    dec_next TopicName_codec valid_TopicName Ht Hr.
    dec_opt u16_codec is_u16 Hid Hr0 Hids. dec_block Hp Hr1.
    rewrite Hrl. cbv zeta. cbn [varu32].
    destruct (Publish.payload p) as [d|] eqn:E; cbn [default from_option] in *; unfold id in *.
    + destruct (Hd d eq_refl) as [_ Hne].
      rewrite (frame_tail_at _ _ _ _ _ _ _ _ Ha) by (rewrite ?length_app; lia || done).
      rewrite bind_Ok_1. rewrite <- Nat2Z.inj_add, Nat2Z.id, Hlen, <- E.
      destruct p. cbn in Hval' |- *. by rewrite Hval'.
    + rewrite <- Nat2Z.inj_add, Hlen, app_nil_l in *. rewrite (at_pos_end _ _ _ Ha).
      rewrite frame_tail_none, bind_Ok_1, <- E.
      destruct p. cbn in Hval' |- *. by rewrite Hval'.
Qed.

Lemma Publish_validate_settled p : settled (Publish_validate p).
Proof.
  unfold Publish_validate. apply settled_bind; [|intros _ _]; repeat case_match; exact I.
Qed.

#[export] Instance Publish_frame_decoder : FrameDecoder Publish_codec (λ _, true).
Proof.
  split; cbn [decode Publish_codec]; unfold Publish_decode.
  - intros s pt Hs Hf _ _. settle_decoder Hs.
    match goal with H : checked_FixedHeader _ |- _ => destruct H as [[Hb1 _] Hv] end.
    destruct (FixedHeader_unwrap_validated _ Hb1 Hv) as ([[[pt' r] q] d] & Hu).
    rewrite Hu, bind_Ok_1. settle_decoder Hs.
    rewrite (framed_end _ _ _ Hf Hd). apply settled_bind.
    + apply frame_tail_settled; try exact I; [lia|done].
    + intros [payload m] _. apply settled_bind; [apply Publish_validate_settled|done].
  - intros s p n Hs H. bound_decoder Hs.
    match goal with H : frame_tail _ _ _ _ _ _ = _ |- _ =>
      apply frame_tail_inv in H as [[_ [= ? ?]]|[(d & ? & -> & [= ? ?])|?]] end; [lia..|done].
Qed.
