(* ===== verification/SubPackets.v ===== *)
(** Model of [src/v5/sub.rs] and [src/v5/unsub.rs]: SUBSCRIBE, with the options of
    a subscription, and UNSUBSCRIBE; their round trips. *)

From S2P Require Import Prelude Error Util Codec Types V5 V5Facts PropsBlock Frame.
Local Open Scope Z_scope.

(** src/v5/sub.rs:239-242 [SubscribeProperties] *)
Module SubscribeProperties.
Record SubscribeProperties := mk {
  subscription_id : option VarU32;
  user_properties : list UserProperty;
}.
Definition set_subscription_id (v : option VarU32) (p : SubscribeProperties) : SubscribeProperties :=
  mk v (user_properties p).
Definition set_user_properties (v : list UserProperty) (p : SubscribeProperties) : SubscribeProperties :=
  mk (subscription_id p) v.
End SubscribeProperties.
Abbreviation SubscribeProperties := SubscribeProperties.SubscribeProperties.

(** src/v5/sub.rs:238-238 [SubscribeProperties::default] *)
Definition SubscribeProperties_default : SubscribeProperties := SubscribeProperties.mk None [].

(** src/v5/sub.rs:281-290 [SubscribeProperties::decode] *)
Definition SubscribeProperties_step (props : SubscribeProperties) (property : Property) : Result SubscribeProperties :=
  match property with
  | Property.SubscriptionIdentifier val =>
      if varu32 val =? 0 then err ErrorKind.ProtocolError ReasonCode.ProtocolError
      else Ok (SubscribeProperties.set_subscription_id (Some val) props)
  | Property.UserProp val =>
      Ok (SubscribeProperties.set_user_properties (SubscribeProperties.user_properties props ++ [val]) props)
  | _ => err ErrorKind.ProtocolError ReasonCode.ProtocolError
  end.

(** src/v5/sub.rs:260-294 [SubscribeProperties::decode] *)
Definition SubscribeProperties_decode (stream : bytes) : Result (SubscribeProperties * nat) :=
  props_decode dup_err_std SubscribeProperties_step SubscribeProperties_default stream.

(** src/v5/sub.rs:296-310 [SubscribeProperties::encode] *)
Definition SubscribeProperties_encode (self : SubscribeProperties) : Result Blob :=
  let data := [] in
  data ← enc_prop_opt data PropertyType.SubscriptionIdentifier VarU32_codec
           (SubscribeProperties.subscription_id self);
  data ← enc_prop_each data PropertyType.UserProp UserProperty_codec
           (SubscribeProperties.user_properties self);
  data ← insert_property_len (length data) data;
  Ok (Large data).

(** src/v5/unsub.rs:115-117 [UnSubscribeProperties] *)
Module UnSubscribeProperties.
Record UnSubscribeProperties := mk {
  user_properties : list UserProperty;
}.
Definition set_user_properties (v : list UserProperty) (p : UnSubscribeProperties) : UnSubscribeProperties :=
  mk v.
End UnSubscribeProperties.
Abbreviation UnSubscribeProperties := UnSubscribeProperties.UnSubscribeProperties.

(** src/v5/unsub.rs:114-114 [UnSubscribeProperties::default] *)
Definition UnSubscribeProperties_default : UnSubscribeProperties := UnSubscribeProperties.mk [].

(** src/v5/unsub.rs:162-167 [UnSubscribeProperties::decode] *)
Definition UnSubscribeProperties_step (props : UnSubscribeProperties) (property : Property) : Result UnSubscribeProperties :=
  match property with
  | Property.UserProp val =>
      Ok (UnSubscribeProperties.set_user_properties (UnSubscribeProperties.user_properties props ++ [val]) props)
  | _ => err ErrorKind.ProtocolError ReasonCode.ProtocolError
  end.

(** src/v5/unsub.rs:141-171 [UnSubscribeProperties::decode] *)
Definition UnSubscribeProperties_decode (stream : bytes) : Result (UnSubscribeProperties * nat) :=
  props_decode dup_err_std UnSubscribeProperties_step UnSubscribeProperties_default stream.

(** src/v5/unsub.rs:173-185 [UnSubscribeProperties::encode] *)
Definition UnSubscribeProperties_encode (self : UnSubscribeProperties) : Result Blob :=
  let data := [] in
  data ← enc_prop_each data PropertyType.UserProp UserProperty_codec
           (UnSubscribeProperties.user_properties self);
  data ← insert_property_len (length data) data;
  Ok (Large data).

(** * Subscription options *)

(** src/v5/sub.rs:15-15 [SubscriptionOpt] *)
Record SubscriptionOpt := mkSubscriptionOpt { sub_opt : u8 }.

(** src/v5/sub.rs:83-87 [RetainForwardRule] *)
Module RetainForwardRule.
Inductive RetainForwardRule := OnEverySubscribe | OnNewSubscribe | Never.
End RetainForwardRule.
Abbreviation RetainForwardRule := RetainForwardRule.RetainForwardRule.

#[export] Instance RetainForwardRule_eq_dec : EqDecision RetainForwardRule.
Proof. solve_decision. Defined.

(** src/v5/sub.rs:89-102 [RetainForwardRule::try_from] *)
Definition RetainForwardRule_try_from (val : u8) : Result RetainForwardRule :=
  match val with
  | 0 => Ok RetainForwardRule.OnEverySubscribe
  | 1 => Ok RetainForwardRule.OnNewSubscribe
  | 2 => Ok RetainForwardRule.Never
  | _ => err ErrorKind.MalformedPacket ReasonCode.MalformedPacket
  end.

(** src/v5/sub.rs:104-112 [u8::from(RetainForwardRule)] *)
Definition u8_from_RetainForwardRule (val : RetainForwardRule) : u8 :=
  match val with
  | RetainForwardRule.OnEverySubscribe => 0
  | RetainForwardRule.OnNewSubscribe => 1
  | RetainForwardRule.Never => 2
  end.

(** src/v5/sub.rs:47-51 [SubscriptionOpt::MAXIMUM_QOS] *)
Definition OPT_MAXIMUM_QOS : u8 := 3.
Definition OPT_NO_LOCAL : u8 := 4.
Definition OPT_RETAIN_AS_PUBLISHED : u8 := 8.
Definition OPT_RETAIN_HANDLING : u8 := 48.
Definition OPT_RESERVED : u8 := 192.

(** src/v5/sub.rs:53-60 [SubscriptionOpt::new] *)
Definition SubscriptionOpt_new (rfr : RetainForwardRule) (rap nl : bool) (qos : QoS)
    : SubscriptionOpt :=
  let rfr := Z.shiftl (u8_from_RetainForwardRule rfr) 4 in
  let rap := if rap then 8 else 0 in
  let nl := if nl then 4 else 0 in
  let qos := u8_from_QoS qos in
  mkSubscriptionOpt (Z.lor (Z.lor (Z.lor rfr rap) nl) qos).

(** (retain_forward_rule, retain_as_published, no_local, qos) *)
(** src/v5/sub.rs:63-73 [SubscriptionOpt::unwrap] *)
Definition SubscriptionOpt_unwrap (self : SubscriptionOpt)
    : Result (RetainForwardRule * bool * bool * QoS) :=
  qos ← unwrap (QoS_try_from (Z.land (sub_opt self) OPT_MAXIMUM_QOS));
  let nl := 0 <? Z.land (sub_opt self) OPT_NO_LOCAL in
  let rap := 0 <? Z.land (sub_opt self) OPT_RETAIN_AS_PUBLISHED in
  rfr ← unwrap (RetainForwardRule_try_from
                  (Z.land (Z.shiftr (sub_opt self) 4) OPT_RETAIN_HANDLING));
  Ok (rfr, rap, nl, qos).

(** src/v5/sub.rs:30-38 [SubscriptionOpt::decode] *)
Definition SubscriptionOpt_decode (stream : bytes) : Result (SubscriptionOpt * nat) :=
  '(opt, n) ← dec_field u8_codec stream 0;
  Ok (mkSubscriptionOpt opt, n).

(** src/v5/sub.rs:40-43 [SubscriptionOpt::encode] *)
Definition SubscriptionOpt_encode (self : SubscriptionOpt) : Result Blob :=
  u8_encode (sub_opt self).

(** src/v5/sub.rs:29-44 [Packetize for SubscriptionOpt] *)
Definition SubscriptionOpt_codec : Packetize SubscriptionOpt :=
  mkPacketize SubscriptionOpt_decode SubscriptionOpt_encode.

(** * Filters *)

(** src/v5/sub.rs:322-325 [SubscribeFilter] *)
Module SubscribeFilter.
Record SubscribeFilter := mk {
  topic_filter : TopicFilter;
  opt : SubscriptionOpt;
}.
End SubscribeFilter.
Abbreviation SubscribeFilter := SubscribeFilter.SubscribeFilter.

(** src/v5/sub.rs:340-350 [SubscribeFilter::decode] *)
Definition SubscribeFilter_decode (stream : bytes) : Result (SubscribeFilter * nat) :=
  '(topic_filter, n) ← dec_field TopicFilter_codec stream 0;
  '(opt, n) ← dec_field SubscriptionOpt_codec stream n;
  Ok (SubscribeFilter.mk topic_filter opt, n).

(** src/v5/sub.rs:352-359 [SubscribeFilter::encode] *)
Definition SubscribeFilter_encode (self : SubscribeFilter) : Result Blob :=
  topic_filter ← TopicFilter_encode (SubscribeFilter.topic_filter self);
  opt ← SubscriptionOpt_encode (SubscribeFilter.opt self);
  Ok (Large (as_ref topic_filter ++ as_ref opt)).

(** src/v5/sub.rs:339-360 [Packetize for SubscribeFilter] *)
Definition SubscribeFilter_codec : Packetize SubscribeFilter :=
  mkPacketize SubscribeFilter_decode SubscribeFilter_encode.

(** The loop over the payload.  A filter takes at least a byte, so the length of
    the payload is fuel enough ([dec_filters_settled]). *)
(** src/v5/sub.rs:159-164 [Subscribe::decode] *)
Fixpoint dec_filters {A} (c : Packetize A) (fuel : nat) (payload : bytes) (t : nat)
    : Result (list A) :=
  if (t <? length payload)%nat then
    match fuel with
    | O => Diverge
    | S fuel =>
        '(filter, m) ← dec_field c payload t;
        let t := m in
        filters ← dec_filters c fuel payload t;
        Ok (filter :: filters)
    end
  else Ok [].

(** src/v5/sub.rs:186-188 [Subscribe::encode] *)
Fixpoint enc_filters {A} (c : Packetize A) (filters : list A) : Result bytes :=
  match filters with
  | [] => Ok []
  | filter :: filters =>
      b ← encode c filter;
      d ← enc_filters c filters;
      Ok (as_ref b ++ d)
  end.

(** * SUBSCRIBE *)

(** src/v5/sub.rs:116-120 [Subscribe] *)
Module Subscribe.
Record Subscribe := mk {
  packet_id : u16;
  properties : option SubscribeProperties;
  filters : list SubscribeFilter;
}.
End Subscribe.
Abbreviation Subscribe := Subscribe.Subscribe.

(** src/v5/sub.rs:212-231 [Subscribe::validate] *)
Fixpoint validate_filters (filters : list SubscribeFilter) : Result unit :=
  match filters with
  | [] => Ok ()
  | filter :: filters =>
      let opt := sub_opt (SubscribeFilter.opt filter) in
      if 0 <? Z.land opt OPT_RESERVED then
        err ErrorKind.MalformedPacket ReasonCode.MalformedPacket
      else if Z.shiftr (Z.land opt OPT_RETAIN_HANDLING) 4 =? 3 then
        err ErrorKind.MalformedPacket ReasonCode.MalformedPacket
      else
        _ ← QoS_try_from (Z.land opt OPT_MAXIMUM_QOS);
        validate_filters filters
  end.

(** src/v5/sub.rs:207-234 [Subscribe::validate] *)
Definition Subscribe_validate (self : Subscribe) : Result unit :=
  if (length (Subscribe.filters self) =? 0)%nat then
    err ErrorKind.ProtocolError ReasonCode.ProtocolError
  else validate_filters (Subscribe.filters self).

(** src/v5/sub.rs:141-170 [Subscribe::decode] *)
Definition Subscribe_decode (stream : bytes) : Result (Subscribe * nat) :=
  '(fh, fh_len) ← dec_field FixedHeader_codec stream 0;
  _ ← FixedHeader_validate fh;
  '(packet_id, n) ← dec_field u16_codec stream fh_len;
  '(properties, n) ← dec_props SubscribeProperties_decode stream n;
  let m := Z.of_nat fh_len + varu32 (remaining_len fh) in
  '(payload, n) ← frame_tail stream m n
    (err ErrorKind.MalformedPacket ReasonCode.MalformedPacket)
    (λ s, Ok (s, Z.to_nat m))
    (err ErrorKind.MalformedPacket ReasonCode.MalformedPacket);
  filters ← dec_filters SubscribeFilter_codec (length payload) payload 0;
  let val := Subscribe.mk packet_id properties filters in
  _ ← Subscribe_validate val;
  Ok (val, n).

(** src/v5/sub.rs:172-194 [Subscribe::encode] *)
Definition Subscribe_encode (self : Subscribe) : Result Blob :=
  _ ← Subscribe_validate self;
  packet_id ← u16_encode (Subscribe.packet_id self);
  properties ← enc_props SubscribeProperties_encode (Subscribe.properties self);
  filters ← enc_filters SubscribeFilter_codec (Subscribe.filters self);
  let data := as_ref packet_id ++ properties ++ filters in
  frame_encode FixedHeader_new_subscribe data.

(** src/v5/sub.rs:140-195 [Packetize for Subscribe] *)
Definition Subscribe_codec : Packetize Subscribe := mkPacketize Subscribe_decode Subscribe_encode.

(** * UNSUBSCRIBE *)

(** src/v5/unsub.rs:15-19 [UnSubscribe] *)
Module UnSubscribe.
Record UnSubscribe := mk {
  packet_id : u16;
  properties : option UnSubscribeProperties;
  filters : list TopicFilter;
}.
End UnSubscribe.
Abbreviation UnSubscribe := UnSubscribe.UnSubscribe.

(** src/v5/unsub.rs:104-110 [UnSubscribe::validate] *)
Definition UnSubscribe_validate (self : UnSubscribe) : Result unit :=
  if (length (UnSubscribe.filters self) =? 0)%nat then
    err ErrorKind.ProtocolError ReasonCode.ProtocolError
  else Ok ().

(** src/v5/unsub.rs:40-69 [UnSubscribe::decode] *)
Definition UnSubscribe_decode (stream : bytes) : Result (UnSubscribe * nat) :=
  '(fh, fh_len) ← dec_field FixedHeader_codec stream 0;
  _ ← FixedHeader_validate fh;
  '(packet_id, n) ← dec_field u16_codec stream fh_len;
  '(properties, n) ← dec_props UnSubscribeProperties_decode stream n;
  let m := Z.of_nat fh_len + varu32 (remaining_len fh) in
  '(payload, n) ← frame_tail stream m n
    (err ErrorKind.ProtocolError ReasonCode.ProtocolError)
    (λ s, Ok (s, Z.to_nat m))
    (err ErrorKind.ProtocolError ReasonCode.ProtocolError);
  filters ← dec_filters TopicFilter_codec (length payload) payload 0;
  let val := UnSubscribe.mk packet_id properties filters in
  _ ← UnSubscribe_validate val;
  Ok (val, n).

(** src/v5/unsub.rs:71-91 [UnSubscribe::encode] *)
Definition UnSubscribe_encode (self : UnSubscribe) : Result Blob :=
  packet_id ← u16_encode (UnSubscribe.packet_id self);
  properties ← enc_props UnSubscribeProperties_encode (UnSubscribe.properties self);
  filters ← enc_filters TopicFilter_codec (UnSubscribe.filters self);
  let data := as_ref packet_id ++ properties ++ filters in
  frame_encode FixedHeader_new_unsubscribe data.

(** src/v5/unsub.rs:39-92 [Packetize for UnSubscribe] *)
Definition UnSubscribe_codec : Packetize UnSubscribe :=
  mkPacketize UnSubscribe_decode UnSubscribe_encode.

(** * Lemmas: the property blocks *)

(** The properties the structure stands for, in the encoder's order. *)
Definition SubscribeProperties_to_props (x : SubscribeProperties) : list Property :=
  opt_prop Property.SubscriptionIdentifier (SubscribeProperties.subscription_id x) ++
  (Property.UserProp <$> SubscribeProperties.user_properties x).

Definition valid_SubscribeProperties (x : SubscribeProperties) : Prop :=
  Forall valid_Property (SubscribeProperties_to_props x) ∧
  SubscribeProperties.subscription_id x ≠ Some (mkVarU32 0).

#[export] Instance SubscribeProperties_block :
  PropsBlock SubscribeProperties_encode dup_err_std SubscribeProperties_step SubscribeProperties_default
    SubscribeProperties_to_props valid_SubscribeProperties.
Proof.
  split.
  - by intros x Hv; apply Hv.
  - solve_block_encode.
  - intros x Hv. destruct Hv as (_ & H0). unfold SubscribeProperties_to_props.
    eapply (fold_props_watched _ watched_std);
      [apply dup_err_std_watched|solve_watched|solve_NoDup|]. destruct x.
    fold_opt SubscribeProperties.set_subscription_id.
    fold_push SubscribeProperties.set_user_properties. done.
  - settle_step.
  - settle_block_encode.
Qed.

(** What a packet may carry: a structure with something in it. *)
Definition normal_SubscribeProperties (x : SubscribeProperties) : Prop := valid_SubscribeProperties x ∧ x ≠ SubscribeProperties_default.

#[export] Instance SubscribeProperties_codec_ok :
  BlockCodec SubscribeProperties_encode SubscribeProperties_decode normal_SubscribeProperties.
Proof. exact (PropsBlock_codec _ _ _ _ _ _ SubscribeProperties_block). Qed.

(** The properties the structure stands for, in the encoder's order. *)
Definition UnSubscribeProperties_to_props (x : UnSubscribeProperties) : list Property :=
  (Property.UserProp <$> UnSubscribeProperties.user_properties x).

Definition valid_UnSubscribeProperties (x : UnSubscribeProperties) : Prop :=
  Forall valid_Property (UnSubscribeProperties_to_props x).

#[export] Instance UnSubscribeProperties_block :
  PropsBlock UnSubscribeProperties_encode dup_err_std UnSubscribeProperties_step UnSubscribeProperties_default
    UnSubscribeProperties_to_props valid_UnSubscribeProperties.
Proof.
  split.
  - by intros x Hv.
  - solve_block_encode.
  - intros x Hv. unfold UnSubscribeProperties_to_props.
    eapply (fold_props_watched _ watched_std);
      [apply dup_err_std_watched|solve_watched|solve_NoDup|]. destruct x.
    fold_push UnSubscribeProperties.set_user_properties. done.
  - settle_step.
  - settle_block_encode.
Qed.

(** What a packet may carry: a structure with something in it. *)
Definition normal_UnSubscribeProperties (x : UnSubscribeProperties) : Prop := valid_UnSubscribeProperties x ∧ x ≠ UnSubscribeProperties_default.

#[export] Instance UnSubscribeProperties_codec_ok :
  BlockCodec UnSubscribeProperties_encode UnSubscribeProperties_decode normal_UnSubscribeProperties.
Proof. exact (PropsBlock_codec _ _ _ _ _ _ UnSubscribeProperties_block). Qed.

(** * Lemmas: filters *)

Section filters.
Context {A} (c : Packetize A) (valid checked : A → Prop).
Context `{!RoundTrip c valid, !TotalDecoder c checked}.

(** No encoding is empty, since no decoding is. *)
Lemma encode_pos v b : valid v → encode c v = Ok b → (0 < length (as_ref b))%nat.
Proof.
  intros Hv He. pose proof (round_trip v b [] Hv He) as Hd.
  apply decode_bound in Hd; [lia|].
  rewrite app_nil_r. by eapply encode_bytes.
Qed.

Lemma enc_filters_bytes l d : Forall valid l → enc_filters c l = Ok d → is_bytes d.
Proof.
  revert d. induction l as [|v l IH]; intros d Hv He; cbn in He.
  - injection He as <-. constructor.
  - apply Forall_cons_1 in Hv as [Hx Hv]. outcome_inv He.
    apply Forall_app_2; [by eapply encode_bytes|by apply IH].
Qed.

Lemma enc_filters_length l d :
  Forall valid l → enc_filters c l = Ok d → (length l ≤ length d)%nat.
Proof.
  revert d. induction l as [|v l IH]; intros d Hv He; cbn in He; [cbn; lia|].
  apply Forall_cons_1 in Hv as [Hx Hv]. outcome_inv He.
  rewrite length_app. cbn. pose proof (encode_pos _ _ Hx Hr). specialize (IH _ Hv Hr0). lia.
Qed.

(** The decoding loop undoes the encoding loop. *)
Lemma dec_filters_at l : ∀ fuel pre d,
  Forall valid l → enc_filters c l = Ok d → (length l ≤ fuel)%nat →
  dec_filters c fuel (pre ++ d) (length pre) = Ok l.
Proof.
  induction l as [|v l IH]; intros fuel pre d Hv He Hf; cbn in He.
  - injection He as <-. rewrite app_nil_r. destruct fuel; cbn [dec_filters]; by rewrite Nat.ltb_irrefl.
  - apply Forall_cons_1 in Hv as [Hx Hv]. outcome_inv He.
    pose proof (encode_pos _ _ Hx Hr). destruct fuel as [|fuel]; [cbn in Hf; lia|].
    cbn [dec_filters]. rewrite (proj2 (Nat.ltb_lt _ _)) by (rewrite !length_app; lia).
    rewrite (dec_field_app c valid v r pre) by done. rewrite bind_Ok_1.
    specialize (IH fuel (pre ++ as_ref r) r0 Hv Hr0 ltac:(cbn in Hf; lia)).
    rewrite <- app_assoc, length_app in IH. by rewrite IH.
Qed.

Lemma dec_filters_settled fuel : ∀ payload t,
  is_bytes payload → (length payload ≤ t + fuel)%nat →
  settled (dec_filters c fuel payload t).
Proof.
  induction fuel as [|fuel IH]; intros payload t Hs Hf; cbn [dec_filters];
    destruct (Nat.ltb_spec t (length payload)); try exact I; [lia|].
  apply settled_bind; [by apply (dec_field_settled c checked)|].
  intros [v m] H'. apply (dec_field_bound c checked) in H' as [? _]; [|done].
  apply settled_bind; [apply IH; [done|lia]|done].
Qed.

Lemma enc_filters_settled `{!SettledEncoder c} l : settled (enc_filters c l).
Proof.
  induction l as [|v l IH]; cbn; [exact I|].
  apply settled_bind; [apply encoder_settled|intros b _]. by apply settled_bind.
Qed.
End filters.

Definition valid_SubscribeFilter (f : SubscribeFilter) : Prop :=
  valid_TopicFilter (SubscribeFilter.topic_filter f) ∧ is_u8 (sub_opt (SubscribeFilter.opt f)).

#[export] Instance SubscriptionOpt_round_trip :
  RoundTrip SubscriptionOpt_codec (λ o, is_u8 (sub_opt o)).
Proof.
  split.
  - done.
  - intros o b Ho He. exact (encode_bytes (c := u8_codec) _ _ Ho He).
  - intros [o] b rest Ho He. cbn in *. unfold SubscriptionOpt_decode.
    pose proof (dec_field_app u8_codec is_u8 o b [] rest 0 Ho He eq_refl) as E.
    cbn [app] in E. by rewrite E.
Qed.

#[export] Instance SubscriptionOpt_total :
  TotalDecoder SubscriptionOpt_codec (λ o, is_u8 (sub_opt o)).
Proof.
  split; cbn; unfold SubscriptionOpt_decode.
  - intros s Hs. settle_decoder Hs.
  - intros s o n Hs H. bound_decoder Hs. split; [lia|done].
Qed.

#[export] Instance SubscribeFilter_settled_enc : SettledEncoder SubscribeFilter_codec.
Proof.
  intros f. cbn. unfold SubscribeFilter_encode.
  apply settled_bind; [exact (encoder_settled (c := TopicFilter_codec) _)|done].
Qed.

#[export] Instance SubscribeFilter_round_trip :
  RoundTrip SubscribeFilter_codec valid_SubscribeFilter.
Proof.
  split.
  - intros f _. apply encoder_settled.
  - intros f b [Ht Ho] He. cbn in He. unfold SubscribeFilter_encode in He. outcome_inv He.
    rewrite as_ref_Large. apply Forall_app_2.
    + exact (encode_bytes (c := TopicFilter_codec) _ _ Ht Hr).
    + exact (encode_bytes (c := SubscriptionOpt_codec) _ _ Ho Hr0).
  - intros f b rest [Ht Ho] He. cbn in He |- *. unfold SubscribeFilter_encode in He.
    outcome_inv He. unfold SubscribeFilter_decode.
    pose proof (at_pos_0 (as_ref (Large (as_ref r ++ as_ref r0)) ++ rest)) as Ha.
    rewrite as_ref_Large in *. rewrite <- app_assoc in Ha at 2.
    dec_next TopicFilter_codec valid_TopicFilter Ht Hr.
    dec_next SubscriptionOpt_codec (λ o, is_u8 (sub_opt o)) Ho Hr0.
    dec_end. by destruct f.
Qed.

#[export] Instance SubscribeFilter_total :
  TotalDecoder SubscribeFilter_codec
    (λ f, checked_TopicFilter (SubscribeFilter.topic_filter f) ∧
          is_u8 (sub_opt (SubscribeFilter.opt f))).
Proof.
  split; cbn; unfold SubscribeFilter_decode.
  - intros s Hs. settle_decoder Hs.
  - intros s f n Hs H. bound_decoder Hs. split; [lia|done].
Qed.

(** * Lemmas: the packets *)

Lemma validate_filters_settled l : settled (validate_filters l).
Proof.
  induction l as [|f l IH]; cbn; [exact I|]. repeat (case_match; [exact I|]).
  apply settled_bind; [|done]. unfold QoS_try_from. repeat case_match; exact I.
Qed.

Lemma Subscribe_validate_settled p : settled (Subscribe_validate p).
Proof. unfold Subscribe_validate. case_match; [exact I|apply validate_filters_settled]. Qed.

(** The validation leaves out what the types already say. *)
Definition valid_Subscribe (p : Subscribe) : Prop :=
  is_u16 (Subscribe.packet_id p) ∧ Forall valid_SubscribeFilter (Subscribe.filters p) ∧
  ∀ x, Subscribe.properties p = Some x → normal_SubscribeProperties x.

#[export] Instance Subscribe_round_trip : RoundTrip Subscribe_codec valid_Subscribe.
Proof.
  split; cbn [encode decode Subscribe_codec].
  - intros p _. unfold Subscribe_encode.
    apply settled_bind; [apply Subscribe_validate_settled|intros _ _].
    settle_packet. apply enc_filters_settled; exact _.
  - intros p b (Hid & Hf & Hp) He. unfold Subscribe_encode in He. outcome_inv He.
    apply frame_encode_Ok in He as (fh & _ & _ & _ & Hb & _); [|exact _]. apply Hb.
    apply Forall_app_2; [exact (encode_bytes (c := u16_codec) _ _ Hid Hr0)|].
    apply Forall_app_2; [exact (proj1 (enc_props_bytes _ _ _ _ _ Hp Hr1))|].
    exact (enc_filters_bytes _ _ _ _ Hf Hr2).
  - intros p b rest (Hid & Hf & Hp) He. unfold Subscribe_encode in He. outcome_inv He.
    unfold Subscribe_decode. dec_header He rest.
    dec_next u16_codec is_u16 Hid Hr0. dec_block Hp Hr1. rewrite Hrl. cbv zeta. cbn [varu32].
    pose proof (enc_filters_length _ valid_SubscribeFilter _ _ _ Hf Hr2) as Hl.
    assert (r1 ≠ []) as Hne.
    { unfold Subscribe_validate in Hr. intros ->. destruct (Subscribe.filters p); [done|cbn in Hl; lia]. }
    rewrite (frame_tail_at _ _ _ _ _ _ _ _ Ha) by (rewrite ?length_app; lia || done).
    rewrite bind_Ok_1. pose proof (dec_filters_at _ valid_SubscribeFilter _ _ (length r1) [] r1 Hf Hr2 Hl) as E.
    cbn [app length] in E. rewrite E, bind_Ok_1.
    rewrite <- Nat2Z.inj_add, Nat2Z.id, Hlen. destruct p. cbn in Hr |- *. by rewrite Hr.
Qed.

#[export] Instance Subscribe_frame_decoder : FrameDecoder Subscribe_codec (λ _, true).
Proof.
  split; cbn [decode Subscribe_codec]; unfold Subscribe_decode.
  - intros s pt Hs Hf _ _. settle_decoder Hs.
    rewrite (framed_end _ _ _ Hf Hd). apply settled_bind.
    + apply frame_tail_settled; try exact I; [lia|done].
    + intros [payload m] Ht.
      apply frame_tail_inv in Ht as [[_ ?]|[(d & ? & -> & [= <- <-])|?]]; [done| |done].
      apply settled_bind.
      * eapply (dec_filters_settled _ _); [|lia]. by apply Forall_take, Forall_drop.
      * intros fs _. apply settled_bind; [apply Subscribe_validate_settled|done].
  - intros s p n Hs H. bound_decoder Hs.
    match goal with H : frame_tail _ _ _ _ _ _ = _ |- _ =>
      apply frame_tail_inv in H as [[_ ?]|[(d & ? & -> & [= ? ?])|?]] end; [done|lia|done].
Qed.

Definition valid_UnSubscribe (p : UnSubscribe) : Prop :=
  is_u16 (UnSubscribe.packet_id p) ∧ Forall valid_TopicFilter (UnSubscribe.filters p) ∧
  UnSubscribe.filters p ≠ [] ∧
  ∀ x, UnSubscribe.properties p = Some x → normal_UnSubscribeProperties x.

#[export] Instance UnSubscribe_round_trip : RoundTrip UnSubscribe_codec valid_UnSubscribe.
Proof.
  split; cbn [encode decode UnSubscribe_codec].
  - intros p _. unfold UnSubscribe_encode. settle_packet. apply enc_filters_settled; exact _.
  - intros p b (Hid & Hf & _ & Hp) He. unfold UnSubscribe_encode in He. outcome_inv He.
    apply frame_encode_Ok in He as (fh & _ & _ & _ & Hb & _); [|exact _]. apply Hb.
    apply Forall_app_2; [exact (encode_bytes (c := u16_codec) _ _ Hid Hr)|].
    apply Forall_app_2; [exact (proj1 (enc_props_bytes _ _ _ _ _ Hp Hr0))|].
    exact (enc_filters_bytes _ _ _ _ Hf Hr1).
  - intros p b rest (Hid & Hf & Hn & Hp) He. unfold UnSubscribe_encode in He. outcome_inv He.
    unfold UnSubscribe_decode. dec_header He rest.
    dec_next u16_codec is_u16 Hid Hr. dec_block Hp Hr0. rewrite Hrl. cbv zeta. cbn [varu32].
    pose proof (enc_filters_length _ valid_TopicFilter _ _ _ Hf Hr1) as Hl.
    assert (r1 ≠ []) as Hne by (intros ->; destruct (UnSubscribe.filters p); [done|cbn in Hl; lia]).
    rewrite (frame_tail_at _ _ _ _ _ _ _ _ Ha) by (rewrite ?length_app; lia || done).
    rewrite bind_Ok_1. pose proof (dec_filters_at _ valid_TopicFilter _ _ (length r1) [] r1 Hf Hr1 Hl) as E.
    cbn [app length] in E. rewrite E, bind_Ok_1.
    rewrite <- Nat2Z.inj_add, Nat2Z.id, Hlen. destruct p as [i ps [|f fs]]; [done|done].
Qed.

#[export] Instance UnSubscribe_frame_decoder : FrameDecoder UnSubscribe_codec (λ _, true).
Proof.
  split; cbn [decode UnSubscribe_codec]; unfold UnSubscribe_decode.
  - intros s pt Hs Hf _ _. settle_decoder Hs.
    rewrite (framed_end _ _ _ Hf Hd). apply settled_bind.
    + apply frame_tail_settled; try exact I; [lia|done].
    + intros [payload m] Ht.
      apply frame_tail_inv in Ht as [[_ ?]|[(d & ? & -> & [= <- <-])|?]]; [done| |done].
      apply settled_bind.
      * eapply (dec_filters_settled _ _); [|lia]. by apply Forall_take, Forall_drop.
      * intros fs _. apply settled_bind; [|done]. unfold UnSubscribe_validate. case_match; exact I.
  - intros s p n Hs H. bound_decoder Hs.
    match goal with H : frame_tail _ _ _ _ _ _ = _ |- _ =>
      apply frame_tail_inv in H as [[_ ?]|[(d & ? & -> & [= ? ?])|?]] end; [done|lia|done].
Qed.
