(* ===== verification/Config.v ===== *)
(** Model of [src/config.rs]: the broker's configuration and the accessors that
    supply defaults, the configuration of a node, and loading from a file.  The number of
    cores ([num_cpus::get]), the file system, the TOML parser and the random identifiers
    are parameters.  The list of nodes, which no code reads, is left out of [Config]. *)

From Stdlib Require Import SpecFloat.
From S2P Require Import Prelude Error Util Codec.
Local Open Scope Z_scope.

(** An [f32] is a binary float of 24 bits of precision ([SpecFloat] of the standard
    library); [as f32] rounds an integer to the nearest one, ties to even. *)
Abbreviation f32 := spec_float.
Definition f32_of (n : Z) : f32 := binary_normalize 24 128 n 0 false.
Definition f32_mul (x y : f32) : f32 := SFmul 24 128 x y.

(** [as u16] of an [f32]: towards zero, within the range, zero for NaN. *)
Definition u16_of_f32 (x : f32) : u16 :=
  match x with
  | S754_finite false m e =>
      Z.min 65535 (if 0 <=? e then Z.pos m * 2 ^ e else Z.pos m / 2 ^ (- e))
  | S754_infinity false => 65535
  | _ => 0
  end.

(** src/config.rs:10-136 [Config] *)
Module Config.
Record Config := mk {
  name : bytes;
  max_nodes : option u32;
  num_shards : option u32;
  port : option u16;
  connect_timeout : option u32;
  mqtt_read_timeout : option u32;
  mqtt_write_timeout : option u32;
  mqtt_flush_timeout : option u32;
  mqtt_max_packet_size : option u32;
  mqtt_pkt_batch_size : option u32;
  mqtt_keep_alive : option u32;
  mqtt_keep_alive_factor : option f32;
  mqtt_receive_maximum : option u16;
  mqtt_session_expiry_interval : option u32;
  mqtt_maximum_qos : option u8;
  mqtt_retain_available : option bool;
  mqtt_topic_alias_max : option u16;
  mqtt_ignore_duplicate : option bool;
}.
End Config.
Abbreviation Config := Config.Config.

(** src/config.rs:172-198 [Config::DEF_MQTT_PORT] *)
Definition DEF_MQTT_PORT : u16 := 1883.
Definition DEF_MAX_NODES : u32 := 1.
Definition DEF_CONNECT_TIMEOUT : u32 := 5.
Definition DEF_MQTT_READ_TIMEOUT : u32 := 5.
Definition DEF_MQTT_WRITE_TIMEOUT : u32 := 5.
Definition DEF_MQTT_FLUSH_TIMEOUT : u32 := 10.
Definition DEF_MQTT_MAX_PACKET_SIZE : u32 := 1024 * 1024.
Definition DEF_MQTT_PKT_BATCH_SIZE : u32 := 1024.
Definition DEF_MQTT_KEEP_ALIVE_FACTOR : f32 := S754_finite false 12582912 (-23).
Definition DEF_MQTT_RECEIVE_MAXIMUM : u16 := 256.
Definition DEF_MQTT_MAX_QOS : u8 := 1.
Definition DEF_MQTT_RETAIN_AVAILABLE : bool := true.
Definition DEF_MQTT_TOPIC_ALIAS_MAX : u16 := 65535.
Definition DEF_MQTT_IGNORE_DUPLICATE : bool := true.

(** [u32::try_from(ceil_power_of_2(u32::try_from(num_cpus::get()).unwrap())).unwrap()] *)
(** src/config.rs:142-144 [Config::default] *)
Definition num_cores (num_cpus : nat) : Result u32 :=
  n ← unwrap (u32_try_from num_cpus);
  let m := ceil_power_of_2 n in
  if m <? 4294967296 then Ok m else Panic.

(** src/config.rs:138-168 [Config::default] *)
Definition Config_default (num_cpus : nat) : Result Config :=
  num_cores ← num_cores num_cpus;
  Ok (Config.mk
        [0x70; 0x6f; 0x63] (Some DEF_MAX_NODES) (Some num_cores) (Some DEF_MQTT_PORT)
        (Some DEF_CONNECT_TIMEOUT) (Some DEF_MQTT_READ_TIMEOUT)
        (Some DEF_MQTT_WRITE_TIMEOUT) (Some DEF_MQTT_FLUSH_TIMEOUT)
        (Some DEF_MQTT_MAX_PACKET_SIZE) (Some DEF_MQTT_PKT_BATCH_SIZE) None
        (Some DEF_MQTT_KEEP_ALIVE_FACTOR) (Some DEF_MQTT_RECEIVE_MAXIMUM) None (Some DEF_MQTT_MAX_QOS)
        (Some DEF_MQTT_RETAIN_AVAILABLE) (Some DEF_MQTT_TOPIC_ALIAS_MAX)
        (Some DEF_MQTT_IGNORE_DUPLICATE)).

(** src/config.rs:208-210 [Config::max_nodes] *)
Definition Config_max_nodes (self : Config) : u32 :=
  default DEF_MAX_NODES (Config.max_nodes self).

(** The default is computed whether or not it is used. *)
(** src/config.rs:212-220 [Config::num_shards] *)
Definition Config_num_shards (num_cpus : nat) (self : Config) : Result u32 :=
  num_cores ← num_cores num_cpus;
  Ok (default num_cores (Config.num_shards self)).

(** src/config.rs:222-224 [Config::connect_timeout] *)
Definition Config_connect_timeout (self : Config) : u32 :=
  default DEF_CONNECT_TIMEOUT (Config.connect_timeout self).

(** src/config.rs:226-228 [Config::mqtt_read_timeout] *)
Definition Config_mqtt_read_timeout (self : Config) : u32 :=
  default DEF_MQTT_READ_TIMEOUT (Config.mqtt_read_timeout self).

(** src/config.rs:230-232 [Config::mqtt_write_timeout] *)
Definition Config_mqtt_write_timeout (self : Config) : u32 :=
  default DEF_MQTT_WRITE_TIMEOUT (Config.mqtt_write_timeout self).

(** src/config.rs:234-236 [Config::mqtt_flush_timeout] *)
Definition Config_mqtt_flush_timeout (self : Config) : u32 :=
  default DEF_MQTT_FLUSH_TIMEOUT (Config.mqtt_flush_timeout self).

(** src/config.rs:238-244 [Config::mqtt_max_packet_size] *)
Definition Config_mqtt_max_packet_size (self : Config) : Result u32 :=
  match Config.mqtt_max_packet_size self with
  | Some val => if 268435456 <? val then Panic else Ok val
  | None => Ok DEF_MQTT_FLUSH_TIMEOUT
  end.

(** src/config.rs:246-252 [Config::mqtt_pkt_batch_size] *)
Definition Config_mqtt_pkt_batch_size (self : Config) : Result u32 :=
  match Config.mqtt_pkt_batch_size self with
  | Some val => if 268435456 <? val then Panic else Ok val
  | None => Ok DEF_MQTT_PKT_BATCH_SIZE
  end.

(** src/config.rs:254-259 [Config::mqtt_keep_alive] *)
Definition Config_mqtt_keep_alive (self : Config) : option u32 :=
  match Config.mqtt_keep_alive self with
  | Some val => if val =? 0 then None else Some val
  | None => None
  end.

(** src/config.rs:261-263 [Config::mqtt_keep_alive_factor] *)
Definition Config_mqtt_keep_alive_factor (self : Config) : f32 :=
  default DEF_MQTT_KEEP_ALIVE_FACTOR (Config.mqtt_keep_alive_factor self).

(** src/config.rs:265-267 [Config::mqtt_receive_maximum] *)
Definition Config_mqtt_receive_maximum (self : Config) : u16 :=
  default DEF_MQTT_RECEIVE_MAXIMUM (Config.mqtt_receive_maximum self).

(** src/config.rs:269-274 [Config::mqtt_session_expiry_interval] *)
Definition Config_mqtt_session_expiry_interval (self : Config) (connect : option u32)
    : option u32 :=
  match connect with
  | Some session_expiry_interval => Some session_expiry_interval
  | None => Config.mqtt_session_expiry_interval self
  end.

(** src/config.rs:276-278 [Config::mqtt_maximum_qos] *)
Definition Config_mqtt_maximum_qos (self : Config) : u8 :=
  default DEF_MQTT_MAX_QOS (Config.mqtt_maximum_qos self).

(** src/config.rs:280-282 [Config::mqtt_retain_available] *)
Definition Config_mqtt_retain_available (self : Config) : bool :=
  default DEF_MQTT_RETAIN_AVAILABLE (Config.mqtt_retain_available self).

(** src/config.rs:284-290 [Config::mqtt_topic_alias_max] *)
Definition Config_mqtt_topic_alias_max (self : Config) : option u16 :=
  match Config.mqtt_topic_alias_max self with
  | Some val => if val =? 0 then None else Some val
  | None => Config.mqtt_topic_alias_max self
  end.

(** src/config.rs:292-294 [Config::mqtt_ignore_duplicate] *)
Definition Config_mqtt_ignore_duplicate (self : Config) : bool :=
  default DEF_MQTT_IGNORE_DUPLICATE (Config.mqtt_ignore_duplicate self).

(** * The configuration of a node *)

(** src/config.rs:299-316 [ConfigNode] *)
Module ConfigNode.
Record ConfigNode := mk {
  uuid : option bytes;
  path : bytes;
  weight : option u16;
  mqtt_address : bytes;
}.
End ConfigNode.
Abbreviation ConfigNode := ConfigNode.ConfigNode.

(** [u16::try_from(num_cpus::get()).unwrap()] *)
(** src/config.rs:325-325 [ConfigNode::default] *)
Definition node_weight (num_cpus : nat) : Result u16 :=
  if Z.of_nat num_cpus <? 65536 then Ok (Z.of_nat num_cpus) else Panic.

(** The address is ["0.0.0.0:1883"], the path ["/"]; [uuid] is the text of a new identifier. *)
(** src/config.rs:318-329 [ConfigNode::default] *)
Definition ConfigNode_default (num_cpus : nat) (uuid : bytes) : Result ConfigNode :=
  weight ← node_weight num_cpus;
  Ok (ConfigNode.mk (Some uuid) [0x2f] (Some weight)
        [0x30; 0x2e; 0x30; 0x2e; 0x30; 0x2e; 0x30; 0x3a; 0x31; 0x38; 0x38; 0x33]).

(** * Loading *)

Section load_toml.
Context {T io_error toml_error : Type}.
Context (fs_read : bytes → outcome io_error bytes) (toml_from_str : bytes → outcome toml_error T).

(** src/config.rs:331-342 [load_toml] *)
Definition load_toml (loc : bytes) : Result T :=
  data ← err_try ErrorKind.IOError (fs_read loc);
  s ← err_try ErrorKind.InvalidInput (if from_utf8 data then Ok data else Err ());
  err_try ErrorKind.InvalidInput (toml_from_str s).

End load_toml.

(** src/config.rs:201-206 [Config::from_file] *)
Definition Config_from_file {io_error toml_error}
    (fs_read : bytes → outcome io_error bytes)
    (toml_from_str : bytes → outcome toml_error Config) (loc : bytes) : Result Config :=
  load_toml fs_read toml_from_str loc.
