(* ===== verification/ConnectPackets.v ===== *)
(** Model of [src/v5/connect.rs] and [src/v5/connack.rs]: CONNECT with its flags,
    its will and their properties, and CONNACK; their round trips. *)

From S2P Require Import Prelude Error Util Codec Types V5 V5Facts PropsBlock Frame Config.
Local Open Scope Z_scope.

(** src/v5/connect.rs:372-382 [ConnectProperties] *)
Module ConnectProperties.
Record ConnectProperties := mk {
  session_expiry_interval : option u32;
  receive_maximum : option u16;
  max_packet_size : option u32;
  topic_alias_max : option u16;
  request_response_info : option bool;
  request_problem_info : option bool;
  authentication_method : option bytes;
  authentication_data : option bytes;
  user_properties : list UserProperty;
}.
Definition set_session_expiry_interval (v : option u32) (p : ConnectProperties) : ConnectProperties :=
    mk v (receive_maximum p) (max_packet_size p) (topic_alias_max p) (request_response_info p)
    (request_problem_info p) (authentication_method p) (authentication_data p) (user_properties
    p).
Definition set_receive_maximum (v : option u16) (p : ConnectProperties) : ConnectProperties :=
    mk (session_expiry_interval p) v (max_packet_size p) (topic_alias_max p)
    (request_response_info p) (request_problem_info p) (authentication_method p)
    (authentication_data p) (user_properties p).
Definition set_max_packet_size (v : option u32) (p : ConnectProperties) : ConnectProperties :=
    mk (session_expiry_interval p) (receive_maximum p) v (topic_alias_max p)
    (request_response_info p) (request_problem_info p) (authentication_method p)
    (authentication_data p) (user_properties p).
Definition set_topic_alias_max (v : option u16) (p : ConnectProperties) : ConnectProperties :=
    mk (session_expiry_interval p) (receive_maximum p) (max_packet_size p) v
    (request_response_info p) (request_problem_info p) (authentication_method p)
    (authentication_data p) (user_properties p).
Definition set_request_response_info (v : option bool) (p : ConnectProperties) : ConnectProperties :=
    mk (session_expiry_interval p) (receive_maximum p) (max_packet_size p) (topic_alias_max p) v
    (request_problem_info p) (authentication_method p) (authentication_data p) (user_properties
    p).
Definition set_request_problem_info (v : option bool) (p : ConnectProperties) : ConnectProperties :=
    mk (session_expiry_interval p) (receive_maximum p) (max_packet_size p) (topic_alias_max p)
    (request_response_info p) v (authentication_method p) (authentication_data p)
    (user_properties p).
Definition set_authentication_method (v : option bytes) (p : ConnectProperties) : ConnectProperties :=
    mk (session_expiry_interval p) (receive_maximum p) (max_packet_size p) (topic_alias_max p)
    (request_response_info p) (request_problem_info p) v (authentication_data p)
    (user_properties p).
Definition set_authentication_data (v : option bytes) (p : ConnectProperties) : ConnectProperties :=
    mk (session_expiry_interval p) (receive_maximum p) (max_packet_size p) (topic_alias_max p)
    (request_response_info p) (request_problem_info p) (authentication_method p) v
    (user_properties p).
Definition set_user_properties (v : list UserProperty) (p : ConnectProperties) : ConnectProperties :=
    mk (session_expiry_interval p) (receive_maximum p) (max_packet_size p) (topic_alias_max p)
    (request_response_info p) (request_problem_info p) (authentication_method p)
    (authentication_data p) v.
End ConnectProperties.
Abbreviation ConnectProperties := ConnectProperties.ConnectProperties.

(** src/v5/connect.rs:371-371 [ConnectProperties::default] *)
Definition ConnectProperties_default : ConnectProperties := ConnectProperties.mk None None None None None None None None [].

(** src/v5/connect.rs:435-472 [ConnectProperties::decode] *)
Definition ConnectProperties_step (props : ConnectProperties) (property : Property) : Result ConnectProperties :=
  match property with
  | Property.SessionExpiryInterval val => Ok (ConnectProperties.set_session_expiry_interval (Some val) props)
  | Property.ReceiveMaximum val =>
      if val =? 0 then err ErrorKind.ProtocolError ReasonCode.ProtocolError
      else Ok (ConnectProperties.set_receive_maximum (Some val) props)
  | Property.MaximumPacketSize val =>
      if val =? 0 then err ErrorKind.ProtocolError ReasonCode.ProtocolError
      else Ok (ConnectProperties.set_max_packet_size (Some val) props)
  | Property.TopicAliasMaximum val => Ok (ConnectProperties.set_topic_alias_max (Some val) props)
  | Property.RequestResponseInformation val =>
      if val =? 0 then Ok (ConnectProperties.set_request_response_info (Some false) props)
      else if val =? 1 then Ok (ConnectProperties.set_request_response_info (Some true) props)
      else err ErrorKind.ProtocolError ReasonCode.ProtocolError
  | Property.RequestProblemInformation val =>
      if val =? 0 then Ok (ConnectProperties.set_request_problem_info (Some false) props)
      else if val =? 1 then Ok (ConnectProperties.set_request_problem_info (Some true) props)
      else err ErrorKind.ProtocolError ReasonCode.ProtocolError
  | Property.UserProp val =>
      Ok (ConnectProperties.set_user_properties (ConnectProperties.user_properties props ++ [val]) props)
  | Property.AuthenticationMethod val => Ok (ConnectProperties.set_authentication_method (Some val) props)
  | Property.AuthenticationData val => Ok (ConnectProperties.set_authentication_data (Some val) props)
  | _ => err ErrorKind.ProtocolError ReasonCode.ProtocolError
  end.

(** src/v5/connect.rs:414-476 [ConnectProperties::decode] *)
Definition ConnectProperties_decode (stream : bytes) : Result (ConnectProperties * nat) :=
  props_decode dup_err_std ConnectProperties_step ConnectProperties_default stream.

(** src/v5/connect.rs:478-505 [ConnectProperties::encode] *)
Definition ConnectProperties_encode (self : ConnectProperties) : Result Blob :=
  let data := [] in
  data ← enc_prop_opt data PropertyType.SessionExpiryInterval u32_codec
           (ConnectProperties.session_expiry_interval self);
  data ← enc_prop_opt data PropertyType.ReceiveMaximum u16_codec
           (ConnectProperties.receive_maximum self);
  data ← enc_prop_opt data PropertyType.MaximumPacketSize u32_codec
           (ConnectProperties.max_packet_size self);
  data ← enc_prop_opt data PropertyType.TopicAliasMaximum u16_codec
           (ConnectProperties.topic_alias_max self);
  data ← enc_prop_bool data PropertyType.RequestResponseInformation (ConnectProperties.request_response_info self);
  data ← enc_prop_bool data PropertyType.RequestProblemInformation (ConnectProperties.request_problem_info self);
  data ← enc_prop_opt data PropertyType.AuthenticationMethod String_codec
           (ConnectProperties.authentication_method self);
  data ← enc_prop_opt data PropertyType.AuthenticationData String_codec
           (ConnectProperties.authentication_method self);
  data ← enc_prop_each data PropertyType.UserProp UserProperty_codec
           (ConnectProperties.user_properties self);
  data ← insert_property_len (length data) data;
  Ok (Large data).

(** src/v5/connect.rs:542-550 [WillProperties] *)
Module WillProperties.
Record WillProperties := mk {
  will_delay_interval : option u32;
  payload_format_indicator : PayloadFormat;
  message_expiry_interval : option u32;
  content_type : option bytes;
  response_topic : option TopicName;
  correlation_data : option bytes;
  user_properties : list UserProperty;
}.
Definition set_will_delay_interval (v : option u32) (p : WillProperties) : WillProperties :=
    mk v (payload_format_indicator p) (message_expiry_interval p) (content_type p)
    (response_topic p) (correlation_data p) (user_properties p).
Definition set_payload_format_indicator (v : PayloadFormat) (p : WillProperties) : WillProperties :=
    mk (will_delay_interval p) v (message_expiry_interval p) (content_type p) (response_topic p)
    (correlation_data p) (user_properties p).
Definition set_message_expiry_interval (v : option u32) (p : WillProperties) : WillProperties :=
    mk (will_delay_interval p) (payload_format_indicator p) v (content_type p) (response_topic
    p) (correlation_data p) (user_properties p).
Definition set_content_type (v : option bytes) (p : WillProperties) : WillProperties :=
    mk (will_delay_interval p) (payload_format_indicator p) (message_expiry_interval p) v
    (response_topic p) (correlation_data p) (user_properties p).
Definition set_response_topic (v : option TopicName) (p : WillProperties) : WillProperties :=
    mk (will_delay_interval p) (payload_format_indicator p) (message_expiry_interval p)
    (content_type p) v (correlation_data p) (user_properties p).
Definition set_correlation_data (v : option bytes) (p : WillProperties) : WillProperties :=
    mk (will_delay_interval p) (payload_format_indicator p) (message_expiry_interval p)
    (content_type p) (response_topic p) v (user_properties p).
Definition set_user_properties (v : list UserProperty) (p : WillProperties) : WillProperties :=
    mk (will_delay_interval p) (payload_format_indicator p) (message_expiry_interval p)
    (content_type p) (response_topic p) (correlation_data p) v.
End WillProperties.
Abbreviation WillProperties := WillProperties.WillProperties.

(** src/v5/connect.rs:541-541 [WillProperties::default] *)
Definition WillProperties_default : WillProperties := WillProperties.mk None PayloadFormat_default None None None None [].

(** src/v5/connect.rs:608-625 [WillProperties::decode] *)
Definition WillProperties_step (props : WillProperties) (property : Property) : Result WillProperties :=
  match property with
  | Property.WillDelayInterval val => Ok (WillProperties.set_will_delay_interval (Some val) props)
  | Property.PayloadFormatIndicator val =>
      val ← PayloadFormat_try_from val;
      Ok (WillProperties.set_payload_format_indicator val props)
  | Property.MessageExpiryInterval val => Ok (WillProperties.set_message_expiry_interval (Some val) props)
  | Property.ContentType val => Ok (WillProperties.set_content_type (Some val) props)
  | Property.ResponseTopic val => Ok (WillProperties.set_response_topic (Some val) props)
  | Property.CorrelationData val => Ok (WillProperties.set_correlation_data (Some val) props)
  | Property.UserProp val =>
      Ok (WillProperties.set_user_properties (WillProperties.user_properties props ++ [val]) props)
  | _ => err ErrorKind.ProtocolError ReasonCode.ProtocolError
  end.

(** src/v5/connect.rs:581-629 [WillProperties::decode] *)
Definition WillProperties_decode (stream : bytes) : Result (WillProperties * nat) :=
  props_decode dup_err_std WillProperties_step WillProperties_default stream.

(** src/v5/connect.rs:631-653 [WillProperties::encode] *)
Definition WillProperties_encode (self : WillProperties) : Result Blob :=
  let data := [] in
  data ← enc_prop_opt data PropertyType.WillDelayInterval u32_codec
           (WillProperties.will_delay_interval self);
  data ← enc_prop_format data (WillProperties.payload_format_indicator self);
  data ← enc_prop_opt data PropertyType.MessageExpiryInterval u32_codec
           (WillProperties.message_expiry_interval self);
  data ← enc_prop_opt data PropertyType.ContentType String_codec
           (WillProperties.content_type self);
  data ← enc_prop_opt data PropertyType.ResponseTopic TopicName_codec
           (WillProperties.response_topic self);
  data ← enc_prop_opt data PropertyType.CorrelationData Vec_codec
           (WillProperties.correlation_data self);
  data ← enc_prop_each data PropertyType.UserProp UserProperty_codec
           (WillProperties.user_properties self);
  data ← insert_property_len (length data) data;
  Ok (Large data).

(** src/v5/connack.rs:208-226 [ConnAckProperties] *)
Module ConnAckProperties.
Record ConnAckProperties := mk {
  session_expiry_interval : option u32;
  receive_maximum : option u16;
  maximum_qos : option QoS;
  retain_available : option bool;
  max_packet_size : option u32;
  assigned_client_identifier : option bytes;
  topic_alias_max : option u16;
  reason_string : option bytes;
  wildcard_subscription_available : option bool;
  subscription_identifiers_available : option bool;
  shared_subscription_available : option bool;
  server_keep_alive : option u16;
  response_information : option bytes;
  server_reference : option bytes;
  authentication_method : option bytes;
  authentication_data : option bytes;
  user_properties : list UserProperty;
}.
Definition set_session_expiry_interval (v : option u32) (p : ConnAckProperties) : ConnAckProperties :=
    mk v (receive_maximum p) (maximum_qos p) (retain_available p) (max_packet_size p)
    (assigned_client_identifier p) (topic_alias_max p) (reason_string p)
    (wildcard_subscription_available p) (subscription_identifiers_available p)
    (shared_subscription_available p) (server_keep_alive p) (response_information p)
    (server_reference p) (authentication_method p) (authentication_data p) (user_properties p).
Definition set_receive_maximum (v : option u16) (p : ConnAckProperties) : ConnAckProperties :=
    mk (session_expiry_interval p) v (maximum_qos p) (retain_available p) (max_packet_size p)
    (assigned_client_identifier p) (topic_alias_max p) (reason_string p)
    (wildcard_subscription_available p) (subscription_identifiers_available p)
    (shared_subscription_available p) (server_keep_alive p) (response_information p)
    (server_reference p) (authentication_method p) (authentication_data p) (user_properties p).
Definition set_maximum_qos (v : option QoS) (p : ConnAckProperties) : ConnAckProperties :=
    mk (session_expiry_interval p) (receive_maximum p) v (retain_available p) (max_packet_size
    p) (assigned_client_identifier p) (topic_alias_max p) (reason_string p)
    (wildcard_subscription_available p) (subscription_identifiers_available p)
    (shared_subscription_available p) (server_keep_alive p) (response_information p)
    (server_reference p) (authentication_method p) (authentication_data p) (user_properties p).
Definition set_retain_available (v : option bool) (p : ConnAckProperties) : ConnAckProperties :=
    mk (session_expiry_interval p) (receive_maximum p) (maximum_qos p) v (max_packet_size p)
    (assigned_client_identifier p) (topic_alias_max p) (reason_string p)
    (wildcard_subscription_available p) (subscription_identifiers_available p)
    (shared_subscription_available p) (server_keep_alive p) (response_information p)
    (server_reference p) (authentication_method p) (authentication_data p) (user_properties p).
Definition set_max_packet_size (v : option u32) (p : ConnAckProperties) : ConnAckProperties :=
    mk (session_expiry_interval p) (receive_maximum p) (maximum_qos p) (retain_available p) v
    (assigned_client_identifier p) (topic_alias_max p) (reason_string p)
    (wildcard_subscription_available p) (subscription_identifiers_available p)
    (shared_subscription_available p) (server_keep_alive p) (response_information p)
    (server_reference p) (authentication_method p) (authentication_data p) (user_properties p).
Definition set_assigned_client_identifier (v : option bytes) (p : ConnAckProperties) : ConnAckProperties :=
    mk (session_expiry_interval p) (receive_maximum p) (maximum_qos p) (retain_available p)
    (max_packet_size p) v (topic_alias_max p) (reason_string p) (wildcard_subscription_available
    p) (subscription_identifiers_available p) (shared_subscription_available p)
    (server_keep_alive p) (response_information p) (server_reference p) (authentication_method
    p) (authentication_data p) (user_properties p).
Definition set_topic_alias_max (v : option u16) (p : ConnAckProperties) : ConnAckProperties :=
    mk (session_expiry_interval p) (receive_maximum p) (maximum_qos p) (retain_available p)
    (max_packet_size p) (assigned_client_identifier p) v (reason_string p)
    (wildcard_subscription_available p) (subscription_identifiers_available p)
    (shared_subscription_available p) (server_keep_alive p) (response_information p)
    (server_reference p) (authentication_method p) (authentication_data p) (user_properties p).
Definition set_reason_string (v : option bytes) (p : ConnAckProperties) : ConnAckProperties :=
    mk (session_expiry_interval p) (receive_maximum p) (maximum_qos p) (retain_available p)
    (max_packet_size p) (assigned_client_identifier p) (topic_alias_max p) v
    (wildcard_subscription_available p) (subscription_identifiers_available p)
    (shared_subscription_available p) (server_keep_alive p) (response_information p)
    (server_reference p) (authentication_method p) (authentication_data p) (user_properties p).
Definition set_wildcard_subscription_available (v : option bool) (p : ConnAckProperties) : ConnAckProperties :=
    mk (session_expiry_interval p) (receive_maximum p) (maximum_qos p) (retain_available p)
    (max_packet_size p) (assigned_client_identifier p) (topic_alias_max p) (reason_string p) v
    (subscription_identifiers_available p) (shared_subscription_available p) (server_keep_alive
    p) (response_information p) (server_reference p) (authentication_method p)
    (authentication_data p) (user_properties p).
Definition set_subscription_identifiers_available (v : option bool) (p : ConnAckProperties) : ConnAckProperties :=
    mk (session_expiry_interval p) (receive_maximum p) (maximum_qos p) (retain_available p)
    (max_packet_size p) (assigned_client_identifier p) (topic_alias_max p) (reason_string p)
    (wildcard_subscription_available p) v (shared_subscription_available p) (server_keep_alive
    p) (response_information p) (server_reference p) (authentication_method p)
    (authentication_data p) (user_properties p).
Definition set_shared_subscription_available (v : option bool) (p : ConnAckProperties) : ConnAckProperties :=
    mk (session_expiry_interval p) (receive_maximum p) (maximum_qos p) (retain_available p)
    (max_packet_size p) (assigned_client_identifier p) (topic_alias_max p) (reason_string p)
    (wildcard_subscription_available p) (subscription_identifiers_available p) v
    (server_keep_alive p) (response_information p) (server_reference p) (authentication_method
    p) (authentication_data p) (user_properties p).
Definition set_server_keep_alive (v : option u16) (p : ConnAckProperties) : ConnAckProperties :=
    mk (session_expiry_interval p) (receive_maximum p) (maximum_qos p) (retain_available p)
    (max_packet_size p) (assigned_client_identifier p) (topic_alias_max p) (reason_string p)
    (wildcard_subscription_available p) (subscription_identifiers_available p)
    (shared_subscription_available p) v (response_information p) (server_reference p)
    (authentication_method p) (authentication_data p) (user_properties p).
Definition set_response_information (v : option bytes) (p : ConnAckProperties) : ConnAckProperties :=
    mk (session_expiry_interval p) (receive_maximum p) (maximum_qos p) (retain_available p)
    (max_packet_size p) (assigned_client_identifier p) (topic_alias_max p) (reason_string p)
    (wildcard_subscription_available p) (subscription_identifiers_available p)
    (shared_subscription_available p) (server_keep_alive p) v (server_reference p)
    (authentication_method p) (authentication_data p) (user_properties p).
Definition set_server_reference (v : option bytes) (p : ConnAckProperties) : ConnAckProperties :=
    mk (session_expiry_interval p) (receive_maximum p) (maximum_qos p) (retain_available p)
    (max_packet_size p) (assigned_client_identifier p) (topic_alias_max p) (reason_string p)
    (wildcard_subscription_available p) (subscription_identifiers_available p)
    (shared_subscription_available p) (server_keep_alive p) (response_information p) v
    (authentication_method p) (authentication_data p) (user_properties p).
Definition set_authentication_method (v : option bytes) (p : ConnAckProperties) : ConnAckProperties :=
    mk (session_expiry_interval p) (receive_maximum p) (maximum_qos p) (retain_available p)
    (max_packet_size p) (assigned_client_identifier p) (topic_alias_max p) (reason_string p)
    (wildcard_subscription_available p) (subscription_identifiers_available p)
    (shared_subscription_available p) (server_keep_alive p) (response_information p)
    (server_reference p) v (authentication_data p) (user_properties p).
Definition set_authentication_data (v : option bytes) (p : ConnAckProperties) : ConnAckProperties :=
    mk (session_expiry_interval p) (receive_maximum p) (maximum_qos p) (retain_available p)
    (max_packet_size p) (assigned_client_identifier p) (topic_alias_max p) (reason_string p)
    (wildcard_subscription_available p) (subscription_identifiers_available p)
    (shared_subscription_available p) (server_keep_alive p) (response_information p)
    (server_reference p) (authentication_method p) v (user_properties p).
Definition set_user_properties (v : list UserProperty) (p : ConnAckProperties) : ConnAckProperties :=
    mk (session_expiry_interval p) (receive_maximum p) (maximum_qos p) (retain_available p)
    (max_packet_size p) (assigned_client_identifier p) (topic_alias_max p) (reason_string p)
    (wildcard_subscription_available p) (subscription_identifiers_available p)
    (shared_subscription_available p) (server_keep_alive p) (response_information p)
    (server_reference p) (authentication_method p) (authentication_data p) v.
End ConnAckProperties.
Abbreviation ConnAckProperties := ConnAckProperties.ConnAckProperties.

(** What the properties of a CONNACK say, with the defaults of the protocol. *)
(** src/v5/connack.rs:379-381 [ConnAckProperties::maximum_qos] *)
Definition ConnAckProperties_maximum_qos (self : ConnAckProperties) : QoS :=
  default QoS.ExactlyOnce (ConnAckProperties.maximum_qos self).
(** src/v5/connack.rs:385-387 [ConnAckProperties::receive_maximum] *)
Definition ConnAckProperties_receive_maximum (self : ConnAckProperties) : u16 :=
  default 65535 (ConnAckProperties.receive_maximum self).
(** src/v5/connack.rs:391-393 [ConnAckProperties::topic_alias_max] *)
Definition ConnAckProperties_topic_alias_max (self : ConnAckProperties) : u16 :=
  default 0 (ConnAckProperties.topic_alias_max self).
(** src/v5/connack.rs:396-398 [ConnAckProperties::wildcard_subscription_available] *)
Definition ConnAckProperties_wildcard_subscription_available (self : ConnAckProperties) : bool :=
  default true (ConnAckProperties.wildcard_subscription_available self).
(** src/v5/connack.rs:401-403 [ConnAckProperties::subscription_identifiers_available] *)
Definition ConnAckProperties_subscription_identifiers_available (self : ConnAckProperties) : bool :=
  default true (ConnAckProperties.subscription_identifiers_available self).
(** src/v5/connack.rs:406-408 [ConnAckProperties::shared_subscription_available] *)
Definition ConnAckProperties_shared_subscription_available (self : ConnAckProperties) : bool :=
  default true (ConnAckProperties.shared_subscription_available self).

(** src/v5/connack.rs:207-207 [ConnAckProperties::default] *)
Definition ConnAckProperties_default : ConnAckProperties := ConnAckProperties.mk None None None None None None None None None None None None None None None None [].

(** src/v5/connack.rs:250-319 [ConnAckProperties::decode] *)
Definition ConnAckProperties_step (props : ConnAckProperties) (property : Property) : Result ConnAckProperties :=
  match property with
  | Property.SessionExpiryInterval val => Ok (ConnAckProperties.set_session_expiry_interval (Some val) props)
  | Property.ReceiveMaximum val =>
      if val =? 0 then err ErrorKind.ProtocolError ReasonCode.ProtocolError
      else Ok (ConnAckProperties.set_receive_maximum (Some val) props)
  | Property.MaximumQoS val => Ok (ConnAckProperties.set_maximum_qos (Some val) props)
  | Property.RetainAvailable val =>
      if val =? 0 then Ok (ConnAckProperties.set_retain_available (Some false) props)
      else if val =? 1 then Ok (ConnAckProperties.set_retain_available (Some true) props)
      else err ErrorKind.ProtocolError ReasonCode.ProtocolError
  | Property.MaximumPacketSize val =>
      if val =? 0 then err ErrorKind.ProtocolError ReasonCode.ProtocolError
      else Ok (ConnAckProperties.set_max_packet_size (Some val) props)
  | Property.AssignedClientIdentifier val => Ok (ConnAckProperties.set_assigned_client_identifier (Some val) props)
  | Property.TopicAliasMaximum val => Ok (ConnAckProperties.set_topic_alias_max (Some val) props)
  | Property.ReasonString val => Ok (ConnAckProperties.set_reason_string (Some val) props)
  | Property.UserProp val =>
      Ok (ConnAckProperties.set_user_properties (ConnAckProperties.user_properties props ++ [val]) props)
  | Property.WildcardSubscriptionAvailable val =>
      if val =? 0 then Ok (ConnAckProperties.set_wildcard_subscription_available (Some false) props)
      else if val =? 1 then Ok (ConnAckProperties.set_wildcard_subscription_available (Some true) props)
      else err ErrorKind.ProtocolError ReasonCode.ProtocolError
  | Property.SubscriptionIdentifierAvailable val =>
      if val =? 0 then Ok (ConnAckProperties.set_subscription_identifiers_available (Some false) props)
      else if val =? 1 then Ok (ConnAckProperties.set_subscription_identifiers_available (Some true) props)
      else err ErrorKind.ProtocolError ReasonCode.ProtocolError
  | Property.SharedSubscriptionAvailable val =>
      if val =? 0 then Ok (ConnAckProperties.set_shared_subscription_available (Some false) props)
      else if val =? 1 then Ok (ConnAckProperties.set_shared_subscription_available (Some true) props)
      else err ErrorKind.ProtocolError ReasonCode.ProtocolError
  | Property.ServerKeepAlive val => Ok (ConnAckProperties.set_server_keep_alive (Some val) props)
  | Property.ResponseInformation val => Ok (ConnAckProperties.set_response_information (Some val) props)
  | Property.ServerReference val => Ok (ConnAckProperties.set_server_reference (Some val) props)
  | Property.AuthenticationMethod val => Ok (ConnAckProperties.set_authentication_method (Some val) props)
  | Property.AuthenticationData val => Ok (ConnAckProperties.set_authentication_data (Some val) props)
  | _ => err ErrorKind.ProtocolError ReasonCode.ProtocolError
  end.

(** src/v5/connack.rs:229-323 [ConnAckProperties::decode] *)
Definition ConnAckProperties_decode (stream : bytes) : Result (ConnAckProperties * nat) :=
  props_decode dup_err_std ConnAckProperties_step ConnAckProperties_default stream.

(** src/v5/connack.rs:325-369 [ConnAckProperties::encode] *)
Definition ConnAckProperties_encode (self : ConnAckProperties) : Result Blob :=
  let data := [] in
  data ← enc_prop_opt data PropertyType.SessionExpiryInterval u32_codec
           (ConnAckProperties.session_expiry_interval self);
  data ← enc_prop_opt data PropertyType.ReceiveMaximum u16_codec
           (ConnAckProperties.receive_maximum self);
  data ← enc_prop_opt data PropertyType.MaximumQoS u8_codec (u8_from_QoS <$> ConnAckProperties.maximum_qos self);
  data ← enc_prop_bool data PropertyType.RetainAvailable (ConnAckProperties.retain_available self);
  data ← enc_prop_opt data PropertyType.MaximumPacketSize u32_codec
           (ConnAckProperties.max_packet_size self);
  data ← enc_prop_opt data PropertyType.AssignedClientIdentifier String_codec
           (ConnAckProperties.assigned_client_identifier self);
  data ← enc_prop_opt data PropertyType.TopicAliasMaximum u16_codec
           (ConnAckProperties.topic_alias_max self);
  data ← enc_prop_opt data PropertyType.ReasonString String_codec
           (ConnAckProperties.reason_string self);
  data ← enc_prop_bool data PropertyType.WildcardSubscriptionAvailable (ConnAckProperties.wildcard_subscription_available self);
  data ← enc_prop_bool data PropertyType.SubscriptionIdentifierAvailable (ConnAckProperties.subscription_identifiers_available self);
  data ← enc_prop_bool data PropertyType.SharedSubscriptionAvailable (ConnAckProperties.shared_subscription_available self);
  data ← enc_prop_opt data PropertyType.ServerKeepAlive u16_codec
           (ConnAckProperties.server_keep_alive self);
  data ← enc_prop_opt data PropertyType.ResponseInformation String_codec
           (ConnAckProperties.response_information self);
  data ← enc_prop_opt data PropertyType.ServerReference String_codec
           (ConnAckProperties.server_reference self);
  data ← enc_prop_opt data PropertyType.AuthenticationMethod String_codec
           (ConnAckProperties.authentication_method self);
  data ← enc_prop_opt data PropertyType.AuthenticationData Vec_codec
           (ConnAckProperties.authentication_data self);
  data ← enc_prop_each data PropertyType.UserProp UserProperty_codec
           (ConnAckProperties.user_properties self);
  data ← insert_property_len (length data) data;
  Ok (Large data).

(** src/v5/connack.rs:76-99 [ConnackReasonCode] *)
Module ConnackReasonCode.
Inductive ConnackReasonCode :=
| Success | UnspecifiedError | MalformedPacket
| ProtocolError | ImplementationError | UnsupportedProtocolVersion
| InvalidClientID | BadLogin | NotAuthorized
| ServerUnavailable | ServerBusy | Banned
| BadAuthenticationMethod | TopicNameInvalid | PacketTooLarge
| QuotaExceeded | PayloadFormatInvalid | RetainNotSupported
| InvalidQoS | UseAnotherServer | ServerMoved
| ExceedConnectionRate.
End ConnackReasonCode.
Abbreviation ConnackReasonCode := ConnackReasonCode.ConnackReasonCode.

(** src/v5/connack.rs:75-99 [ConnackReasonCode as u8] *)
Definition ConnackReasonCode_as_u8 (code : ConnackReasonCode) : u8 :=
  match code with
  | ConnackReasonCode.Success => 0x00
  | ConnackReasonCode.UnspecifiedError => 0x80
  | ConnackReasonCode.MalformedPacket => 0x81
  | ConnackReasonCode.ProtocolError => 0x82
  | ConnackReasonCode.ImplementationError => 0x83
  | ConnackReasonCode.UnsupportedProtocolVersion => 0x84
  | ConnackReasonCode.InvalidClientID => 0x85
  | ConnackReasonCode.BadLogin => 0x86
  | ConnackReasonCode.NotAuthorized => 0x87
  | ConnackReasonCode.ServerUnavailable => 0x88
  | ConnackReasonCode.ServerBusy => 0x89
  | ConnackReasonCode.Banned => 0x8a
  | ConnackReasonCode.BadAuthenticationMethod => 0x8c
  | ConnackReasonCode.TopicNameInvalid => 0x90
  | ConnackReasonCode.PacketTooLarge => 0x95
  | ConnackReasonCode.QuotaExceeded => 0x97
  | ConnackReasonCode.PayloadFormatInvalid => 0x99
  | ConnackReasonCode.RetainNotSupported => 0x9a
  | ConnackReasonCode.InvalidQoS => 0x9b
  | ConnackReasonCode.UseAnotherServer => 0x9c
  | ConnackReasonCode.ServerMoved => 0x9d
  | ConnackReasonCode.ExceedConnectionRate => 0x9f
  end.

(** src/v5/connack.rs:101-133 [ConnackReasonCode::try_from] *)
Definition ConnackReasonCode_try_from (val : u8) : Result ConnackReasonCode :=
  match val with
  | 0x00 => Ok ConnackReasonCode.Success
  | 0x80 => Ok ConnackReasonCode.UnspecifiedError
  | 0x81 => Ok ConnackReasonCode.MalformedPacket
  | 0x82 => Ok ConnackReasonCode.ProtocolError
  | 0x83 => Ok ConnackReasonCode.ImplementationError
  | 0x84 => Ok ConnackReasonCode.UnsupportedProtocolVersion
  | 0x85 => Ok ConnackReasonCode.InvalidClientID
  | 0x86 => Ok ConnackReasonCode.BadLogin
  | 0x87 => Ok ConnackReasonCode.NotAuthorized
  | 0x88 => Ok ConnackReasonCode.ServerUnavailable
  | 0x89 => Ok ConnackReasonCode.ServerBusy
  | 0x8a => Ok ConnackReasonCode.Banned
  | 0x8c => Ok ConnackReasonCode.BadAuthenticationMethod
  | 0x90 => Ok ConnackReasonCode.TopicNameInvalid
  | 0x95 => Ok ConnackReasonCode.PacketTooLarge
  | 0x97 => Ok ConnackReasonCode.QuotaExceeded
  | 0x99 => Ok ConnackReasonCode.PayloadFormatInvalid
  | 0x9a => Ok ConnackReasonCode.RetainNotSupported
  | 0x9b => Ok ConnackReasonCode.InvalidQoS
  | 0x9c => Ok ConnackReasonCode.UseAnotherServer
  | 0x9d => Ok ConnackReasonCode.ServerMoved
  | 0x9f => Ok ConnackReasonCode.ExceedConnectionRate
  | _ => err ErrorKind.MalformedPacket ReasonCode.MalformedPacket
  end.

(** * Connect flags *)

(** src/v5/connect.rs:18-18 [ConnectFlags] *)
Record ConnectFlags := mkConnectFlags { connect_flags : u8 }.

(** src/v5/connect.rs:81-90 [ConnectFlags::CLEAN_START] *)
Definition CONNECT_CLEAN_START : ConnectFlags := mkConnectFlags 2.
Definition CONNECT_WILL_FLAG : ConnectFlags := mkConnectFlags 4.
Definition CONNECT_WILL_QOS0 : ConnectFlags := mkConnectFlags 0.
Definition CONNECT_WILL_QOS1 : ConnectFlags := mkConnectFlags 8.
Definition CONNECT_WILL_QOS2 : ConnectFlags := mkConnectFlags 16.
Definition CONNECT_WILL_RETAIN : ConnectFlags := mkConnectFlags 32.
Definition CONNECT_USERNAME : ConnectFlags := mkConnectFlags 64.
Definition CONNECT_PASSWORD : ConnectFlags := mkConnectFlags 128.
Definition WILL_QOS_MASK : u8 := 24.

(** src/v5/connect.rs:92-94 [ConnectFlags::new] *)
Definition ConnectFlags_new (flags : list ConnectFlags) : ConnectFlags :=
  fold_left (λ acc flag, mkConnectFlags (Z.lor (connect_flags acc) (connect_flags flag)))
    flags (mkConnectFlags 0).

(** (clean_start, will_flag, will_qos, will_retain).  In Rust [>>] binds tighter
    than [&]: the QoS is the flags masked by [WILL_QOS_MASK >> 3]. *)
(** src/v5/connect.rs:97-104 [ConnectFlags::unwrap] *)
Definition ConnectFlags_unwrap (self : ConnectFlags) : Result (bool * bool * QoS * bool) :=
  let flags := connect_flags self in
  let clean_start := 0 <? Z.land flags (connect_flags CONNECT_CLEAN_START) in
  let will_flag := 0 <? Z.land flags (connect_flags CONNECT_WILL_FLAG) in
  will_qos ← unwrap (QoS_try_from (Z.land flags (Z.shiftr WILL_QOS_MASK 3)));
  let will_retain := 0 <? Z.land flags (connect_flags CONNECT_WILL_RETAIN) in
  Ok (clean_start, will_flag, will_qos, will_retain).

(** src/v5/connect.rs:106-108 [ConnectFlags::is_will_flag] *)
Definition is_will_flag (self : ConnectFlags) : bool :=
  0 <? Z.land (connect_flags self) (connect_flags CONNECT_WILL_FLAG).

(** src/v5/connect.rs:110-112 [ConnectFlags::is_username] *)
Definition is_username (self : ConnectFlags) : bool :=
  0 <? Z.land (connect_flags self) (connect_flags CONNECT_USERNAME).

(** src/v5/connect.rs:114-116 [ConnectFlags::is_password] *)
Definition is_password (self : ConnectFlags) : bool :=
  0 <? Z.land (connect_flags self) (connect_flags CONNECT_PASSWORD).

(** src/v5/connect.rs:118-124 [ConnectFlags::validate] *)
Definition ConnectFlags_validate (self : ConnectFlags) : Result unit :=
  if 0 <? Z.land (connect_flags self) 1 then
    err ErrorKind.MalformedPacket ReasonCode.MalformedPacket
  else Ok ().

(** src/v5/connect.rs:64-72 [ConnectFlags::decode] *)
Definition ConnectFlags_decode (stream : bytes) : Result (ConnectFlags * nat) :=
  '(flags, n) ← dec_field u8_codec stream 0;
  let flags := mkConnectFlags flags in
  _ ← ConnectFlags_validate flags;
  Ok (flags, n).

(** src/v5/connect.rs:74-77 [ConnectFlags::encode] *)
Definition ConnectFlags_encode (self : ConnectFlags) : Result Blob :=
  _ ← ConnectFlags_validate self;
  u8_encode (connect_flags self).

(** src/v5/connect.rs:63-78 [Packetize for ConnectFlags] *)
Definition ConnectFlags_codec : Packetize ConnectFlags :=
  mkPacketize ConnectFlags_decode ConnectFlags_encode.

(** * CONNECT *)

(** src/v5/connect.rs:140-147 [ConnectPayload] *)
Module ConnectPayload.
Record ConnectPayload := mk {
  client_id : ClientID;
  will_properties : option WillProperties;
  will_topic : option TopicName;
  will_payload : option bytes;
  user_name : option bytes;
  password : option bytes;
}.
End ConnectPayload.
Abbreviation ConnectPayload := ConnectPayload.ConnectPayload.

(** src/v5/connect.rs:129-136 [Connect] *)
Module Connect.
Record Connect := mk {
  protocol_name : bytes;
  protocol_version : MqttProtocol;
  flags : ConnectFlags;
  keep_alive : u16;
  properties : option ConnectProperties;
  payload : ConnectPayload;
}.
End Connect.
Abbreviation Connect := Connect.Connect.

(** src/v5/connect.rs:663-665 [WillProperties::is_utf8] *)
Definition WillProperties_is_utf8 (self : WillProperties) : bool :=
  bool_decide (WillProperties.payload_format_indicator self = PayloadFormat.Utf8).

(** src/v5/connect.rs:656-661 [WillProperties::will_delay_interval] *)
Definition WillProperties_will_delay_interval (self : WillProperties) : u32 :=
  default 0 (WillProperties.will_delay_interval self).

(** "MQTT" *)
Definition MQTT : bytes := [0x4d; 0x51; 0x54; 0x54].

(** A will payload announced as text is unwrapped whether or not it is there. *)
(** src/v5/connect.rs:275-339 [Connect::validate] *)
Definition Connect_validate (self : Connect) : Result unit :=
  if negb (bool_decide (Connect.protocol_name self = MQTT)) then
    err ErrorKind.ProtocolError ReasonCode.UnsupportedProtocolVersion
  else if negb (bool_decide (Connect.protocol_version self = MqttProtocol.V5)) then
    err ErrorKind.ProtocolError ReasonCode.UnsupportedProtocolVersion
  else
    _ ← ConnectFlags_validate (Connect.flags self);
    let flags := connect_flags (Connect.flags self) in
    _ ← QoS_try_from (Z.shiftr (Z.land flags WILL_QOS_MASK) 3);
    let pld := Connect.payload self in
    _ ← (if 0 <? Z.land flags (connect_flags CONNECT_WILL_FLAG) then
           if bool_decide (ConnectPayload.will_topic pld = None) then
             err ErrorKind.MalformedPacket ReasonCode.MalformedPacket
           else
             match ConnectPayload.will_properties pld with
             | None => err ErrorKind.MalformedPacket ReasonCode.MalformedPacket
             | Some _ =>
                 if bool_decide (ConnectPayload.will_payload pld = None) then
                   err ErrorKind.MalformedPacket ReasonCode.MalformedPacket
                 else Ok ()
             end
         else Ok ());
    match WillProperties_is_utf8 <$> ConnectPayload.will_properties pld with
    | Some true =>
        match ConnectPayload.will_payload pld with
        | None => Panic
        | Some payload =>
            if from_utf8 payload then Ok ()
            else err ErrorKind.MalformedPacket ReasonCode.MalformedPacket
        end
    | _ => Ok ()
    end.

(** src/v5/connect.rs:187-229 [Connect::decode] *)
Definition Connect_decode (stream : bytes) : Result (Connect * nat) :=
  '(fh, n) ← dec_field FixedHeader_codec stream 0;
  _ ← FixedHeader_validate fh;
  '(protocol_name, n) ← dec_field String_codec stream n;
  '(val, n) ← dec_field u8_codec stream n;
  protocol_version ← MqttProtocol_try_from val;
  '(flags, n) ← dec_field ConnectFlags_codec stream n;
  '(keep_alive, n) ← dec_field u16_codec stream n;
  '(properties, n) ← dec_props ConnectProperties_decode stream n;
  let will_flag := is_will_flag flags in
  '(client_id, n) ← dec_field String_codec stream n;
  '(will_properties, n) ← dec_props_if WillProperties_decode stream n will_flag;
  '(will_topic, n) ← dec_field_if TopicName_codec stream n will_flag;
  '(will_payload, n) ← dec_field_if Vec_codec stream n will_flag;
  '(user_name, n) ← dec_field_if String_codec stream n (is_username flags);
  '(password, n) ← dec_field_if String_codec stream n (is_password flags);
  let val :=
    Connect.mk protocol_name protocol_version flags keep_alive properties
      (ConnectPayload.mk (mkClientID client_id) will_properties will_topic will_payload
         user_name password) in
  _ ← Connect_validate val;
  Ok (val, n).

(** The will properties are written, as a zero length when there are none,
    whether or not the flags announce a will. *)
(** src/v5/connect.rs:231-271 [Connect::encode] *)
Definition Connect_encode (self : Connect) : Result Blob :=
  _ ← Connect_validate self;
  protocol_name ← String_encode (Connect.protocol_name self);
  protocol_version ← u8_encode (u8_from_MqttProtocol (Connect.protocol_version self));
  flags ← u8_encode (connect_flags (Connect.flags self));
  keep_alive ← u16_encode (Connect.keep_alive self);
  properties ← enc_props ConnectProperties_encode (Connect.properties self);
  let pld := Connect.payload self in
  client_id ← String_encode (client_id_str (ConnectPayload.client_id pld));
  will_properties ← enc_props WillProperties_encode (ConnectPayload.will_properties pld);
  will_topic ← enc_field_opt TopicName_codec (ConnectPayload.will_topic pld);
  will_payload ← enc_field_opt Vec_codec (ConnectPayload.will_payload pld);
  user_name ← enc_field_opt String_codec (ConnectPayload.user_name pld);
  password ← enc_field_opt String_codec (ConnectPayload.password pld);
  let data :=
    as_ref protocol_name ++ as_ref protocol_version ++ as_ref flags ++ as_ref keep_alive ++
    properties ++ as_ref client_id ++ will_properties ++ will_topic ++ will_payload ++
    user_name ++ password in
  frame_encode (FixedHeader_new PacketType.Connect) data.

(** src/v5/connect.rs:186-272 [Packetize for Connect] *)
Definition Connect_codec : Packetize Connect := mkPacketize Connect_decode Connect_encode.

(** src/v5/connect.rs:509-518 [ConnectProperties::receive_maximum] *)
Definition ConnectProperties_receive_maximum (self : ConnectProperties) : u16 :=
  default 65535 (ConnectProperties.receive_maximum self).

(** src/v5/connect.rs:520-522 [ConnectProperties::max_packet_size] *)
Definition ConnectProperties_max_packet_size (self : ConnectProperties) : u32 :=
  default DEF_MQTT_MAX_PACKET_SIZE (ConnectProperties.max_packet_size self).

(** src/v5/connect.rs:524-529 [ConnectProperties::topic_alias_max] *)
Definition ConnectProperties_topic_alias_max (self : ConnectProperties) : option u16 :=
  match ConnectProperties.topic_alias_max self with
  | None => None
  | Some val => if val =? 0 then None else Some val
  end.

(** src/v5/connect.rs:531-533 [ConnectProperties::request_response_info] *)
Definition ConnectProperties_request_response_info (self : ConnectProperties) : bool :=
  default false (ConnectProperties.request_response_info self).

(** It reads the other field. *)
(** src/v5/connect.rs:535-537 [ConnectProperties::request_problem_info] *)
Definition ConnectProperties_request_problem_info (self : ConnectProperties) : bool :=
  default true (ConnectProperties.request_response_info self).

(** src/v5/connect.rs:341-346 [Connect::receive_maximum] *)
Definition Connect_receive_maximum (self : Connect) : u16 :=
  match Connect.properties self with
  | Some props => ConnectProperties_receive_maximum props
  | None => 65535
  end.

(** src/v5/connect.rs:348-353 [Connect::max_packet_size] *)
Definition Connect_max_packet_size (self : Connect) : u32 :=
  match Connect.properties self with
  | Some props => ConnectProperties_max_packet_size props
  | None => DEF_MQTT_MAX_PACKET_SIZE
  end.

(** src/v5/connect.rs:355-360 [Connect::session_expiry_interval] *)
Definition Connect_session_expiry_interval (self : Connect) : option u32 :=
  match Connect.properties self with
  | Some props => ConnectProperties.session_expiry_interval props
  | None => None
  end.

(** src/v5/connect.rs:362-367 [Connect::topic_alias_max] *)
Definition Connect_topic_alias_max (self : Connect) : option u16 :=
  match Connect.properties self with
  | Some props => ConnectProperties_topic_alias_max props
  | None => None
  end.

(** * CONNACK *)

(** src/v5/connack.rs:12-12 [ConnackFlags] *)
Record ConnackFlags := mkConnackFlags { connack_flags : u8 }.

(** src/v5/connack.rs:53-53 [ConnackFlags::SESSION_PRESENT] *)
Definition SESSION_PRESENT : ConnackFlags := mkConnackFlags 1.

(** src/v5/connack.rs:28-32 [ConnackFlags::default] *)
Definition ConnackFlags_default : ConnackFlags := mkConnackFlags 0.

(** src/v5/connack.rs:55-57 [ConnackFlags::new] *)
Definition ConnackFlags_new (flags : list ConnackFlags) : ConnackFlags :=
  foldl (λ acc flag, mkConnackFlags (Z.lor (connack_flags acc) (connack_flags flag)))
    (mkConnackFlags 0) flags.

(** src/v5/connack.rs:60-66 [ConnackFlags::unwrap] *)
Definition ConnackFlags_unwrap (self : ConnackFlags) : Result bool :=
  if 0 <? Z.land (connack_flags self) 254 then
    err ErrorKind.MalformedPacket ReasonCode.MalformedPacket
  else Ok (0 <? Z.land (connack_flags self) (connack_flags SESSION_PRESENT)).

(** src/v5/connack.rs:35-44 [ConnackFlags::decode] *)
Definition ConnackFlags_decode (stream : bytes) : Result (ConnackFlags * nat) :=
  '(flags, n) ← dec_field u8_codec stream 0;
  let flags := mkConnackFlags flags in
  _ ← ConnackFlags_unwrap flags;
  Ok (flags, n).

(** src/v5/connack.rs:46-49 [ConnackFlags::encode] *)
Definition ConnackFlags_encode (self : ConnackFlags) : Result Blob :=
  _ ← ConnackFlags_unwrap self;
  u8_encode (connack_flags self).

(** src/v5/connack.rs:34-50 [Packetize for ConnackFlags] *)
Definition ConnackFlags_codec : Packetize ConnackFlags :=
  mkPacketize ConnackFlags_decode ConnackFlags_encode.

(** src/v5/connack.rs:137-141 [ConnAck] *)
Module ConnAck.
Record ConnAck := mk {
  flags : ConnackFlags;
  code : ConnackReasonCode;
  properties : option ConnAckProperties;
}.
End ConnAck.
Abbreviation ConnAck := ConnAck.ConnAck.

(** src/v5/connack.rs:144-150 [ConnAck::new_success] *)
Definition ConnAck_new_success (ps : option ConnAckProperties) : ConnAck :=
  ConnAck.mk ConnackFlags_default ConnackReasonCode.Success ps.

(** src/v5/connack.rs:152-154 [ConnAck::set_session_present] *)
Definition ConnAck_set_session_present (self : ConnAck) : ConnAck :=
  ConnAck.mk
    (mkConnackFlags (Z.lor (connack_flags (ConnAck.flags self)) (connack_flags SESSION_PRESENT)))
    (ConnAck.code self) (ConnAck.properties self).

(** src/v5/connack.rs:156-159 [ConnAck::from_reason_code] *)
Definition ConnAck_from_reason_code (code : ConnackReasonCode) : ConnAck :=
  ConnAck.mk ConnackFlags_default code None.

(** src/v5/connack.rs:163-178 [ConnAck::decode] *)
Definition ConnAck_decode (stream : bytes) : Result (ConnAck * nat) :=
  '(fh, n) ← dec_field FixedHeader_codec stream 0;
  _ ← FixedHeader_validate fh;
  '(flags, n) ← dec_field ConnackFlags_codec stream n;
  '(code, n) ← dec_field u8_codec stream n;
  code ← ConnackReasonCode_try_from code;
  '(properties, n) ← dec_props ConnAckProperties_decode stream n;
  Ok (ConnAck.mk flags code properties, n).

(** The flags are written as a byte, without the check of [ConnackFlags::encode]. *)
(** src/v5/connack.rs:180-197 [ConnAck::encode] *)
Definition ConnAck_encode (self : ConnAck) : Result Blob :=
  flags ← u8_encode (connack_flags (ConnAck.flags self));
  code ← u8_encode (ConnackReasonCode_as_u8 (ConnAck.code self));
  properties ← enc_props ConnAckProperties_encode (ConnAck.properties self);
  let data := as_ref flags ++ as_ref code ++ properties in
  frame_encode (FixedHeader_new PacketType.ConnAck) data.

(** src/v5/connack.rs:162-198 [Packetize for ConnAck] *)
Definition ConnAck_codec : Packetize ConnAck := mkPacketize ConnAck_decode ConnAck_encode.

(** * Lemmas: the property blocks *)

(** The properties the structure stands for, in the encoder's order. *)
Definition ConnectProperties_to_props (x : ConnectProperties) : list Property :=
  opt_prop Property.SessionExpiryInterval (ConnectProperties.session_expiry_interval x) ++
  opt_prop Property.ReceiveMaximum (ConnectProperties.receive_maximum x) ++
  opt_prop Property.MaximumPacketSize (ConnectProperties.max_packet_size x) ++
  opt_prop Property.TopicAliasMaximum (ConnectProperties.topic_alias_max x) ++
  opt_prop (λ v, Property.RequestResponseInformation (bool_u8 v)) (ConnectProperties.request_response_info x) ++
  opt_prop (λ v, Property.RequestProblemInformation (bool_u8 v)) (ConnectProperties.request_problem_info x) ++
  opt_prop Property.AuthenticationMethod (ConnectProperties.authentication_method x) ++
  opt_prop Property.AuthenticationData (ConnectProperties.authentication_method x) ++
  (Property.UserProp <$> ConnectProperties.user_properties x).

Definition valid_ConnectProperties (x : ConnectProperties) : Prop :=
  Forall valid_Property (ConnectProperties_to_props x) ∧
  ConnectProperties.receive_maximum x ≠ Some 0 ∧
  ConnectProperties.max_packet_size x ≠ Some 0 ∧
  ConnectProperties.authentication_data x = ConnectProperties.authentication_method x.

#[export] Instance ConnectProperties_block :
  PropsBlock ConnectProperties_encode dup_err_std ConnectProperties_step ConnectProperties_default
    ConnectProperties_to_props valid_ConnectProperties.
Proof.
  split.
  - by intros x Hv; apply Hv.
  - solve_block_encode.
  - intros x Hv. destruct Hv as (_ & H0 & H1 & H2). unfold ConnectProperties_to_props.
    eapply (fold_props_watched _ watched_std);
      [apply dup_err_std_watched|solve_watched|solve_NoDup|]. destruct x.
    fold_opt ConnectProperties.set_session_expiry_interval.
    fold_opt ConnectProperties.set_receive_maximum.
    fold_opt ConnectProperties.set_max_packet_size.
    fold_opt ConnectProperties.set_topic_alias_max.
    fold_opt ConnectProperties.set_request_response_info.
    fold_opt ConnectProperties.set_request_problem_info.
    fold_opt ConnectProperties.set_authentication_method.
    fold_opt ConnectProperties.set_authentication_data.
    fold_push ConnectProperties.set_user_properties. cbn in *; by subst.
  - settle_step.
  - settle_block_encode.
Qed.

(** What a packet may carry: a structure with something in it. *)
Definition normal_ConnectProperties (x : ConnectProperties) : Prop := valid_ConnectProperties x ∧ x ≠ ConnectProperties_default.

#[export] Instance ConnectProperties_codec_ok :
  BlockCodec ConnectProperties_encode ConnectProperties_decode normal_ConnectProperties.
Proof. exact (PropsBlock_codec _ _ _ _ _ _ ConnectProperties_block). Qed.

(** The properties the structure stands for, in the encoder's order. *)
Definition WillProperties_to_props (x : WillProperties) : list Property :=
  opt_prop Property.WillDelayInterval (WillProperties.will_delay_interval x) ++
  format_prop (WillProperties.payload_format_indicator x) ++
  opt_prop Property.MessageExpiryInterval (WillProperties.message_expiry_interval x) ++
  opt_prop Property.ContentType (WillProperties.content_type x) ++
  opt_prop Property.ResponseTopic (WillProperties.response_topic x) ++
  opt_prop Property.CorrelationData (WillProperties.correlation_data x) ++
  (Property.UserProp <$> WillProperties.user_properties x).

Definition valid_WillProperties (x : WillProperties) : Prop :=
  Forall valid_Property (WillProperties_to_props x).

#[export] Instance WillProperties_block :
  PropsBlock WillProperties_encode dup_err_std WillProperties_step WillProperties_default
    WillProperties_to_props valid_WillProperties.
Proof.
  split.
  - by intros x Hv.
  - solve_block_encode.
  - intros x Hv. unfold WillProperties_to_props.
    eapply (fold_props_watched _ watched_std);
      [apply dup_err_std_watched|solve_watched|solve_NoDup|]. destruct x.
    fold_opt WillProperties.set_will_delay_interval.
    fold_format WillProperties.set_payload_format_indicator.
    fold_opt WillProperties.set_message_expiry_interval.
    fold_opt WillProperties.set_content_type.
    fold_opt WillProperties.set_response_topic.
    fold_opt WillProperties.set_correlation_data.
    fold_push WillProperties.set_user_properties. done.
  - settle_step.
  - settle_block_encode.
Qed.

(** What a packet may carry: a structure with something in it. *)
Definition normal_WillProperties (x : WillProperties) : Prop := valid_WillProperties x ∧ x ≠ WillProperties_default.

#[export] Instance WillProperties_codec_ok :
  BlockCodec WillProperties_encode WillProperties_decode normal_WillProperties.
Proof. exact (PropsBlock_codec _ _ _ _ _ _ WillProperties_block). Qed.

(** The properties the structure stands for, in the encoder's order. *)
Definition ConnAckProperties_to_props (x : ConnAckProperties) : list Property :=
  opt_prop Property.SessionExpiryInterval (ConnAckProperties.session_expiry_interval x) ++
  opt_prop Property.ReceiveMaximum (ConnAckProperties.receive_maximum x) ++
  opt_prop Property.MaximumQoS (ConnAckProperties.maximum_qos x) ++
  opt_prop (λ v, Property.RetainAvailable (bool_u8 v)) (ConnAckProperties.retain_available x) ++
  opt_prop Property.MaximumPacketSize (ConnAckProperties.max_packet_size x) ++
  opt_prop Property.AssignedClientIdentifier (ConnAckProperties.assigned_client_identifier x) ++
  opt_prop Property.TopicAliasMaximum (ConnAckProperties.topic_alias_max x) ++
  opt_prop Property.ReasonString (ConnAckProperties.reason_string x) ++
  opt_prop (λ v, Property.WildcardSubscriptionAvailable (bool_u8 v)) (ConnAckProperties.wildcard_subscription_available x) ++
  opt_prop (λ v, Property.SubscriptionIdentifierAvailable (bool_u8 v)) (ConnAckProperties.subscription_identifiers_available x) ++
  opt_prop (λ v, Property.SharedSubscriptionAvailable (bool_u8 v)) (ConnAckProperties.shared_subscription_available x) ++
  opt_prop Property.ServerKeepAlive (ConnAckProperties.server_keep_alive x) ++
  opt_prop Property.ResponseInformation (ConnAckProperties.response_information x) ++
  opt_prop Property.ServerReference (ConnAckProperties.server_reference x) ++
  opt_prop Property.AuthenticationMethod (ConnAckProperties.authentication_method x) ++
  opt_prop Property.AuthenticationData (ConnAckProperties.authentication_data x) ++
  (Property.UserProp <$> ConnAckProperties.user_properties x).

Definition valid_ConnAckProperties (x : ConnAckProperties) : Prop :=
  Forall valid_Property (ConnAckProperties_to_props x) ∧
  ConnAckProperties.receive_maximum x ≠ Some 0 ∧
  ConnAckProperties.max_packet_size x ≠ Some 0.

#[export] Instance ConnAckProperties_block :
  PropsBlock ConnAckProperties_encode dup_err_std ConnAckProperties_step ConnAckProperties_default
    ConnAckProperties_to_props valid_ConnAckProperties.
Proof.
  split.
  - by intros x Hv; apply Hv.
  - solve_block_encode.
  - intros x Hv. destruct Hv as (_ & H0 & H1). unfold ConnAckProperties_to_props.
    eapply (fold_props_watched _ watched_std);
      [apply dup_err_std_watched|solve_watched|solve_NoDup|]. destruct x.
    fold_opt ConnAckProperties.set_session_expiry_interval.
    fold_opt ConnAckProperties.set_receive_maximum.
    fold_opt ConnAckProperties.set_maximum_qos.
    fold_opt ConnAckProperties.set_retain_available.
    fold_opt ConnAckProperties.set_max_packet_size.
    fold_opt ConnAckProperties.set_assigned_client_identifier.
    fold_opt ConnAckProperties.set_topic_alias_max.
    fold_opt ConnAckProperties.set_reason_string.
    fold_opt ConnAckProperties.set_wildcard_subscription_available.
    fold_opt ConnAckProperties.set_subscription_identifiers_available.
    fold_opt ConnAckProperties.set_shared_subscription_available.
    fold_opt ConnAckProperties.set_server_keep_alive.
    fold_opt ConnAckProperties.set_response_information.
    fold_opt ConnAckProperties.set_server_reference.
    fold_opt ConnAckProperties.set_authentication_method.
    fold_opt ConnAckProperties.set_authentication_data.
    fold_push ConnAckProperties.set_user_properties. done.
  - settle_step.
  - settle_block_encode.
Qed.

(** What a packet may carry: a structure with something in it. *)
Definition normal_ConnAckProperties (x : ConnAckProperties) : Prop := valid_ConnAckProperties x ∧ x ≠ ConnAckProperties_default.

#[export] Instance ConnAckProperties_codec_ok :
  BlockCodec ConnAckProperties_encode ConnAckProperties_decode normal_ConnAckProperties.
Proof. exact (PropsBlock_codec _ _ _ _ _ _ ConnAckProperties_block). Qed.

Lemma ConnackReasonCode_roundtrip c : ConnackReasonCode_try_from (ConnackReasonCode_as_u8 c) = Ok c.
Proof. by destruct c. Qed.

Lemma ConnackReasonCode_byte c : is_u8 (ConnackReasonCode_as_u8 c).
Proof. by destruct c. Qed.

Lemma ConnackReasonCode_try_settled v : settled (ConnackReasonCode_try_from v).
Proof. unfold ConnackReasonCode_try_from. repeat case_match; exact I. Qed.

(** * Lemmas: flags *)

#[export] Instance ConnectFlags_round_trip :
  RoundTrip ConnectFlags_codec (λ f, is_u8 (connect_flags f)).
Proof.
  split; cbn [encode decode ConnectFlags_codec].
  - intros f _. unfold ConnectFlags_encode, ConnectFlags_validate. case_match; exact I.
  - intros f b Hf He. unfold ConnectFlags_encode in He. outcome_inv He.
    exact (encode_bytes (c := u8_codec) _ _ Hf He).
  - intros [f] b rest Hf He. unfold ConnectFlags_encode in He. outcome_inv He.
    unfold ConnectFlags_decode.
    pose proof (dec_field_app u8_codec is_u8 f b [] rest 0 Hf He eq_refl) as E.
    cbn [app connect_flags] in *. rewrite E, bind_Ok_1, Hr. done.
Qed.

#[export] Instance ConnectFlags_total :
  TotalDecoder ConnectFlags_codec (λ f, is_u8 (connect_flags f)).
Proof.
  split; cbn [decode ConnectFlags_codec]; unfold ConnectFlags_decode.
  - intros s Hs. settle_decoder Hs. unfold ConnectFlags_validate. case_match; exact I.
  - intros s f n Hs H. bound_decoder Hs. split; [lia|done].
Qed.

#[export] Instance ConnackFlags_total :
  TotalDecoder ConnackFlags_codec (λ f, is_u8 (connack_flags f)).
Proof.
  split; cbn [decode ConnackFlags_codec]; unfold ConnackFlags_decode.
  - intros s Hs. settle_decoder Hs. unfold ConnackFlags_unwrap. case_match; exact I.
  - intros s f n Hs H. bound_decoder Hs. split; [lia|done].
Qed.

#[export] Instance ConnackFlags_round_trip :
  RoundTrip ConnackFlags_codec (λ f, is_u8 (connack_flags f)).
Proof.
  split; cbn [encode decode ConnackFlags_codec].
  - intros f _. unfold ConnackFlags_encode, ConnackFlags_unwrap. case_match; exact I.
  - intros f b Hf He. unfold ConnackFlags_encode in He. outcome_inv He.
    exact (encode_bytes (c := u8_codec) _ _ Hf He).
  - intros [f] b rest Hf He. unfold ConnackFlags_encode in He. outcome_inv He.
    unfold ConnackFlags_decode.
    pose proof (dec_field_app u8_codec is_u8 f b [] rest 0 Hf He eq_refl) as E.
    cbn [app connack_flags] in *. rewrite E, bind_Ok_1, Hr. done.
Qed.

(** * CONNECT *)

(** The fields before and after the will; flags that say what is there. *)
Definition valid_Connect_head (c : Connect) : Prop :=
  is_u8 (connect_flags (Connect.flags c)) ∧ is_u16 (Connect.keep_alive c) ∧
  (∀ x, Connect.properties c = Some x → normal_ConnectProperties x) ∧
  valid_str (client_id_str (ConnectPayload.client_id (Connect.payload c))).

Definition valid_Connect_login (c : Connect) : Prop :=
  (∀ s, ConnectPayload.user_name (Connect.payload c) = Some s → valid_str s) ∧
  (is_Some (ConnectPayload.user_name (Connect.payload c)) ↔ is_username (Connect.flags c) = true) ∧
  (∀ s, ConnectPayload.password (Connect.payload c) = Some s → valid_str s) ∧
  (is_Some (ConnectPayload.password (Connect.payload c)) ↔ is_password (Connect.flags c) = true).

(** A CONNECT with a will: topic, payload and properties that are not empty. *)
Definition valid_Connect (c : Connect) : Prop :=
  valid_Connect_head c ∧ valid_Connect_login c ∧
  is_will_flag (Connect.flags c) = true ∧
  (∀ x, ConnectPayload.will_properties (Connect.payload c) = Some x → normal_WillProperties x) ∧
  (∀ t, ConnectPayload.will_topic (Connect.payload c) = Some t → valid_TopicName t) ∧
  (∀ d, ConnectPayload.will_payload (Connect.payload c) = Some d → is_bytes d).

(** A CONNECT without one. *)
Definition plain_Connect (c : Connect) : Prop :=
  valid_Connect_head c ∧
  is_will_flag (Connect.flags c) = false ∧
  ConnectPayload.will_properties (Connect.payload c) = None ∧
  ConnectPayload.will_topic (Connect.payload c) = None ∧
  ConnectPayload.will_payload (Connect.payload c) = None.

Lemma valid_MQTT : valid_str MQTT.
Proof. split; [|done]. by repeat constructor. Qed.

Lemma Connect_validate_Ok c :
  Connect_validate c = Ok () →
  Connect.protocol_name c = MQTT ∧ Connect.protocol_version c = MqttProtocol.V5 ∧
  ConnectFlags_validate (Connect.flags c) = Ok () ∧
  (is_will_flag (Connect.flags c) = true →
     is_Some (ConnectPayload.will_topic (Connect.payload c)) ∧
     is_Some (ConnectPayload.will_properties (Connect.payload c)) ∧
     is_Some (ConnectPayload.will_payload (Connect.payload c))).
Proof.
  unfold Connect_validate. destruct (bool_decide_reflect (Connect.protocol_name c = MQTT)); cbn [negb]; [|done].
  destruct (bool_decide_reflect (Connect.protocol_version c = MqttProtocol.V5)); cbn [negb]; [|done].
  intros H1. outcome_inv H1. split; [done|]. split; [done|]. split; [done|].
  unfold is_will_flag. intros Hw. rewrite Hw in Hr1.
  destruct (bool_decide_reflect (ConnectPayload.will_topic (Connect.payload c) = None))
    as [|Ht]; [done|].
  destruct (ConnectPayload.will_properties (Connect.payload c)); [|done].
  destruct (bool_decide_reflect (ConnectPayload.will_payload (Connect.payload c) = None))
    as [|Hp]; [done|].
  split; [by apply not_eq_None_Some|]. split; [by eexists|by apply not_eq_None_Some].
Qed.

(** [validate] returns unless will properties announce a text payload that is not
    there; the flags rule that out, or the absence of the properties. *)
Lemma Connect_validate_settled c :
  is_will_flag (Connect.flags c) = true ∨
  ConnectPayload.will_properties (Connect.payload c) = None →
  settled (Connect_validate c).
Proof.
  intros Hw. unfold Connect_validate.
  destruct (negb (bool_decide (Connect.protocol_name c = MQTT))); [exact I|].
  destruct (negb (bool_decide (Connect.protocol_version c = MqttProtocol.V5))); [exact I|].
  apply settled_bind; [unfold ConnectFlags_validate; case_match; exact I|intros _ _].
  cbv zeta. apply settled_bind; [unfold QoS_try_from; repeat case_match; exact I|intros _ _].
  destruct (ConnectPayload.will_properties (Connect.payload c)) as [wp|].
  - destruct Hw as [Hw|]; [|done]. unfold is_will_flag in Hw. rewrite Hw.
    destruct (bool_decide (ConnectPayload.will_topic _ = None)); [exact I|].
    destruct (ConnectPayload.will_payload (Connect.payload c)) as [d|]; [|exact I].
    cbn. repeat case_match; exact I.
  - apply settled_bind; [|intros _ _; exact I]. repeat case_match; exact I.
Qed.

(** The flags of a validated packet go through their codec. *)
Lemma ConnectFlags_encode_of_u8 f b :
  ConnectFlags_validate f = Ok () → u8_encode (connect_flags f) = Ok b →
  ConnectFlags_encode f = Ok b.
Proof. unfold ConnectFlags_encode. by intros ->. Qed.

Lemma present_iff {A} (o : option A) : is_Some o → (is_Some o ↔ true = true).
Proof. by split. Qed.

Lemma u8_from_MqttProtocol_byte v : is_u8 (u8_from_MqttProtocol v).
Proof. by destruct v. Qed.

(** Takes the encoder apart, and decodes the fields up to the client identifier. *)
Ltac connect_inv He :=
  unfold Connect_encode in He; cbv zeta in He; outcome_inv He;
  match goal with H : Connect_validate ?c = Ok _ |- _ =>
    pose proof (Connect_validate_Ok c H) as (Hname & Hver & Hfl & Hwill) end.
Ltac connect_head :=
  match goal with
  | Hp : String_encode (Connect.protocol_name ?c) = _,
    Hv : u8_encode (u8_from_MqttProtocol _) = _,
    Hf : u8_encode (connect_flags _) = _, Hk : u16_encode _ = _,
    Hps : enc_props ConnectProperties_encode _ = _,
    Hc : String_encode (client_id_str _) = _,
    Hvalid : valid_Connect_head ?c, Hname : Connect.protocol_name ?c = MQTT,
    Hver : Connect.protocol_version ?c = _, Hfl : ConnectFlags_validate _ = _ |- _ =>
      destruct Hvalid as (Hb & Hu & Hprops & Hid);
      rewrite Hname in Hp; dec_next String_codec valid_str valid_MQTT Hp;
      dec_next u8_codec is_u8 (u8_from_MqttProtocol_byte (Connect.protocol_version c)) Hv;
      rewrite Hver; cbn [MqttProtocol_try_from u8_from_MqttProtocol]; rewrite bind_Ok_1;
      dec_next ConnectFlags_codec (λ f, is_u8 (connect_flags f)) Hb
        (ConnectFlags_encode_of_u8 _ _ Hfl Hf);
      dec_next u16_codec is_u16 Hu Hk; dec_block Hprops Hps;
      dec_next String_codec valid_str Hid Hc
  end.

#[export] Instance Connect_round_trip : RoundTrip Connect_codec valid_Connect.
Proof.
  split; cbn [encode decode Connect_codec].
  - intros c (_ & _ & Hw & _). unfold Connect_encode.
    apply settled_bind; [apply Connect_validate_settled; by left|intros _ _]. cbv zeta.
    settle_packet; exact (encoder_settled (c := String_codec) _).
  - intros c b (Hhead & (Hus & _ & Hps & _) & _ & Hwp & Hwt & Hwd) He. connect_inv He.
    destruct Hhead as (Hb & Hu & Hprops & Hid). rewrite Hname in Hr0.
    apply frame_encode_Ok in He as (fh & _ & _ & _ & Hbytes & _); [|exact _]. apply Hbytes.
    repeat apply Forall_app_2.
    + exact (encode_bytes (c := String_codec) _ _ valid_MQTT Hr0).
    + exact (encode_bytes (c := u8_codec) _ _ (u8_from_MqttProtocol_byte _) Hr1).
    + exact (encode_bytes (c := u8_codec) _ _ Hb Hr2).
    + exact (encode_bytes (c := u16_codec) _ _ Hu Hr3).
    + exact (proj1 (enc_props_bytes _ _ _ _ _ Hprops Hr4)).
    + exact (encode_bytes (c := String_codec) _ _ Hid Hr5).
    + exact (proj1 (enc_props_bytes _ _ _ _ _ Hwp Hr6)).
    + exact (enc_field_opt_bytes TopicName_codec valid_TopicName _ Hwt _ Hr7).
    + exact (enc_field_opt_bytes Vec_codec (Forall is_u8) _ Hwd _ Hr8).
    + exact (enc_field_opt_bytes String_codec valid_str _ Hus _ Hr9).
    + exact (enc_field_opt_bytes String_codec valid_str _ Hps _ Hr10).
  - intros c b rest (Hhead & (Hus & Hui & Hps & Hpi) & Hw & Hwp & Hwt & Hwd) He.
    connect_inv He. unfold Connect_decode. dec_header He rest. connect_head.
    destruct (Hwill Hw) as (Ht & Hp & Hd).
    rewrite Hw. cbn [dec_props_if]. dec_block Hwp Hr6.
    dec_opt TopicName_codec valid_TopicName Hwt Hr7 (present_iff _ Ht).
    dec_opt Vec_codec (Forall is_u8) Hwd Hr8 (present_iff _ Hd).
    dec_opt String_codec valid_str Hus Hr9 Hui.
    dec_opt String_codec valid_str Hps Hr10 Hpi.
    destruct c as [pn pv f k ps [[ci] wp wt wd us pw]]. cbn in *. subst.
    rewrite Hr. cbn. by dec_end.
Qed.

(** Without a will the encoder still writes the length of its properties, which
    the decoder does not read. *)
Lemma plain_Connect_decode c b rest :
  plain_Connect c →
  ConnectPayload.user_name (Connect.payload c) = None →
  ConnectPayload.password (Connect.payload c) = None →
  is_username (Connect.flags c) = false → is_password (Connect.flags c) = false →
  Connect_encode c = Ok b →
  Connect_decode (as_ref b ++ rest) = Ok (c, pred (length (as_ref b))).
Proof.
  intros (Hhead & Hw & Hwp & Hwt & Hwd) Hun Hpw Hu1 Hp1 He.
  connect_inv He. unfold Connect_decode. dec_header He rest. connect_head.
  rewrite Hw, Hu1, Hp1. cbn [dec_props_if dec_field_if]. rewrite !bind_Ok_1.
  rewrite Hwp in Hr6. rewrite Hwt in Hr7. rewrite Hwd in Hr8.
  rewrite Hun in Hr9. rewrite Hpw in Hr10.
  cbn [enc_props enc_field_opt] in *. rewrite VarU32_encode_0, bind_Ok_1, as_ref_small in Hr6.
  injection Hr6 as <-. injection Hr7 as <-. injection Hr8 as <-.
  injection Hr9 as <-. injection Hr10 as <-. cbn [app] in Ha.
  apply (at_pos_next _ _ [0]), at_pos_end in Ha. cbn [length] in Ha. rewrite <- Ha.
  destruct c as [pn pv f k ps [[ci] wp wt wd us pw]]. cbn in *. subst.
  rewrite Hr, bind_Ok_1. do 2 f_equal. lia.
Qed.

#[export] Instance Connect_frame_decoder : FrameDecoder Connect_codec (λ _, true).
Proof.
  split; cbn [decode Connect_codec]; unfold Connect_decode.
  - intros s pt Hs _ _ _. settle_decoder Hs.
    apply settled_bind; [unfold MqttProtocol_try_from; repeat case_match; exact I|intros v _].
    settle_decoder Hs.
    apply settled_bind; [|done]. apply Connect_validate_settled. cbn.
    match goal with H : dec_props_if _ _ _ ?p = Ok _ |- _ => destruct p eqn:E; [by left|right] end.
    by match goal with H : dec_props_if _ _ _ false = Ok _ |- _ => injection H end.
  - intros s p n Hs H. bound_decoder Hs; lia.
Qed.

(** * CONNACK *)

Definition valid_ConnAck (p : ConnAck) : Prop :=
  is_u8 (connack_flags (ConnAck.flags p)) ∧
  (∃ present, ConnackFlags_unwrap (ConnAck.flags p) = Ok present) ∧
  ∀ x, ConnAck.properties p = Some x → normal_ConnAckProperties x.

#[export] Instance ConnAck_round_trip : RoundTrip ConnAck_codec valid_ConnAck.
Proof.
  split; cbn [encode decode ConnAck_codec].
  - intros p _. unfold ConnAck_encode. cbv zeta. settle_packet.
  - intros p b (Hf & _ & Hp) He. unfold ConnAck_encode in He. outcome_inv He.
    apply frame_encode_Ok in He as (fh & _ & _ & _ & Hb & _); [|exact _]. apply Hb.
    apply Forall_app_2; [exact (encode_bytes (c := u8_codec) _ _ Hf Hr)|].
    apply Forall_app_2; [|exact (proj1 (enc_props_bytes _ _ _ _ _ Hp Hr1))].
    exact (encode_bytes (c := u8_codec) _ _ (ConnackReasonCode_byte _) Hr0).
  - intros p b rest (Hf & (present & Hu) & Hp) He. unfold ConnAck_encode in He. outcome_inv He.
    assert (ConnackFlags_encode (ConnAck.flags p) = Ok r) as He0
      by (unfold ConnackFlags_encode; by rewrite Hu).
    unfold ConnAck_decode. dec_header He rest.
    dec_next ConnackFlags_codec (λ f, is_u8 (connack_flags f)) Hf He0.
    dec_next u8_codec is_u8 (ConnackReasonCode_byte (ConnAck.code p)) Hr0.
    rewrite ConnackReasonCode_roundtrip, bind_Ok_1. dec_block Hp Hr1. dec_end. by destruct p.
Qed.

#[export] Instance ConnAck_frame_decoder : FrameDecoder ConnAck_codec (λ _, true).
Proof.
  split; cbn [decode ConnAck_codec]; unfold ConnAck_decode.
  - intros s pt Hs _ _ _. settle_decoder Hs.
    apply settled_bind; [apply ConnackReasonCode_try_settled|intros code _]. settle_decoder Hs.
  - intros s p n Hs H. bound_decoder Hs; lia.
Qed.
