(* ===== verification/Packets.v ===== *)
(** The packet type of [src/v5/mod.rs] that gathers the fifteen packets, with its
    dispatch on the header, and the subscription a client holds; with the lemmas by
    which a packet that is encoded is decoded again. *)

From S2P Require Import Prelude Error Util Codec Types V5 V5Facts PropsBlock Frame AckPackets.
From S2P Require Import PublishPacket SubPackets Config ConnectPackets.
Local Open Scope Z_scope.

(** src/v5/mod.rs:258-274 [Packet] *)
Module Packet.
Inductive Packet :=
| Connect (pkt : Connect)
| ConnAck (pkt : ConnAck)
| Publish (pkt : Publish)
| PubAck (pkt : Pub)
| PubRec (pkt : Pub)
| PubRel (pkt : Pub)
| PubComp (pkt : Pub)
| Subscribe (pkt : Subscribe)
| SubAck (pkt : SubAck)
| UnSubscribe (pkt : UnSubscribe)
| UnsubAck (pkt : UnsubAck)
| PingReq
| PingResp
| Disconnect (pkt : Disconnect)
| Auth (pkt : Auth).
End Packet.
Abbreviation Packet := Packet.Packet.

(** src/v5/mod.rs:277-343 [Packet::decode] *)
Definition Packet_decode (stream : bytes) : Result (Packet * nat) :=
  '(fh, _) ← FixedHeader_decode stream;
  '(packet_type, _, _, _) ← FixedHeader_unwrap fh;
  match packet_type with
  | PacketType.Connect =>
      '(pkt, n) ← Connect_decode stream;
      Ok (Packet.Connect pkt, n)
  | PacketType.ConnAck =>
      '(pkt, n) ← ConnAck_decode stream;
      Ok (Packet.ConnAck pkt, n)
  | PacketType.Publish =>
      '(pkt, n) ← Publish_decode stream;
      Ok (Packet.Publish pkt, n)
  | PacketType.PubAck =>
      '(pkt, n) ← Pub_decode stream;
      Ok (Packet.PubAck pkt, n)
  | PacketType.PubRec =>
      '(pkt, n) ← Pub_decode stream;
      Ok (Packet.PubRec pkt, n)
  | PacketType.PubRel =>
      '(pkt, n) ← Pub_decode stream;
      Ok (Packet.PubRel pkt, n)
  | PacketType.PubComp =>
      '(pkt, n) ← Pub_decode stream;
      Ok (Packet.PubComp pkt, n)
  | PacketType.Subscribe =>
      '(pkt, n) ← Subscribe_decode stream;
      Ok (Packet.Subscribe pkt, n)
  | PacketType.SubAck =>
      '(pkt, n) ← SubAck_decode stream;
      Ok (Packet.SubAck pkt, n)
  | PacketType.UnSubscribe =>
      '(pkt, n) ← UnSubscribe_decode stream;
      Ok (Packet.UnSubscribe pkt, n)
  | PacketType.UnsubAck =>
      '(pkt, n) ← UnsubAck_decode stream;
      Ok (Packet.UnsubAck pkt, n)
  | PacketType.PingReq =>
      '(_pkt, n) ← PingReq_decode stream;
      Ok (Packet.PingReq, n)
  | PacketType.PingResp =>
      '(_pkt, n) ← PingResp_decode stream;
      Ok (Packet.PingResp, n)
  | PacketType.Disconnect =>
      '(pkt, n) ← Disconnect_decode stream;
      Ok (Packet.Disconnect pkt, n)
  | PacketType.Auth =>
      '(pkt, n) ← Auth_decode stream;
      Ok (Packet.Auth pkt, n)
  end.

(** src/v5/mod.rs:345-363 [Packet::encode] *)
Definition Packet_encode (self : Packet) : Result Blob :=
  match self with
  | Packet.Connect pkt => Connect_encode pkt
  | Packet.ConnAck pkt => ConnAck_encode pkt
  | Packet.Publish pkt => Publish_encode pkt
  | Packet.PubAck pkt => Pub_encode pkt
  | Packet.PubRec pkt => Pub_encode pkt
  | Packet.PubRel pkt => Pub_encode pkt
  | Packet.PubComp pkt => Pub_encode pkt
  | Packet.Subscribe pkt => Subscribe_encode pkt
  | Packet.SubAck pkt => SubAck_encode pkt
  | Packet.UnSubscribe pkt => UnSubscribe_encode pkt
  | Packet.UnsubAck pkt => UnsubAck_encode pkt
  | Packet.PingReq => PingReq_encode mkPingReq
  | Packet.PingResp => PingResp_encode mkPingResp
  | Packet.Disconnect pkt => Disconnect_encode pkt
  | Packet.Auth pkt => Auth_encode pkt
  end.

(** src/v5/mod.rs:276-364 [Packetize for Packet] *)
Definition Packet_codec : Packetize Packet := mkPacketize Packet_decode Packet_encode.

(** src/v5/mod.rs:367-385 [Packet::to_packet_type] *)
Definition to_packet_type (self : Packet) : PacketType :=
  match self with
  | Packet.Connect _ => PacketType.Connect
  | Packet.ConnAck _ => PacketType.ConnAck
  | Packet.Publish _ => PacketType.Publish
  | Packet.PubAck _ => PacketType.PubAck
  | Packet.PubRec _ => PacketType.PubRec
  | Packet.PubRel _ => PacketType.PubRel
  | Packet.PubComp _ => PacketType.PubComp
  | Packet.Subscribe _ => PacketType.Subscribe
  | Packet.SubAck _ => PacketType.SubAck
  | Packet.UnSubscribe _ => PacketType.UnSubscribe
  | Packet.UnsubAck _ => PacketType.UnsubAck
  | Packet.PingReq => PacketType.PingReq
  | Packet.PingResp => PacketType.PingResp
  | Packet.Disconnect _ => PacketType.Disconnect
  | Packet.Auth _ => PacketType.Auth
  end.

(** * Subscriptions *)

(** src/v5/mod.rs:135-154 [Subscription] *)
Module Subscription.
Record Subscription := mk {
  topic_filter : TopicFilter;
  client_id : ClientID;
  shard_id : u32;
  subscription_id : option u32;
  qos : QoS;
  no_local : bool;
  retain_as_published : bool;
  retain_forward_rule : RetainForwardRule;
}.
End Subscription.
Abbreviation Subscription := Subscription.Subscription.

(** Every field but the shard. *)
(** src/v5/mod.rs:157-166 [Subscription::eq] *)
Definition Subscription_eqb (self other : Subscription) : bool :=
  bool_decide (Subscription.topic_filter self = Subscription.topic_filter other) &&
  bool_decide (Subscription.client_id self = Subscription.client_id other) &&
  bool_decide (Subscription.subscription_id self = Subscription.subscription_id other) &&
  bool_decide (Subscription.qos self = Subscription.qos other) &&
  bool_decide (Subscription.no_local self = Subscription.no_local other) &&
  bool_decide (Subscription.retain_as_published self = Subscription.retain_as_published other) &&
  bool_decide (Subscription.retain_forward_rule self = Subscription.retain_forward_rule other).

(** The order looks at the client and the filter only. *)
(** src/v5/mod.rs:172-177 [Subscription::partial_cmp] *)
Definition Subscription_cmp (self other : Subscription) : comparison :=
  match str_cmp (client_id_str (Subscription.client_id self))
                (client_id_str (Subscription.client_id other)) with
  | Eq => str_cmp (topic_filter_str (Subscription.topic_filter self))
                  (topic_filter_str (Subscription.topic_filter other))
  | val => val
  end.

(** * Lemmas: the dispatch *)

(** The packet type a stream announces, as the dispatch reads it. *)
Lemma Packet_decode_type s fh n pt r q d :
  dec_field FixedHeader_codec s 0 = Ok (fh, n) → FixedHeader_unwrap fh = Ok (pt, r, q, d) →
  ∃ m, FixedHeader_decode s = Ok (fh, m).
Proof.
  unfold dec_field. rewrite advance_0, bind_Ok_1. intros H _.
  apply bind_Ok in H as ([fh' m] & H & [= <- _]). eauto.
Qed.

(** A constructor of headers, and the packet type of what it builds. *)
Definition makes_type (mkfh : VarU32 → Result FixedHeader) (pt : PacketType) : Prop :=
  ∀ rl fh, mkfh rl = Ok fh → ∃ r q d, FixedHeader_unwrap fh = Ok (pt, r, q, d).

Ltac solve_type :=
  let rl := fresh "rl" in let fh := fresh "fh" in
  intros rl fh;
  cbv delta [FixedHeader_new FixedHeader_new_publish FixedHeader_new_pubrel
             FixedHeader_new_subscribe FixedHeader_new_unsubscribe] beta;
  destruct (VarU32_MAX <? varu32 rl); [done|]; intros [= <-]; by do 3 eexists.

Lemma new_makes_type pt : makes_type (FixedHeader_new pt) pt.
Proof. destruct pt; solve_type. Qed.
Lemma new_publish_makes_type r q d : makes_type (FixedHeader_new_publish r q d) PacketType.Publish.
Proof. destruct r, q, d; solve_type. Qed.
Lemma new_subscribe_makes_type : makes_type FixedHeader_new_subscribe PacketType.Subscribe.
Proof. solve_type. Qed.
Lemma new_unsubscribe_makes_type : makes_type FixedHeader_new_unsubscribe PacketType.UnSubscribe.
Proof. solve_type. Qed.
Lemma Pub_makes_type p : makes_type (Pub_header p) (Pub.packet_type p).
Proof. intros rl fh. apply Pub_header_unwrap. Qed.

(** The stream starts with a header of packet type [pt]. *)
Definition starts_with (s : bytes) (pt : PacketType) : Prop :=
  ∃ fh n r q d, FixedHeader_decode s = Ok (fh, n) ∧ FixedHeader_unwrap fh = Ok (pt, r, q, d).

(** An encoding starts with a header of its type that covers it exactly. *)
Definition written (b : Blob) (pt : PacketType) : Prop :=
  ∀ rest, ∃ fh n r q d, FixedHeader_decode (as_ref b ++ rest) = Ok (fh, n) ∧
    FixedHeader_unwrap fh = Ok (pt, r, q, d) ∧
    (Z.of_nat n + varu32 (remaining_len fh) = Z.of_nat (length (as_ref b)))%Z.

Lemma frame_encode_written mkfh `{!HeaderMaker mkfh} pt data b :
  makes_type mkfh pt → frame_encode mkfh data = Ok b → written b pt.
Proof.
  intros Ht (fh & _ & Hmk & Hrl & _ & Hd)%frame_encode_Ok rest; [|exact _].
  destruct (Hd rest) as (n & Hh & _ & _ & Hl). destruct (Ht _ _ Hmk) as (r & q & d & Hu).
  unfold dec_field in Hh. rewrite advance_0, bind_Ok_1 in Hh.
  apply bind_Ok in Hh as ([fh' m] & Hh & [= -> <-]).
  exists fh, m, r, q, d. split; [done|]. split; [done|]. rewrite Hrl. cbn in *. lia.
Qed.

(** The header an encoder writes: its own packet type, but for three packets. *)
Definition written_type (p : Packet) : PacketType :=
  match p with
  | Packet.PubAck pkt | Packet.PubRec pkt | Packet.PubRel pkt | Packet.PubComp pkt =>
      Pub.packet_type pkt
  | Packet.UnsubAck _ => PacketType.SubAck
  | Packet.PingReq => PacketType.PingResp
  | Packet.PingResp => PacketType.PingReq
  | p => to_packet_type p
  end.

Lemma Packet_encode_written p b : Packet_encode p = Ok b → written b (written_type p).
Proof.
  assert (∀ p b, Pub_encode p = Ok b → written b (Pub.packet_type p)) as Hpub.
  { intros q c H. unfold Pub_encode in H. cbv zeta in H. fold (Pub_header q) in H.
    outcome_inv H. exact (frame_encode_written _ _ _ _ (Pub_makes_type _) H). }
  destruct p; cbn [Packet_encode written_type to_packet_type]; intros H; try by apply Hpub.
  - unfold Connect_encode in H. outcome_inv H.
    exact (frame_encode_written _ _ _ _ (new_makes_type _) H).
  - unfold ConnAck_encode in H. outcome_inv H.
    exact (frame_encode_written _ _ _ _ (new_makes_type _) H).
  - unfold Publish_encode in H. outcome_inv H.
    exact (frame_encode_written _ _ _ _ (new_publish_makes_type _ _ _) H).
  - unfold Subscribe_encode in H. outcome_inv H.
    exact (frame_encode_written _ _ _ _ new_subscribe_makes_type H).
  - unfold SubAck_encode in H. outcome_inv H.
    exact (frame_encode_written _ _ _ _ (new_makes_type _) H).
  - unfold UnSubscribe_encode in H. outcome_inv H.
    exact (frame_encode_written _ _ _ _ new_unsubscribe_makes_type H).
  - unfold UnsubAck_encode in H. outcome_inv H.
    exact (frame_encode_written _ _ _ _ (new_makes_type _) H).
  - injection H as <-. intros rest. by do 5 eexists.
  - injection H as <-. intros rest. by do 5 eexists.
  - unfold Disconnect_encode in H. outcome_inv H.
    exact (frame_encode_written _ _ _ _ (new_makes_type _) H).
  - unfold Auth_encode in H. outcome_inv H.
    exact (frame_encode_written _ _ _ _ (new_makes_type _) H).
Qed.

Lemma Packet_encode_starts p b rest :
  Packet_encode p = Ok b → starts_with (as_ref b ++ rest) (written_type p).
Proof.
  intros H. destruct (Packet_encode_written p b H rest) as (fh & n & r & q & d & ? & ? & _).
  by do 5 eexists.
Qed.

(** What a packet must satisfy to survive the wire. *)
Definition valid_Packet (p : Packet) : Prop :=
  match p with
  | Packet.Connect pkt => valid_Connect pkt
  | Packet.ConnAck pkt => valid_ConnAck pkt
  | Packet.Publish pkt => valid_Publish pkt
  | Packet.PubAck pkt => valid_Pub pkt ∧ Pub.packet_type pkt = PacketType.PubAck
  | Packet.PubRec pkt => valid_Pub pkt ∧ Pub.packet_type pkt = PacketType.PubRec
  | Packet.PubRel pkt => valid_Pub pkt ∧ Pub.packet_type pkt = PacketType.PubRel
  | Packet.PubComp pkt => valid_Pub pkt ∧ Pub.packet_type pkt = PacketType.PubComp
  | Packet.Subscribe pkt => valid_Subscribe pkt
  | Packet.SubAck pkt => valid_SubAck pkt
  | Packet.UnSubscribe pkt => valid_UnSubscribe pkt
  | Packet.UnsubAck pkt => False
  | Packet.PingReq => False
  | Packet.PingResp => False
  | Packet.Disconnect pkt => valid_Disconnect pkt
  | Packet.Auth pkt => valid_Auth pkt
  end.

(** Decoding undoes the encoding, with the packet types swapped where the encoder
    writes another header. *)
Ltac wire_case c rest Hv He :=
  let E := fresh "E" in
  pose proof (round_trip (c := c) _ _ rest Hv He) as E;
  cbv [decode c] in E; rewrite E; reflexivity.

(** The dispatch goes by the header that was written. *)
Lemma Packet_decode_starts s pt :
  starts_with s pt →
  Packet_decode s =
  match pt with
  | PacketType.Connect => '(pkt, n) ← Connect_decode s; Ok (Packet.Connect pkt, n)
  | PacketType.ConnAck => '(pkt, n) ← ConnAck_decode s; Ok (Packet.ConnAck pkt, n)
  | PacketType.Publish => '(pkt, n) ← Publish_decode s; Ok (Packet.Publish pkt, n)
  | PacketType.PubAck => '(pkt, n) ← Pub_decode s; Ok (Packet.PubAck pkt, n)
  | PacketType.PubRec => '(pkt, n) ← Pub_decode s; Ok (Packet.PubRec pkt, n)
  | PacketType.PubRel => '(pkt, n) ← Pub_decode s; Ok (Packet.PubRel pkt, n)
  | PacketType.PubComp => '(pkt, n) ← Pub_decode s; Ok (Packet.PubComp pkt, n)
  | PacketType.Subscribe => '(pkt, n) ← Subscribe_decode s; Ok (Packet.Subscribe pkt, n)
  | PacketType.SubAck => '(pkt, n) ← SubAck_decode s; Ok (Packet.SubAck pkt, n)
  | PacketType.UnSubscribe => '(pkt, n) ← UnSubscribe_decode s; Ok (Packet.UnSubscribe pkt, n)
  | PacketType.UnsubAck => '(pkt, n) ← UnsubAck_decode s; Ok (Packet.UnsubAck pkt, n)
  | PacketType.PingReq => '(_, n) ← PingReq_decode s; Ok (Packet.PingReq, n)
  | PacketType.PingResp => '(_, n) ← PingResp_decode s; Ok (Packet.PingResp, n)
  | PacketType.Disconnect => '(pkt, n) ← Disconnect_decode s; Ok (Packet.Disconnect pkt, n)
  | PacketType.Auth => '(pkt, n) ← Auth_decode s; Ok (Packet.Auth pkt, n)
  end.
Proof.
  intros (fh & n & r & q & d & Hh & Hu). unfold Packet_decode.
  rewrite Hh, bind_Ok_1, Hu, bind_Ok_1. by destruct pt.
Qed.

Lemma Packet_wire p b rest :
  valid_Packet p → Packet_encode p = Ok b →
  Packet_decode (as_ref b ++ rest) = Ok (p, length (as_ref b)).
Proof.
  intros Hv He. rewrite (Packet_decode_starts _ _ (Packet_encode_starts p b rest He)).
  destruct p; cbn [Packet_encode written_type to_packet_type valid_Packet] in *; try done;
    try (destruct Hv as [Hv ->]; wire_case Pub_codec rest Hv He).
  - wire_case Connect_codec rest Hv He.
  - wire_case ConnAck_codec rest Hv He.
  - wire_case Publish_codec rest Hv He.
  - wire_case Subscribe_codec rest Hv He.
  - wire_case SubAck_codec rest Hv He.
  - wire_case UnSubscribe_codec rest Hv He.
  - wire_case Disconnect_codec rest Hv He.
  - wire_case Auth_codec rest Hv He.
Qed.

(** * Lemmas: decoding one frame *)

(** What every packet decoder promises, gathered at the dispatch. *)
Lemma Packet_decode_framed s : is_bytes s → framed s → settled (Packet_decode s).
Proof.
  intros Hs Hf. unfold Packet_decode.
  apply settled_bind; [exact (decode_settled (c := FixedHeader_codec) s Hs)|].
  intros [fh n] Hh. pose proof (decode_bound (c := FixedHeader_codec) s fh n Hs Hh) as [_ [[Hb _] Hv]].
  destruct (FixedHeader_unwrap_validated fh Hb Hv) as ([[[pt r] q] d] & Hu).
  rewrite Hu, bind_Ok_1.
  assert (frame_type s pt) as Ht.
  { exists fh, n, r, q, d. split; [|done]. unfold dec_field.
    rewrite advance_0, bind_Ok_1. cbn [decode FixedHeader_codec]. by rewrite Hh. }
  destruct pt; (apply settled_bind; [|by intros [??] _]).
  - exact (frame_settled (c := Connect_codec) _ _ Hs Hf Ht eq_refl).
  - exact (frame_settled (c := ConnAck_codec) _ _ Hs Hf Ht eq_refl).
  - exact (frame_settled (c := Publish_codec) _ _ Hs Hf Ht eq_refl).
  - exact (frame_settled (c := Pub_codec) _ _ Hs Hf Ht eq_refl).
  - exact (frame_settled (c := Pub_codec) _ _ Hs Hf Ht eq_refl).
  - exact (frame_settled (c := Pub_codec) _ _ Hs Hf Ht eq_refl).
  - exact (frame_settled (c := Pub_codec) _ _ Hs Hf Ht eq_refl).
  - exact (frame_settled (c := Subscribe_codec) _ _ Hs Hf Ht eq_refl).
  - exact (frame_settled (c := SubAck_codec) _ _ Hs Hf Ht eq_refl).
  - exact (frame_settled (c := UnSubscribe_codec) _ _ Hs Hf Ht eq_refl).
  - exact (frame_settled (c := UnsubAck_codec) _ _ Hs Hf Ht eq_refl).
  - exact (frame_settled (c := PingReq_codec) _ _ Hs Hf Ht eq_refl).
  - exact (frame_settled (c := PingResp_codec) _ _ Hs Hf Ht eq_refl).
  - exact (frame_settled (c := Disconnect_codec) _ _ Hs Hf Ht eq_refl).
  - exact (frame_settled (c := Auth_codec) _ _ Hs Hf Ht eq_refl).
Qed.

Lemma Packet_decode_bound s p n :
  is_bytes s → Packet_decode s = Ok (p, n) → (0 < n ≤ length s)%nat.
Proof.
  intros Hs H. unfold Packet_decode in H. apply bind_Ok in H as ([fh k] & _ & H).
  apply bind_Ok in H as ([[[pt r] q] d] & _ & H).
  destruct pt; apply bind_Ok in H as ([pkt m] & H & [= <- <-]).
  - exact (frame_bound (c := Connect_codec) _ _ _ Hs H).
  - exact (frame_bound (c := ConnAck_codec) _ _ _ Hs H).
  - exact (frame_bound (c := Publish_codec) _ _ _ Hs H).
  - exact (frame_bound (c := Pub_codec) _ _ _ Hs H).
  - exact (frame_bound (c := Pub_codec) _ _ _ Hs H).
  - exact (frame_bound (c := Pub_codec) _ _ _ Hs H).
  - exact (frame_bound (c := Pub_codec) _ _ _ Hs H).
  - exact (frame_bound (c := Subscribe_codec) _ _ _ Hs H).
  - exact (frame_bound (c := SubAck_codec) _ _ _ Hs H).
  - exact (frame_bound (c := UnSubscribe_codec) _ _ _ Hs H).
  - exact (frame_bound (c := UnsubAck_codec) _ _ _ Hs H).
  - exact (frame_bound (c := PingReq_codec) _ _ _ Hs H).
  - exact (frame_bound (c := PingResp_codec) _ _ _ Hs H).
  - exact (frame_bound (c := Disconnect_codec) _ _ _ Hs H).
  - exact (frame_bound (c := Auth_codec) _ _ _ Hs H).
Qed.
