(* ===== verification/PacketTheorems.v ===== *)
(** The properties of the MQTT v5 packet codecs: every packet goes through the wire
    unchanged, every frame is decoded or refused without a panic, topics and lengths
    are what MQTT says; and the packets and values for which the code does something
    else than it means to. *)

From S2P Require Import Prelude Error Util Codec Types V5 V5Facts PropsBlock Frame AckPackets.
From S2P Require Import PublishPacket SubPackets Config ConnectPackets Packets.
Local Open Scope Z_scope.

(** * The wire *)

(** The laws of a codec, for the packets [wrap] makes of its values. *)
Lemma wrapped_encode {A} (c : Packetize A) valid `{!RoundTrip c valid} v :
  valid v → settled (encode c v) ∧ ∀ b, encode c v = Ok b → is_bytes (as_ref b).
Proof.
  intros Hv. split; [by apply (encode_settled (c := c))|]. intros b. by apply (encode_bytes (c := c)).
Qed.

Lemma Packet_encode_valid p :
  valid_Packet p →
  settled (Packet_encode p) ∧ ∀ b, Packet_encode p = Ok b → is_bytes (as_ref b).
Proof.
  destruct p; cbn [valid_Packet Packet_encode]; intros Hv; try done;
    try (destruct Hv as [Hv _]; exact (wrapped_encode Pub_codec valid_Pub _ Hv)).
  - exact (wrapped_encode Connect_codec valid_Connect _ Hv).
  - exact (wrapped_encode ConnAck_codec valid_ConnAck _ Hv).
  - exact (wrapped_encode Publish_codec valid_Publish _ Hv).
  - exact (wrapped_encode Subscribe_codec valid_Subscribe _ Hv).
  - exact (wrapped_encode SubAck_codec valid_SubAck _ Hv).
  - exact (wrapped_encode UnSubscribe_codec valid_UnSubscribe _ Hv).
  - exact (wrapped_encode Disconnect_codec valid_Disconnect _ Hv).
  - exact (wrapped_encode Auth_codec valid_Auth _ Hv).
Qed.

(** C1: which packets come back from the wire.  Encoding one of them returns bytes or an error,
    and what was encoded decodes to the packet itself, whatever follows it on the stream, with
    the decoder stopping where the packet ends.  They are those of [valid_Packet]: numbers in
    their ranges, text that is UTF-8, and
    - any packet type but PINGREQ, PINGRESP and UNSUBACK, whose headers are written with
      another type ([ping_headers_swapped], [unsuback_sent_as_suback]);
    - a property structure, where there is one, that is not the default one (but in AUTH);
    - CONNECT with a will; with user name and password as the flags say; with authentication
      data that is the method's bytes, both or neither there
      ([connect_authentication_data_lost]); with no receive maximum or packet size of zero;
    - CONNACK with flags that [ConnackFlags::unwrap] takes, and without those zeros either;
    - PUBLISH that [Publish::validate] takes, with a packet identifier exactly if the QoS is
      not 0, a payload that is not empty if there is one, no topic alias zero, and at most one
      user property and one subscription identifier ([publish_duplicates_inverted]);
    - PUBACK, PUBREC, PUBREL and PUBCOMP with a code that [Pub::validate] takes;
    - SUBACK and UNSUBSCRIBE with a list that is not empty, and SUBSCRIBE without the
      subscription identifier zero. *)
Theorem packet_round_trip p :
  valid_Packet p →
  settled (Packet_encode p) ∧
  ∀ b, Packet_encode p = Ok b → is_bytes (as_ref b) ∧
    ∀ rest, Packet_decode (as_ref b ++ rest) = Ok (p, length (as_ref b)).
Proof.
  intros Hv. destruct (Packet_encode_valid p Hv) as [Hs Hb]. split; [done|].
  intros b He. split; [by apply Hb|]. intros rest. by apply Packet_wire.
Qed.

(** C7: on one frame of arbitrary bytes [Packet::decode] returns a packet or an error,
    it neither panics nor loops, and it does not read past the frame. *)
Theorem packet_decode_total s :
  is_bytes s → framed s →
  settled (Packet_decode s) ∧ ∀ p n, Packet_decode s = Ok (p, n) → (0 < n ≤ length s)%nat.
Proof.
  intros Hs Hf. split; [by apply Packet_decode_framed|]. intros p n. by apply Packet_decode_bound.
Qed.

(** A variable-length integer takes the fewest bytes its value needs, one to four,
    reads back as itself whatever follows, and is refused beyond 268435455. *)
Theorem varu32_minimal v rest :
  0 ≤ v →
  if v <=? VarU32_MAX then
    ∃ b, VarU32_encode (mkVarU32 v) = Ok b ∧
      length (as_ref b)
      = (1 + Nat.b2n (128 <=? v)%Z + Nat.b2n (16384 <=? v)%Z + Nat.b2n (2097152 <=? v)%Z)%nat ∧
      VarU32_decode (as_ref b ++ rest) = Ok (mkVarU32 v, length (as_ref b))
  else VarU32_encode (mkVarU32 v) = err_desc ErrorKind.ProtocolError.
Proof.
  intros Hv. destruct (Z.leb_spec v VarU32_MAX) as [Hm|Hm].
  - assert (∃ b, VarU32_encode (mkVarU32 v) = Ok b) as (b & Hb).
    { unfold VarU32_encode. cbn [varu32]. rewrite (proj2 (Z.leb_le v VarU32_MAX)) by done.
      repeat case_match; eauto. }
    exists b. split; [done|].
    split; [|exact (round_trip (c := VarU32_codec) (mkVarU32 v) b rest (conj Hv Hm) Hb)].
    rewrite VarU32_encode_eq in Hb. cbv zeta in Hb. cbn [varu32] in Hb.
    rewrite (proj2 (Z.leb_le v VarU32_MAX)) in Hb by done.
    destruct (Z.ltb_spec v 128), (Z.ltb_spec v 16384), (Z.ltb_spec v 2097152),
      (Z.leb_spec 128 v), (Z.leb_spec 16384 v), (Z.leb_spec 2097152 v); try lia;
      injection Hb as <-; by rewrite as_ref_small.
  - unfold VarU32_encode. cbn [varu32]. unfold VarU32_MAX in *.
    rewrite !(proj2 (Z.ltb_ge _ _)) by lia. by rewrite (proj2 (Z.leb_gt _ _)) by lia.
Qed.

Lemma to_from_be_bytes_2 a b : is_u8 a → is_u8 b → to_be_bytes 2 (from_be_bytes [a; b]) = [a; b].
Proof.
  unfold is_u8, from_be_bytes, to_be_bytes. intros Ha Hb. cbn -[Z.shiftl Z.shiftr Z.land Z.lor].
  rewrite !lor_shiftl_add, !land_255, Z.shiftr_0_r, Z.shiftr_div_pow2 by lia.
  f_equal; [|f_equal]; Z.to_euclidean_division_equations; lia.
Qed.

(** A decoded string encodes to the bytes it was read from. *)
Lemma String_decode_encode s v n :
  is_bytes s → String_decode s = Ok (v, n) →
  ∃ b, String_encode v = Ok b ∧ as_ref b = take n s.
Proof.
  intros Hs H. unfold String_decode in H. apply bind_Ok in H as ([len k] & Hl & H).
  unfold u16_decode in Hl. destruct s as [|a [|c s]]; [done..|].
  rewrite decide_True in Hl by (cbn; lia). injection Hl as <- <-.
  change (take 2 (a :: c :: s)) with (a :: c :: take 0 s) in H. rewrite take_0 in H.
  apply Forall_cons in Hs as [Ha Hs]. apply Forall_cons in Hs as [Hc Hs].
  pose proof (from_be_bytes_bound2 a c Ha Hc) as [Hn0 Hn1].
  pose proof (to_from_be_bytes_2 a c Ha Hc) as Hto.
  set (len := from_be_bytes [a; c]) in *. clearbody len.
  case_decide as Hlen; [done|]. cbn [length] in Hlen.
  apply bind_Ok in H as (v' & Hv' & H). apply slice_range_Ok in Hv' as (_ & _ & ->).
  destruct (from_utf8 _) eqn:Hu; [|done]. destruct (forallb _ _) eqn:Hf; [|done].
  injection H as <- <-. replace (2 + Z.to_nat len - 2)%nat with (Z.to_nat len) in * by lia.
  change (drop 2 (a :: c :: s)) with s in *. rewrite ?Nat.sub_0_r, ?drop_0 in *.
  assert (length (take (Z.to_nat len) s) = Z.to_nat len) as Hlt by (rewrite length_take; lia).
  unfold String_encode. rewrite Hf, Hlt. cbn [negb].
  rewrite (proj2 (Z.ltb_ge _ _)) by lia. rewrite Z2Nat.id, Hto by lia.
  case_match; eexists; (split; [reflexivity|]); by rewrite ?as_ref_small, ?as_ref_Large.
Qed.

(** C37: a topic filter that was decoded is UTF-8, is not empty, has no NUL, has [#] only
    as its last level and wildcards only as whole levels, and encodes to the bytes it
    was read from. *)
Theorem decoded_filter_wf s f n :
  is_bytes s → TopicFilter_decode s = Ok (f, n) →
  valid_str (topic_filter_str f) ∧ topic_filter_str f ≠ [] ∧ (0 ∉ chars (topic_filter_str f)) ∧
  filter_levels_wf (TopicFilter_iter_topic_path f) ∧
  ∃ b, TopicFilter_encode f = Ok b ∧ as_ref b = take n s.
Proof.
  intros Hs H. unfold TopicFilter_decode in H. apply bind_Ok in H as ([v m] & Hv & H).
  cbv zeta in H. apply bind_Ok in H as ([] & Hc & H). injection H as <- <-.
  split; [exact (proj2 (decode_bound (c := String_codec) s v m Hs Hv))|].
  destruct (proj1 (TopicFilter_validate_spec _) Hc) as (H1 & H2 & H3). do 3 (split; [done|]).
  destruct (String_decode_encode s v m Hs Hv) as (b & Hb & Ht).
  exists b. unfold TopicFilter_encode. by rewrite Hc, bind_Ok_1.
Qed.

(** * Departures *)

(** PINGREQ goes out with the header of PINGRESP and the other way round: each is
    received as the other. *)
Theorem ping_headers_swapped rest :
  (∃ b, Packet_encode Packet.PingReq = Ok b ∧
     Packet_decode (as_ref b ++ rest) = Ok (Packet.PingResp, length (as_ref b))) ∧
  (∃ b, Packet_encode Packet.PingResp = Ok b ∧
     Packet_decode (as_ref b ++ rest) = Ok (Packet.PingReq, length (as_ref b))).
Proof.
  split; (eexists; split; [reflexivity|]); reflexivity.
Qed.

(** UNSUBACK goes out with the header of SUBACK, and is never received as itself. *)
Theorem unsuback_sent_as_suback u b rest p n :
  Packet_encode (Packet.UnsubAck u) = Ok b → Packet_decode (as_ref b ++ rest) = Ok (p, n) →
  to_packet_type p = PacketType.SubAck.
Proof.
  intros He. rewrite (Packet_decode_starts _ _ (Packet_encode_starts _ b rest He)).
  cbn [written_type]. intros H. apply bind_Ok in H as ([q m] & _ & H). by injection H as <- _.
Qed.

(** The QoS of the will is read from the wrong bits of the CONNECT flags: it is two
    when clean-start is set and zero otherwise, whatever the client asked for. *)
Theorem will_qos_follows_clean_start f :
  ConnectFlags_validate f = Ok () → is_u8 (connect_flags f) →
  ∃ clean_start will_flag will_retain,
    ConnectFlags_unwrap f
    = Ok (clean_start, will_flag,
          if clean_start : bool then QoS.ExactlyOnce else QoS.AtMostOnce, will_retain) ∧
    clean_start = Z.testbit (connect_flags f) 1 ∧ will_flag = Z.testbit (connect_flags f) 2 ∧
    will_retain = Z.testbit (connect_flags f) 5.
Proof.
  destruct f as [f]. cbn [connect_flags]. intros Hv Hf.
  pose (p := λ f : Z,
    negb (is_Ok (ConnectFlags_validate (mkConnectFlags f))) ||
    match ConnectFlags_unwrap (mkConnectFlags f) with
    | Ok (cs, wf, q, wr) =>
        eqb cs (Z.testbit f 1) && eqb wf (Z.testbit f 2) && eqb wr (Z.testbit f 5) &&
        bool_decide (q = if cs : bool then QoS.ExactlyOnce else QoS.AtMostOnce)
    | _ => false
    end).
  pose proof (u8_exhaust p eq_refl f Hf) as H. unfold p in H.
  rewrite Hv in H. cbn [is_Ok negb orb] in H.
  destruct (ConnectFlags_unwrap _) as [[[[cs wf] q] wr]| | |]; [|done..].
  rewrite !andb_true_iff, !eqb_true_iff, bool_decide_eq_true in H.
  destruct H as [[[-> ->] ->] ->]. by do 3 eexists.
Qed.

(** The authentication data of a CONNECT is lost: its authentication method is sent
    in its place, and is what the other side reads. *)
Theorem connect_authentication_data_lost x b rest :
  let sent := ConnectProperties.set_authentication_data
                (ConnectProperties.authentication_method x) x in
  normal_ConnectProperties sent → ConnectProperties_encode x = Ok b →
  ConnectProperties_decode (as_ref b ++ rest) = Ok (sent, length (as_ref b)).
Proof.
  intros sent Hv He. apply (block_decode (BlockCodec := ConnectProperties_codec_ok)); [done|].
  rewrite <- He. by destruct x.
Qed.

(** A CONNECT whose will properties announce text, without a will payload and
    without the will flag, panics in the encoder ([unwrap] of [None]). *)
Theorem connect_will_text_panics c wp :
  Connect.protocol_name c = MQTT → Connect.protocol_version c = MqttProtocol.V5 →
  ConnectFlags_validate (Connect.flags c) = Ok () → is_will_flag (Connect.flags c) = false →
  Z.land (connect_flags (Connect.flags c)) WILL_QOS_MASK = 0 →
  ConnectPayload.will_properties (Connect.payload c) = Some wp →
  WillProperties.payload_format_indicator wp = PayloadFormat.Utf8 →
  ConnectPayload.will_payload (Connect.payload c) = None →
  Packet_encode (Packet.Connect c) = Panic.
Proof.
  intros Hn Hv Hf Hw Hq Hp Hu Hd. cbn [Packet_encode]. unfold Connect_encode, Connect_validate.
  rewrite Hn, Hv. do 2 (rewrite bool_decide_eq_true_2 by done; cbn [negb]).
  rewrite Hf, bind_Ok_1. cbv zeta. rewrite Hq. change (QoS_try_from _) with (Ok (E := Error) QoS.AtMostOnce).
  rewrite bind_Ok_1. unfold is_will_flag in Hw. rewrite Hw, bind_Ok_1, Hp. cbn [fmap option_fmap option_map].
  unfold WillProperties_is_utf8. rewrite Hu, bool_decide_eq_true_2 by done. by rewrite Hd.
Qed.

(** The duplicate test of the PUBLISH properties is the wrong way round: two user
    properties, which MQTT allows and the encoder writes, are refused, and a second
    message expiry, which MQTT forbids, replaces the first. *)
Theorem publish_duplicates_inverted x b rest e1 e2 :
  Forall valid_Property (PublishProperties_to_props x) →
  (2 ≤ length (PublishProperties.user_properties x))%nat →
  PublishProperties_encode x = Ok b → is_u32 e1 → is_u32 e2 →
  (∀ y n, PublishProperties_decode (as_ref b ++ rest) ≠ Ok (y, n)) ∧
  PublishProperties_decode
    (10 :: (2 :: to_be_bytes 4 e1) ++ (2 :: to_be_bytes 4 e2) ++ rest)
  = Ok (PublishProperties.set_message_expiry_interval (Some e2) PublishProperties_default, 11%nat).
Proof.
  intros Hv H2 He Hu1 Hu2. split.
  - intros y n. apply (block_encode (PropsBlock := PublishProperties_block)) in He
      as (body & data & (d & Hd & ->) & Hl & ->).
    apply insert_property_len_Ok in Hl as (lb & Hlb & -> & Hr). cbn [app] in *.
    unfold PublishProperties_decode. rewrite <- app_assoc.
    rewrite (props_decode_list _ _ _ (PublishProperties_to_props x)) by done.
    intros (z & Hz & _)%bind_Ok.
    apply (fold_props_NoDup _ watched_publish) in Hz as [Hnd _];
      [|apply dup_err_publish_watched|apply length_replicate].
    unfold PublishProperties_to_props in Hnd. rewrite !watched_types_app in Hnd.
    do 7 (apply NoDup_app in Hnd as (_ & _ & Hnd)).
    destruct (PublishProperties.user_properties x) as [|u1 [|u2 us]]; [cbn in H2; lia..|].
    cbn in Hnd. apply NoDup_cons in Hnd as [Hnin _]. apply Hnin. by left.
  - set (ps := [Property.MessageExpiryInterval e1; Property.MessageExpiryInterval e2]).
    pose proof (props_decode_list dup_err_publish PublishProperties_step PublishProperties_default
      ps (small [10]) ((2 :: to_be_bytes 4 e1) ++ (2 :: to_be_bytes 4 e2)) rest) as H.
    rewrite <- app_assoc in H. apply H; [|reflexivity|reflexivity|].
    { constructor; [exact Hu1|]. constructor; [exact Hu2|constructor]. }
    split; vm_compute; discriminate.
Qed.

(** The retain handling a client asks for is dropped: whatever the options are built
    with, they unwrap to sending retained messages on every subscription. *)
Theorem retain_handling_dropped rfr rap nl qos :
  SubscriptionOpt_unwrap (SubscriptionOpt_new rfr rap nl qos)
  = Ok (RetainForwardRule.OnEverySubscribe, rap, nl, qos).
Proof. by destruct rfr, rap, nl, qos. Qed.

(** * Examples *)

(** A SUBSCRIBE for [a/b], with packet identifier 7. *)
Definition ex_subscribe : Packet :=
  Packet.Subscribe (Subscribe.mk 7 None
    [SubscribeFilter.mk (mkTopicFilter [0x61; 0x2F; 0x62]) (mkSubscriptionOpt 1)]).

Lemma packet_round_trip_witness :
  settled (Packet_encode ex_subscribe) ∧
  ∀ b, Packet_encode ex_subscribe = Ok b → is_bytes (as_ref b) ∧
    ∀ rest, Packet_decode (as_ref b ++ rest) = Ok (ex_subscribe, length (as_ref b)).
Proof.
  apply (packet_round_trip ex_subscribe). split; [by unfold is_u16; cbn; lia|].
  split; [|discriminate]. repeat constructor; unfold is_u8; cbn; lia.
Defined.

Lemma packet_decode_total_witness :
  let s := [0xE0; 2; 0x89; 0] in
  settled (Packet_decode s) ∧ ∀ p n, Packet_decode s = Ok (p, n) → (0 < n ≤ length s)%nat.
Proof.
  apply (packet_decode_total [0xE0; 2; 0x89; 0]).
  - repeat constructor; unfold is_u8; lia.
  - intros fh n H. vm_compute in H. by injection H as <- <-.
Defined.

Lemma varu32_minimal_witness :
  ∃ b, VarU32_encode (mkVarU32 16384) = Ok b ∧ length (as_ref b) = 3%nat ∧
    VarU32_decode (as_ref b ++ [1]) = Ok (mkVarU32 16384, length (as_ref b)).
Proof. apply (varu32_minimal 16384 [1]). lia. Defined.

Lemma decoded_filter_wf_witness :
  let f := mkTopicFilter [0x61; 0x2F; 0x23] in
  valid_str (topic_filter_str f) ∧ topic_filter_str f ≠ [] ∧ (0 ∉ chars (topic_filter_str f)) ∧
  filter_levels_wf (TopicFilter_iter_topic_path f) ∧
  ∃ b, TopicFilter_encode f = Ok b ∧ as_ref b = [0; 3; 0x61; 0x2F; 0x23].
Proof.
  apply (decoded_filter_wf [0; 3; 0x61; 0x2F; 0x23; 7] _ 5); [|reflexivity].
  repeat constructor; unfold is_u8; lia.
Defined.

Definition ex_unsuback : UnsubAck :=
  UnsubAck.mk 7 None [UnsubAckReasonCode.QoS0].

Lemma unsuback_sent_as_suback_witness :
  ∃ b p n, Packet_encode (Packet.UnsubAck ex_unsuback) = Ok b ∧
    Packet_decode (as_ref b ++ []) = Ok (p, n) ∧ to_packet_type p = PacketType.SubAck.
Proof.
  do 3 eexists. split; [reflexivity|]. split; [reflexivity|].
  by eapply (unsuback_sent_as_suback ex_unsuback _ []); reflexivity.
Defined.

Lemma will_qos_follows_clean_start_witness :
  ∃ clean_start will_flag will_retain,
    ConnectFlags_unwrap (mkConnectFlags 0x0E)
    = Ok (clean_start, will_flag,
          if clean_start : bool then QoS.ExactlyOnce else QoS.AtMostOnce, will_retain) ∧
    clean_start = Z.testbit 0x0E 1 ∧ will_flag = Z.testbit 0x0E 2 ∧
    will_retain = Z.testbit 0x0E 5.
Proof.
  apply (will_qos_follows_clean_start (mkConnectFlags 0x0E)); [reflexivity|].
  unfold is_u8. cbn. lia.
Defined.

Definition ex_connect_props : ConnectProperties :=
  ConnectProperties.set_authentication_data (Some [0x73])
    (ConnectProperties.set_authentication_method (Some [0x6d]) ConnectProperties_default).

Lemma connect_authentication_data_lost_witness :
  ∃ b n, ConnectProperties_encode ex_connect_props = Ok b ∧
    ConnectProperties_decode (as_ref b ++ [])
    = Ok (ConnectProperties.set_authentication_data (Some [0x6d]) ex_connect_props, n).
Proof.
  do 2 eexists. split; [reflexivity|].
  apply (connect_authentication_data_lost ex_connect_props); [|reflexivity].
  split; [|discriminate]. repeat split; try done. by repeat constructor.
Defined.

Definition ex_will : WillProperties :=
  WillProperties.set_payload_format_indicator PayloadFormat.Utf8 WillProperties_default.
Definition ex_connect : Connect :=
  Connect.mk MQTT MqttProtocol.V5 (mkConnectFlags 0) 60 None
    (ConnectPayload.mk (mkClientID [0x63]) (Some ex_will) None None None None).

Lemma connect_will_text_panics_witness : Packet_encode (Packet.Connect ex_connect) = Panic.
Proof. by apply (connect_will_text_panics ex_connect ex_will). Defined.

Definition ex_publish_props : PublishProperties :=
  PublishProperties.set_user_properties [([0x61], [0x62]); ([0x61], [0x63])]
    PublishProperties_default.

Lemma publish_duplicates_inverted_witness :
  ∃ b, PublishProperties_encode ex_publish_props = Ok b ∧
  (∀ y n, PublishProperties_decode (as_ref b ++ []) ≠ Ok (y, n)) ∧
  PublishProperties_decode (10 :: (2 :: to_be_bytes 4 1) ++ (2 :: to_be_bytes 4 9) ++ [])
  = Ok (PublishProperties.set_message_expiry_interval (Some 9) PublishProperties_default, 11%nat).
Proof.
  eexists. split; [reflexivity|].
  apply (publish_duplicates_inverted ex_publish_props); [|cbn; lia|reflexivity|..];
    [|unfold is_u32; lia..].
  by repeat constructor.
Defined.
