(* ===== verification/PacketIO.v ===== *)
(** Model of [src/packet.rs]: the state machines that read one packet from a
    non-blocking socket and write one to it.

    The socket is not part of the crate.  A [read] is given the function that
    answers [io::Read::read] for a buffer of a given length, a [write] the one that
    answers [io::Write::write] for a buffer; that the count is within the buffer is
    the documented contract of those traits, and a hypothesis where it is used.
    The lemmas at the end follow one frame through the reader. *)

From S2P Require Import Prelude Error Util Codec Types V5 V5Facts PropsBlock Frame AckPackets.
From S2P Require Import PublishPacket SubPackets Config ConnectPackets Packets.
Local Open Scope Z_scope.

(** The kinds of [io::Error] the code tells apart. *)
Inductive IoErrorKind := WouldBlock | Interrupted | OtherError.
#[export] Instance IoErrorKind_eq_dec : EqDecision IoErrorKind.
Proof. solve_decision. Defined.

(** What a read gave: the bytes put into the buffer, or an error. *)
Inductive io_read := ReadOk (chunk : bytes) | ReadErr (kind : IoErrorKind).
(** What a write gave: the number of bytes taken, or an error. *)
Inductive io_write := WriteOk (n : nat) | WriteErr (kind : IoErrorKind).

(** * Reading *)

(** src/packet.rs:8-30 [MQTTRead] *)
Module MQTTRead.
Inductive MQTTRead :=
| None
| Init (data : bytes) (max_size : nat)
| Header (byte1 : u8) (data : bytes) (max_size : nat)
| Remain (data : bytes) (start : nat) (fh : FixedHeader) (max_size : nat)
| Fin (data : bytes) (fh : FixedHeader) (max_size : nat).
End MQTTRead.
Abbreviation MQTTRead := MQTTRead.MQTTRead.

(** src/packet.rs:39-44 [MQTTRead::new] *)
Definition MQTTRead_new (max_size : u32) : MQTTRead := MQTTRead.Init [] (Z.to_nat max_size).

(** src/packet.rs:386-397 [read_packet_limit] *)
Definition read_packet_limit (pkt_len : Z) (max_size : nat) : Result unit :=
  if Z.of_nat max_size <? pkt_len then err ErrorKind.MalformedPacket ReasonCode.PacketTooLarge
  else Ok ().

(** [Vec::resize(n, 0)]: cut off or filled up with zeros. *)
Definition vec_resize (data : bytes) (n : nat) : bytes :=
  take n data ++ replicate (n - length data) 0.

(** [scratch], an array of five zeros, after a read. *)
Definition scratch_of (chunk : bytes) : bytes := chunk ++ replicate (5 - length chunk) 0.

(** The state once the remaining length is known: the two places that build it
    differ in where the length is decoded from. *)
(** src/packet.rs:67-76 [MQTTRead::read] *)
Definition start_remain (byte1 : u8) (data : bytes) (start max_size : nat) (lenbytes : bytes)
    : Result (MQTTRead * bool) :=
  '(remaining_len, m) ← VarU32_decode lenbytes;
  let pkt_len := 1 + Z.of_nat m + varu32 remaining_len in
  _ ← read_packet_limit pkt_len max_size;
  let fh := mkFixedHeader byte1 remaining_len in
  let data := vec_resize data (Z.to_nat pkt_len) in
  Ok (MQTTRead.Remain data start fh max_size, false).

(** src/packet.rs:50-133 [MQTTRead::read] *)
Definition MQTTRead_read (self : MQTTRead) (stream : nat → io_read)
    : Result (MQTTRead * bool) :=
  match self with
  | MQTTRead.Init data max_size =>
      match stream 5%nat with
      | ReadOk [] => err_desc ErrorKind.Disconnected
      | ReadOk [byte1] => Ok (MQTTRead.Header byte1 (data ++ [byte1]) max_size, false)
      | ReadOk ((byte1 :: _) as chunk) =>
          let n := length chunk in
          let scratch := scratch_of chunk in
          let data := data ++ chunk in
          match skip_while (λ b, 0x80 <? b) (drop 1 scratch) with
          | _ :: _ => start_remain byte1 data n max_size (drop 1 scratch)
          | [] => Ok (MQTTRead.Header byte1 data max_size, false)
          end
      | ReadErr WouldBlock => Ok (MQTTRead.Init data max_size, true)
      | ReadErr _ => err_desc ErrorKind.Disconnected
      end
  | MQTTRead.Header byte1 data max_size =>
      match stream 5%nat with
      | ReadOk [] => err_desc ErrorKind.Disconnected
      | ReadOk chunk =>
          let scratch := scratch_of chunk in
          let data := data ++ chunk in
          let start := length data in
          match skip_while (λ b, 0x80 <? b) scratch with
          | _ :: _ => start_remain byte1 data start max_size (drop 1 data)
          | [] => Ok (MQTTRead.Header byte1 data max_size, false)
          end
      | ReadErr WouldBlock => Ok (MQTTRead.Header byte1 data max_size, true)
      | ReadErr _ => err_desc ErrorKind.Disconnected
      end
  | MQTTRead.Remain data start fh max_size =>
      if decide (length data < start)%nat then Panic
      else
        match stream (length data - start)%nat with
        | ReadOk [] => err_desc ErrorKind.Disconnected
        | ReadOk chunk =>
            let n := length chunk in
            let data' := take start data ++ chunk ++ drop (start + n) data in
            if (start + n =? length data)%nat then Ok (MQTTRead.Fin data' fh max_size, false)
            else if (start + n <? length data)%nat then
              Ok (MQTTRead.Remain data' (start + n) fh max_size, false)
            else Panic
        | ReadErr WouldBlock => Ok (MQTTRead.Remain data start fh max_size, true)
        | ReadErr _ => err_desc ErrorKind.Disconnected
        end
  | MQTTRead.Fin data fh max_size => Ok (MQTTRead.Fin data fh max_size, false)
  | MQTTRead.None => Panic
  end.

(** src/packet.rs:137-209 [MQTTRead::parse] *)
Definition MQTTRead_parse (self : MQTTRead) : Result Packet :=
  match self with
  | MQTTRead.Fin data fh _ =>
      '(packet_type, _, _, _) ← FixedHeader_unwrap fh;
      '(pkt, n) ←
        match packet_type with
        | PacketType.Connect => '(pkt, n) ← Connect_decode data; Ok (Packet.Connect pkt, n)
        | PacketType.ConnAck => '(pkt, n) ← ConnAck_decode data; Ok (Packet.ConnAck pkt, n)
        | PacketType.Publish => '(pkt, n) ← Publish_decode data; Ok (Packet.Publish pkt, n)
        | PacketType.PubAck => '(pkt, n) ← Pub_decode data; Ok (Packet.PubAck pkt, n)
        | PacketType.PubRec => '(pkt, n) ← Pub_decode data; Ok (Packet.PubRec pkt, n)
        | PacketType.PubRel => '(pkt, n) ← Pub_decode data; Ok (Packet.PubRel pkt, n)
        | PacketType.PubComp => '(pkt, n) ← Pub_decode data; Ok (Packet.PubComp pkt, n)
        | PacketType.Subscribe => '(pkt, n) ← Subscribe_decode data; Ok (Packet.Subscribe pkt, n)
        | PacketType.SubAck => '(pkt, n) ← SubAck_decode data; Ok (Packet.SubAck pkt, n)
        | PacketType.UnSubscribe =>
            '(pkt, n) ← UnSubscribe_decode data; Ok (Packet.UnSubscribe pkt, n)
        | PacketType.UnsubAck => '(pkt, n) ← UnsubAck_decode data; Ok (Packet.UnsubAck pkt, n)
        | PacketType.PingReq => '(_, n) ← PingReq_decode data; Ok (Packet.PingReq, n)
        | PacketType.PingResp => '(_, n) ← PingResp_decode data; Ok (Packet.PingResp, n)
        | PacketType.Disconnect =>
            '(pkt, n) ← Disconnect_decode data; Ok (Packet.Disconnect pkt, n)
        | PacketType.Auth => '(pkt, n) ← Auth_decode data; Ok (Packet.Auth pkt, n)
        end;
      if (n =? length data)%nat then Ok pkt
      else err ErrorKind.MalformedPacket ReasonCode.MalformedPacket
  | _ => Panic
  end.

(** src/packet.rs:211-219 [MQTTRead::reset] *)
Definition MQTTRead_reset (self : MQTTRead) : Result MQTTRead :=
  match self with
  | MQTTRead.Fin _ _ max_size => Ok (MQTTRead.Init [] max_size)
  | _ => Panic
  end.

(** * Writing *)

(** src/packet.rs:223-238 [MQTTWrite] *)
Module MQTTWrite.
Inductive MQTTWrite :=
| None
| Init (data : bytes) (max_size : nat)
| Remain (data : bytes) (start : nat) (max_size : nat)
| Fin (data : bytes) (max_size : nat).
End MQTTWrite.
Abbreviation MQTTWrite := MQTTWrite.MQTTWrite.

(** src/packet.rs:247-251 [MQTTWrite::new] *)
Definition MQTTWrite_new (buf : bytes) (max_size : u32) : MQTTWrite :=
  MQTTWrite.Init buf (Z.to_nat max_size).

(** src/packet.rs:255-302 [MQTTWrite::write] *)
Definition MQTTWrite_write (self : MQTTWrite) (stream : bytes → io_write)
    : Result (MQTTWrite * bool) :=
  match self with
  | MQTTWrite.Init data max_size =>
      if (max_size <? length data)%nat then Ok (MQTTWrite.Fin data max_size, false)
      else
        match stream data with
        | WriteOk O => err_desc ErrorKind.Disconnected
        | WriteOk n =>
            if (n =? length data)%nat then Ok (MQTTWrite.Fin data max_size, false)
            else if (n <? length data)%nat then Ok (MQTTWrite.Remain data n max_size, false)
            else Panic
        | WriteErr Interrupted => Ok (MQTTWrite.Remain data 0 max_size, false)
        | WriteErr WouldBlock => Ok (MQTTWrite.Remain data 0 max_size, true)
        | WriteErr OtherError => err_desc ErrorKind.Disconnected
        end
  | MQTTWrite.Remain data start max_size =>
      if decide (length data < start)%nat then Panic
      else
        match stream (drop start data) with
        | WriteOk O => err_desc ErrorKind.Disconnected
        | WriteOk n =>
            if (start + n =? length data)%nat then Ok (MQTTWrite.Fin data max_size, false)
            else if (start + n <? length data)%nat then
              Ok (MQTTWrite.Remain data (start + n) max_size, false)
            else Panic
        | WriteErr Interrupted => Ok (MQTTWrite.Remain data start max_size, false)
        | WriteErr WouldBlock => Ok (MQTTWrite.Remain data start max_size, true)
        | WriteErr OtherError => err_desc ErrorKind.Disconnected
        end
  | MQTTWrite.Fin data max_size => Ok (MQTTWrite.Fin data max_size, false)
  | MQTTWrite.None => Panic
  end.

(** src/packet.rs:304-313 [MQTTWrite::reset] *)
Definition MQTTWrite_reset (self : MQTTWrite) (buf : bytes) : Result MQTTWrite :=
  match self with
  | MQTTWrite.Fin _ max_size => Ok (MQTTWrite.Init buf max_size)
  | _ => Panic
  end.

(** The loop of [send_disconnect] and [send_connack]: the socket and the clock are
    a list of rounds, the write's answer and the time read after it.  The loop is
    left after the first write that does not block. *)
(** src/packet.rs:327-348 [send_disconnect] *)
Fixpoint send_loop (packetw : MQTTWrite) (timeout : Z) (rounds : list ((bytes → io_write) * Z))
    : Result unit :=
  match rounds with
  | [] => Diverge
  | (conn, now) :: rounds =>
      '(packetw, would_block) ← MQTTWrite_write packetw conn;
      if would_block && (timeout <? now) then send_loop packetw timeout rounds
      else if would_block : bool then err_desc ErrorKind.Disconnected
      else Ok ()
  end.

(** src/packet.rs:316-349 [send_disconnect] *)
Definition send_disconnect (code : DisconnReasonCode) (timeout : Z) (max_size : u32)
    (rounds : list ((bytes → io_write) * Z)) : Result unit :=
  let dc := Disconnect_new code None in
  buf ← unwrap (Disconnect_encode dc);
  send_loop (MQTTWrite_new (as_ref buf) max_size) timeout rounds.

(** src/packet.rs:351-384 [send_connack] *)
Definition send_connack (code : ConnackReasonCode) (timeout : Z) (max_size : u32)
    (rounds : list ((bytes → io_write) * Z)) : Result unit :=
  let cack := ConnAck_from_reason_code code in
  buf ← unwrap (ConnAck_encode cack);
  send_loop (MQTTWrite_new (as_ref buf) max_size) timeout rounds.

(** * Lemmas: reading *)

(** A socket that delivers [chunks], one per read. *)
Fixpoint read_chunks (st : MQTTRead) (chunks : list bytes) : Result MQTTRead :=
  match chunks with
  | [] => Ok st
  | chunk :: chunks => '(st, _) ← MQTTRead_read st (λ _, ReadOk chunk); read_chunks st chunks
  end.

Lemma varu32_loop_prefix bs : ∀ i out v n,
  varu32_loop bs i out = Ok (v, n) →
  (i < n ≤ i + length bs)%nat ∧ Exists (λ b, b < 0x80) (take (n - i) bs) ∧
  ∀ tl, varu32_loop (take (n - i) bs ++ tl) i out = Ok (v, n).
Proof.
  induction bs as [|b bs IH]; intros i out v n; cbn -[Z.shiftl Z.land]; [done|].
  destruct (Z.ltb_spec b 0x80) as [Hb|Hb].
  - intros [= <- <-]. replace (S i - i)%nat with 1%nat by lia.
    split; [lia|]. split; [by constructor|]. intros tl. cbn -[Z.shiftl Z.land].
    by rewrite (proj2 (Z.ltb_lt _ _)).
  - intros H. destruct (IH _ _ _ _ H) as (Hn & Hex & Htl).
    replace (n - i)%nat with (S (n - S i)) by lia. cbn [take].
    split; [lia|]. split; [by right|]. intros tl. cbn -[Z.shiftl Z.land].
    rewrite (proj2 (Z.ltb_ge _ _)) by done. apply Htl.
Qed.

Lemma VarU32_decode_prefix s v m :
  VarU32_decode s = Ok (v, m) →
  (0 < m ≤ length s)%nat ∧ (m ≤ 4)%nat ∧ Exists (λ b, b < 0x80) (take m s) ∧
  ∀ tl, VarU32_decode (take m s ++ tl) = Ok (v, m).
Proof.
  unfold VarU32_decode at 1. intros H. destruct (varu32_loop_prefix _ _ _ _ _ H) as (Hn & Hex & Htl).
  rewrite length_take in Hn. rewrite Nat.sub_0_r, take_take in *.
  replace (m `min` (length s `min` 4))%nat with m in * by lia.
  split; [lia|]. split; [lia|]. split; [done|]. intros tl.
  pose proof (VarU32_decode_app (take m s) tl v) as E. rewrite length_take in E.
  replace (m `min` length s)%nat with m in E by lia. apply E; [lia|done].
Qed.

Lemma skip_while_nonempty l :
  Exists (λ b, b < 0x80) l → ∃ b l', skip_while (λ b, 0x80 <? b) l = b :: l'.
Proof.
  induction 1 as [b l Hb|b l _ (b' & l' & IH)]; cbn.
  - rewrite (proj2 (Z.ltb_ge _ _)) by lia. eauto.
  - destruct (0x80 <? b); eauto.
Qed.

Lemma FixedHeader_decode_inv s fh k :
  FixedHeader_decode s = Ok (fh, k) →
  ∃ s1 m, s = byte1 fh :: s1 ∧ VarU32_decode s1 = Ok (remaining_len fh, m) ∧ k = S m.
Proof.
  unfold FixedHeader_decode. destruct s as [|b s]; [done|].
  change (dec_field u8_codec (b :: s) 0) with (Ok (E := Error) (b, 1%nat)). rewrite bind_Ok_1.
  unfold dec_field. assert (advance (b :: s) 1 = Ok s) as -> by exact (advance_app [b] s 1 eq_refl).
  rewrite bind_Ok_1. intros H. outcome_inv H. outcome_inv Hr. eauto.
Qed.

(** One frame within the size limit, as the wire carries it. *)
Record wire_frame (s : bytes) (fh : FixedHeader) (k max_size : nat) : Prop := {
  wire_header : FixedHeader_decode s = Ok (fh, k);
  wire_length : Z.of_nat k + varu32 (remaining_len fh) = Z.of_nat (length s);
  wire_limit : (length s ≤ max_size)%nat;
}.

(** The buffer after [j] bytes of the frame. *)
Definition filled (s : bytes) (j : nat) : bytes := take j s ++ replicate (length s - j) 0.

Lemma length_filled s j : (j ≤ length s)%nat → length (filled s j) = length s.
Proof. intros. unfold filled. rewrite length_app, length_take, length_replicate. lia. Qed.

Section frame.
Context (s : bytes) (fh : FixedHeader) (k max_size : nat).
Hypothesis Hw : wire_frame s fh k max_size.

(** The bytes of the length, whatever follows them. *)
Lemma start_remain_frame data start tl :
  start_remain (byte1 fh) data start max_size (take (k - 1) (drop 1 s) ++ tl)
  = Ok (MQTTRead.Remain (vec_resize data (length s)) start fh max_size, false).
Proof.
  destruct Hw as [Hh Hl Hm].
  apply FixedHeader_decode_inv in Hh as (s1 & m & -> & Hv & ->).
  destruct (VarU32_decode_prefix _ _ _ Hv) as (_ & _ & _ & E).
  unfold start_remain. cbn [drop]. replace (S m - 1)%nat with m by lia.
  rewrite E, bind_Ok_1. unfold read_packet_limit.
  replace (1 + Z.of_nat m + varu32 (remaining_len fh)) with (Z.of_nat (length (byte1 fh :: s1))) by lia.
  rewrite (proj2 (Z.ltb_ge _ _)) by lia. rewrite bind_Ok_1, Nat2Z.id. by destruct fh.
Qed.

Lemma frame_shape :
  ∃ m s1, s = byte1 fh :: s1 ∧ k = S m ∧ (0 < m ≤ length s1)%nat ∧ (k ≤ 5)%nat ∧
    Exists (λ b, b < 0x80) (take m s1).
Proof.
  destruct Hw as [Hh _ _]. apply FixedHeader_decode_inv in Hh as (s1 & m & -> & Hv & ->).
  apply VarU32_decode_prefix in Hv as (? & ? & ? & _). exists m, s1. repeat split; lia || done.
Qed.

(** In [Remain] each read moves the fill level; the last one completes the frame. *)
Lemma read_remain j chunk rest :
  drop j s = chunk ++ rest → chunk ≠ [] → (j ≤ length s)%nat →
  MQTTRead_read (MQTTRead.Remain (filled s j) j fh max_size) (λ _, ReadOk chunk)
  = Ok (match rest with
        | [] => MQTTRead.Fin s fh max_size
        | _ => MQTTRead.Remain (filled s (j + length chunk)) (j + length chunk) fh max_size
        end, false).
Proof.
  intros Hd Hne Hj. pose proof (length_drop s j) as Hl. rewrite Hd, length_app in Hl.
  cbn [MQTTRead_read]. rewrite length_filled by done. rewrite decide_False by lia.
  destruct chunk as [|b chunk]; [done|]. set (c := b :: chunk) in *.
  assert (take j (filled s j) ++ c ++ drop (j + length c) (filled s j) = filled s (j + length c))
    as ->.
  { unfold filled. rewrite take_app_le by (rewrite length_take; lia).
    rewrite take_take, Nat.min_id, drop_app_ge by (rewrite length_take; lia).
    rewrite length_take, drop_replicate, app_assoc.
    rewrite <- (take_take_drop s j (length c)), Hd, take_app_length.
    f_equal. f_equal. lia. }
  destruct rest as [|b' rest].
  - rewrite (proj2 (Nat.eqb_eq _ _)) by (cbn in *; lia). do 3 f_equal. unfold filled.
    cbn [length] in Hl. rewrite take_ge by lia.
    replace (length s - (j + length c))%nat with 0%nat by lia. by rewrite app_nil_r.
  - cbn [length] in Hl. rewrite (proj2 (Nat.eqb_neq _ _)), (proj2 (Nat.ltb_lt _ _)) by lia. done.
Qed.

Lemma read_chunks_remain chunks : ∀ j,
  drop j s = concat chunks → Forall (λ c, c ≠ []) chunks → (j < length s)%nat →
  read_chunks (MQTTRead.Remain (filled s j) j fh max_size) chunks
  = Ok (MQTTRead.Fin s fh max_size).
Proof.
  induction chunks as [|c cs IH]; intros j Hd Hne Hj.
  - apply (f_equal length) in Hd. rewrite length_drop in Hd. cbn in Hd. lia.
  - apply Forall_cons_1 in Hne as [Hc Hne]. cbn [concat] in Hd. cbn [read_chunks].
    rewrite (read_remain j c (concat cs)) by (done || lia). rewrite bind_Ok_1.
    pose proof (length_drop s j) as Hl. rewrite Hd, length_app in Hl.
    destruct (concat cs) as [|b rest] eqn:E.
    + destruct cs as [|c' cs']; [done|]. exfalso. apply Forall_cons_1 in Hne as [Hc' _].
      cbn in E. by apply app_eq_nil in E as [-> _].
    + rewrite <- E in *. apply IH; [|done|rewrite E in Hl; cbn in Hl; lia].
      by rewrite <- drop_drop, Hd, drop_app_length.
Qed.
End frame.

(** * Lemmas: the first reads *)

Lemma vec_resize_prefix s chunk rest :
  s = chunk ++ rest → vec_resize chunk (length s) = filled s (length chunk).
Proof.
  intros ->. unfold vec_resize, filled. rewrite take_ge by (rewrite length_app; lia).
  by rewrite take_app_length.
Qed.

Lemma vec_resize_cut s extra : vec_resize (s ++ extra) (length s) = s.
Proof.
  unfold vec_resize. rewrite take_app_length, length_app.
  replace (length s - (length s + length extra))%nat with 0%nat by lia. apply app_nil_r.
Qed.

Section first_reads.
Context (s : bytes) (fh : FixedHeader) (k max_size : nat).
Hypothesis Hw : wire_frame s fh k max_size.

(** A first read that holds the whole header. *)
Lemma read_init chunk :
  take k chunk = take k s → (k ≤ length chunk)%nat →
  MQTTRead_read (MQTTRead.Init [] max_size) (λ _, ReadOk chunk)
  = Ok (MQTTRead.Remain (vec_resize chunk (length s)) (length chunk) fh max_size, false).
Proof.
  intros Ht Hk. destruct (frame_shape _ _ _ _ Hw) as (m & s1 & Es & -> & Hm & _ & Hex).
  destruct chunk as [|b chunk]; [cbn in Hk; lia|]. rewrite Es in Ht. cbn [take] in Ht.
  injection Ht as -> Ht. cbn [length] in Hk.
  destruct chunk as [|b' chunk]; [cbn in Hk; lia|]. set (c := b' :: chunk) in *.
  assert (drop 1 (scratch_of (byte1 fh :: c)) = take m s1 ++ (drop m c ++ replicate (5 - length (byte1 fh :: c)) 0)) as Esc.
  { unfold scratch_of. cbn [app drop]. by rewrite app_assoc, <- Ht, take_drop. }
  cbn [MQTTRead_read]. cbv zeta. cbn [app]. fold c. rewrite Esc.
  destruct (skip_while_nonempty (take m s1 ++ drop m c ++ replicate (5 - length (byte1 fh :: c)) 0))
    as (x & l & ->); [apply Exists_app; by left|].
  replace (take m s1) with (take (S m - 1) (drop 1 s))
    by (rewrite Es; cbn [drop]; rewrite drop_0; f_equal; lia).
  by rewrite (start_remain_frame _ _ _ _ Hw).
Qed.

(** One byte first, the rest of the header with the next read. *)
Lemma read_header chunk :
  take (k - 1) chunk = take (k - 1) (drop 1 s) → (k ≤ S (length chunk))%nat →
  MQTTRead_read (MQTTRead.Header (byte1 fh) [byte1 fh] max_size) (λ _, ReadOk chunk)
  = Ok (MQTTRead.Remain (vec_resize (byte1 fh :: chunk) (length s)) (S (length chunk)) fh
          max_size, false).
Proof.
  intros Ht Hk. destruct (frame_shape _ _ _ _ Hw) as (m & s1 & Es & -> & Hm & _ & Hex).
  replace (S m - 1)%nat with m in Ht by lia. rewrite Es in Ht. cbn [drop] in Ht. rewrite drop_0 in Ht.
  destruct chunk as [|b chunk]; [cbn in Hk; lia|]. set (c := b :: chunk) in *.
  assert (take m s1 ++ drop m c = c) as Ec by by rewrite <- Ht, take_drop.
  assert (scratch_of c = take m s1 ++ (drop m c ++ replicate (5 - length c) 0)) as Esc
    by (unfold scratch_of; by rewrite app_assoc, Ec).
  assert (drop 1 ([byte1 fh] ++ c) = take (S m - 1) (drop 1 s) ++ drop m c) as Ed.
  { rewrite Es. cbn [drop app]. rewrite !drop_0.
    replace (S m - 1)%nat with m by lia. by rewrite Ec. }
  cbn [MQTTRead_read]. cbv zeta. fold c. rewrite Esc, Ed.
  destruct (skip_while_nonempty (take m s1 ++ drop m c ++ replicate (5 - length c) 0))
    as (x & l & ->); [apply Exists_app; by left|].
  by rewrite (start_remain_frame _ _ _ _ Hw).
Qed.
End first_reads.

(** * Lemmas: the frame as a packet *)

(** [parse] is [Packet::decode] and a check that nothing is left. *)
Lemma parse_decode s fh k max_size :
  FixedHeader_decode s = Ok (fh, k) →
  MQTTRead_parse (MQTTRead.Fin s fh max_size)
  = ('(pkt, n) ← Packet_decode s;
     if (n =? length s)%nat then Ok pkt else err ErrorKind.MalformedPacket ReasonCode.MalformedPacket).
Proof.
  intros Hh. unfold Packet_decode. rewrite Hh, bind_Ok_1. cbn [MQTTRead_parse].
  destruct (FixedHeader_unwrap fh) as [[[[pt r] q] d]|e| |]; [|done..].
  rewrite !bind_Ok_1. destruct pt; done.
Qed.

(** A frame is framed, in the sense of the packet decoders. *)
Lemma wire_framed s fh k max_size : wire_frame s fh k max_size → framed s.
Proof.
  intros [Hh Hl _] fh' n H. unfold dec_field in H. rewrite advance_0, bind_Ok_1 in H.
  cbn [decode FixedHeader_codec] in H. rewrite Hh, bind_Ok_1 in H. injection H as <- <-. done.
Qed.

(** * Lemmas: writing *)

(** What a state has written so far of its packet. *)
Definition sent (st : MQTTWrite) : bytes :=
  match st with
  | MQTTWrite.Remain data start _ => take start data
  | MQTTWrite.Fin data _ => data
  | _ => []
  end.
Definition packet_of (st : MQTTWrite) : bytes :=
  match st with
  | MQTTWrite.Init data _ | MQTTWrite.Remain data _ _ | MQTTWrite.Fin data _ => data
  | MQTTWrite.None => []
  end.
Definition write_limit (st : MQTTWrite) : nat :=
  match st with
  | MQTTWrite.Init _ m | MQTTWrite.Remain _ _ m | MQTTWrite.Fin _ m => m
  | MQTTWrite.None => 0
  end.
Definition is_Fin (st : MQTTWrite) : bool := match st with MQTTWrite.Fin _ _ => true | _ => false end.

(** A step hands the socket the part of the packet it has not sent. *)
Definition to_send (st : MQTTWrite) : bytes :=
  match st with
  | MQTTWrite.Init data max_size => if (max_size <? length data)%nat then [] else data
  | MQTTWrite.Remain data start _ => drop start data
  | _ => []
  end.

(** The bytes a socket takes when it is handed that part. *)
Definition taken (st : MQTTWrite) (socket : bytes → io_write) : bytes :=
  match socket (to_send st) with WriteOk n => take n (to_send st) | WriteErr _ => [] end.

(** The machine against a socket that answers each write in its own way, as a function
    of the buffer it is handed, with the bytes it took. *)
Fixpoint write_run (st : MQTTWrite) (sockets : list (bytes → io_write))
    : Result (MQTTWrite * bytes) :=
  match sockets with
  | [] => Ok (st, [])
  | a :: sockets =>
      '(st', _) ← MQTTWrite_write st a;
      '(st'', out) ← write_run st' sockets;
      Ok (st'', taken st a ++ out)
  end.

(** A well-formed state: a packet within the limit. *)
Definition write_wf (st : MQTTWrite) : Prop :=
  match st with
  | MQTTWrite.None => False
  | MQTTWrite.Remain data start m => (start ≤ length data ≤ m)%nat
  | st => (length (packet_of st) ≤ write_limit st)%nat
  end.

Lemma write_step st a st' b :
  write_wf st → MQTTWrite_write st a = Ok (st', b) →
  write_wf st' ∧ packet_of st' = packet_of st ∧ write_limit st' = write_limit st ∧
  sent st ++ taken st a = sent st' ∧
  (is_Fin st' = false → ∃ d i m, st' = MQTTWrite.Remain d i m).
Proof.
  destruct st as [|data m|data start m|data m]; cbn [write_wf packet_of write_limit MQTTWrite_write]; intros Hwf H; [done| | |].
  - rewrite (proj2 (Nat.ltb_ge _ _)) in H by lia.
    assert (to_send (MQTTWrite.Init data m) = data) as Et
      by (unfold to_send; by rewrite (proj2 (Nat.ltb_ge _ _)) by lia).
    unfold taken. rewrite Et. destruct (a data) as [[|n]|[]]; try done.
    + destruct (Nat.eqb_spec (S n) (length data)) as [E|E].
      * injection H as <- <-. rewrite take_ge by lia. cbn. by repeat split.
      * destruct (Nat.ltb_spec (S n) (length data)); [|done]. injection H as <- <-.
        cbn. repeat split; [lia..|eauto].
    + injection H as <- <-. cbn. repeat split; [lia..|eauto].
    + injection H as <- <-. cbn. repeat split; [lia..|eauto].
  - rewrite decide_False in H by lia. unfold taken. cbn [to_send sent].
    destruct (a (drop start data)) as [[|n]|[]]; try done.
    + destruct (Nat.eqb_spec (start + S n) (length data)) as [E|E].
      * injection H as <- <-. cbn [sent].
        rewrite (take_ge (drop start data)) by (rewrite length_drop; lia).
        rewrite take_drop. by repeat split; cbn; try lia.
      * destruct (Nat.ltb_spec (start + S n) (length data)); [|done]. injection H as <- <-.
        cbn [sent]. rewrite take_take_drop. repeat split; cbn; [lia..|eauto].
    + injection H as <- <-. cbn [sent]. rewrite app_nil_r. repeat split; cbn; [lia..|eauto].
    + injection H as <- <-. cbn [sent]. rewrite app_nil_r. repeat split; cbn; [lia..|eauto].
  - injection H as <- <-. cbn [sent]. split; [done|]. split; [done|]. split; [done|]. split; [|done].
    unfold taken, to_send. destruct (a []); [rewrite take_nil|]; by rewrite app_nil_r.
Qed.

Lemma write_run_sent sockets : ∀ st st' out,
  write_wf st → write_run st sockets = Ok (st', out) →
  write_wf st' ∧ packet_of st' = packet_of st ∧ sent st ++ out = sent st'.
Proof.
  induction sockets as [|a sockets IH]; intros st st' out Hwf H; cbn in H.
  - injection H as <- <-. by rewrite app_nil_r.
  - apply bind_Ok in H as ([st1 b] & H1 & H). apply bind_Ok in H as ([st2 out'] & H2 & [= <- <-]).
    apply write_step in H1 as (Hwf1 & Hp & _ & Hs & _); [|done].
    apply IH in H2 as (Hwf2 & Hp2 & Hs2); [|done].
    split; [done|]. split; [congruence|]. by rewrite app_assoc, Hs.
Qed.
