(* ===== verification/PacketIOTheorems.v ===== *)
(** The properties of the packet readers and writers of [PacketIO]: what is delivered
    in pieces is put together and parsed, what is written is the packet; and the
    deliveries for which reading fails. *)

From S2P Require Import Prelude Error Util Codec Types V5 V5Facts PropsBlock Frame AckPackets.
From S2P Require Import PublishPacket SubPackets Config ConnectPackets Packets PacketIO.
Local Open Scope Z_scope.

(** * Reading an encoded packet *)

(** The deliveries that work: the whole header with the first read, or with the second
    one after a single byte, and never the last byte of the frame with it. *)
Definition header_arrives (k : nat) (chunks : list bytes) : Prop :=
  (∃ c cs, chunks = c :: cs ∧ cs ≠ [] ∧ (k ≤ length c)%nat) ∨
  (∃ b c cs, chunks = [b] :: c :: cs ∧ cs ≠ [] ∧ (k ≤ S (length c))%nat).

Lemma concat_nonempty {A} (cs : list (list A)) :
  Forall (λ c, c ≠ []) cs → cs ≠ [] → (0 < length (concat cs))%nat.
Proof.
  intros H Hne. destruct H as [|c cs Hc _]; [done|]. cbn. rewrite length_app.
  destruct c; [done|cbn; lia].
Qed.

Lemma read_frame s fh k max_size chunks :
  wire_frame s fh k max_size → concat chunks = s → Forall (λ c, c ≠ []) chunks →
  header_arrives k chunks →
  read_chunks (MQTTRead.Init [] max_size) chunks = Ok (MQTTRead.Fin s fh max_size).
Proof.
  intros Hw Hs Hne [(c & cs & -> & Hcs & Hk)|(b & c & cs & -> & Hcs & Hk)]; cbn [concat] in Hs.
  - apply Forall_cons in Hne as [_ Hne]. pose proof (concat_nonempty cs Hne Hcs).
    cbn [read_chunks]. rewrite (read_init s fh k max_size Hw c), bind_Ok_1; [| |done].
    2: { rewrite <- Hs. by rewrite take_app_le. }
    rewrite (vec_resize_prefix s c (concat cs)) by done.
    apply (read_chunks_remain s fh max_size cs); [|done|].
    + by rewrite <- Hs, drop_app_length.
    + rewrite <- Hs, length_app. lia.
  - do 2 apply Forall_cons in Hne as [_ Hne]. pose proof (concat_nonempty cs Hne Hcs).
    destruct (frame_shape _ _ _ _ Hw) as (m & s1 & Es & Ek & _). rewrite Es in Hs.
    cbn in Hs. injection Hs as -> Hs. cbn [read_chunks].
    change (MQTTRead_read (MQTTRead.Init [] max_size) (λ _, ReadOk [byte1 fh]))
      with (Ok (E := Error) (MQTTRead.Header (byte1 fh) [byte1 fh] max_size, false)).
    rewrite bind_Ok_1, (read_header s fh k max_size Hw c), bind_Ok_1; [| |done].
    2: { rewrite Es. cbn [drop]. rewrite drop_0, <- Hs. rewrite take_app_le by lia. done. }
    rewrite (vec_resize_prefix s (byte1 fh :: c) (concat cs)) by (rewrite Es, <- Hs; done).
    apply (read_chunks_remain s fh max_size cs); [|done|].
    + rewrite Es, <- Hs. cbn [drop length]. by rewrite drop_app_length.
    + rewrite Es, <- Hs. cbn [length]. rewrite length_app. lia.
Qed.

Lemma encoded_wire_frame p b fh k max_size :
  Packet_encode p = Ok b → FixedHeader_decode (as_ref b) = Ok (fh, k) →
  (length (as_ref b) ≤ max_size)%nat → wire_frame (as_ref b) fh k max_size.
Proof.
  intros He Hh Hm. destruct (Packet_encode_written p b He []) as (fh' & n & ? & ? & ? & Hd & _ & Hl).
  rewrite app_nil_r in Hd. rewrite Hd in Hh. injection Hh as -> ->. by split.
Qed.

(** What was encoded is parsed as itself. *)
Lemma parse_encoded p b fh k max_size :
  valid_Packet p → Packet_encode p = Ok b → FixedHeader_decode (as_ref b) = Ok (fh, k) →
  MQTTRead_parse (MQTTRead.Fin (as_ref b) fh max_size) = Ok p.
Proof.
  intros Hv He Hh. rewrite (parse_decode _ _ k) by done. pose proof (Packet_wire p b [] Hv He) as Hd.
  rewrite app_nil_r in Hd. by rewrite Hd, bind_Ok_1, Nat.eqb_refl.
Qed.

(** Parsing a complete frame, whatever its bytes, gives a packet or an error; it
    never panics. *)
Theorem frame_parse_total s fh k max_size :
  is_bytes s → wire_frame s fh k max_size → settled (MQTTRead_parse (MQTTRead.Fin s fh max_size)).
Proof.
  intros Hs Hw. rewrite (parse_decode s fh k) by apply Hw.
  apply settled_bind; [exact (Packet_decode_framed s Hs (wire_framed _ _ _ _ Hw))|].
  intros [pkt n] _. by destruct (n =? length s)%nat.
Qed.

(** * Deliveries that fail *)

(** The contract of [io::Read::read], and one read under it. *)
Definition read_contract (stream : nat → io_read) : Prop :=
  ∀ n c, stream n = ReadOk c → (length c ≤ n)%nat.
Definition reads (st st' : MQTTRead) : Prop :=
  ∃ stream would_block, read_contract stream ∧ MQTTRead_read st stream = Ok (st', would_block).

(** With nothing left to fill, or less than that, the machine does not move. *)
Lemma reads_stuck data start fh max_size st :
  (length data ≤ start)%nat → rtc reads (MQTTRead.Remain data start fh max_size) st →
  st = MQTTRead.Remain data start fh max_size.
Proof.
  intros Hl H. remember (MQTTRead.Remain data start fh max_size) as st0 eqn:E0.
  induction H as [|st0 st1 st2 (stream & w & Hc & H1) _ IH]; [done|]. subst st0.
  assert (st1 = MQTTRead.Remain data start fh max_size) as ->; [|by apply IH].
  cbn [MQTTRead_read] in H1. case_decide; [done|].
  destruct (stream _) as [[|b c]|[]] eqn:Es; try done; [|by injection H1].
  apply Hc in Es. cbn in Es. lia.
Qed.

(** A whole packet of at most five bytes that comes with the first read, or right
    after its first byte, is never delivered: no sequence of reads completes it.  Every
    PINGREQ is one, and every acknowledgement without properties. *)
Theorem short_packet_never_completes s fh k max_size chunk st st1 :
  wire_frame s fh k max_size →
  (∃ extra, chunk = s ++ extra ∧ st = MQTTRead.Init [] max_size) ∨
  (∃ extra, chunk = drop 1 s ++ extra ∧ st = MQTTRead.Header (byte1 fh) [byte1 fh] max_size) →
  MQTTRead_read st (λ _, ReadOk chunk) = Ok (st1, false) →
  ∀ st2, rtc reads st1 st2 → ∀ data fh' m, st2 ≠ MQTTRead.Fin data fh' m.
Proof.
  intros Hw Hst H1 st2 H2 data fh' m.
  destruct (frame_shape _ _ _ _ Hw) as (m' & s1 & Es & Ek & Hm & _).
  assert (∃ d j, st1 = MQTTRead.Remain d j fh max_size ∧ (length d ≤ j)%nat) as (d & j & -> & Hj).
  { destruct Hst as [(extra & -> & ->)|(extra & -> & ->)].
    - rewrite (read_init s fh k max_size Hw) in H1.
      + injection H1 as <-. do 2 eexists. split; [done|].
        rewrite vec_resize_cut, length_app. lia.
      + rewrite take_app_le; [done|]. rewrite Es, Ek. cbn. lia.
      + rewrite length_app, Es, Ek. cbn. lia.
    - rewrite (read_header s fh k max_size Hw) in H1.
      + injection H1 as <-. do 2 eexists. split; [done|]. rewrite Es. cbn [drop].
        rewrite drop_0. change (byte1 fh :: s1 ++ extra) with ((byte1 fh :: s1) ++ extra).
        rewrite vec_resize_cut, length_app. cbn. lia.
      + rewrite take_app_le; [done|]. rewrite Es, Ek. cbn [drop]. rewrite drop_0. cbn. lia.
      + rewrite length_app, Es, Ek. cbn [drop]. rewrite drop_0. lia. }
  by rewrite (reads_stuck _ _ _ _ _ Hj H2).
Qed.

(** The deliveries that do not: all at once, or all that follows the first byte at once. *)
Definition whole_at_once (chunks : list bytes) : Prop :=
  (∃ c, chunks = [c]) ∨ (∃ b c, chunks = [[b]; c]).

Lemma whole_frame_stays s fh k max_size chunks :
  wire_frame s fh k max_size → concat chunks = s → whole_at_once chunks →
  ∃ st1, read_chunks (MQTTRead.Init [] max_size) chunks = Ok st1 ∧
    ∀ st2, rtc reads st1 st2 → ∀ data fh' m, st2 ≠ MQTTRead.Fin data fh' m.
Proof.
  intros Hw Hs Hc. destruct (frame_shape _ _ _ _ Hw) as (m' & s1 & Es & Ek & Hm & _).
  destruct Hc as [(c & ->)|(b & c & ->)]; cbn in Hs; rewrite app_nil_r in Hs.
  - subst c. eexists. split.
    { cbn [read_chunks]. rewrite (read_init s fh k max_size Hw s); [by rewrite bind_Ok_1|done|].
      rewrite Es, Ek. cbn. lia. }
    apply (short_packet_never_completes s fh k max_size s (MQTTRead.Init [] max_size)); [done| |].
    { left. exists []. by rewrite app_nil_r. }
    apply (read_init s fh k max_size Hw s); [done|]. rewrite Es, Ek. cbn. lia.
  - rewrite Es in Hs. injection Hs as -> ->. eassert (MQTTRead_read _ (λ _, ReadOk s1) = _) as Hr.
    { apply (read_header s fh k max_size Hw s1); [by rewrite Es|]. rewrite Ek. lia. }
    eexists. split.
    { cbn [read_chunks].
      change (MQTTRead_read (MQTTRead.Init [] max_size) (λ _, ReadOk [byte1 fh]))
        with (Ok (E := Error) (MQTTRead.Header (byte1 fh) [byte1 fh] max_size, false)).
      by rewrite bind_Ok_1, Hr, bind_Ok_1. }
    eapply (short_packet_never_completes s fh k max_size s1); [done| |exact Hr].
    right. exists []. by rewrite Es, app_nil_r.
Qed.

(** C8: which encoded packets are read.  One that comes in pieces, none of them empty, of
    which the first has the whole fixed header, or is its first byte and the second has the
    rest, and that is not the last of the pieces ([header_arrives]), is read back and parsed as
    itself, however the rest is cut.  One that comes whole with the first read, which takes
    five bytes at most, never is, whatever is read after it; nor is one of which the first read
    takes the first byte and the second all the rest. *)
Theorem encoded_packet_is_read p b max_size fh k chunks :
  valid_Packet p → Packet_encode p = Ok b → FixedHeader_decode (as_ref b) = Ok (fh, k) →
  Z.of_nat (length (as_ref b)) ≤ max_size → concat chunks = as_ref b →
  Forall (λ c, c ≠ []) chunks →
  (header_arrives k chunks →
   ∃ st, read_chunks (MQTTRead_new max_size) chunks = Ok st ∧ MQTTRead_parse st = Ok p) ∧
  (whole_at_once chunks →
   ∃ st1, read_chunks (MQTTRead_new max_size) chunks = Ok st1 ∧
     ∀ st2, rtc reads st1 st2 → ∀ data fh' m, st2 ≠ MQTTRead.Fin data fh' m).
Proof.
  intros Hv He Hh Hm Hc Hne.
  assert (wire_frame (as_ref b) fh k (Z.to_nat max_size)) as Hw
    by (eapply encoded_wire_frame; [done..|lia]).
  split; [|by apply (whole_frame_stays (as_ref b) fh k)].
  intros Ha. eexists. split; [by apply (read_frame (as_ref b) fh k)|].
  by eapply parse_encoded.
Qed.

(** Two packets in the first five bytes: the next read slices the buffer past its
    end, and panics. *)
Theorem coalesced_packets_panic s extra fh k max_size stream :
  wire_frame s fh k max_size → extra ≠ [] →
  ∃ st, MQTTRead_read (MQTTRead.Init [] max_size) (λ _, ReadOk (s ++ extra)) = Ok (st, false) ∧
    MQTTRead_read st stream = Panic.
Proof.
  intros Hw He. destruct (frame_shape _ _ _ _ Hw) as (m & s1 & Es & Ek & Hm & _).
  eexists. split.
  - apply (read_init s fh k max_size Hw).
    + rewrite take_app_le; [done|]. rewrite Es, Ek. cbn. lia.
    + rewrite length_app, Es, Ek. cbn. lia.
  - cbn [MQTTRead_read]. rewrite vec_resize_cut, length_app. rewrite decide_True; [done|].
    destruct extra; [done|]. cbn. lia.
Qed.

(** A remaining length cut between its two bytes is read as the first byte alone,
    padded with the zeros of the scratch buffer: the frame is taken for a shorter
    one. *)
Theorem split_length_is_misread byte1 lo hi max_size :
  0x80 ≤ lo < 256 → 0 < hi < 0x80 → (131 ≤ max_size)%nat →
  VarU32_decode [lo; hi] = Ok (mkVarU32 (lo - 0x80 + 0x80 * hi), 2%nat) ∧
  ∃ data, MQTTRead_read (MQTTRead.Init [] max_size) (λ _, ReadOk [byte1; lo])
    = Ok (MQTTRead.Remain data 2 (mkFixedHeader byte1 (mkVarU32 (lo - 0x80))) max_size, false).
Proof.
  intros Hlo Hhi Hm. assert (is_u8 lo ∧ is_u8 hi ∧ is_u8 0) as (H1 & H2 & H3) by (unfold is_u8; lia).
  assert (∀ x tl, is_u8 x → x < 128 → VarU32_decode (lo :: x :: tl) = Ok (mkVarU32 (lo - 128 + 128 * x), 2%nat))
    as Hdec.
  { intros x tl Hx Hlt. apply (VarU32_decode_app [lo; x]); [cbn; lia|].
    intros tl'. cbn [app length]. rewrite !varu32_loop_cons by done. rewrite (proj2 (Z.ltb_ge lo 128)) by lia.
    rewrite (proj2 (Z.ltb_lt x 128)) by lia. do 3 f_equal. lia. }
  split; [apply Hdec; [done|lia]|].
  eexists. cbn [MQTTRead_read]. unfold scratch_of. cbn [length Nat.sub replicate app drop].
  assert (∃ b l, skip_while (λ b, 0x80 <? b) [lo; 0; 0; 0] = b :: l) as (b & l & ->).
  { apply skip_while_nonempty. right. by left. }
  cbv zeta. unfold start_remain. rewrite Hdec, bind_Ok_1 by (done || lia). cbn [varu32].
  unfold read_packet_limit. rewrite (proj2 (Z.ltb_ge _ _)) by lia. rewrite bind_Ok_1.
  do 3 f_equal. by rewrite Z.add_0_r.
Qed.

(** A frame over the limit is refused as soon as its header is there. *)
Lemma read_over_limit s fh k max_size chunk :
  FixedHeader_decode s = Ok (fh, k) → (2 ≤ length chunk)%nat →
  take k chunk = take k s → (k ≤ length chunk)%nat →
  Z.of_nat max_size < Z.of_nat k + varu32 (remaining_len fh) →
  MQTTRead_read (MQTTRead.Init [] max_size) (λ _, ReadOk chunk)
  = err ErrorKind.MalformedPacket ReasonCode.PacketTooLarge.
Proof.
  intros Hh H2 Ht Hk Hmax. apply FixedHeader_decode_inv in Hh as (s1 & m & -> & Hv & ->).
  apply VarU32_decode_prefix in Hv as (_ & _ & Hex & E).
  destruct chunk as [|b [|b' c]]; [cbn in H2; lia..|]. cbn [take] in Ht. injection Ht as -> Ht.
  set (tl := replicate (5 - length (byte1 fh :: b' :: c)) 0).
  assert (drop 1 (scratch_of (byte1 fh :: b' :: c)) = take m s1 ++ (drop m (b' :: c) ++ tl)) as Esc.
  { unfold scratch_of. fold tl. rewrite app_assoc, <- Ht, take_drop. by cbn [app drop]. }
  cbn [MQTTRead_read]. cbv zeta. rewrite Esc.
  destruct (skip_while_nonempty (take m s1 ++ drop m (b' :: c) ++ tl)) as (x & l & ->);
    [apply Exists_app; by left|].
  unfold start_remain. rewrite E, bind_Ok_1. unfold read_packet_limit.
  by rewrite (proj2 (Z.ltb_lt _ _)) by lia.
Qed.

(** A configuration that leaves the packet size out gets the flush timeout as its
    limit, ten bytes: the header of every longer packet is answered with
    packet-too-large. *)
Theorem default_limit_refuses_packets cfg max_size s fh k chunk :
  Config.mqtt_max_packet_size cfg = None → Config_mqtt_max_packet_size cfg = Ok max_size →
  FixedHeader_decode s = Ok (fh, k) → (2 ≤ length chunk)%nat →
  take k chunk = take k s → (k ≤ length chunk)%nat →
  10 < Z.of_nat k + varu32 (remaining_len fh) →
  MQTTRead_read (MQTTRead_new max_size) (λ _, ReadOk chunk)
  = err ErrorKind.MalformedPacket ReasonCode.PacketTooLarge.
Proof.
  intros Hc. unfold Config_mqtt_max_packet_size. rewrite Hc. intros [= <-] Hh H2 Ht Hk Hl.
  by apply (read_over_limit s fh k).
Qed.

(** A CONNECT without a will, as the encoder writes it, is refused by the reader: the
    encoder adds the length of will properties that the decoder does not expect, and
    a byte is left over. *)
Theorem connect_without_will_is_refused c b fh k max_size :
  plain_Connect c →
  ConnectPayload.user_name (Connect.payload c) = None →
  ConnectPayload.password (Connect.payload c) = None →
  is_username (Connect.flags c) = false → is_password (Connect.flags c) = false →
  Packet_encode (Packet.Connect c) = Ok b → FixedHeader_decode (as_ref b) = Ok (fh, k) →
  MQTTRead_parse (MQTTRead.Fin (as_ref b) fh max_size)
  = err ErrorKind.MalformedPacket ReasonCode.MalformedPacket.
Proof.
  intros Hp Hu Hw Hu1 Hw1 He Hh. rewrite (parse_decode _ _ k) by done.
  pose proof (Packet_encode_starts _ b [] He) as Hst. rewrite app_nil_r in Hst.
  rewrite (Packet_decode_starts _ _ Hst). cbn [written_type to_packet_type].
  pose proof (plain_Connect_decode c b [] Hp Hu Hw Hu1 Hw1 He) as Hd. rewrite app_nil_r in Hd.
  rewrite Hd, !bind_Ok_1. destruct (as_ref b) as [|x l]; [done|].
  by rewrite (proj2 (Nat.eqb_neq _ _)) by (cbn; lia).
Qed.

(** * Writing *)

(** C16: however the socket answers each buffer, what it has taken of a packet is a prefix of it, and
    all of it once the writer is in [Fin]; a packet over the size limit is dropped:
    [Fin] is reached and nothing is taken. *)
Theorem written_is_prefix data max_size sockets st out :
  write_run (MQTTWrite_new data max_size) sockets = Ok (st, out) →
  if (Z.to_nat max_size <? length data)%nat then out = []
  else ∃ rest, data = out ++ rest ∧ (is_Fin st = true → rest = []).
Proof.
  intros H. destruct (Nat.ltb_spec (Z.to_nat max_size) (length data)) as [Hl|Hl].
  - destruct sockets as [|a sockets]; cbn [write_run] in H; [by injection H as _ <-|].
    assert (MQTTWrite_write (MQTTWrite_new data max_size) a
            = Ok (MQTTWrite.Fin data (Z.to_nat max_size), false)) as E.
    { cbn [MQTTWrite_new MQTTWrite_write]. by rewrite (proj2 (Nat.ltb_lt _ _)). }
    rewrite E, bind_Ok_1 in H.
    apply bind_Ok in H as ([st2 out2] & H & [= <- <-]).
    assert (out2 = []) as ->.
    { clear E. revert st2 out2 H. induction sockets as [|a' sockets IH]; intros st2 out2 H.
      - by injection H as _ <-.
      - cbn in H. apply bind_Ok in H as ([st3 out3] & H & [= <- <-]). apply IH in H as ->.
        unfold taken, to_send. destruct (a' []); [by rewrite take_nil|done]. }
    rewrite app_nil_r. unfold taken, to_send, MQTTWrite_new. rewrite (proj2 (Nat.ltb_lt _ _)) by done.
    destruct (a []); [by rewrite take_nil|done].
  - unfold MQTTWrite_new in H. apply write_run_sent in H as (Hwf & Hp & Hs); [|done]. cbn [sent packet_of app] in Hp, Hs.
    destruct st as [|d m|d i m|d m]; cbn [packet_of sent] in Hp, Hs; subst.
    + done.
    + eexists. split; [reflexivity|]. discriminate.
    + eexists. split; [symmetry; apply take_drop|]. discriminate.
    + eexists. split; [symmetry; apply app_nil_r|done].
Qed.

(** A socket that takes at least a byte of what it is given, [S c] bytes at most. *)
Definition takes (c : nat) : bytes → io_write := λ buf, WriteOk (Nat.min (S c) (length buf)).

Fixpoint write_caps (st : MQTTWrite) (caps : list nat) : Result MQTTWrite :=
  match caps with
  | [] => Ok st
  | c :: caps => '(st, _) ← MQTTWrite_write st (takes c); write_caps st caps
  end.

Lemma write_caps_fin data m caps :
  write_caps (MQTTWrite.Fin data m) caps = Ok (MQTTWrite.Fin data m).
Proof. induction caps as [|c caps IH]; cbn; [done|exact IH]. Qed.

Lemma write_caps_remain data m caps : ∀ start,
  (start < length data)%nat → (length data - start ≤ length caps)%nat →
  write_caps (MQTTWrite.Remain data start m) caps = Ok (MQTTWrite.Fin data m).
Proof.
  induction caps as [|c caps IH]; intros start Hs Hc; cbn [length] in Hc; [lia|].
  cbn [write_caps MQTTWrite_write]. rewrite decide_False by lia. unfold takes at 1.
  rewrite length_drop. destruct (Nat.min (S c) (length data - start)) as [|n] eqn:En; [lia|].
  destruct (Nat.eqb_spec (start + S n) (length data)).
  - rewrite bind_Ok_1. apply write_caps_fin.
  - rewrite (proj2 (Nat.ltb_lt _ _)), bind_Ok_1 by lia. apply IH; lia.
Qed.

(** A socket that takes at least one byte each time gets the whole packet: the writer
    reaches [Fin] within as many writes as the packet has bytes. *)
Theorem write_completes data max_size caps :
  data ≠ [] → Z.of_nat (length data) ≤ max_size → (length data ≤ length caps)%nat →
  write_caps (MQTTWrite_new data max_size) caps = Ok (MQTTWrite.Fin data (Z.to_nat max_size)).
Proof.
  intros Hd Hm Hc. destruct caps as [|c caps]; [destruct data; [done|cbn in Hc; lia]|].
  cbn [write_caps MQTTWrite_new MQTTWrite_write]. rewrite (proj2 (Nat.ltb_ge _ _)) by lia.
  unfold takes at 1. cbn [length] in Hc.
  destruct (Nat.min (S c) (length data)) as [|n] eqn:En; [destruct data; [done|cbn in En; lia]|].
  destruct (Nat.eqb_spec (S n) (length data)).
  - rewrite bind_Ok_1. apply write_caps_fin.
  - rewrite (proj2 (Nat.ltb_lt _ _)), bind_Ok_1 by lia. apply write_caps_remain; lia.
Qed.

(** [send_disconnect] answers [Ok] after the first write that takes anything, however
    little of the packet it took, and gives up on the first write that blocks, unless
    the time limit is already over. *)
Theorem send_disconnect_first_write code timeout max_size n now rounds b :
  Disconnect_encode (Disconnect_new code None) = Ok b →
  Z.of_nat (length (as_ref b)) ≤ max_size → (0 < n < length (as_ref b))%nat → now ≤ timeout →
  send_disconnect code timeout max_size ((λ _, WriteOk n, now) :: rounds) = Ok () ∧
  send_disconnect code timeout max_size ((λ _, WriteErr WouldBlock, now) :: rounds)
  = err_desc ErrorKind.Disconnected.
Proof.
  intros He Hm Hn Ht. unfold send_disconnect. cbv zeta. rewrite He. cbn [unwrap].
  rewrite !bind_Ok_1. cbn [send_loop MQTTWrite_new MQTTWrite_write].
  rewrite (proj2 (Nat.ltb_ge _ _)) by lia. split.
  - destruct n as [|n]; [lia|]. rewrite (proj2 (Nat.eqb_neq _ _)) by lia.
    by rewrite (proj2 (Nat.ltb_lt _ _)) by lia.
  - rewrite bind_Ok_1. cbn [andb]. by rewrite (proj2 (Z.ltb_ge _ _)) by lia.
Qed.

(** * Examples

    The DISCONNECT packet a server sends: four bytes. *)

Definition ex_disconnect : Packet :=
  Packet.Disconnect (Disconnect_new DisconnReasonCode.ServerBusy None).
Definition ex_wire : bytes := [0xE0; 2; 0x89; 0].
Definition ex_header : FixedHeader := mkFixedHeader 0xE0 (mkVarU32 2).

Lemma ex_wire_frame : wire_frame ex_wire ex_header 2 100.
Proof. split; [reflexivity|reflexivity|cbn; lia]. Qed.

Lemma encoded_packet_is_read_witness :
  ∃ st, read_chunks (MQTTRead_new 100) [[0xE0; 2]; [0x89]; [0]] = Ok st ∧
    MQTTRead_parse st = Ok ex_disconnect.
Proof.
  eapply (encoded_packet_is_read ex_disconnect (Large ex_wire) 100 ex_header 2);
    [intros x; discriminate|vm_compute; reflexivity|vm_compute; reflexivity|vm_compute; discriminate
    |reflexivity|by repeat constructor|].
  left. do 2 eexists. split; [reflexivity|]. split; [done|cbn; lia].
Defined.

Lemma frame_parse_total_witness :
  settled (MQTTRead_parse (MQTTRead.Fin ex_wire ex_header 100)).
Proof.
  apply (frame_parse_total ex_wire ex_header 2 100); [|exact ex_wire_frame].
  repeat constructor; unfold is_u8; lia.
Defined.

Lemma short_packet_never_completes_witness :
  MQTTRead_read (MQTTRead.Init [] 100) (λ _, ReadOk ex_wire)
  = Ok (MQTTRead.Remain ex_wire 4 ex_header 100, false) ∧
  ∀ st2, rtc reads (MQTTRead.Remain ex_wire 4 ex_header 100) st2 →
  ∀ data fh m, st2 ≠ MQTTRead.Fin data fh m.
Proof.
  split; [reflexivity|].
  apply (short_packet_never_completes ex_wire ex_header 2 100 ex_wire (MQTTRead.Init [] 100) _
           ex_wire_frame); [left; by exists []|reflexivity].
Defined.

Lemma coalesced_packets_panic_witness :
  ∃ st, MQTTRead_read (MQTTRead.Init [] 100) (λ _, ReadOk (ex_wire ++ [0xC0])) = Ok (st, false) ∧
    MQTTRead_read st (λ _, ReadOk [0]) = Panic.
Proof. by apply (coalesced_packets_panic _ _ _ _ _ _ ex_wire_frame). Defined.

Lemma split_length_is_misread_witness :
  VarU32_decode [0x90; 1] = Ok (mkVarU32 (0x90 - 0x80 + 0x80 * 1), 2%nat) ∧
  ∃ data, MQTTRead_read (MQTTRead.Init [] 200) (λ _, ReadOk [0x30; 0x90])
    = Ok (MQTTRead.Remain data 2 (mkFixedHeader 0x30 (mkVarU32 (0x90 - 0x80))) 200, false).
Proof. apply (split_length_is_misread 0x30 0x90 1 200); lia. Defined.

Lemma written_is_prefix_witness :
  ∃ rest, ex_wire = [0xE0; 2; 0x89] ++ rest ∧
    (is_Fin (MQTTWrite.Remain ex_wire 3 100) = true → rest = []).
Proof.
  exact (written_is_prefix ex_wire 100 [λ _, WriteOk 2; λ _, WriteErr WouldBlock; λ _, WriteOk 1]
           (MQTTWrite.Remain ex_wire 3 100) [0xE0; 2; 0x89] eq_refl).
Defined.

Lemma write_completes_witness :
  write_caps (MQTTWrite_new ex_wire 100) [0; 1; 0; 0]%nat = Ok (MQTTWrite.Fin ex_wire 100).
Proof. apply (write_completes ex_wire 100 [0; 1; 0; 0]%nat); [done|cbn; lia|cbn; lia]. Defined.

Lemma send_disconnect_first_write_witness :
  send_disconnect DisconnReasonCode.ServerBusy 50 100 [(λ _, WriteOk 1, 10)] = Ok () ∧
  send_disconnect DisconnReasonCode.ServerBusy 50 100 [(λ _, WriteErr WouldBlock, 10)]
  = err_desc ErrorKind.Disconnected.
Proof.
  apply (send_disconnect_first_write DisconnReasonCode.ServerBusy 50 100 1 10 [] (Large ex_wire));
    [vm_compute; reflexivity|vm_compute; discriminate|vm_compute; lia|lia].
Defined.

Definition ex_config : Config :=
  Config.mk [0x6d] None None None None None None None None None None None None None None None None None.
Definition ex_publish_wire : bytes := [0x30; 10; 0; 1; 0x61; 0; 1; 2; 3; 4; 5; 6].

Lemma default_limit_refuses_packets_witness :
  MQTTRead_read (MQTTRead_new 10) (λ _, ReadOk [0x30; 10; 0])
  = err ErrorKind.MalformedPacket ReasonCode.PacketTooLarge.
Proof.
  apply (default_limit_refuses_packets ex_config 10 ex_publish_wire
           (mkFixedHeader 0x30 (mkVarU32 10)) 2 [0x30; 10; 0]);
    [reflexivity|reflexivity|reflexivity|cbn; lia|reflexivity|cbn; lia|cbn; lia].
Defined.

Definition ex_plain_connect : Connect :=
  Connect.mk MQTT MqttProtocol.V5 (mkConnectFlags 2) 60 None
    (ConnectPayload.mk (mkClientID [0x63]) None None None None None).

Lemma connect_without_will_is_refused_witness :
  ∃ b fh k, Packet_encode (Packet.Connect ex_plain_connect) = Ok b ∧
    FixedHeader_decode (as_ref b) = Ok (fh, k) ∧
    MQTTRead_parse (MQTTRead.Fin (as_ref b) fh 100)
    = err ErrorKind.MalformedPacket ReasonCode.MalformedPacket.
Proof.
  do 3 eexists. split; [vm_compute; reflexivity|]. split; [vm_compute; reflexivity|].
  eapply (connect_without_will_is_refused ex_plain_connect);
    [|reflexivity|reflexivity|reflexivity|reflexivity|vm_compute; reflexivity
    |vm_compute; reflexivity].
  split; [|done]. split; [unfold is_u8; cbn; lia|]. split; [unfold is_u16; cbn; lia|].
  split; [discriminate|]. split; [repeat constructor; unfold is_u8; lia|reflexivity].
Defined.
