(* ===== verification/Ttrie.v ===== *)
(** Model of [src/ttrie.rs]: the trie of subscriptions, matched by topic names, and
    the trie of retained messages, matched by topic filters.

    The nodes are those of the code, children sorted by name and found by binary
    search; the recursion follows the levels of the key.  The specification is the
    list of values at a path ([values_at]) and the relation between the levels of a
    key and the levels of a path ([path_match]): subscribing, unsubscribing, setting
    and removing are updates of the first at one path, and matching collects it over
    the second.  A trie is a shared cell that every operation reads, and writes
    back whole; the last part is about two operations that interleave. *)

From S2P Require Import Prelude Error Util Codec Types V5 PublishPacket SubPackets Packets.

(** * Vectors *)

Section vec.
Context {A : Type}.

(** [Vec::remove] and [Vec::insert], which panic past the end. *)
Definition vec_remove (l : list A) (off : nat) : Result (A * list A) :=
  match l !! off with
  | Some x => Ok (x, take off l ++ drop (S off) l)
  | None => Panic
  end.
Definition vec_insert (l : list A) (off : nat) (x : A) : Result (list A) :=
  if decide (off ≤ length l) then Ok (take off l ++ x :: drop off l) else Panic.

(** [slice::binary_search_by]: the offset of an element that compares equal
    ([inl], Rust's [Ok]), or the offset where it would go ([inr], [Err]). *)
Fixpoint bsearch (f : A → Result comparison) (l : list A) (fuel left right : nat)
    : Result (nat + nat) :=
  if left <? right then
    match fuel with
    | O => Diverge
    | S fuel =>
        let mid := left + (right - left) / 2 in
        match l !! mid with
        | Some x =>
            c ← f x;
            match c with
            | Lt => bsearch f l fuel (S mid) right
            | Gt => bsearch f l fuel left mid
            | Eq => Ok (inl mid)
            end
        | None => Panic
        end
    end
  else Ok (inr left).
Definition binary_search_by (f : A → Result comparison) (l : list A) : Result (nat + nat) :=
  bsearch f l (length l) 0 (length l).
End vec.

(** * Nodes *)

(** src/ttrie.rs:239-248 [Node] *)
Module Node.
Inductive Node (V : Type) :=
| Root (children : list (Node V))
| Child (name : bytes) (children : list (Node V)) (values : list V).
Arguments Root {V} children.
Arguments Child {V} name children values.
End Node.
Abbreviation Node := Node.Node.

Section node.
(** The value type with its [Ord] and its [PartialEq]. *)
Context {V : Type} (cmp : V → V → comparison) (eqb : V → V → bool).

(** src/ttrie.rs:251-257 [Node::new_node] *)
Definition new_node (name : bytes) : Node V := Node.Child name [] [].

(** src/ttrie.rs:273-278 [Node::as_name] *)
Definition as_name (self : Node V) : Result bytes :=
  match self with Node.Child name _ _ => Ok name | Node.Root _ => Panic end.

(** src/ttrie.rs:280-287 [Node::is_empty] *)
Definition is_empty (self : Node V) : bool :=
  match self with
  | Node.Child _ children values => (length children =? 0) && (length values =? 0)
  | Node.Root _ => false
  end.

(** The children of a node, and the node with other children. *)
(** src/ttrie.rs:377-380 [Node::sub] *)
Definition children_of (self : Node V) : list (Node V) :=
  match self with Node.Root children => children | Node.Child _ children _ => children end.
Definition with_children (self : Node V) (children : list (Node V)) : Node V :=
  match self with
  | Node.Root _ => Node.Root children
  | Node.Child name _ values => Node.Child name children values
  end.

(** [children.binary_search_by_key(&in_level, |n| n.as_name())] *)
(** src/ttrie.rs:381-381 [Node::sub] *)
Definition search_child (in_level : bytes) (children : list (Node V)) : Result (nat + nat) :=
  binary_search_by (λ n, name ← as_name n; Ok (str_cmp name in_level)) children.

(** (first, repeat) *)
(** src/ttrie.rs:291-309 [Node::insert_value] *)
Definition insert_value (self : Node V) (value : V) : Result (Node V * (bool * bool)) :=
  match self with
  | Node.Child name children [] => Ok (Node.Child name children [value], (true, false))
  | Node.Child name children values =>
      r ← binary_search_by (λ v, Ok (cmp v value)) values;
      match r with
      | inr off =>
          values ← vec_insert values off value;
          Ok (Node.Child name children values, (false, false))
      | inl _off => Ok (self, (false, true))
      end
  | Node.Root _ => Panic
  end.

(** src/ttrie.rs:313-325 [Node::replace_value] *)
Definition replace_value (self : Node V) (value : V) : Result (Node V * bool) :=
  match self with
  | Node.Child name children [] => Ok (Node.Child name children [value], true)
  | Node.Child name children _ => Ok (Node.Child name children [value], false)
  | Node.Root _ => Panic
  end.

(** (last, missing).  A single value is compared with [==], several are searched
    by the order. *)
(** src/ttrie.rs:329-353 [Node::remove_value] *)
Definition remove_value (self : Node V) (value : V) : Result (Node V * (bool * bool)) :=
  match self with
  | Node.Child _ _ [] => Panic
  | Node.Child name children [v] =>
      if eqb v value then Ok (Node.Child name children [], (true, false))
      else Ok (self, (false, true))
  | Node.Child name children values =>
      r ← binary_search_by (λ v, Ok (cmp v value)) values;
      match r with
      | inl off =>
          '(_, values) ← vec_remove values off;
          Ok (Node.Child name children values, (false, false))
      | inr _off => Ok (self, (false, true))
      end
  | Node.Root _ => Panic
  end.

(** src/ttrie.rs:356-365 [Node::remove_topic] *)
Definition remove_topic (self : Node V) : Result (Node V * bool) :=
  match self with
  | Node.Child name children [_] => Ok (Node.Child name children [], false)
  | Node.Child _ _ _ => Panic
  | Node.Root _ => Panic
  end.

(** The descent [sub] and [set] share: into the child of that name, a new one if
    there is none, which goes back to its place. *)
(** src/ttrie.rs:376-394 [Node::sub] *)
Definition descend_new {R} (self : Node V) (in_level : bytes)
    (go : Node V → Result (Node V * R)) : Result (Node V * R) :=
  let children := children_of self in
  r ← search_child in_level children;
  '(child, children, off) ←
    match r with
    | inl off => '(child, children) ← vec_remove children off; Ok (child, children, off)
    | inr off => Ok (new_node in_level, children, off)
    end;
  '(child, res) ← go child;
  children ← vec_insert children off child;
  Ok (with_children self children, res).

(** The descent [unsub] and [remove] share: an emptied child is left out, and the
    node itself too when nothing is left of it. *)
(** src/ttrie.rs:411-431 [Node::unsub] *)
Definition descend_old {R} (self : Node V) (in_level : bytes) (miss : R)
    (go : Node V → Result (option (Node V) * R)) : Result (option (Node V) * R) :=
  let is_root := match self with Node.Root _ => true | _ => false end in
  let children := children_of self in
  r ← search_child in_level children;
  match r with
  | inl off =>
      '(child, children) ← vec_remove children off;
      '(child, res) ← go child;
      match child with
      | Some child =>
          children ← vec_insert children off child;
          Ok (Some (with_children self children), res)
      | None =>
          let cow_node := with_children self children in
          if is_root then Ok (Some cow_node, res)
          else if is_empty cow_node then Ok (None, res)
          else Ok (Some cow_node, res)
      end
  | inr _off => Ok (Some self, miss)
  end.

(** src/ttrie.rs:368-400 [Node::sub] *)
Fixpoint node_sub (in_levels : list bytes) (self : Node V) (value : V)
    : Result (Node V * (bool * bool)) :=
  match in_levels with
  | in_level :: in_levels =>
      descend_new self in_level (λ child, node_sub in_levels child value)
  | [] => insert_value self value
  end.

(** src/ttrie.rs:403-437 [Node::unsub] *)
Fixpoint node_unsub (in_levels : list bytes) (self : Node V) (val : V)
    : Result (option (Node V) * (bool * bool)) :=
  match in_levels with
  | in_level :: in_levels =>
      descend_old self in_level (false, true) (λ child, node_unsub in_levels child val)
  | [] =>
      '(cow_node, res) ← remove_value self val;
      if is_empty cow_node then Ok (None, res) else Ok (Some cow_node, res)
  end.

(** src/ttrie.rs:440-472 [Node::set] *)
Fixpoint node_set (in_levels : list bytes) (self : Node V) (value : V)
    : Result (Node V * bool) :=
  match in_levels with
  | in_level :: in_levels =>
      descend_new self in_level (λ child, node_set in_levels child value)
  | [] => replace_value self value
  end.

(** src/ttrie.rs:475-509 [Node::remove] *)
Fixpoint node_remove (in_levels : list bytes) (self : Node V)
    : Result (option (Node V) * bool) :=
  match in_levels with
  | in_level :: in_levels => descend_old self in_level true (λ child, node_remove in_levels child)
  | [] =>
      '(cow_node, missing) ← remove_topic self;
      if is_empty cow_node then Ok (None, missing) else Ok (Some cow_node, missing)
  end.
End node.

(** (level_match, multi_level_match) *)
(** src/ttrie.rs:563-572 [match_level] *)
Definition match_level (in_lvl trie_level : bytes) : bool * bool :=
  if bool_decide (in_lvl = HASH) then (true, true)
  else if bool_decide (trie_level = HASH) then (true, true)
  else if bool_decide (in_lvl = PLUS) then (true, false)
  else if bool_decide (trie_level = PLUS) then (true, false)
  else if bool_decide (in_lvl = trie_level) then (true, false)
  else (false, false).

Section match_topic.
Context {V : Type}.

(** [children.iter().filter(|child| !matches!(child.as_name(), "#" | "+"))] *)
(** src/ttrie.rs:535-535 [Node::match_topic] *)
Fixpoint filter_wildcards (children : list (Node V)) : Result (list (Node V)) :=
  match children with
  | [] => Ok []
  | child :: children =>
      name ← as_name child;
      rest ← filter_wildcards children;
      if bool_decide (name = HASH ∨ name = PLUS) then Ok rest else Ok (child :: rest)
  end.

(** The loop over the children, given what the recursive call answers. *)
(** src/ttrie.rs:541-555 [Node::match_topic] *)
Fixpoint match_children (in_level : bytes) (go : Node V → Result (option (list V)))
    (children : list (Node V)) (acc : list V) : Result (list V) :=
  match children with
  | [] => Ok acc
  | child :: children =>
      name ← as_name child;
      acc ←
        match match_level in_level name with
        | (_, true) =>
            match child with
            | Node.Child _ _ values => Ok (acc ++ values)
            | Node.Root _ => Ok acc
            end
        | (true, _) =>
            r ← go child;
            match r with
            | Some values => Ok (acc ++ values)
            | None => Ok acc
            end
        | (false, false) => Ok acc
        end;
      match_children in_level go children acc
  end.

(** src/ttrie.rs:511-558 [Node::match_topic] *)
Fixpoint match_topic (in_levels : list bytes) (self : Node V) (dollar : bool)
    : Result (option (list V)) :=
  match in_levels with
  | [] =>
      match self with
      | Node.Child _ _ values => Ok (Some values)
      | Node.Root _ => Ok None
      end
  | in_level :: in_levels =>
      children ←
        match self with
        | Node.Root children => if dollar then filter_wildcards children else Ok children
        | Node.Child _ children _ => Ok children
        end;
      acc ← match_children in_level (λ child, match_topic in_levels child dollar) children [];
      Ok (Some acc)
  end.
End match_topic.

(** * The tries *)

(** src/ttrie.rs:582-594 [Stats] *)
Module Stats.
Record Stats := mk { count : Z; repeat : Z; missing : Z; lookups : Z; hits : Z }.
End Stats.
Abbreviation Stats := Stats.Stats.

(** src/ttrie.rs:582-582 [Stats::default] *)
Definition Stats_default : Stats := Stats.mk 0 0 0 0 0.

(** [saturating_add(1)] and [saturating_sub(1)] of a 64-bit [usize]. *)
Definition sat_inc (n : Z) : Z := Z.min (n + 1) (2 ^ 64 - 1).
Definition sat_dec (n : Z) : Z := Z.max (n - 1) 0.

(** src/ttrie.rs:12-15 [Inner] *)
Module Inner.
Record Inner (V : Type) := mk { stats : Stats; root : Node V }.
Arguments mk {V} stats root.
Arguments stats {V} i.
Arguments root {V} i.
End Inner.
Abbreviation Inner := Inner.Inner.

(** src/ttrie.rs:18-24 [SubscribedTrie::default] *)
Definition SubscribedTrie_default : Inner Subscription :=
  Inner.mk Stats_default (Node.Root []).

(** src/ttrie.rs:134-140 [RetainedTrie::default] *)
Definition RetainedTrie_default : Inner Publish := Inner.mk Stats_default (Node.Root []).

(** What an operation computes from the snapshot it read; what it puts into the
    cell is the new [Inner]. *)
(** src/ttrie.rs:77-98 [SubscribedTrie::do_subscribe] *)
Definition SubscribedTrie_subscribe (self : Inner Subscription) (in_levels : list bytes)
    (value : Subscription) : Result (Inner Subscription) :=
  let stats := Inner.stats self in
  '(root, (first, repeat)) ← node_sub Subscription_cmp in_levels (Inner.root self) value;
  let count := if first : bool then sat_inc (Stats.count stats) else Stats.count stats in
  let repeat := if repeat : bool then sat_inc (Stats.repeat stats) else Stats.repeat stats in
  Ok (Inner.mk (Stats.mk count repeat (Stats.missing stats) (Stats.lookups stats)
                  (Stats.hits stats)) root).

(** src/ttrie.rs:100-123 [SubscribedTrie::do_unsubscribe] *)
Definition SubscribedTrie_unsubscribe (self : Inner Subscription) (in_levels : list bytes)
    (value : Subscription) : Result (Inner Subscription) :=
  let stats := Inner.stats self in
  '(root, (last, missing)) ←
    node_unsub Subscription_cmp Subscription_eqb in_levels (Inner.root self) value;
  root ← match root with Some root => Ok root | None => Panic end;
  let count := if last : bool then sat_dec (Stats.count stats) else Stats.count stats in
  let missing := if missing : bool then sat_dec (Stats.missing stats) else Stats.missing stats in
  Ok (Inner.mk (Stats.mk count (Stats.repeat stats) missing (Stats.lookups stats)
                  (Stats.hits stats)) root).

(** src/ttrie.rs:48-73 [SubscribedTrie::match_topic_name] *)
Definition SubscribedTrie_match_topic_name (self : Inner Subscription) (in_levels : list bytes)
    : Result (Inner Subscription * list Subscription) :=
  let stats := Inner.stats self in
  let lookups := sat_inc (Stats.lookups stats) in
  r ← match_topic in_levels (Inner.root self) true;
  let '(hits, matches) :=
    match r with
    | Some vals => (sat_inc (Stats.hits stats), vals)
    | None => (Stats.hits stats, [])
    end in
  Ok (Inner.mk (Stats.mk (Stats.count stats) (Stats.repeat stats) (Stats.missing stats)
                  lookups hits) (Inner.root self), matches).

(** src/ttrie.rs:194-212 [RetainedTrie::do_set] *)
Definition RetainedTrie_set (self : Inner Publish) (in_levels : list bytes) (value : Publish)
    : Result (Inner Publish) :=
  let stats := Inner.stats self in
  '(root, first) ← node_set in_levels (Inner.root self) value;
  let count := if first : bool then sat_inc (Stats.count stats) else Stats.count stats in
  Ok (Inner.mk (Stats.mk count (Stats.repeat stats) (Stats.missing stats) (Stats.lookups stats)
                  (Stats.hits stats)) root).

(** src/ttrie.rs:214-236 [RetainedTrie::do_remove] *)
Definition RetainedTrie_remove (self : Inner Publish) (in_levels : list bytes)
    : Result (Inner Publish) :=
  let stats := Inner.stats self in
  '(root, missing) ← node_remove in_levels (Inner.root self);
  root ← match root with Some root => Ok root | None => Panic end;
  let '(count, missing) :=
    if missing : bool then (Stats.count stats, sat_dec (Stats.missing stats))
    else (sat_dec (Stats.count stats), Stats.missing stats) in
  Ok (Inner.mk (Stats.mk count (Stats.repeat stats) missing (Stats.lookups stats)
                  (Stats.hits stats)) root).

(** Anything but a single match fails the assertion. *)
(** src/ttrie.rs:164-190 [RetainedTrie::match_topic_filter] *)
Definition RetainedTrie_match_topic_filter (self : Inner Publish) (in_levels : list bytes)
    : Result (Inner Publish * option Publish) :=
  let stats := Inner.stats self in
  let lookups := sat_inc (Stats.lookups stats) in
  r ← match_topic in_levels (Inner.root self) false;
  '(hits, res) ←
    match r with
    | Some [val] => Ok (sat_inc (Stats.hits stats), Some val)
    | Some _ => Panic
    | None => Ok (Stats.hits stats, None)
    end;
  Ok (Inner.mk (Stats.mk (Stats.count stats) (Stats.repeat stats) (Stats.missing stats)
                  lookups hits) (Inner.root self), res).

(** * Two operations on one trie

    Every operation takes a snapshot of the cell under the lock, computes, and
    replaces the cell under the lock; nothing is held in between.  A thread is the
    function it applies to its snapshot. *)
Section cell.
Context {S : Type}.
Inductive cell_event := Snapshot (thread : nat) | Commit (thread : nat).
Record cell_state := mkCell { cell : S; snapshots : gmap nat S }.

(** src/ttrie.rs:83-97 [SubscribedTrie::do_subscribe] *)
Definition cell_step (ops : nat → S → Result S) (st : cell_state) (e : cell_event)
    : Result cell_state :=
  match e with
  | Snapshot i => Ok (mkCell (cell st) (<[i := cell st]> (snapshots st)))
  | Commit i =>
      match snapshots st !! i with
      | Some snap => new ← ops i snap; Ok (mkCell new (delete i (snapshots st)))
      | None => Panic
      end
  end.

Fixpoint cell_run (ops : nat → S → Result S) (st : cell_state) (es : list cell_event)
    : Result cell_state :=
  match es with
  | [] => Ok st
  | e :: es => st ← cell_step ops st e; cell_run ops st es
  end.
End cell.
