(* ===== verification/TtrieFacts.v ===== *)
(** Facts about the tries of [Ttrie]: binary search on sorted children, the
    well-formedness of nodes, the values at a path, and what each operation does to
    them.

    The abstract view of a trie is [values_at]: the values kept at every path.  The
    operations are related to it by [node_sub_spec], [node_unsub_spec],
    [node_set_spec] and [node_remove_spec], each of which also preserves [wf_root];
    [match_topic_spec] gives the answer of a match as the entries whose path the
    levels match, in the order of the trie. *)

From S2P Require Import Prelude Error Util Codec Types V5 PublishPacket SubPackets Packets Ttrie.

(** * Binary search

    The search sees the elements through [g]; on a list that is [Lt], then at most
    one [Eq], then [Gt], it answers the position of the split. *)
Section binary_search.
Context {A : Type} (f : A → Result comparison).

Definition answers (c : comparison) (l : list A) : Prop := Forall (λ x, f x = Ok c) l.

Lemma answers_lookup c (l : list A) i x : answers c l → l !! i = Some x → f x = Ok c.
Proof. intros H Hx. exact (Forall_lookup_1 _ _ _ _ H Hx). Qed.

Lemma mid_bounds l r : l < r → l ≤ l + (r - l) / 2 < r.
Proof.
  intros. pose proof (Nat.Div0.div_le_upper_bound (r - l) 2 (r - l)).
  pose proof (Nat.div_lt (r - l) 2). lia.
Qed.

Lemma bsearch_found l1 x l2 fuel left right :
  answers Lt l1 → f x = Ok Eq → answers Gt l2 →
  left ≤ length l1 < right → right ≤ length (l1 ++ x :: l2) → right - left ≤ fuel →
  bsearch f (l1 ++ x :: l2) fuel left right = Ok (inl (length l1)).
Proof.
  intros H1 Hx H2. revert left right.
  induction fuel as [|fuel IH]; intros left right Hlr Hr Hf; [lia|].
  unfold bsearch; fold (bsearch f). rewrite (proj2 (Nat.ltb_lt _ _)) by lia. cbv zeta.
  pose proof (mid_bounds left right ltac:(lia)) as Hm.
  set (mid := left + _) in *. clearbody mid.
  destruct (Nat.lt_trichotomy mid (length l1)) as [Hlt|[->|Hgt]].
  - rewrite lookup_app_l by lia.
    destruct (lookup_lt_is_Some_2 l1 mid Hlt) as (y & Hy). rewrite Hy.
    rewrite (answers_lookup _ _ _ _ H1 Hy), bind_Ok_1. apply IH; lia.
  - rewrite list_lookup_middle by done. by rewrite Hx, bind_Ok_1.
  - rewrite lookup_app_r by lia. rewrite length_app in Hr. cbn in Hr.
    destruct (mid - length l1) as [|k] eqn:Hk; [lia|]. change ((x :: l2) !! S k) with (l2 !! k).
    destruct (lookup_lt_is_Some_2 l2 k ltac:(lia)) as (y & Hy). rewrite Hy.
    rewrite (answers_lookup _ _ _ _ H2 Hy), bind_Ok_1. apply IH; rewrite ?length_app; cbn; lia.
Qed.

Lemma bsearch_missing l1 l2 fuel left right :
  answers Lt l1 → answers Gt l2 →
  left ≤ length l1 ≤ right → right ≤ length (l1 ++ l2) → right - left ≤ fuel →
  bsearch f (l1 ++ l2) fuel left right = Ok (inr (length l1)).
Proof.
  intros H1 H2. revert left right.
  induction fuel as [|fuel IH]; intros left right Hlr Hr Hf.
  { unfold bsearch. rewrite (proj2 (Nat.ltb_ge _ _)) by lia. do 2 f_equal. lia. }
  unfold bsearch; fold (bsearch f). destruct (Nat.ltb_spec left right) as [Hlt|Hge];
    [|do 2 f_equal; lia]. cbv zeta.
  pose proof (mid_bounds left right Hlt) as Hm. set (mid := left + _) in *. clearbody mid.
  rewrite length_app in Hr. destruct (decide (mid < length l1)) as [Hl|Hl].
  - rewrite lookup_app_l by lia.
    destruct (lookup_lt_is_Some_2 l1 mid Hl) as (y & Hy). rewrite Hy.
    rewrite (answers_lookup _ _ _ _ H1 Hy), bind_Ok_1. apply IH; rewrite ?length_app; lia.
  - rewrite lookup_app_r by lia.
    destruct (lookup_lt_is_Some_2 l2 (mid - length l1) ltac:(lia)) as (y & Hy). rewrite Hy.
    rewrite (answers_lookup _ _ _ _ H2 Hy), bind_Ok_1. apply IH; rewrite ?length_app; lia.
Qed.

Lemma binary_search_by_found l1 x l2 :
  answers Lt l1 → f x = Ok Eq → answers Gt l2 →
  binary_search_by f (l1 ++ x :: l2) = Ok (inl (length l1)).
Proof. intros. apply bsearch_found; rewrite ?length_app; cbn; auto; lia. Qed.

Lemma binary_search_by_missing l1 l2 :
  answers Lt l1 → answers Gt l2 →
  binary_search_by f (l1 ++ l2) = Ok (inr (length l1)).
Proof. intros. apply bsearch_missing; rewrite ?length_app; auto; lia. Qed.

(** How a sorted list splits at a key. *)
Inductive split_at : list A → Prop :=
| split_found l1 x l2 : answers Lt l1 → f x = Ok Eq → answers Gt l2 → split_at (l1 ++ x :: l2)
| split_missing l1 l2 : answers Lt l1 → answers Gt l2 → split_at (l1 ++ l2).

Lemma sorted_split_at (R : A → A → Prop) (g : A → comparison) l :
  StronglySorted R l →
  Forall (λ x, f x = Ok (g x)) l →
  (∀ x y, R x y → g x ≠ Lt → g y = Gt) →
  split_at l.
Proof.
  intros Hs Hf HR. induction Hs as [|x l Hs IH Hx].
  { exact (split_missing [] [] (Forall_nil_2 _) (Forall_nil_2 _)). }
  apply Forall_cons in Hf as [Hc Hf]. specialize (IH Hf).
  assert (g x ≠ Lt → answers Gt l) as Hgt.
  { intros Hne. apply Forall_forall. intros y Hy. rewrite Forall_forall in Hx, Hf.
    rewrite Hf by done. f_equal. eauto. }
  destruct (g x) eqn:Hg.
  - apply (split_found [] x l); [constructor|done|by apply Hgt].
  - destruct IH as [l1 y l2 H1 Hy H2|l1 l2 H1 H2].
    + apply (split_found (x :: l1)); auto. by constructor.
    + apply (split_missing (x :: l1)); auto. by constructor.
  - apply (split_missing [] (x :: l)); [constructor|]. constructor; auto. by apply Hgt.
Qed.
End binary_search.

Section vec_facts.
Context {A : Type}.
Implicit Types l : list A.

Lemma vec_remove_middle l1 x l2 : vec_remove (l1 ++ x :: l2) (length l1) = Ok (x, l1 ++ l2).
Proof.
  unfold vec_remove. rewrite list_lookup_middle by done. do 3 f_equal.
  - by rewrite take_app_length.
  - rewrite drop_app_ge by lia. by replace (S (length l1) - length l1) with 1 by lia.
Qed.

Lemma vec_insert_middle l1 x l2 : vec_insert (l1 ++ l2) (length l1) x = Ok (l1 ++ x :: l2).
Proof.
  unfold vec_insert. rewrite decide_True by (rewrite length_app; lia).
  by rewrite take_app_length, drop_app_length.
Qed.

(** A sorted list stays sorted when an element is replaced, put in or left out. *)
Lemma StronglySorted_middle (R : A → A → Prop) l1 x l2 :
  StronglySorted R (l1 ++ x :: l2) ↔
  StronglySorted R (l1 ++ l2) ∧ Forall (λ y, R y x) l1 ∧ Forall (R x) l2.
Proof.
  induction l1 as [|y l1 IH]; cbn.
  - split; [intros H; inversion H; subst; auto|intros (H & _ & H'); by constructor].
  - split.
    + intros H. inversion H as [|? ? Hs Hf]; subst. apply IH in Hs as (Hs & Hl & Hr).
      apply Forall_app in Hf as [Hf1 Hf2]. apply Forall_cons in Hf2 as [Hyx Hf2].
      split; [|split; [by constructor|done]]. constructor; [done|]. by apply Forall_app.
    + intros (Hs & Hl & Hr). inversion Hs as [|? ? Hs' Hf]; subst.
      apply Forall_cons in Hl as [Hyx Hl]. constructor; [apply IH; auto|].
      apply Forall_app in Hf as [Hf1 Hf2]. apply Forall_app. split; [done|]. by constructor.
Qed.
End vec_facts.

(** * Orders *)

Class TotalOrder {A} (cmp : A → A → comparison) := {
  cmp_antisym x y : cmp y x = CompOpp (cmp x y);
  cmp_lt_trans x y z : cmp x y = Lt → cmp y z = Lt → cmp x z = Lt;
  cmp_eq_l x y z : cmp x y = Eq → cmp x z = cmp y z;
}.

#[export] Instance str_cmp_order : TotalOrder str_cmp.
Proof.
  split; [apply str_cmp_antisym|apply str_cmp_trans|].
  intros x y z H. apply str_cmp_eq in H. by subst.
Qed.

#[export] Instance Subscription_cmp_order : TotalOrder Subscription_cmp.
Proof.
  split; unfold Subscription_cmp.
  - intros x y. rewrite (cmp_antisym (cmp := str_cmp) (client_id_str (Subscription.client_id x))).
    destruct (str_cmp _ (client_id_str (Subscription.client_id y))); cbn; try done.
    apply cmp_antisym.
  - intros x y z. set (c := λ s, client_id_str (Subscription.client_id s)).
    set (t := λ s, topic_filter_str (Subscription.topic_filter s)).
    fold (c x) (c y) (c z) (t x) (t y) (t z).
    destruct (str_cmp (c x) (c y)) eqn:Hxy; [apply str_cmp_eq in Hxy; rewrite Hxy| |done].
    + destruct (str_cmp (c y) (c z)); [apply cmp_lt_trans|done..].
    + intros _. destruct (str_cmp (c y) (c z)) eqn:Hyz; [apply str_cmp_eq in Hyz| |done].
      * rewrite <- Hyz, Hxy. done.
      * by rewrite (cmp_lt_trans _ _ _ Hxy Hyz).
  - intros x y z.
    destruct (str_cmp _ (client_id_str (Subscription.client_id y))) eqn:Hxy; [|done..].
    apply str_cmp_eq in Hxy. rewrite Hxy. intros H. apply str_cmp_eq in H. by rewrite H.
Qed.

Section order.
Context {A : Type} (cmp : A → A → comparison) `{!TotalOrder cmp}.

Lemma cmp_lt_gt x y : cmp x y = Lt ↔ cmp y x = Gt.
Proof. rewrite (cmp_antisym (cmp := cmp) x y). by destruct (cmp x y); cbn. Qed.

Lemma cmp_refl x : cmp x x = Eq.
Proof. pose proof (cmp_antisym (cmp := cmp) x x) as H. by destruct (cmp x x); cbn in H. Qed.

(** Past an element not below the key, everything is above it. *)
Lemma cmp_sorted_step x y k : cmp x y = Lt → cmp x k ≠ Lt → cmp y k = Gt.
Proof.
  intros Hxy Hxk. apply cmp_lt_gt. destruct (cmp x k) eqn:Hk; [|done|].
  - by rewrite <- (cmp_eq_l (cmp := cmp) _ _ y Hk).
  - apply cmp_lt_gt in Hk. exact (cmp_lt_trans (cmp := cmp) _ _ _ Hk Hxy).
Qed.

Definition cmp_lt (x y : A) : Prop := cmp x y = Lt.

(** The values with [v] in its place, unless an equal one is there; and without
    the one equal to [v]. *)
Fixpoint ordered_add (v : A) (l : list A) : list A :=
  match l with
  | [] => [v]
  | x :: l' =>
      match cmp x v with Lt => x :: ordered_add v l' | Eq => l | Gt => v :: l end
  end.
Fixpoint ordered_del (v : A) (l : list A) : list A :=
  match l with
  | [] => []
  | x :: l' => match cmp x v with Eq => l' | _ => x :: ordered_del v l' end
  end.
Definition ordered_mem (v : A) (l : list A) : bool :=
  existsb (λ x, match cmp x v with Eq => true | _ => false end) l.

Definition value_search (v : A) : A → Result comparison := λ x, Ok (cmp x v).

Lemma value_split_at v l : StronglySorted cmp_lt l → split_at (value_search v) l.
Proof.
  intros H. apply (sorted_split_at _ cmp_lt (λ x, cmp x v)); [done| |].
  - by apply Forall_true.
  - intros x y Hxy Hc. by apply (cmp_sorted_step x).
Qed.

Lemma ordered_add_below v l1 l2 :
  answers (value_search v) Lt l1 → ordered_add v (l1 ++ l2) = l1 ++ ordered_add v l2.
Proof.
  induction 1 as [|x l1 Hx _ IH]; cbn; [done|]. injection Hx as Hx. by rewrite Hx, IH.
Qed.
Lemma ordered_del_below v l1 l2 :
  answers (value_search v) Lt l1 → ordered_del v (l1 ++ l2) = l1 ++ ordered_del v l2.
Proof.
  induction 1 as [|x l1 Hx _ IH]; cbn; [done|]. injection Hx as Hx. by rewrite Hx, IH.
Qed.
Lemma ordered_mem_app v l1 l2 :
  ordered_mem v (l1 ++ l2) = ordered_mem v l1 || ordered_mem v l2.
Proof. apply existsb_app. Qed.
Lemma ordered_mem_answers v c l :
  answers (value_search v) c l → c ≠ Eq → ordered_mem v l = false.
Proof. induction 1 as [|x l Hx _ IH]; cbn; [done|]. injection Hx as ->. by destruct c. Qed.
Lemma ordered_above v l :
  answers (value_search v) Gt l → ordered_add v l = v :: l ∧ ordered_del v l = l.
Proof.
  induction 1 as [|x l Hx Hl [IHa IHd]]; cbn; [done|]. injection Hx as Hx.
  by rewrite Hx, IHd.
Qed.

Lemma ordered_add_sorted v l :
  StronglySorted cmp_lt l → StronglySorted cmp_lt (ordered_add v l).
Proof.
  intros Hs. destruct (value_split_at v l Hs) as [l1 x l2 H1 Hx H2|l1 l2 H1 H2].
  - rewrite ordered_add_below by done. cbn. injection Hx as ->. done.
  - rewrite ordered_add_below by done. rewrite (proj1 (ordered_above _ _ H2)).
    apply StronglySorted_middle. split; [done|]. split.
    + eapply Forall_impl; [exact H1|]. by intros y [= Hy].
    + eapply Forall_impl; [exact H2|]. intros y [= Hy]. by apply cmp_lt_gt.
Qed.
Lemma ordered_del_sorted v l :
  StronglySorted cmp_lt l → StronglySorted cmp_lt (ordered_del v l).
Proof.
  intros Hs. destruct (value_split_at v l Hs) as [l1 x l2 H1 Hx H2|l1 l2 H1 H2];
    rewrite ordered_del_below by done.
  - cbn. injection Hx as ->. by apply StronglySorted_middle in Hs as [Hs _].
  - by rewrite (proj2 (ordered_above _ _ H2)).
Qed.
Lemma ordered_add_nonempty v l : ordered_add v l ≠ [].
Proof. destruct l as [|x l]; cbn; [done|]. by destruct (cmp x v). Qed.

(** An added value is there, with what was there. *)
Lemma elem_of_ordered_add v l x :
  StronglySorted cmp_lt l →
  x ∈ ordered_add v l ↔ x ∈ l ∨ (x = v ∧ ordered_mem v l = false).
Proof.
  intros Hs. destruct (value_split_at v l Hs) as [l1 y l2 H1 Hy H2|l1 l2 H1 H2];
    rewrite ordered_add_below, ordered_mem_app by done.
  - injection Hy as Hy. cbn. rewrite Hy, orb_true_r. split; [by left|]. by intros [?|[_ ?]].
  - rewrite (proj1 (ordered_above _ _ H2)).
    rewrite (ordered_mem_answers v Lt l1), (ordered_mem_answers v Gt l2) by done.
    rewrite !elem_of_app, elem_of_cons. tauto.
Qed.
Lemma elem_of_ordered_del v l x :
  StronglySorted cmp_lt l → x ∈ ordered_del v l ↔ x ∈ l ∧ cmp x v ≠ Eq.
Proof.
  intros Hs.
  assert (∀ c l', answers (value_search v) c l' → c ≠ Eq →
                  x ∈ l' ↔ x ∈ l' ∧ cmp x v ≠ Eq) as Hne.
  { intros c l' H Hc. split; [intros Hx; split; [done|]|by intros []].
    eapply Forall_forall in H; [|exact Hx]. by injection H as ->. }
  destruct (value_split_at v l Hs) as [l1 y l2 H1 Hy H2|l1 l2 H1 H2];
    rewrite ordered_del_below by done; rewrite !elem_of_app;
    pose proof (Hne Lt l1 H1 ltac:(done)); pose proof (Hne Gt l2 H2 ltac:(done)).
  - injection Hy as Hy. cbn. rewrite Hy, elem_of_cons.
    split; [tauto|]. intros [[?|[->|?]] ?]; tauto.
  - rewrite (proj2 (ordered_above _ _ H2)). tauto.
Qed.
End order.

(** * Well-formed nodes *)

Section wf.
Context {V : Type}.
Implicit Types (n c : Node V) (cs : list (Node V)) (k : bytes) (p q : list bytes).

Definition name_of n : bytes :=
  match n with Node.Child name _ _ => name | Node.Root _ => [] end.
Definition values_of n : list V :=
  match n with Node.Child _ _ values => values | Node.Root _ => [] end.
Definition is_child n : bool :=
  match n with Node.Child _ _ _ => true | Node.Root _ => false end.
(** What an operation never changes of a node. *)
Definition head_of n : option bytes :=
  match n with Node.Child name _ _ => Some name | Node.Root _ => None end.
Definition name_lt n1 n2 : Prop := str_cmp (name_of n1) (name_of n2) = Lt.

Fixpoint find_child k cs : option (Node V) :=
  match cs with
  | [] => None
  | c :: cs => if bool_decide (name_of c = k) then Some c else find_child k cs
  end.

(** The values at a path below a node, and whether there is a node at all. *)
Fixpoint values_at p n : list V :=
  match p with
  | [] => values_of n
  | k :: p => match find_child k (children_of n) with Some c => values_at p c | None => [] end
  end.
Fixpoint has_node p n : bool :=
  match p with
  | [] => true
  | k :: p => match find_child k (children_of n) with Some c => has_node p c | None => false end
  end.

(** The values a node may hold: the discipline of one of the two tries. *)
Context (vok : list V → Prop).

(** Children are child nodes sorted by name, and none is empty. *)
Inductive wf_child : Node V → Prop :=
| wf_Child name cs vs :
    StronglySorted name_lt cs → Forall wf_child cs → vok vs → cs ≠ [] ∨ vs ≠ [] →
    wf_child (Node.Child name cs vs).
Definition wf_children cs : Prop := StronglySorted name_lt cs ∧ Forall wf_child cs.
Definition wf_node n : Prop := wf_children (children_of n) ∧ vok (values_of n).
Definition wf_root n : Prop := is_child n = false ∧ wf_children (children_of n).
Definition filled n : Prop := children_of n ≠ [] ∨ values_of n ≠ [].

Lemma wf_child_iff n : wf_child n ↔ is_child n = true ∧ wf_node n ∧ filled n.
Proof.
  split; [by intros []|].
  destruct n as [cs|name cs vs]; [by intros []|]. intros (_ & [[? ?] ?] & ?). by constructor.
Qed.

Lemma wf_node_root n : vok [] → wf_root n → wf_node n.
Proof. intros ? [? ?]. split; [done|]. by destruct n. Qed.

(** ** Children *)

Definition name_search k : Node V → Result comparison :=
  λ n, name ← as_name n; Ok (str_cmp name k).

Lemma name_search_child k n : is_child n = true → name_search k n = Ok (str_cmp (name_of n) k).
Proof. by destruct n. Qed.

Lemma wf_children_split_at k cs : wf_children cs → split_at (name_search k) cs.
Proof.
  intros [Hs Hw]. apply (sorted_split_at _ name_lt (λ c, str_cmp (name_of c) k)); [done| |].
  - eapply Forall_impl; [exact Hw|]. intros c Hc. apply name_search_child.
    by apply wf_child_iff in Hc as (? & _).
  - intros x y Hxy Hc. exact (cmp_sorted_step str_cmp _ _ _ Hxy Hc).
Qed.

Lemma name_search_eq k n : is_child n = true → name_search k n = Ok Eq ↔ name_of n = k.
Proof.
  intros H. rewrite name_search_child by done. rewrite <- str_cmp_eq. split; [by intros [=]|].
  by intros ->.
Qed.

Lemma find_child_skip k (a : comparison) l1 l2 :
  answers (name_search k) a l1 → a ≠ Eq → find_child k (l1 ++ l2) = find_child k l2.
Proof.
  intros H Hc. induction H as [|n l1 Hn _ IH]; cbn; [done|].
  rewrite bool_decide_eq_false_2; [done|]. intros <-. destruct n as [|name ? ?]; [done|].
  cbn in Hn. injection Hn as <-. by rewrite (cmp_refl str_cmp) in Hc.
Qed.

Lemma find_child_none k (a : comparison) l :
  answers (name_search k) a l → a ≠ Eq → find_child k l = None.
Proof. intros H Hc. rewrite <- (app_nil_r l). by rewrite (find_child_skip k a). Qed.

Lemma find_child_middle_ne k c l1 l2 :
  name_of c ≠ k → find_child k (l1 ++ c :: l2) = find_child k (l1 ++ l2).
Proof.
  intros Hc. induction l1 as [|x l1 IH]; cbn; [by rewrite bool_decide_eq_false_2|].
  by rewrite IH.
Qed.

Lemma find_child_some k cs c : find_child k cs = Some c → c ∈ cs ∧ name_of c = k.
Proof.
  induction cs as [|x cs IH]; cbn; [done|].
  case_bool_decide as Hx; [intros [= <-]; split; [by left|done]|].
  intros H. destruct (IH H). split; [by right|done].
Qed.

(** Everything about the position of a name among the children: where it is, or
    where it goes, what the search answers, and what [find_child] finds. *)
Inductive child_at k : list (Node V) → Prop :=
| child_found l1 c l2 :
    search_child k (l1 ++ c :: l2) = Ok (inl (length l1)) →
    name_of c = k → wf_child c → wf_children (l1 ++ l2) →
    find_child k (l1 ++ c :: l2) = Some c → find_child k (l1 ++ l2) = None →
    (∀ c', wf_child c' → name_of c' = k → wf_children (l1 ++ c' :: l2)) →
    (∀ c', name_of c' = k → find_child k (l1 ++ c' :: l2) = Some c') →
    child_at k (l1 ++ c :: l2)
| child_missing l1 l2 :
    search_child k (l1 ++ l2) = Ok (inr (length l1)) →
    find_child k (l1 ++ l2) = None →
    (∀ c', wf_child c' → name_of c' = k → wf_children (l1 ++ c' :: l2)) →
    (∀ c', name_of c' = k → find_child k (l1 ++ c' :: l2) = Some c') →
    child_at k (l1 ++ l2).

Lemma wf_children_put k l1 l2 c' :
  answers (name_search k) Lt l1 → answers (name_search k) Gt l2 → wf_children (l1 ++ l2) →
  wf_child c' → name_of c' = k → wf_children (l1 ++ c' :: l2).
Proof.
  intros H1 H2 [Hs Hw] Hc Hk. apply Forall_app in Hw as [Hw1 Hw2]. split.
  - apply StronglySorted_middle. split; [done|]. unfold name_lt. rewrite Hk. split.
    + eapply Forall_impl; [exact H1|]. intros n. cbn. destruct n; [done|]. by intros [=].
    + eapply Forall_impl; [exact H2|]. intros n. cbn. destruct n; [done|]. intros [=].
      by apply (cmp_lt_gt str_cmp).
  - apply Forall_app. split; [done|]. by constructor.
Qed.

Lemma wf_children_at k cs : wf_children cs → child_at k cs.
Proof.
  intros Hcs. destruct (wf_children_split_at k cs Hcs) as [l1 c l2 H1 Hc H2|l1 l2 H1 H2].
  - destruct Hcs as [Hs Hw]. apply StronglySorted_middle in Hs as (Hs & _ & _).
    apply Forall_app in Hw as [Hw1 Hw2]. apply Forall_cons in Hw2 as [Hwc Hw2].
    assert (wf_children (l1 ++ l2)) as Hl by (split; [done|by apply Forall_app]).
    assert (name_of c = k) as Hk.
    { apply name_search_eq; [|done]. by apply wf_child_iff in Hwc as (? & _). }
    assert (∀ c', name_of c' = k → find_child k (l1 ++ c' :: l2) = Some c') as Hf.
    { intros c' Hc'. rewrite (find_child_skip k Lt) by done. cbn.
      by rewrite bool_decide_eq_true_2. }
    apply child_found; auto.
    + by apply binary_search_by_found.
    + rewrite (find_child_skip k Lt) by done. by apply (find_child_none k Gt).
    + intros c' Hc' Hk'. by apply (wf_children_put k).
  - apply child_missing; auto.
    + by apply binary_search_by_missing.
    + rewrite (find_child_skip k Lt) by done. by apply (find_child_none k Gt).
    + intros c' Hc' Hk'. by apply (wf_children_put k).
    + intros c' Hc'. rewrite (find_child_skip k Lt) by done. cbn.
      by rewrite bool_decide_eq_true_2.
Qed.
End wf.

(** * Descents

    An operation on the values at path [p]: [updates] when it always succeeds,
    [removes] when it needs values there, drops the nodes it empties, and answers
    [None] for the node itself when that is one of them. *)
Section descend.
Context {V R : Type} (vok : list V → Prop) (vok_nil : vok []).
Implicit Types (n c : Node V) (k : bytes) (p q : list bytes) (F : list V → list V)
  (G : list V → R).

Definition put_at F p n q : list V :=
  if bool_decide (q = p) then F (values_at p n) else values_at q n.

Definition updates F G p (op : Node V → Result (Node V * R)) : Prop :=
  ∀ n, wf_node vok n → (p = [] → is_child n = true) →
    ∃ n', op n = Ok (n', G (values_at p n)) ∧ wf_node vok n' ∧ filled n' ∧
          head_of n' = head_of n ∧ ∀ q, values_at q n' = put_at F p n q.

Definition removes F G p (op : Node V → Result (option (Node V) * R)) : Prop :=
  ∀ n, wf_node vok n → (p = [] → is_child n = true) → values_at p n ≠ [] →
    ∃ n', wf_node vok n' ∧ head_of n' = head_of n ∧ (∀ q, values_at q n' = put_at F p n q) ∧
          if is_child n && is_empty n' then op n = Ok (None, G (values_at p n))
          else op n = Ok (Some n', G (values_at p n)).

Lemma values_at_cons k p n :
  values_at (k :: p) n
  = match find_child k (children_of n) with Some c => values_at p c | None => [] end.
Proof. reflexivity. Qed.

Lemma values_at_new_node k p : values_at p (new_node (V := V) k) = [].
Proof. by destruct p. Qed.

Lemma children_with_children n cs : children_of (with_children n cs) = cs.
Proof. by destruct n. Qed.
Lemma values_with_children n cs : values_of (with_children n cs) = values_of n.
Proof. by destruct n. Qed.
Lemma head_with_children n cs : head_of (with_children n cs) = head_of n.
Proof. by destruct n. Qed.
Lemma with_children_same n : with_children n (children_of n) = n.
Proof. by destruct n. Qed.

Lemma filled_is_empty n : is_child n = true → is_empty n = false ↔ filled n.
Proof.
  destruct n as [|name cs vs]; [done|]. intros _. unfold filled. cbn.
  destruct cs, vs; cbn; split; auto; by intros [].
Qed.

Lemma head_child n k : head_of n = Some k → is_child n = true ∧ name_of n = k.
Proof. destruct n; [done|]. by intros [= ->]. Qed.

Lemma wf_child_head c : wf_child vok c → head_of c = Some (name_of c).
Proof. by intros []. Qed.

(** The values below a node whose child at [k] was replaced. *)
Lemma put_child F k p n cs c c' :
  find_child k (children_of n) = Some c ∨
    (find_child k (children_of n) = None ∧ c = new_node k) →
  (∀ q, values_at q c' = put_at F p c q) →
  find_child k cs = Some c' →
  (∀ k', k' ≠ k → find_child k' cs = find_child k' (children_of n)) →
  ∀ q, values_at q (with_children n cs) = put_at F (k :: p) n q.
Proof.
  intros Hc Hv Hk Hne q. unfold put_at.
  assert (∀ q, values_at (k :: q) n = values_at q c) as Hnc.
  { intros q'. rewrite values_at_cons. destruct Hc as [->|[-> ->]]; [done|].
    by rewrite values_at_new_node. }
  destruct q as [|k' q].
  - rewrite bool_decide_eq_false_2 by done. cbn. by rewrite values_with_children.
  - rewrite values_at_cons, children_with_children. destruct (decide (k' = k)) as [->|Hk'].
    + rewrite Hk, Hv, !Hnc. unfold put_at. do 2 case_bool_decide; congruence.
    + rewrite bool_decide_eq_false_2 by congruence. by rewrite Hne.
Qed.

(** And of one whose child at [k] is gone, with the values below it. *)
Lemma drop_child F k p n cs c c' :
  find_child k (children_of n) = Some c → (∀ q, values_at q c' = put_at F p c q) →
  is_child c' = true → is_empty c' = true →
  find_child k cs = None →
  (∀ k', k' ≠ k → find_child k' cs = find_child k' (children_of n)) →
  ∀ q, values_at q (with_children n cs) = put_at F (k :: p) n q.
Proof.
  intros Hc Hv Hi He Hk Hne q.
  assert (∀ q, put_at F p c q = []) as Hnil.
  { intros q'. rewrite <- Hv. destruct c' as [|name [|] [|]]; try done. by destruct q'. }
  unfold put_at. destruct q as [|k' q].
  - rewrite bool_decide_eq_false_2 by done. cbn. by rewrite values_with_children.
  - rewrite values_at_cons, children_with_children. destruct (decide (k' = k)) as [->|Hk'].
    + rewrite Hk, !values_at_cons, Hc. specialize (Hnil q). unfold put_at in Hnil.
      do 2 case_bool_decide; congruence.
    + rewrite bool_decide_eq_false_2 by congruence. by rewrite Hne.
Qed.

Lemma wf_new_node k : wf_node vok (new_node k).
Proof. split; [split; constructor|done]. Qed.

Lemma wf_with_children n cs : wf_node vok n → wf_children vok cs → wf_node vok (with_children n cs).
Proof.
  intros [_ Hv] Hc. split; [by rewrite children_with_children|by rewrite values_with_children].
Qed.

Lemma put_child_node F k p n cs c c' :
  wf_node vok n →
  find_child k (children_of n) = Some c ∨
    (find_child k (children_of n) = None ∧ c = new_node k) →
  (∀ q, values_at q c' = put_at F p c q) →
  wf_children vok cs → find_child k cs = Some c' →
  (∀ k', k' ≠ k → find_child k' cs = find_child k' (children_of n)) →
  let n' := with_children n cs in
  wf_node vok n' ∧ filled n' ∧ head_of n' = head_of n ∧
  ∀ q, values_at q n' = put_at F (k :: p) n q.
Proof.
  intros Hn Hc Hv Hcs Hk Hne. cbv zeta.
  split; [by apply wf_with_children|]. split; [|split; [apply head_with_children|]].
  - left. rewrite children_with_children. by destruct cs.
  - by apply (put_child F k p n cs c c').
Qed.

Lemma descend_new_updates F G k p op :
  updates F G p op → updates F G (k :: p) (λ n, descend_new n k op).
Proof.
  intros Hop n Hn _. unfold descend_new. cbv zeta.
  pose proof (proj1 Hn) as Hcs. remember (children_of n) as cs eqn:Hncs.
  destruct (wf_children_at vok k cs Hcs)
    as [l1 c l2 Hs Hk Hc Hl Hf Hfn Hput Hget|l1 l2 Hs Hf Hput Hget]; rewrite Hs, bind_Ok_1.
  - rewrite vec_remove_middle, !bind_Ok_1.
    apply wf_child_iff in Hc as (Hci & Hcn & _).
    destruct (Hop c Hcn (λ _, Hci)) as (c' & Hc' & Hw & Hfl & Hh & Hv).
    rewrite Hc', bind_Ok_1, vec_insert_middle, bind_Ok_1.
    assert (is_child c' = true ∧ name_of c' = k) as [Hi' Hk'].
    { apply head_child. rewrite Hh. destruct c; [done|]. by rewrite <- Hk. }
    eexists. split; [by rewrite values_at_cons, <- Hncs, Hf|].
    apply (put_child_node F k p n _ c c'); rewrite <- ?Hncs; auto.
    + apply Hput; [by apply wf_child_iff|done].
    + intros k' Hne. by rewrite !find_child_middle_ne by congruence.
  - rewrite bind_Ok_1.
    destruct (Hop (new_node k) (wf_new_node k) (λ _, eq_refl)) as (c' & Hc' & Hw & Hfl & Hh & Hv).
    rewrite Hc', bind_Ok_1, vec_insert_middle, bind_Ok_1.
    apply head_child in Hh as [Hi' Hk'].
    eexists. split; [by rewrite values_at_cons, <- Hncs, Hf, values_at_new_node|].
    apply (put_child_node F k p n _ (new_node k) c'); rewrite <- ?Hncs; auto.
    + apply Hput; [by apply wf_child_iff|done].
    + intros k' Hne. by rewrite !find_child_middle_ne by congruence.
Qed.

Lemma descend_old_removes F G k p (miss : R) op :
  removes F G p op → removes F G (k :: p) (λ n, descend_old n k miss op).
Proof.
  intros Hop n Hn _ Hne. unfold descend_old. cbv zeta.
  pose proof (proj1 Hn) as Hcs. rewrite values_at_cons in *.
  remember (children_of n) as cs eqn:Hncs.
  destruct (wf_children_at vok k cs Hcs)
    as [l1 c l2 Hs Hk Hc Hl Hf Hfn Hput Hget|l1 l2 Hs Hf Hput Hget];
    rewrite Hf in Hne |- *; [|done].
  rewrite Hs, bind_Ok_1, vec_remove_middle, bind_Ok_1.
  apply wf_child_iff in Hc as (Hci & Hcn & _).
  destruct (Hop c Hcn (λ _, Hci) Hne) as (c' & Hw & Hh & Hv & Hc').
  assert (is_child c' = true ∧ name_of c' = k) as [Hi' Hk'].
  { apply head_child. rewrite Hh. destruct c; [done|]. by rewrite <- Hk. }
  rewrite Hci in Hc'. cbn in Hc'. destruct (is_empty c') eqn:He; rewrite Hc', bind_Ok_1.
  - exists (with_children n (l1 ++ l2)). split; [by apply wf_with_children|].
    split; [apply head_with_children|]. split.
    + apply (drop_child F k p n _ c c'); rewrite <- ?Hncs; auto.
      intros k' Hne'. by rewrite find_child_middle_ne by congruence.
    + destruct n as [|name cs vs]; [done|]. cbn. by destruct (_ && _).
  - rewrite vec_insert_middle, bind_Ok_1.
    assert (wf_child vok c') as Hwc by (apply wf_child_iff; rewrite <- filled_is_empty by done; auto).
    edestruct (put_child_node F k p n (l1 ++ c' :: l2) c c') as (? & ? & ? & ?);
      rewrite <- ?Hncs; auto.
    { intros k' Hne'. by rewrite !find_child_middle_ne by congruence. }
    exists (with_children n (l1 ++ c' :: l2)). do 3 (split; [done|]).
    destruct n as [|name cs vs]; [done|]. cbn. by destruct l1.
Qed.

(** Nothing at the path: the node comes back, and the answer is [miss]. *)
Lemma descend_old_absent k p (miss : R) op n :
  wf_node vok n → has_node (k :: p) n = false →
  (∀ c, wf_node vok c → is_child c = true → has_node p c = false → op c = Ok (Some c, miss)) →
  descend_old n k miss op = Ok (Some n, miss).
Proof.
  intros Hn Hh Hop. unfold descend_old. cbv zeta. cbn in Hh.
  pose proof (proj1 Hn) as Hcs. remember (children_of n) as cs eqn:Hncs.
  destruct (wf_children_at vok k cs Hcs)
    as [l1 c l2 Hs Hk Hc Hl Hf Hfn Hput Hget|l1 l2 Hs Hf Hput Hget];
    rewrite Hs, bind_Ok_1; [|done].
  rewrite vec_remove_middle, bind_Ok_1. rewrite Hf in Hh.
  apply wf_child_iff in Hc as (Hci & Hcn & _).
  rewrite Hop, bind_Ok_1, vec_insert_middle, bind_Ok_1 by done.
  by rewrite Hncs, with_children_same.
Qed.

(** A node that holds no value is at the path: the code panics. *)
Lemma descend_old_hollow k p (miss : R) op n :
  wf_node vok n → has_node (k :: p) n = true → values_at (k :: p) n = [] →
  (∀ c, wf_node vok c → is_child c = true → has_node p c = true → values_at p c = [] →
    op c = Panic) →
  descend_old n k miss op = Panic.
Proof.
  intros Hn Hh Hv Hop. unfold descend_old. cbv zeta. cbn in Hh. rewrite values_at_cons in Hv.
  pose proof (proj1 Hn) as Hcs. remember (children_of n) as cs eqn:Hncs.
  destruct (wf_children_at vok k cs Hcs)
    as [l1 c l2 Hs Hk Hc Hl Hf Hfn Hput Hget|l1 l2 Hs Hf Hput Hget];
    rewrite Hf in Hh, Hv; [|done].
  rewrite Hs, bind_Ok_1, vec_remove_middle, bind_Ok_1.
  apply wf_child_iff in Hc as (Hci & Hcn & _). by rewrite Hop.
Qed.
End descend.

(** * The operations on nodes *)

Definition is_nil {A} (l : list A) : bool := match l with [] => true | _ => false end.

Section subscribed.
Context {V : Type} (cmp : V → V → comparison) (eqb : V → V → bool) `{!TotalOrder cmp}.

(** The discipline of the subscriptions of a filter: strictly sorted. *)
Definition sorted_values : list V → Prop := StronglySorted (cmp_lt cmp).

(** What unsubscribing leaves, and what it reports: (last, missing). *)
Definition value_del (v : V) (vs : list V) : list V :=
  match vs with [x] => if eqb x v then [] else [x] | _ => ordered_del cmp v vs end.
Definition del_report (v : V) (vs : list V) : bool * bool :=
  match vs with
  | [x] => if eqb x v then (true, false) else (false, true)
  | _ => (false, negb (ordered_mem cmp v vs))
  end.
Definition add_report (v : V) (vs : list V) : bool * bool := (is_nil vs, ordered_mem cmp v vs).

(** What the search answers, and what the vector becomes there. *)
Lemma value_search_spec v vs :
  sorted_values vs →
  match binary_search_by (λ x, Ok (cmp x v)) vs with
  | Ok (inl off) =>
      ordered_mem cmp v vs = true ∧ ordered_add cmp v vs = vs ∧
      ∃ x, vec_remove vs off = Ok (x, ordered_del cmp v vs)
  | Ok (inr off) =>
      ordered_mem cmp v vs = false ∧ ordered_del cmp v vs = vs ∧
      vec_insert vs off v = Ok (ordered_add cmp v vs)
  | _ => False
  end.
Proof.
  intros Hs. change (λ x, Ok (cmp x v)) with (value_search cmp v).
  destruct (value_split_at cmp v _ Hs) as [l1 y l2 H1 Hy H2|l1 l2 H1 H2].
  - rewrite binary_search_by_found, vec_remove_middle by done.
    rewrite ordered_mem_app, ordered_add_below, ordered_del_below by done.
    injection Hy as Hy. cbn. rewrite Hy, orb_true_r. eauto.
  - rewrite binary_search_by_missing, vec_insert_middle by done.
    rewrite ordered_mem_app, ordered_add_below, ordered_del_below by done.
    destruct (ordered_above cmp v l2 H2) as [-> ->].
    by rewrite (ordered_mem_answers cmp v Lt l1), (ordered_mem_answers cmp v Gt l2).
Qed.

Lemma insert_value_spec name cs vs v :
  sorted_values vs →
  insert_value cmp (Node.Child name cs vs) v
  = Ok (Node.Child name cs (ordered_add cmp v vs), add_report v vs).
Proof.
  intros Hs. pose proof (value_search_spec v vs Hs) as H. unfold add_report.
  destruct vs as [|x vs]; [done|]. unfold insert_value.
  destruct (binary_search_by _ _) as [[off|off]| | |]; [| |done..]; rewrite bind_Ok_1.
  - by destruct H as (-> & -> & _).
  - destruct H as (-> & _ & ->). by rewrite bind_Ok_1.
Qed.

Lemma remove_value_spec name cs vs v :
  sorted_values vs → vs ≠ [] →
  remove_value cmp eqb (Node.Child name cs vs) v
  = Ok (Node.Child name cs (value_del v vs), del_report v vs).
Proof.
  intros Hs Hne. pose proof (value_search_spec v vs Hs) as H.
  destruct vs as [|x [|y vs]]; [done|cbn; by destruct (eqb x v)|].
  unfold remove_value, value_del, del_report.
  destruct (binary_search_by _ _) as [[off|off]| | |]; [| |done..]; rewrite bind_Ok_1.
  - destruct H as (-> & _ & z & ->). by rewrite bind_Ok_1.
  - by destruct H as (-> & -> & _).
Qed.

Lemma value_del_sorted v vs : sorted_values vs → sorted_values (value_del v vs).
Proof.
  intros Hs. destruct vs as [|x [|y vs]]; cbn [value_del].
  - constructor.
  - destruct (eqb x v); [constructor|done].
  - by apply ordered_del_sorted.
Qed.

Lemma put_at_leaf {W} (F : list W → list W) name cs vs q :
  values_at q (Node.Child name cs (F vs)) = put_at F [] (Node.Child name cs vs) q.
Proof. by destruct q. Qed.

(** Subscribing adds the value at its path, and nothing else. *)
Lemma node_sub_updates p v :
  updates sorted_values (ordered_add cmp v) (add_report v) p (λ n, node_sub cmp p n v).
Proof.
  induction p as [|k p IH]; [|by apply descend_new_updates; [constructor|]].
  intros [|name cs vs] [Hcs Hvs] Hi; [by specialize (Hi eq_refl)|]. cbn [node_sub].
  rewrite insert_value_spec by done. eexists. split; [done|].
  split; [split; [done|by apply ordered_add_sorted]|].
  split; [right; apply ordered_add_nonempty|]. split; [done|]. apply put_at_leaf.
Qed.

(** Unsubscribing takes the value out at its path, and nothing else. *)
Lemma node_unsub_removes p v :
  removes sorted_values (value_del v) (del_report v) p (λ n, node_unsub cmp eqb p n v).
Proof.
  induction p as [|k p IH]; [|by apply descend_old_removes].
  intros [|name cs vs] [Hcs Hvs] Hi Hne; [by specialize (Hi eq_refl)|]. cbn [node_unsub].
  rewrite remove_value_spec, bind_Ok_1 by done.
  exists (Node.Child name cs (value_del v vs)).
  split; [split; [done|exact (value_del_sorted v vs Hvs)]|]. split; [done|].
  split; [apply put_at_leaf|]. cbn [is_child andb]. by destruct (is_empty _).
Qed.

Lemma node_unsub_absent p v n :
  wf_node sorted_values n → has_node p n = false →
  node_unsub cmp eqb p n v = Ok (Some n, (false, true)).
Proof.
  revert n. induction p as [|k p IH]; intros n Hn Hh; [done|]. cbn [node_unsub].
  apply (descend_old_absent sorted_values k p); auto.
Qed.

Lemma node_unsub_hollow p v n :
  wf_node sorted_values n → has_node p n = true → values_at p n = [] →
  node_unsub cmp eqb p n v = Panic.
Proof.
  revert n. induction p as [|k p IH]; intros n Hn Hh Hv.
  - destruct n as [|name cs vs]; [done|]. cbn in Hv. by subst.
  - cbn [node_unsub]. apply (descend_old_hollow sorted_values k p); auto.
Qed.
End subscribed.

Section retained.
Context {V : Type}.

(** The discipline of the message retained for a topic: one, or none. *)
Definition single_value (vs : list V) : Prop := length vs ≤ 1.

Lemma node_set_updates p v :
  updates single_value (λ _, [v]) is_nil p (λ n, node_set p n v).
Proof.
  induction p as [|k p IH]; [|apply descend_new_updates; [unfold single_value; cbn; lia|done]].
  intros [|name cs vs] [Hcs Hvs] Hi; [by specialize (Hi eq_refl)|].
  exists (Node.Child name cs [v]). split; [by destruct vs|].
  split; [split; [done|by unfold single_value; cbn]|].
  split; [by right|]. split; [done|]. apply (put_at_leaf (λ _, [v])).
Qed.

Lemma node_remove_removes p :
  removes single_value (λ _, []) (λ _, false) p (node_remove (V := V) p).
Proof.
  induction p as [|k p IH]; [|by apply descend_old_removes].
  intros [|name cs vs] [Hcs Hvs] Hi Hne; [by specialize (Hi eq_refl)|]. cbn [node_remove].
  cbn in Hvs. destruct vs as [|x [|y vs]]; [done| |unfold single_value in Hvs; cbn in Hvs; lia].
  exists (Node.Child name cs []).
  split; [split; [done|unfold single_value; cbn; lia]|]. split; [done|].
  split; [apply (put_at_leaf (λ _, []))|]. cbn. by destruct (_ && _).
Qed.

Lemma node_remove_absent p (n : Node V) :
  wf_node single_value n → has_node p n = false → node_remove p n = Ok (Some n, true).
Proof.
  revert n. induction p as [|k p IH]; intros n Hn Hh; [done|]. cbn [node_remove].
  apply (descend_old_absent single_value k p); auto.
Qed.

Lemma node_remove_hollow p (n : Node V) :
  wf_node single_value n → has_node p n = true → values_at p n = [] → node_remove p n = Panic.
Proof.
  revert n. induction p as [|k p IH]; intros n Hn Hh Hv.
  - destruct n as [|name cs vs]; [done|]. cbn in Hv. by subst.
  - cbn [node_remove]. apply (descend_old_hollow single_value k p); auto.
Qed.
End retained.

(** * Matching *)

(** When the levels of a key and the levels of a path match: [#] on either side, or
    [+], or the same level; a [#] ends the comparison, at a path that ends there. *)
Fixpoint path_match (ks p : list bytes) : bool :=
  match ks, p with
  | [], [] => true
  | k :: ks, l :: p =>
      match match_level k l with
      | (_, true) => is_nil p
      | (true, false) => path_match ks p
      | (false, false) => false
      end
  | _, _ => false
  end.

Definition leading_wildcard (p : list bytes) : bool :=
  match p with l :: _ => bool_decide (l = HASH ∨ l = PLUS) | [] => false end.

Section match_facts.
Context {V : Type}.
Implicit Types (n c : Node V) (cs : list (Node V)) (ks p : list bytes) (P : list bytes → bool).

(** All the values below a node with their paths, in the order of the trie. *)
Fixpoint below n : list (list bytes * V) :=
  map (λ v, ([], v)) (values_of n) ++
  match n with
  | Node.Root cs | Node.Child _ cs _ =>
      flat_map (λ c, map (λ e, (name_of c :: e.1, e.2)) (below c)) cs
  end.
Definition below_children cs : list (list bytes * V) :=
  flat_map (λ c, map (λ e, (name_of c :: e.1, e.2)) (below c)) cs.

Lemma below_unfold n :
  below n = map (λ v, ([], v)) (values_of n) ++ below_children (children_of n).
Proof. by destruct n. Qed.

(** The values whose path satisfies [P]. *)
Definition pick P : list bytes * V → option V := λ e, if P e.1 then Some e.2 else None.
Definition select P n : list V := omap (pick P) (below n).

Lemma pick_app P es1 es2 :
  omap (pick P) (es1 ++ es2) = omap (pick P) es1 ++ omap (pick P) es2.
Proof. apply omap_app. Qed.

Lemma pick_ext P Q (es : list (list bytes * V)) :
  (∀ p, P p = Q p) → omap (pick P) es = omap (pick Q) es.
Proof.
  intros H. induction es as [|e es IH]; cbn; [done|]. rewrite IH. unfold pick. by rewrite H.
Qed.

Lemma pick_none P (es : list (list bytes * V)) : (∀ p, P p = false) → omap (pick P) es = [].
Proof. intros H. induction es as [|e es IH]; cbn; [done|]. unfold pick at 1. by rewrite H. Qed.

Lemma pick_prefix P k (es : list (list bytes * V)) :
  omap (pick P) (map (λ e, (k :: e.1, e.2)) es) = omap (pick (λ p, P (k :: p))) es.
Proof. induction es as [|e es IH]; cbn; [done|]. by rewrite IH. Qed.

Lemma pick_here P (vs : list V) :
  omap (pick P) (map (λ v, ([], v)) vs) = if P [] then vs else [].
Proof.
  induction vs as [|v vs IH]; cbn; [by destruct (P [])|]. rewrite IH. unfold pick. cbn.
  by destruct (P []).
Qed.

Lemma pick_children P cs :
  omap (pick P) (below_children cs)
  = flat_map (λ c, select (λ p, P (name_of c :: p)) c) cs.
Proof.
  induction cs as [|c cs IH]; [done|]. change (below_children (c :: cs)) with
    (map (λ e, (name_of c :: e.1, e.2)) (below c) ++ below_children cs).
  by rewrite pick_app, pick_prefix, IH.
Qed.

Lemma select_unfold P n :
  select P n
  = (if P [] then values_of n else []) ++
    flat_map (λ c, select (λ p, P (name_of c :: p)) c) (children_of n).
Proof. unfold select. by rewrite below_unfold, pick_app, pick_here, pick_children. Qed.

Lemma select_nil n : select is_nil n = values_of n.
Proof.
  rewrite select_unfold. cbn. rewrite <- (app_nil_r (values_of n)) at 2. f_equal.
  induction (children_of n) as [|c cs IH]; cbn; [done|]. rewrite IH. unfold select.
  by rewrite pick_none.
Qed.

Context (vok : list V → Prop).

(** One turn of the loop: what the child adds. *)
Lemma match_children_cons k ks dollar c cs acc :
  wf_child vok c → match_topic ks c dollar = Ok (Some (select (path_match ks) c)) →
  match_children k (λ c, match_topic ks c dollar) (c :: cs) acc
  = match_children k (λ c, match_topic ks c dollar) cs
      (acc ++ select (λ p, path_match (k :: ks) (name_of c :: p)) c).
Proof.
  intros [name cs' vs _ _ _ _] Hks. unfold match_children; fold (match_children (V := V) k).
  cbn [as_name name_of]. rewrite bind_Ok_1. cbn [path_match].
  destruct (match_level k name) as [[] []].
  - rewrite bind_Ok_1. by rewrite select_nil.
  - rewrite Hks, !bind_Ok_1. done.
  - rewrite bind_Ok_1. by rewrite select_nil.
  - rewrite bind_Ok_1. unfold select at 1. by rewrite pick_none, app_nil_r.
Qed.

Lemma match_children_spec k ks dollar cs acc :
  Forall (wf_child vok) cs →
  (∀ c, wf_child vok c → match_topic ks c dollar = Ok (Some (select (path_match ks) c))) →
  match_children k (λ c, match_topic ks c dollar) cs acc
  = Ok (acc ++ flat_map (λ c, select (λ p, path_match (k :: ks) (name_of c :: p)) c) cs).
Proof.
  intros Hcs Hks. revert acc. induction Hcs as [|c cs Hc Hcs IH]; intros acc.
  - cbn. by rewrite app_nil_r.
  - rewrite match_children_cons by auto. rewrite IH. cbn [flat_map]. by rewrite app_assoc.
Qed.

Lemma match_topic_child ks c dollar :
  wf_child vok c → match_topic ks c dollar = Ok (Some (select (path_match ks) c)).
Proof.
  revert c. induction ks as [|k ks IH]; intros c Hc.
  - destruct Hc as [name cs vs]. cbn [match_topic]. do 2 f_equal. symmetry. apply select_nil.
  - rewrite select_unfold. cbn [path_match app].
    destruct Hc as [name cs vs Hs Hcs Hv Hf]. cbn [match_topic children_of]. rewrite bind_Ok_1.
    by rewrite match_children_spec.
Qed.

(** ** At the root *)

Definition is_wildcard n : bool := bool_decide (name_of n = HASH ∨ name_of n = PLUS).

Lemma filter_wildcards_spec cs :
  Forall (wf_child vok) cs →
  filter_wildcards cs = Ok (List.filter (λ c, negb (is_wildcard c)) cs).
Proof.
  induction 1 as [|c cs [name cs' vs _ _ _ _] _ IH]; [done|]. cbn [filter_wildcards as_name].
  rewrite bind_Ok_1, IH, bind_Ok_1. cbn [List.filter]. unfold is_wildcard. cbn [name_of].
  by destruct (bool_decide _).
Qed.

(** The paths a topic name matches among the filters: those that match level by
    level, except, at the root, a leading wildcard. *)
Definition root_match (dollar : bool) (ks p : list bytes) : bool :=
  path_match ks p && negb (dollar && leading_wildcard p).

Lemma select_filtered (f : Node V → bool) (P : bytes → list bytes → bool) cs :
  flat_map (λ c, select (P (name_of c)) c) (List.filter f cs)
  = flat_map (λ c, select (λ p, P (name_of c) p && f c) c) cs.
Proof.
  induction cs as [|c cs IH]; [done|]. cbn [flat_map List.filter].
  destruct (f c) eqn:Hf; cbn [flat_map]; rewrite IH; f_equal.
  - apply pick_ext. intros p. by rewrite andb_true_r.
  - unfold select. rewrite (pick_none _ (below c)); [done|]. intros p. apply andb_false_r.
Qed.

Lemma match_topic_root k ks n dollar :
  wf_root vok n →
  match_topic (k :: ks) n dollar = Ok (Some (select (root_match dollar (k :: ks)) n)).
Proof.
  intros [Hi [Hs Hcs]]. destruct n as [cs|]; [|done]. cbn [children_of] in *.
  assert (∀ c, wf_child vok c → match_topic ks c dollar = Ok (Some (select (path_match ks) c)))
    as IH by (intros; by apply match_topic_child).
  rewrite select_unfold. cbn [match_topic children_of]. destruct dollar.
  - rewrite filter_wildcards_spec, bind_Ok_1 by done.
    rewrite match_children_spec, bind_Ok_1; [| |done].
    2: { apply Forall_forall. intros c Hc%list_elem_of_In. apply filter_In in Hc as [Hc _].
         apply list_elem_of_In in Hc. by eapply Forall_forall in Hcs. }
    do 3 f_equal. apply (select_filtered _ (λ name p, path_match (k :: ks) (name :: p))).
  - rewrite bind_Ok_1, match_children_spec, bind_Ok_1 by done. cbn [app values_of].
    do 2 f_equal. unfold root_match. cbn [andb negb].
    cbn [path_match andb app]. clear. induction cs as [|c cs IH]; [done|]. cbn [flat_map].
    rewrite <- IH. f_equal. apply pick_ext. intros p. cbn [path_match]. by rewrite andb_true_r.
Qed.

(** ** What is selected *)

Lemma find_child_elem cs c : wf_children vok cs → c ∈ cs → find_child (name_of c) cs = Some c.
Proof.
  intros [Hs _]. induction Hs as [|x cs Hs IH Hx]; [by intros ?%elem_of_nil|].
  intros [->|Hc]%elem_of_cons; cbn; [by rewrite bool_decide_eq_true_2|].
  rewrite bool_decide_eq_false_2; [by apply IH|]. intros E.
  eapply Forall_forall in Hx; [|exact Hc]. unfold name_lt in Hx.
  by rewrite E, (cmp_refl str_cmp) in Hx.
Qed.

Lemma elem_of_below_children p v cs :
  (p, v) ∈ below_children cs ↔ ∃ c p', c ∈ cs ∧ p = name_of c :: p' ∧ (p', v) ∈ below c.
Proof.
  induction cs as [|c cs IH]; cbn.
  - split; [by intros ?%elem_of_nil|]. by intros (? & ? & ?%elem_of_nil & _).
  - fold (below_children cs). rewrite elem_of_app, IH, list_elem_of_fmap. split.
    + intros [([p' v'] & [= -> ->] & H)|(c' & p' & Hc & Hp & H)].
      * exists c, p'. split; [by left|done].
      * exists c', p'. split; [by right|done].
    + intros (c' & p' & [->|Hc]%elem_of_cons & -> & H).
      * left. by exists (p', v).
      * right. by exists c', p'.
Qed.

Lemma elem_of_below p v n : wf_node vok n → (p, v) ∈ below n ↔ v ∈ values_at p n.
Proof.
  revert n. induction p as [|k p IH]; intros n [Hcs Hvs].
  - rewrite below_unfold, elem_of_app, elem_of_below_children, list_elem_of_fmap. cbn. split.
    + by intros [(v' & [= ->] & H)|(? & ? & _ & ? & _)].
    + intros H. left. by exists v.
  - rewrite below_unfold, elem_of_app, elem_of_below_children, list_elem_of_fmap. cbn. split.
    + intros [(v' & ? & _)|(c & p' & Hc & [= -> ->] & H)]; [done|].
      rewrite (find_child_elem _ c Hcs Hc). apply IH in H; [done|].
      destruct Hcs as [_ Hw]. eapply Forall_forall in Hw; [|exact Hc].
      by apply wf_child_iff in Hw as (_ & ? & _).
    + destruct (find_child k (children_of n)) as [c|] eqn:Hf; [|by intros ?%elem_of_nil].
      apply find_child_some in Hf as [Hc <-]. intros Hv. right. exists c, p.
      split; [done|]. split; [done|]. apply IH; [|done].
      destruct Hcs as [_ Hw]. eapply Forall_forall in Hw; [|exact Hc].
      by apply wf_child_iff in Hw as (_ & ? & _).
Qed.

Lemma elem_of_select P n v :
  wf_node vok n → v ∈ select P n ↔ ∃ p, P p = true ∧ v ∈ values_at p n.
Proof.
  intros Hn. unfold select. rewrite list_elem_of_omap. split.
  - intros ([p v'] & Hin & Hp). unfold pick in Hp. cbn in Hp. exists p.
    destruct (P p); [|done]. injection Hp as ->. split; [done|]. by apply elem_of_below.
  - intros (p & Hp & Hv). exists (p, v). split; [by apply elem_of_below|].
    unfold pick. cbn. by rewrite Hp.
Qed.

Lemma values_at_vok p n : vok [] → wf_node vok n → vok (values_at p n).
Proof.
  intros Hnil. revert n. induction p as [|k p IH]; intros n [[_ Hcs] Hv]; [done|]. cbn.
  destruct (find_child k (children_of n)) as [c|] eqn:Hf; [|done].
  apply find_child_some in Hf as [Hc _]. eapply Forall_forall in Hcs; [|exact Hc].
  apply IH. by apply wf_child_iff in Hcs as (_ & ? & _).
Qed.

(** ** Exactly one path *)

Lemma pick_ext_in P Q (es : list (list bytes * V)) :
  (∀ e, e ∈ es → P e.1 = Q e.1) → omap (pick P) es = omap (pick Q) es.
Proof.
  induction es as [|e es IH]; intros H; cbn; [done|].
  rewrite IH by (intros e' He'; apply H; by right). unfold pick. by rewrite (H e ltac:(by left)).
Qed.

Definition at_path (ks p : list bytes) : bool := bool_decide (p = ks).

(** The values of one path are the ones kept there. *)
Lemma select_exact ks n : wf_node vok n → select (at_path ks) n = values_at ks n.
Proof.
  revert n. induction ks as [|k ks IH]; intros n Hn; rewrite select_unfold.
  - cbn [values_at]. rewrite <- (app_nil_r (values_of n)) at 2. unfold at_path at 1. cbn. f_equal.
    induction (children_of n) as [|c cs IH]; cbn; [done|]. rewrite IH. unfold select.
    rewrite pick_none; [done|]. intros p. unfold at_path. by rewrite bool_decide_eq_false_2.
  - unfold at_path at 1. cbn [values_at]. rewrite bool_decide_eq_false_2 by done. cbn [app].
    destruct Hn as [[Hs Hw] _]. induction Hs as [|c cs Hs IHs Hc]; [done|].
    apply Forall_cons in Hw as [Hwc Hw]. apply wf_child_iff in Hwc as (_ & Hnc & _).
    cbn [flat_map find_child]. destruct (bool_decide_reflect (name_of c = k)) as [<-|Hk].
    + rewrite <- IH by done. rewrite <- (app_nil_r (select (at_path ks) c)). f_equal.
      * apply pick_ext. intros p. unfold at_path. apply bool_decide_ext. naive_solver.
      * rewrite IHs by done. destruct (find_child (name_of c) cs) as [c'|] eqn:Hf; [|done].
        apply find_child_some in Hf as [Hc' Hn']. eapply Forall_forall in Hc; [|exact Hc'].
        unfold name_lt in Hc. by rewrite Hn', (cmp_refl str_cmp) in Hc.
    + rewrite IHs by done. unfold select at 1. rewrite pick_none; [done|].
      intros p. unfold at_path. rewrite bool_decide_eq_false_2; [done|]. congruence.
Qed.

Lemma pick_two P (es : list (list bytes * V)) p1 v1 p2 v2 :
  (p1, v1) ∈ es → (p2, v2) ∈ es → p1 ≠ p2 → P p1 = true → P p2 = true →
  2 ≤ length (omap (pick P) es).
Proof.
  intros (l1 & l2 & ->)%list_elem_of_split H2 Hne H1' H2'.
  assert (∀ l p v, (p, v) ∈ l → P p = true → 1 ≤ length (omap (pick P) l)) as Hone.
  { intros l p v H Hp. assert (v ∈ omap (pick P) l) as Hv.
    { apply list_elem_of_omap. exists (p, v). split; [done|]. unfold pick. cbn. by rewrite Hp. }
    destruct (omap (pick P) l); [by apply elem_of_nil in Hv|cbn; lia]. }
  rewrite pick_app, length_app. cbn. unfold pick at 2. cbn. rewrite H1'. cbn.
  apply elem_of_app in H2 as [H2|H2].
  - pose proof (Hone _ _ _ H2 H2'). lia.
  - apply elem_of_cons in H2 as [[= -> ->]|H2]; [done|]. pose proof (Hone _ _ _ H2 H2'). lia.
Qed.

(** What a selection is when its path is unique, and conversely. *)
Lemma select_only P p n :
  wf_node vok n → (∀ q, P q = true → values_at q n ≠ [] → q = p) → P p = true →
  select P n = values_at p n.
Proof.
  intros Hn Hp Hpp. rewrite <- select_exact by done. apply pick_ext_in. intros [q v] He. cbn.
  apply elem_of_below in He; [|done]. unfold at_path. destruct (P q) eqn:Hq.
  - rewrite bool_decide_eq_true_2; [done|]. apply Hp; [done|]. by intros E; rewrite E in He; apply elem_of_nil in He.
  - rewrite bool_decide_eq_false_2; [done|]. intros ->. congruence.
Qed.

Lemma select_singleton P n v :
  wf_node vok n → select P n = [v] →
  ∃ p, P p = true ∧ v ∈ values_at p n ∧ ∀ q, P q = true → values_at q n ≠ [] → q = p.
Proof.
  intros Hn Hs. assert (v ∈ select P n) as Hv by (rewrite Hs; by left).
  apply elem_of_select in Hv as (p & Hp & Hv); [|done]. exists p. split; [done|]. split; [done|].
  intros q Hq Hne. destruct (decide (q = p)) as [|Hqp]; [done|].
  destruct (values_at q n) as [|w ws] eqn:E; [done|].
  assert (2 ≤ length (select P n)); [|rewrite Hs in *; cbn in *; lia].
  apply (pick_two P _ q w p v); try done; apply elem_of_below; try done. rewrite E. by left.
Qed.
End match_facts.

(** * Nodes without values

    Every branch of a well-formed trie carries a value, so that there is a node at a
    path exactly when a value is kept at or below it. *)
Section inhabited.
Context {V : Type} (vok : list V → Prop).
Implicit Types (n c : Node V) (p q : list bytes).

Lemma wf_child_inhabited : ∀ c, wf_child vok c → ∃ q, values_at q c ≠ [].
Proof.
  fix IH 2. intros c [name cs vs _ Hcs _ Hf]. destruct vs as [|v vs]; [|by exists []].
  destruct Hf as [Hf|]; [|done]. destruct Hcs as [|c' cs Hc _]; [done|].
  destruct (IH c' Hc) as [q Hq]. exists (name_of c' :: q). cbn.
  by rewrite bool_decide_eq_true_2.
Qed.

Lemma has_node_iff p n :
  wf_node vok n → has_node p n = true ↔ p = [] ∨ ∃ q, values_at (p ++ q) n ≠ [].
Proof.
  revert n. induction p as [|k p IH]; intros n [[_ Hcs] _]; cbn; [by split; auto|].
  destruct (find_child k (children_of n)) as [c|] eqn:Hf; cbn.
  - apply find_child_some in Hf as [Hc _]. eapply Forall_forall in Hcs; [|exact Hc].
    pose proof (wf_child_inhabited c Hcs) as Hq.
    apply wf_child_iff in Hcs as (_ & Hn & _). rewrite (IH c Hn). split.
    + intros [->|H]; by right.
    + intros [?|H]; [done|by right].
  - split; [done|]. by intros [?|[q []]].
Qed.

(** At a path, a well-formed node holds values, holds nothing at all, or holds
    values below only. *)
Lemma node_cases p n :
  wf_node vok n → p ≠ [] →
  values_at p n ≠ [] ∨
  (has_node p n = false ∧ ∀ q, values_at (p ++ q) n = []) ∨
  (has_node p n = true ∧ values_at p n = [] ∧ ∃ q, values_at (p ++ q) n ≠ []).
Proof.
  intros Hn Hp. pose proof (has_node_iff p n Hn) as H. destruct (has_node p n).
  - destruct (values_at p n) eqn:E; [|by left]. do 2 right. split; [done|]. split; [done|].
    by destruct (proj1 H eq_refl).
  - right. left. split; [done|]. intros q. destruct (values_at (p ++ q) n) eqn:E; [done|].
    discriminate (proj2 H). right. exists q. by rewrite E.
Qed.
End inhabited.

(** * The tries, as maps from paths to values *)

Definition put {V} (m : list bytes → list V) (p : list bytes) (vs : list V)
    : list bytes → list V := λ q, if bool_decide (q = p) then vs else m q.

(** The trie keeps the values [m] gives, under its discipline. *)
Definition trie_as {V} (vok : list V → Prop) (t : Inner V) (m : list bytes → list V) : Prop :=
  wf_root vok (Inner.root t) ∧ ∀ p, values_at p (Inner.root t) = m p.
Abbreviation subscribed_as := (trie_as (sorted_values Subscription_cmp)).
Abbreviation retained_as := (trie_as (single_value (V := Publish))).

Section trie_as.
Context {V R : Type} (vok : list V → Prop) (vok_nil : vok []).
Implicit Types (t : Inner V) (m : list bytes → list V) (p : list bytes).

Lemma trie_as_node t m : trie_as vok t m → wf_node vok (Inner.root t).
Proof. intros [H _]. by apply wf_node_root. Qed.

Lemma trie_as_root t : wf_root vok (Inner.root t) → trie_as vok t (λ p, values_at p (Inner.root t)).
Proof. by split. Qed.

Lemma root_head (n n' : Node V) :
  head_of n' = head_of n → is_child n = false → is_child n' = false.
Proof. by destruct n, n'. Qed.

Lemma updates_root F (G : list V → R) p op t m :
  updates vok F G p op → trie_as vok t m → p ≠ [] →
  ∃ root, op (Inner.root t) = Ok (root, G (m p)) ∧
    ∀ stats, trie_as vok (Inner.mk stats root) (put m p (F (m p))).
Proof.
  intros Hop Ht Hp. pose proof (trie_as_node t m Ht) as Hn. destruct Ht as [[Hi Hc] Hm].
  destruct (Hop _ Hn) as (n' & Ho & [Hc' _] & _ & Hh & Hv); [done|].
  rewrite Hm in Ho. exists n'. split; [done|]. intros stats. split; cbn.
  - split; [by apply (root_head (Inner.root t))|done].
  - intros q. rewrite Hv. unfold put_at, put. by rewrite !Hm.
Qed.

Lemma removes_root F (G : list V → R) p op t m :
  removes vok F G p op → trie_as vok t m → p ≠ [] → m p ≠ [] →
  ∃ root, op (Inner.root t) = Ok (Some root, G (m p)) ∧
    ∀ stats, trie_as vok (Inner.mk stats root) (put m p (F (m p))).
Proof.
  intros Hop Ht Hp Hne. pose proof (trie_as_node t m Ht) as Hn. destruct Ht as [[Hi Hc] Hm].
  rewrite <- (Hm p) in Hne.
  destruct (Hop _ Hn ltac:(done) Hne) as (n' & [Hc' _] & Hh & Hv & Ho).
  rewrite Hi in Ho. cbn in Ho. rewrite Hm in Ho. exists n'. split; [done|].
  intros stats. split; cbn.
  - split; [by apply (root_head (Inner.root t))|done].
  - intros q. rewrite Hv. unfold put_at, put. by rewrite !Hm.
Qed.
End trie_as.

Lemma trie_as_ext {V} (vok : list V → Prop) t t' m m' :
  Inner.root t' = Inner.root t → (∀ p, m p = m' p) → trie_as vok t m → trie_as vok t' m'.
Proof. intros E H [? Hm]. unfold trie_as. rewrite E. split; [done|]. intros p. by rewrite Hm. Qed.

(** * The operations on tries *)

Section tries.
Implicit Types (p : list bytes).

Lemma sorted_nil : sorted_values Subscription_cmp [].
Proof. constructor. Qed.

(** What the statistics become. *)
Definition count_add (first rep : bool) (s : Stats) : Stats :=
  Stats.mk (if first then sat_inc (Stats.count s) else Stats.count s)
           (if rep then sat_inc (Stats.repeat s) else Stats.repeat s)
           (Stats.missing s) (Stats.lookups s) (Stats.hits s).
Definition count_del (last missing : bool) (s : Stats) : Stats :=
  Stats.mk (if last then sat_dec (Stats.count s) else Stats.count s)
           (Stats.repeat s)
           (if missing then sat_dec (Stats.missing s) else Stats.missing s)
           (Stats.lookups s) (Stats.hits s).
Definition count_match (s : Stats) : Stats :=
  Stats.mk (Stats.count s) (Stats.repeat s) (Stats.missing s)
           (sat_inc (Stats.lookups s)) (sat_inc (Stats.hits s)).

Lemma subscribe_step t m p s :
  subscribed_as t m → p ≠ [] →
  ∃ t', SubscribedTrie_subscribe t p s = Ok t' ∧
    subscribed_as t' (put m p (ordered_add Subscription_cmp s (m p))) ∧
    Inner.stats t' = count_add (is_nil (m p)) (ordered_mem Subscription_cmp s (m p))
                       (Inner.stats t).
Proof.
  intros Ht Hp. unfold SubscribedTrie_subscribe. cbv zeta.
  destruct (updates_root _ sorted_nil _ _ p _ t m (node_sub_updates _ p s) Ht Hp)
    as (root & -> & Hr).
  rewrite bind_Ok_1. unfold add_report. eexists. split; [done|]. split; [apply Hr|done].
Qed.

Lemma unsubscribe_step t m p s :
  subscribed_as t m → p ≠ [] → m p ≠ [] →
  ∃ t', SubscribedTrie_unsubscribe t p s = Ok t' ∧
    subscribed_as t' (put m p (value_del Subscription_cmp Subscription_eqb s (m p))) ∧
    Inner.stats t' = (let '(last, missing) := del_report Subscription_cmp Subscription_eqb s (m p)
                      in count_del last missing (Inner.stats t)).
Proof.
  intros Ht Hp Hne. unfold SubscribedTrie_unsubscribe. cbv zeta.
  destruct (removes_root _ sorted_nil _ _ p _ t m (node_unsub_removes _ Subscription_eqb p s) Ht Hp Hne)
    as (root & -> & Hr).
  rewrite bind_Ok_1. destruct (del_report _ _ _ _) as [last missing]. rewrite bind_Ok_1.
  eexists. split; [done|]. split; [apply Hr|done].
Qed.

Lemma unsubscribe_cases t m p s :
  subscribed_as t m → p ≠ [] → m p = [] →
  (∀ q, m (p ++ q) = []) ∧
    SubscribedTrie_unsubscribe t p s
    = Ok (Inner.mk (count_del false true (Inner.stats t)) (Inner.root t)) ∨
  (∃ q, m (p ++ q) ≠ []) ∧ SubscribedTrie_unsubscribe t p s = Panic.
Proof.
  intros Ht Hp He. pose proof (trie_as_node _ sorted_nil t m Ht) as Hn. destruct Ht as [_ Hm].
  unfold SubscribedTrie_unsubscribe. cbv zeta.
  destruct (node_cases _ p _ Hn Hp) as [Hv|[[Hh Hv]|(Hh & Hv & q & Hq)]].
  - by rewrite Hm in Hv.
  - left. split; [intros q; by rewrite <- Hm|]. rewrite node_unsub_absent by done.
    by rewrite !bind_Ok_1.
  - right. split; [exists q; by rewrite <- Hm|]. by rewrite node_unsub_hollow by done.
Qed.

Lemma match_step t m k ks :
  subscribed_as t m →
  SubscribedTrie_match_topic_name t (k :: ks)
  = Ok (Inner.mk (count_match (Inner.stats t)) (Inner.root t),
        select (root_match true (k :: ks)) (Inner.root t)).
Proof.
  intros [Hw _]. unfold SubscribedTrie_match_topic_name. cbv zeta.
  by rewrite (match_topic_root _ _ _ _ true Hw).
Qed.

Lemma elem_of_selected {V} (vok : list V → Prop) t m P v :
  vok [] → trie_as vok t m → v ∈ select P (Inner.root t) ↔ ∃ p, P p = true ∧ v ∈ m p.
Proof.
  intros Hv Ht. rewrite (elem_of_select vok) by exact (trie_as_node _ Hv t m Ht).
  destruct Ht as [_ Hm]. by setoid_rewrite Hm.
Qed.

(** ** Retained messages *)

Lemma single_nil : single_value (V := Publish) [].
Proof. unfold single_value. cbn. lia. Qed.

Lemma set_step t m p v :
  retained_as t m → p ≠ [] →
  ∃ t', RetainedTrie_set t p v = Ok t' ∧ retained_as t' (put m p [v]) ∧
    Inner.stats t' = count_add (is_nil (m p)) false (Inner.stats t).
Proof.
  intros Ht Hp. unfold RetainedTrie_set. cbv zeta.
  destruct (updates_root _ single_nil _ _ p _ t m (node_set_updates p v) Ht Hp) as (root & -> & Hr).
  rewrite bind_Ok_1. eexists. split; [done|]. split; [apply Hr|done].
Qed.

Lemma remove_step t m p :
  retained_as t m → p ≠ [] → m p ≠ [] →
  ∃ t', RetainedTrie_remove t p = Ok t' ∧ retained_as t' (put m p []) ∧
    Inner.stats t' = count_del true false (Inner.stats t).
Proof.
  intros Ht Hp Hne. unfold RetainedTrie_remove. cbv zeta.
  destruct (removes_root _ single_nil _ _ p _ t m (node_remove_removes p) Ht Hp Hne)
    as (root & -> & Hr).
  rewrite !bind_Ok_1. eexists. split; [done|]. split; [apply Hr|done].
Qed.

Lemma remove_cases t m p :
  retained_as t m → p ≠ [] → m p = [] →
  (∀ q, m (p ++ q) = []) ∧
    RetainedTrie_remove t p
    = Ok (Inner.mk (count_del false true (Inner.stats t)) (Inner.root t)) ∨
  (∃ q, m (p ++ q) ≠ []) ∧ RetainedTrie_remove t p = Panic.
Proof.
  intros Ht Hp He. pose proof (trie_as_node _ single_nil t m Ht) as Hn. destruct Ht as [_ Hm].
  unfold RetainedTrie_remove. cbv zeta.
  destruct (node_cases _ p _ Hn Hp) as [Hv|[[Hh Hv]|(Hh & Hv & q & Hq)]].
  - by rewrite Hm in Hv.
  - left. split; [intros q; by rewrite <- Hm|]. rewrite node_remove_absent by done.
    by rewrite !bind_Ok_1.
  - right. split; [exists q; by rewrite <- Hm|]. by rewrite node_remove_hollow by done.
Qed.

Lemma match_filter_step t m k ks :
  retained_as t m →
  RetainedTrie_match_topic_filter t (k :: ks)
  = match select (root_match false (k :: ks)) (Inner.root t) with
    | [v] => Ok (Inner.mk (count_match (Inner.stats t)) (Inner.root t), Some v)
    | _ => Panic
    end.
Proof.
  intros [Hw _]. unfold RetainedTrie_match_topic_filter. cbv zeta.
  rewrite (match_topic_root _ _ _ _ false Hw), bind_Ok_1. by destruct (select _ _) as [|v [|]].
Qed.
End tries.
