(* ===== verification/TtrieTheorems.v ===== *)
(** The properties of the tries of [Ttrie]: the trie of subscriptions refines a map
    from filters to subscriptions, over any sequence of operations; matching is the
    matching of MQTT, level by level; and where the code departs from it. *)

From S2P Require Import Prelude Error Util Codec Types V5 PublishPacket SubPackets Packets.
From S2P Require Import Ttrie TtrieFacts.

(** * The abstract machine

    Subscriptions by filter.  The concrete machine runs the trie; an answer is the
    list of the subscriptions that match, in any order. *)
Inductive trie_op :=
| Subscribe_op (f : TopicFilter) (s : Subscription)
| Unsubscribe_op (f : TopicFilter) (s : Subscription)
| Match_op (t : TopicName).

Definition trie_step (t : Inner Subscription) (op : trie_op)
    : Result (Inner Subscription * list Subscription) :=
  match op with
  | Subscribe_op f s =>
      t ← SubscribedTrie_subscribe t (TopicFilter_iter_topic_path f) s; Ok (t, [])
  | Unsubscribe_op f s =>
      t ← SubscribedTrie_unsubscribe t (TopicFilter_iter_topic_path f) s; Ok (t, [])
  | Match_op n => SubscribedTrie_match_topic_name t (TopicName_iter_topic_path n)
  end.

Fixpoint trie_run (t : Inner Subscription) (ops : list trie_op)
    : Result (Inner Subscription * list (list Subscription)) :=
  match ops with
  | [] => Ok (t, [])
  | op :: ops =>
      '(t, out) ← trie_step t op;
      '(t, outs) ← trie_run t ops;
      Ok (t, out :: outs)
  end.

Abbreviation subscriptions := (list bytes → list Subscription).

Definition spec_next (m : subscriptions) (op : trie_op) : subscriptions :=
  match op with
  | Subscribe_op f s =>
      let p := TopicFilter_iter_topic_path f in put m p (ordered_add Subscription_cmp s (m p))
  | Unsubscribe_op f s =>
      let p := TopicFilter_iter_topic_path f in
      put m p (value_del Subscription_cmp Subscription_eqb s (m p))
  | Match_op _ => m
  end.

(** Unsubscribing is defined at a filter with subscriptions, and at one with none at
    it or below it. *)
Definition spec_defined (m : subscriptions) (op : trie_op) : Prop :=
  match op with
  | Unsubscribe_op f _ =>
      let p := TopicFilter_iter_topic_path f in m p ≠ [] ∨ ∀ q, m (p ++ q) = []
  | _ => True
  end.

Definition spec_out (m : subscriptions) (op : trie_op) (out : list Subscription) : Prop :=
  match op with
  | Match_op n =>
      ∀ s, s ∈ out ↔ ∃ p, root_match true (TopicName_iter_topic_path n) p = true ∧ s ∈ m p
  | _ => out = []
  end.

Fixpoint spec_all_defined (m : subscriptions) (ops : list trie_op) : Prop :=
  match ops with
  | [] => True
  | op :: ops => spec_defined m op ∧ spec_all_defined (spec_next m op) ops
  end.
Fixpoint spec_outs (m : subscriptions) (ops : list trie_op) (outs : list (list Subscription))
    : Prop :=
  match ops, outs with
  | [], [] => True
  | op :: ops, out :: outs => spec_out m op out ∧ spec_outs (spec_next m op) ops outs
  | _, _ => False
  end.

Lemma filter_path_not_nil f : TopicFilter_iter_topic_path f ≠ [].
Proof. apply split_slash_not_nil. Qed.

Lemma put_same {V} (m : list bytes → list V) p : m p = [] → ∀ q, m q = put m p [] q.
Proof. intros H q. unfold put. case_bool_decide; by subst. Qed.

(** One step of the trie is one step of the map. *)
Lemma trie_step_refines t m op :
  subscribed_as t m → spec_defined m op →
  ∃ t' out, trie_step t op = Ok (t', out) ∧ subscribed_as t' (spec_next m op) ∧ spec_out m op out.
Proof.
  intros Ht Hd. destruct op as [f s|f s|n]; cbn in Hd |- *.
  - destruct (subscribe_step t m _ s Ht (filter_path_not_nil f)) as (t' & -> & H & _).
    by exists t', [].
  - destruct (m (TopicFilter_iter_topic_path f)) as [|s' ss] eqn:E.
    + destruct (unsubscribe_cases t m _ s Ht (filter_path_not_nil f) E) as [[_ ->]|[[q Hq] _]].
      * do 2 eexists. split; [done|]. split; [|done].
        eapply trie_as_ext; [|apply (put_same m _ E)|exact Ht]. done.
      * destruct Hd as [Hd|Hd]; [done|]. by rewrite Hd in Hq.
    + destruct (unsubscribe_step t m _ s Ht (filter_path_not_nil f)) as (t' & -> & H & _).
      { by rewrite E. }
      rewrite E in H. by exists t', [].
  - destruct (TopicName_iter_topic_path n) as [|k ks] eqn:E.
    { by destruct (split_slash_not_nil (topic_name_str n)). }
    rewrite (match_step t m k ks Ht). do 2 eexists. split; [done|].
    split; [by eapply trie_as_ext|]. intros s.
    exact (elem_of_selected _ t m _ s sorted_nil Ht).
Qed.

Lemma default_as : subscribed_as SubscribedTrie_default (λ _, []).
Proof. split; [by split; [|split; constructor]|]. by intros [|]. Qed.

(** * The matching of MQTT *)

(** Topic filters as MQTT 4.7 defines them: [+] stands for one level, a final [#] for
    any number of levels, the parent included. *)
Inductive mqtt_match : list bytes → list bytes → Prop :=
| mqtt_end : mqtt_match [] []
| mqtt_multi ts : mqtt_match ts [HASH]
| mqtt_single t ts fs : mqtt_match ts fs → mqtt_match (t :: ts) (PLUS :: fs)
| mqtt_level t ts fs : mqtt_match ts fs → mqtt_match (t :: ts) (t :: fs).

Lemma hash_last f fs : (∀ i, (f :: fs) !! i = Some HASH → S i = length (f :: fs)) →
  (f = HASH → fs = []) ∧ (∀ i, fs !! i = Some HASH → S i = length fs).
Proof.
  intros H. split.
  - intros ->. specialize (H 0 eq_refl). cbn in H. by destruct fs.
  - intros i Hi. specialize (H (S i) Hi). cbn in H. lia.
Qed.

(** The comparison of the code is that matching, but for the parent level. *)
Lemma path_match_mqtt ts fs :
  (∀ l, l ∈ ts → l ≠ HASH ∧ l ≠ PLUS) → (∀ i, fs !! i = Some HASH → S i = length fs) →
  path_match ts fs = true ↔ mqtt_match ts fs ∧ length fs ≤ length ts.
Proof.
  revert fs. induction ts as [|t ts IH]; intros fs Ht Hf.
  - destruct fs as [|f fs]; cbn; [split; [by repeat constructor|done]|].
    split; [done|]. intros [_ ?]. lia.
  - destruct fs as [|f fs]; cbn; [split; [done|by intros [H _]; inversion H]|].
    destruct (Ht t ltac:(by left)) as [Hh Hp]. apply hash_last in Hf as [Hlast Hf].
    specialize (IH fs ltac:(intros l Hl; apply Ht; by right) Hf).
    unfold match_level. rewrite (bool_decide_eq_false_2 (t = HASH)) by done.
    rewrite (bool_decide_eq_false_2 (t = PLUS)) by done.
    destruct (bool_decide_reflect (f = HASH)) as [->|Hfh].
    { rewrite (Hlast eq_refl). split; [|done]. intros _. split; [constructor|cbn; lia]. }
    destruct (bool_decide_reflect (f = PLUS)) as [->|Hfp].
    { rewrite IH. split.
      - intros [? ?]. split; [by constructor|lia].
      - intros [H ?]. inversion H; subst; [|done]. split; [done|lia]. }
    destruct (bool_decide_reflect (t = f)) as [->|Htf].
    + rewrite IH. split.
      * intros [? ?]. split; [by constructor|lia].
      * intros [H ?]. inversion H; subst; try done. split; [done|lia].
    + split; [done|]. intros [H _]. by inversion H.
Qed.

(** What a key can be: the levels of a filter that passed the validation. *)
Definition checked_paths (m : subscriptions) : Prop :=
  ∀ p, m p ≠ [] → ∃ f, TopicFilter_validate f = Ok () ∧ TopicFilter_iter_topic_path f = p.

Lemma root_match_mqtt m n p s :
  checked_paths m → checked_TopicName n → s ∈ m p →
  root_match true (TopicName_iter_topic_path n) p = true ↔
  mqtt_match (TopicName_iter_topic_path n) p ∧
  length p ≤ length (TopicName_iter_topic_path n) ∧ leading_wildcard p = false.
Proof.
  intros Hm Hn Hs. destruct (Hm p) as (f & Hf & <-); [by intros E; rewrite E in Hs; apply elem_of_nil in Hs|].
  apply TopicFilter_validate_spec in Hf as (_ & _ & _ & Hf).
  unfold root_match. rewrite andb_true_iff, negb_true_iff. cbn [andb].
  rewrite path_match_mqtt by (done || by intros l; apply checked_TopicName_levels). tauto.
Qed.

(** * Properties *)

(** C2: the trie refines the map.  Any sequence of subscriptions, unsubscriptions and
    matches, run from the empty trie, succeeds, keeps the trie well-formed and gives
    the answers of the map from filters to subscriptions, as long as no
    unsubscription meets a filter that only has subscriptions below it. *)
Theorem trie_refines_map ops :
  spec_all_defined (λ _, []) ops →
  ∃ t outs, trie_run SubscribedTrie_default ops = Ok (t, outs) ∧
    wf_root (sorted_values Subscription_cmp) (Inner.root t) ∧ spec_outs (λ _, []) ops outs.
Proof.
  generalize default_as. generalize (λ _ : list bytes, [] : list Subscription).
  generalize SubscribedTrie_default. induction ops as [|op ops IH]; intros t m Ht.
  - exists t, []. split; [done|]. split; [apply Ht|done].
  - intros [Hd Hds]. destruct (trie_step_refines t m op Ht Hd) as (t1 & out & Hs & Ht1 & Ho).
    destruct (IH t1 _ Ht1 Hds) as (t2 & outs & Hr & Hw & Hos).
    exists t2, (out :: outs). cbn. by rewrite Hs, bind_Ok_1, Hr.
Qed.

(** What an unsubscription does, whatever the trie: it takes the value out when the
    filter has subscriptions, changes nothing when there is none at the filter or
    below it, and panics ([unreachable!()]) when there are only subscriptions below. *)
Theorem unsubscribe_every_case t m f s :
  subscribed_as t m →
  let p := TopicFilter_iter_topic_path f in
  (m p ≠ [] ∧ ∃ t', SubscribedTrie_unsubscribe t p s = Ok t' ∧
     subscribed_as t' (put m p (value_del Subscription_cmp Subscription_eqb s (m p)))) ∨
  (m p = [] ∧ (∀ q, m (p ++ q) = []) ∧
     ∃ t', SubscribedTrie_unsubscribe t p s = Ok t' ∧ subscribed_as t' m) ∨
  (m p = [] ∧ (∃ q, m (p ++ q) ≠ []) ∧ SubscribedTrie_unsubscribe t p s = Panic).
Proof.
  intros Ht p. pose proof (filter_path_not_nil f) as Hp. fold p in Hp.
  destruct (m p) eqn:E.
  - right. destruct (unsubscribe_cases t m p s Ht Hp E) as [[Hq ->]|[Hq ->]]; [left|right]; [|done].
    do 2 (split; [done|]). eexists. split; [done|]. by eapply trie_as_ext.
  - left. split; [done|]. rewrite <- E.
    destruct (unsubscribe_step t m p s Ht Hp) as (t' & ? & ? & _); [by rewrite E|]. by exists t'.
Qed.

(** C3: matching a topic name gives exactly the subscriptions whose filter matches it by
    the rules of MQTT 4.7, with two exceptions: a filter that starts with a wildcard
    never matches, and a [#] does not stand for the parent level. *)
Theorem match_is_mqtt t m n :
  subscribed_as t m → checked_paths m → checked_TopicName n →
  ∃ t' out, SubscribedTrie_match_topic_name t (TopicName_iter_topic_path n) = Ok (t', out) ∧
    Inner.root t' = Inner.root t ∧
    ∀ s, s ∈ out ↔ ∃ p, s ∈ m p ∧ mqtt_match (TopicName_iter_topic_path n) p ∧
      length p ≤ length (TopicName_iter_topic_path n) ∧ leading_wildcard p = false.
Proof.
  intros Ht Hm Hn. destruct (TopicName_iter_topic_path n) as [|k ks] eqn:E.
  { by destruct (split_slash_not_nil (topic_name_str n)). }
  do 2 eexists. split; [apply (match_step t m k ks Ht)|]. split; [done|]. intros s.
  rewrite (elem_of_selected _ t m _ s sorted_nil Ht), <- E. clear E.
  split; intros (p & H1 & H2); exists p.
  - split; [done|]. by apply (root_match_mqtt m n p s Hm Hn H2).
  - split; [|done]. by apply (root_match_mqtt m n p s Hm Hn H1).
Qed.

(** A subscription to a filter that starts with a wildcard is delivered nothing: [#]
    and [+/...] are left out for every topic name, not only for those that start
    with a dollar sign. *)
Theorem leading_wildcard_never_matches t m n s t' out :
  subscribed_as t m →
  (∀ p, s ∈ m p → leading_wildcard p = true) →
  SubscribedTrie_match_topic_name t (TopicName_iter_topic_path n) = Ok (t', out) →
  s ∉ out.
Proof.
  intros Ht Hs. destruct (TopicName_iter_topic_path n) as [|k ks] eqn:E.
  { by destruct (split_slash_not_nil (topic_name_str n)). }
  rewrite (match_step t m k ks Ht). intros [= _ <-].
  rewrite (elem_of_selected _ t m _ s sorted_nil Ht). intros (p & Hp & Hsp).
  unfold root_match in Hp. rewrite (Hs p Hsp), andb_false_r in Hp. done.
Qed.

(** Subscribing again with other options keeps the first subscription, and removing
    the second one then leaves it in the trie for good: the only subscription of a
    filter is compared by all its fields, the others by client and filter. *)
Theorem resubscription_is_stale t m f s s' :
  subscribed_as t m → m (TopicFilter_iter_topic_path f) = [] →
  Subscription_cmp s s' = Eq → Subscription_eqb s s' = false →
  let p := TopicFilter_iter_topic_path f in
  ∃ t1 t2 t3, SubscribedTrie_subscribe t p s = Ok t1 ∧ SubscribedTrie_subscribe t1 p s' = Ok t2 ∧
    SubscribedTrie_unsubscribe t2 p s' = Ok t3 ∧ values_at p (Inner.root t3) = [s].
Proof.
  intros Ht Hm Hc He p. pose proof (filter_path_not_nil f) as Hp. fold p in Hp, Hm.
  assert (∀ (m' : subscriptions) vs, put m' p vs p = vs) as Hput.
  { intros. unfold put. by rewrite bool_decide_eq_true_2. }
  destruct (subscribe_step t m p s Ht Hp) as (t1 & H1 & Ht1 & _). rewrite Hm in Ht1.
  destruct (subscribe_step t1 _ p s' Ht1 Hp) as (t2 & H2 & Ht2 & _).
  rewrite Hput in Ht2. cbn in Ht2. rewrite Hc in Ht2.
  destruct (unsubscribe_step t2 _ p s' Ht2 Hp) as (t3 & H3 & [_ Ht3] & _); [by rewrite Hput|].
  exists t1, t2, t3. do 3 (split; [done|]). rewrite Ht3, !Hput. cbn. by rewrite He.
Qed.

(** * Properties of the retained messages *)

Abbreviation messages := (list bytes → list Publish).

(** The one path with a message that the filter matches. *)
Definition only_match (m : messages) (ks p : list bytes) : Prop :=
  path_match ks p = true ∧ m p ≠ [] ∧ ∀ q, path_match ks q = true → m q ≠ [] → q = p.

(** A match by the filter's levels selects one message exactly when one path has it. *)
Lemma retained_select t m k ks :
  retained_as t m →
  (∃ p v, only_match m (k :: ks) p ∧ m p = [v] ∧
     select (root_match false (k :: ks)) (Inner.root t) = [v]) ∨
  ((∀ p, ¬ only_match m (k :: ks) p) ∧
     ∀ v, select (root_match false (k :: ks)) (Inner.root t) ≠ [v]).
Proof.
  intros Ht. pose proof (trie_as_node _ single_nil t m Ht) as Hn.
  assert (∀ p, root_match false (k :: ks) p = path_match (k :: ks) p) as Hr.
  { intros p. unfold root_match. apply andb_true_r. }
  assert (∀ p v, v ∈ m p → m p = [v]) as Hsingle.
  { intros p v Hv. pose proof (values_at_vok _ p _ single_nil Hn) as Hs.
    rewrite (proj2 Ht) in Hs. unfold single_value in Hs.
    destruct (m p) as [|w [|]]; [by apply elem_of_nil in Hv| |cbn in Hs; lia].
    apply list_elem_of_singleton in Hv. by subst. }
  assert (∀ p, only_match m (k :: ks) p →
            select (root_match false (k :: ks)) (Inner.root t) = m p) as Honly.
  { intros p (Hp & _ & Hu). rewrite (select_only single_value _ p), (proj2 Ht); try done.
    - intros q Hq. rewrite (proj2 Ht). apply Hu. by rewrite <- Hr.
    - by rewrite Hr. }
  destruct (select _ _) as [|v [|w ws]] eqn:E.
  - right. split; [|done]. intros p Hp. pose proof (Honly p Hp). by destruct Hp as (_ & [] & _).
  - left. destruct (select_singleton single_value _ _ v Hn E) as (p & Hp & Hv & Hu).
    rewrite (proj2 Ht) in Hv. exists p, v. split; [|split; [by apply Hsingle|done]].
    split; [by rewrite <- Hr|]. split; [by rewrite (Hsingle p v Hv)|].
    intros q Hq Hne. apply Hu; [by rewrite Hr|by rewrite (proj2 Ht)].
  - right. split; [|done]. intros p Hp. pose proof (Honly p Hp) as H.
    assert (v ∈ m p) as Hv by (rewrite <- H; by left). by rewrite (Hsingle p v Hv) in H.
Qed.

(** A key of retained messages is a topic name that passed the validation. *)
Definition checked_topics (m : messages) : Prop :=
  ∀ p, m p ≠ [] → ∃ n, checked_TopicName n ∧ TopicName_iter_topic_path n = p.

Lemma topic_path_not_nil n : TopicName_iter_topic_path n ≠ [].
Proof. apply split_slash_not_nil. Qed.

(** Against a topic, a filter has as many levels as the topic, or it fails. *)
Lemma path_match_length ks p :
  (∀ l, l ∈ p → l ≠ HASH ∧ l ≠ PLUS) → (∀ i, ks !! i = Some HASH → S i = length ks) →
  path_match ks p = true → length p = length ks.
Proof.
  revert p. induction ks as [|k ks IH]; intros [|l p] Hp Hk; cbn; try done.
  apply hash_last in Hk as [Hlast Hk]. destruct (Hp l ltac:(by left)) as [Hlh _].
  specialize (IH p ltac:(intros l' Hl'; apply Hp; by right) Hk).
  unfold match_level. rewrite (bool_decide_eq_false_2 (l = HASH)) by done.
  destruct (bool_decide_reflect (k = HASH)) as [->|_].
  { rewrite (Hlast eq_refl). by destruct p. }
  repeat case_bool_decide; try done; intros Hm; by rewrite IH.
Qed.

(** Two topics match when they are the same. *)
Lemma path_match_topics ks p :
  (∀ l, l ∈ p → l ≠ HASH ∧ l ≠ PLUS) → (∀ l, l ∈ ks → l ≠ HASH ∧ l ≠ PLUS) →
  path_match ks p = true ↔ ks = p.
Proof.
  revert p. induction ks as [|k ks IH]; intros [|l p] Hp Hk; cbn; try done.
  destruct (Hp l ltac:(by left)), (Hk k ltac:(by left)).
  specialize (IH p ltac:(intros l' Hl'; apply Hp; by right) ltac:(intros l' Hl'; apply Hk; by right)).
  unfold match_level. do 4 (rewrite bool_decide_eq_false_2 by done).
  destruct (bool_decide_reflect (k = l)) as [->|Hkl].
  - rewrite IH. split; [by intros ->|by intros [= ->]].
  - split; [done|]. by intros [= ? ?].
Qed.

(** The trie of retained messages is a map from topics to their last message:
    setting and removing change it at their topic alone, and removing panics exactly
    where there is no message but one at a topic below. *)
Theorem retained_refines_map t m n v :
  retained_as t m →
  let p := TopicName_iter_topic_path n in
  (∃ t', RetainedTrie_set t p v = Ok t' ∧ retained_as t' (put m p [v])) ∧
  ((m p ≠ [] ∧ ∃ t', RetainedTrie_remove t p = Ok t' ∧ retained_as t' (put m p [])) ∨
   (m p = [] ∧ (∀ q, m (p ++ q) = []) ∧
      ∃ t', RetainedTrie_remove t p = Ok t' ∧ retained_as t' m) ∨
   (m p = [] ∧ (∃ q, m (p ++ q) ≠ []) ∧ RetainedTrie_remove t p = Panic)).
Proof.
  intros Ht p. pose proof (topic_path_not_nil n) as Hp. fold p in Hp. split.
  { destruct (set_step t m p v Ht Hp) as (t' & ? & ? & _). by exists t'. }
  destruct (m p) eqn:E.
  - right. destruct (remove_cases t m p Ht Hp E) as [[Hq ->]|[Hq ->]]; [left|right]; [|done].
    do 2 (split; [done|]). eexists. split; [done|]. by eapply trie_as_ext.
  - left. split; [done|].
    destruct (remove_step t m p Ht Hp) as (t' & ? & ? & _); [by rewrite E|]. by exists t'.
Qed.

(** A retained message is delivered to a filter only when it is the one message the
    filter matches; with none, or with several, the match panics on its assertion. *)
Theorem retained_match_panics_or_single t m f :
  retained_as t m →
  let ks := TopicFilter_iter_topic_path f in
  (∃ p v t', only_match m ks p ∧ m p = [v] ∧
     RetainedTrie_match_topic_filter t ks = Ok (t', Some v) ∧ Inner.root t' = Inner.root t) ∨
  ((∀ p, ¬ only_match m ks p) ∧ RetainedTrie_match_topic_filter t ks = Panic).
Proof.
  intros Ht ks. pose proof (filter_path_not_nil f) as Hks. fold ks in Hks. clearbody ks.
  destruct ks as [|k ks]; [done|]. rewrite (match_filter_step t m k ks Ht).
  destruct (retained_select t m k ks Ht) as [(p & v & Hp & Hv & ->)|[Hp Hv]].
  - left. by do 3 eexists.
  - right. split; [done|]. destruct (select _ _) as [|v [|]]; [done| |done]. by destruct (Hv v).
Qed.

(** What was retained for a topic is what the topic's own name, used as a filter,
    finds. *)
Theorem retained_set_get t m n v :
  retained_as t m → checked_topics m → checked_TopicName n →
  let p := TopicName_iter_topic_path n in
  ∃ t1 t2, RetainedTrie_set t p v = Ok t1 ∧
    RetainedTrie_match_topic_filter t1 p = Ok (t2, Some v).
Proof.
  intros Ht Hm Hn p. pose proof (topic_path_not_nil n) as Hp. fold p in Hp.
  destruct (set_step t m p v Ht Hp) as (t1 & H1 & Ht1 & _). exists t1.
  assert (put m p [v] p = [v]) as Hput by (unfold put; by rewrite bool_decide_eq_true_2).
  assert (∀ l, l ∈ p → l ≠ HASH ∧ l ≠ PLUS) as Hl by (intros l; by apply checked_TopicName_levels).
  assert (only_match (put m p [v]) p p) as Ho.
  { split; [by apply path_match_topics|]. split; [by rewrite Hput|].
    intros q Hq Hne. unfold put in Hne. case_bool_decide; [done|].
    destruct (Hm q Hne) as (n' & Hn' & <-). symmetry. apply path_match_topics; [|done..].
    intros l. by apply checked_TopicName_levels. }
  destruct p as [|k ks] eqn:Ep; [done|]. rewrite (match_filter_step t1 _ k ks Ht1).
  destruct (retained_select t1 _ k ks Ht1) as [(q & w & (Hq & Hne & _) & Hw & ->)|[Hno _]].
  - destruct Ho as (_ & _ & Hu). rewrite (Hu q Hq Hne), Hput in Hw. injection Hw as <-. eauto.
  - by destruct (Hno (k :: ks)).
Qed.

(** A filter finds a retained message only under a topic with as many levels as it
    has itself: among the retained messages a final [#] stands for one level, where
    MQTT lets it stand for any number. *)
Theorem retained_hash_is_one_level t m f t' v :
  retained_as t m → checked_topics m → TopicFilter_validate f = Ok () →
  RetainedTrie_match_topic_filter t (TopicFilter_iter_topic_path f) = Ok (t', Some v) →
  ∃ n, m (TopicName_iter_topic_path n) = [v] ∧
    length (TopicName_iter_topic_path n) = length (TopicFilter_iter_topic_path f).
Proof.
  intros Ht Hm Hf. apply TopicFilter_validate_spec in Hf as (_ & _ & _ & Hf).
  pose proof (filter_path_not_nil f) as Hks.
  destruct (TopicFilter_iter_topic_path f) as [|k ks]; [done|].
  rewrite (match_filter_step t m k ks Ht).
  destruct (retained_select t m k ks Ht) as [(p & w & (Hp & Hne & _) & Hw & ->)|[_ Hv]].
  - intros [= _ ->]. destruct (Hm p Hne) as (n & Hn & <-). exists n. split; [done|].
    apply path_match_length; [|done..]. intros l. by apply checked_TopicName_levels.
  - destruct (select _ _) as [|w [|]]; [done| |done]. by destruct (Hv w).
Qed.

(** * Two operations on one trie *)

(** Looking for the subscriptions of a topic gives the trie it found, but for the statistics. *)
Lemma match_keeps_root t m n : subscribed_as t m →
  ∃ t2, fst <$> SubscribedTrie_match_topic_name t (TopicName_iter_topic_path n) = Ok t2 ∧
    Inner.root t2 = Inner.root t.
Proof.
  intros Ht. pose proof (topic_path_not_nil n) as Hn.
  destruct (TopicName_iter_topic_path n) as [|k ks]; [done|].
  rewrite (match_step t m k ks Ht). cbn. eauto.
Qed.

(** A match that read the trie before a subscription was committed, and commits after
    it, takes the subscription out again: what it writes back is what it read. *)
Theorem subscription_lost_to_match t m p s n t1 :
  subscribed_as t m → SubscribedTrie_subscribe t p s = Ok t1 →
  let ops := λ i, if decide (i = 1) then λ t, SubscribedTrie_subscribe t p s
                  else λ t, fst <$> SubscribedTrie_match_topic_name t (TopicName_iter_topic_path n) in
  ∃ st, cell_run ops (mkCell t ∅) [Snapshot 1; Snapshot 2; Commit 1; Commit 2] = Ok st ∧
    Inner.root (cell st) = Inner.root t.
Proof.
  intros Ht H1 ops. destruct (match_keeps_root t m n Ht) as (t2 & H2 & Hr).
  change (ops 2 t = Ok t2) in H2.
  assert (ops 1 t = Ok t1) as H1' by exact H1. clearbody ops.
  exists (mkCell t2 (delete 2 (delete 1 (<[2:=t]> (<[1:=t]> ∅))))). split; [|exact Hr].
  cbn -[insert delete lookup].
  rewrite lookup_insert_ne, lookup_insert_eq by done. rewrite H1'. cbn -[insert delete lookup].
  rewrite lookup_delete_ne, lookup_insert_eq by done. by rewrite H2.
Qed.

(** * Examples

    One client subscribed to [a/b], one to [#], a message retained for [a/b]. *)

Definition ex_filter : TopicFilter := mkTopicFilter [0x61; 0x2F; 0x62]%Z.
Definition ex_topic : TopicName := mkTopicName [0x61; 0x2F; 0x62]%Z.
Definition ex_sub (q : QoS) : Subscription :=
  Subscription.mk ex_filter (mkClientID [0x63]%Z) 0 None q false false
    RetainForwardRule.OnEverySubscribe.
Definition ex_trie : Inner Subscription :=
  Inner.mk Stats_default
    (Node.Root [Node.Child [0x61%Z] [Node.Child [0x62%Z] [] [ex_sub QoS.AtMostOnce]] []]).
Definition ex_wild : Inner Subscription :=
  Inner.mk Stats_default (Node.Root [Node.Child HASH [] [ex_sub QoS.AtMostOnce]]).
Definition ex_publish : Publish :=
  Publish.mk false QoS.AtMostOnce false ex_topic None None None.
Definition ex_retained : Inner Publish :=
  Inner.mk Stats_default
    (Node.Root [Node.Child [0x61%Z] [Node.Child [0x62%Z] [] [ex_publish]] []]).

Lemma ex_trie_as : subscribed_as ex_trie (λ p, values_at p (Inner.root ex_trie)).
Proof. apply trie_as_root. repeat first [by left | by right | constructor]. Qed.
Lemma ex_wild_as : subscribed_as ex_wild (λ p, values_at p (Inner.root ex_wild)).
Proof. apply trie_as_root. repeat first [by left | by right | constructor]. Qed.
Lemma ex_retained_as : retained_as ex_retained (λ p, values_at p (Inner.root ex_retained)).
Proof.
  apply trie_as_root. unfold single_value.
  repeat first [by left | by right | cbn; lia | constructor].
Qed.

Lemma ex_topic_checked : checked_TopicName ex_topic.
Proof. split; [split; [repeat constructor; unfold is_u8; lia|done]|done]. Qed.

Lemma ex_path {V} (v : V) p :
  values_at p (Node.Root [Node.Child [0x61%Z] [Node.Child [0x62%Z] [] [v]] []]) ≠ [] →
  p = [[0x61]; [0x62]]%Z.
Proof.
  destruct p as [|k p]; [done|]. cbn. case_bool_decide as H1; [|done]. subst.
  destruct p as [|k p]; [done|]. cbn. case_bool_decide as H2; [|done]. subst.
  by destruct p as [|k p].
Qed.

Lemma trie_refines_map_witness :
  let ops := [Subscribe_op ex_filter (ex_sub QoS.AtMostOnce); Match_op ex_topic;
              Unsubscribe_op ex_filter (ex_sub QoS.AtMostOnce); Match_op ex_topic] in
  ∃ t outs, trie_run SubscribedTrie_default ops = Ok (t, outs) ∧
    wf_root (sorted_values Subscription_cmp) (Inner.root t) ∧ spec_outs (λ _, []) ops outs.
Proof. intros ops. apply (trie_refines_map ops). repeat split. left. by vm_compute. Defined.

Lemma unsubscribe_every_case_witness :
  let m := λ p, values_at p (Inner.root ex_trie) in
  let p := TopicFilter_iter_topic_path ex_filter in
  (m p ≠ [] ∧ ∃ t', SubscribedTrie_unsubscribe ex_trie p (ex_sub QoS.AtMostOnce) = Ok t' ∧
     subscribed_as t' (put m p (value_del Subscription_cmp Subscription_eqb
                                  (ex_sub QoS.AtMostOnce) (m p)))) ∨
  (m p = [] ∧ (∀ q, m (p ++ q) = []) ∧
     ∃ t', SubscribedTrie_unsubscribe ex_trie p (ex_sub QoS.AtMostOnce) = Ok t' ∧
       subscribed_as t' m) ∨
  (m p = [] ∧ (∃ q, m (p ++ q) ≠ []) ∧
     SubscribedTrie_unsubscribe ex_trie p (ex_sub QoS.AtMostOnce) = Panic).
Proof. exact (unsubscribe_every_case _ _ ex_filter (ex_sub QoS.AtMostOnce) ex_trie_as). Defined.

Lemma match_is_mqtt_witness :
  let m := λ p, values_at p (Inner.root ex_trie) in
  ∃ t' out, SubscribedTrie_match_topic_name ex_trie (TopicName_iter_topic_path ex_topic)
            = Ok (t', out) ∧
    Inner.root t' = Inner.root ex_trie ∧
    ∀ s, s ∈ out ↔ ∃ p, s ∈ m p ∧ mqtt_match (TopicName_iter_topic_path ex_topic) p ∧
      length p ≤ length (TopicName_iter_topic_path ex_topic) ∧ leading_wildcard p = false.
Proof.
  apply (match_is_mqtt ex_trie _ ex_topic ex_trie_as); [|exact ex_topic_checked].
  intros p Hp. exists ex_filter. split; [reflexivity|]. by rewrite (ex_path _ p Hp).
Defined.

Lemma leading_wildcard_never_matches_witness :
  values_at [HASH] (Inner.root ex_wild) = [ex_sub QoS.AtMostOnce] ∧
  ∃ t' out, SubscribedTrie_match_topic_name ex_wild (TopicName_iter_topic_path ex_topic)
            = Ok (t', out) ∧ ex_sub QoS.AtMostOnce ∉ out.
Proof.
  split; [reflexivity|]. do 2 eexists. split; [reflexivity|].
  eapply (leading_wildcard_never_matches _ _ ex_topic _ _ _ ex_wild_as); [|reflexivity].
  intros [|k p]; cbn; [by intros ?%elem_of_nil|]. case_bool_decide as H; [|by intros ?%elem_of_nil].
  intros _. subst. reflexivity.
Defined.

Lemma resubscription_is_stale_witness :
  let s := ex_sub QoS.AtMostOnce in let s' := ex_sub QoS.AtLeastOnce in
  let p := TopicFilter_iter_topic_path ex_filter in
  ∃ t1 t2 t3, SubscribedTrie_subscribe SubscribedTrie_default p s = Ok t1 ∧
    SubscribedTrie_subscribe t1 p s' = Ok t2 ∧
    SubscribedTrie_unsubscribe t2 p s' = Ok t3 ∧ values_at p (Inner.root t3) = [s].
Proof. by apply (resubscription_is_stale _ _ ex_filter _ _ default_as). Defined.

Lemma retained_refines_map_witness :
  let m := λ p, values_at p (Inner.root ex_retained) in
  let p := TopicName_iter_topic_path ex_topic in
  (∃ t', RetainedTrie_set ex_retained p ex_publish = Ok t' ∧
     retained_as t' (put m p [ex_publish])) ∧
  ((m p ≠ [] ∧ ∃ t', RetainedTrie_remove ex_retained p = Ok t' ∧ retained_as t' (put m p [])) ∨
   (m p = [] ∧ (∀ q, m (p ++ q) = []) ∧
      ∃ t', RetainedTrie_remove ex_retained p = Ok t' ∧ retained_as t' m) ∨
   (m p = [] ∧ (∃ q, m (p ++ q) ≠ []) ∧ RetainedTrie_remove ex_retained p = Panic)).
Proof. exact (retained_refines_map _ _ ex_topic ex_publish ex_retained_as). Defined.

Lemma retained_match_panics_or_single_witness :
  let m := λ p, values_at p (Inner.root ex_retained) in
  let ks := TopicFilter_iter_topic_path (mkTopicFilter [0x78]%Z) in
  (∃ p v t', only_match m ks p ∧ m p = [v] ∧
     RetainedTrie_match_topic_filter ex_retained ks = Ok (t', Some v) ∧
     Inner.root t' = Inner.root ex_retained) ∨
  ((∀ p, ¬ only_match m ks p) ∧ RetainedTrie_match_topic_filter ex_retained ks = Panic).
Proof. exact (retained_match_panics_or_single _ _ (mkTopicFilter [0x78]%Z) ex_retained_as). Defined.

Lemma ex_retained_checked : checked_topics (λ p, values_at p (Inner.root ex_retained)).
Proof.
  intros p Hp. exists ex_topic. split; [exact ex_topic_checked|]. by rewrite (ex_path _ p Hp).
Qed.

Lemma retained_set_get_witness :
  let p := TopicName_iter_topic_path ex_topic in
  ∃ t1 t2, RetainedTrie_set ex_retained p ex_publish = Ok t1 ∧
    RetainedTrie_match_topic_filter t1 p = Ok (t2, Some ex_publish).
Proof.
  exact (retained_set_get _ _ ex_topic ex_publish ex_retained_as ex_retained_checked
           ex_topic_checked).
Defined.

Lemma retained_hash_is_one_level_witness :
  let f := mkTopicFilter [0x61; 0x2F; 0x23]%Z in
  ∃ n, values_at (TopicName_iter_topic_path n) (Inner.root ex_retained) = [ex_publish] ∧
    length (TopicName_iter_topic_path n) = length (TopicFilter_iter_topic_path f).
Proof.
  intros f. eapply (retained_hash_is_one_level _ _ f _ _ ex_retained_as ex_retained_checked);
    reflexivity.
Defined.

Lemma subscription_lost_to_match_witness :
  let p := TopicFilter_iter_topic_path ex_filter in let s := ex_sub QoS.AtMostOnce in
  let ops := λ i, if decide (i = 1) then λ t, SubscribedTrie_subscribe t p s
                  else λ t, fst <$> SubscribedTrie_match_topic_name t
                                      (TopicName_iter_topic_path ex_topic) in
  ∃ st, cell_run ops (mkCell SubscribedTrie_default ∅)
          [Snapshot 1; Snapshot 2; Commit 1; Commit 2] = Ok st ∧
    Inner.root (cell st) = Inner.root SubscribedTrie_default.
Proof.
  intros p s. eapply (subscription_lost_to_match _ _ p s ex_topic _ default_as). reflexivity.
Defined.
