(* ===== verification/Timer.v ===== *)
(** Model of [src/timer.rs]: a differential timer, a chain of items each of which
    holds its delay after the one before it.

    An [Instant] is a [Z] of nanoseconds and the clock an argument of the operations;
    whether a value was marked as deleted is a predicate, since the flag belongs to
    the value ([TimeoutValue]).  The specification is the list of deadlines,
    the running sums of the delays ([deadlines]). *)

From S2P Require Import Prelude Error Util.
Local Open Scope Z_scope.

(** src/timer.rs:25-35 [Titem] *)
Module Titem.
Inductive Titem (T : Type) : Type :=
| Head (next : Titem T)
| Timeout (delta : u32) (value : T) (next : Titem T)
| Sentinel.
Arguments Head {T} next.
Arguments Timeout {T} delta value next.
Arguments Sentinel {T}.
End Titem.
Abbreviation Titem := Titem.Titem.

(** src/timer.rs:20-23 [Timer] *)
Module Timer.
Record Timer (T : Type) : Type := mk {
  instant : Z;
  head : Titem T;
}.
Arguments mk {T} instant head.
Arguments instant {T} _.
Arguments head {T} _.
End Timer.
Abbreviation Timer := Timer.Timer.

(** A second, in nanoseconds; [instant.elapsed().as_secs() as u32]. *)
Definition SECOND : Z := 1000000000.
(** src/timer.rs:51-51 [Timer::expired] *)
Definition elapsed_secs (instant now : Z) : u32 :=
  (Z.max 0 (now - instant) / SECOND) mod 2 ^ 32.

Section timer.
Context {T : Type}.
Implicit Types (t : Timer T) (n : Titem T) (v : T).

(** src/timer.rs:163-169 [Titem::take_next] *)
Definition take_next n : Result (Titem T * Titem T) :=
  match n with
  | Titem.Head next => Ok (next, Titem.Head Titem.Sentinel)
  | Titem.Timeout delta value next => Ok (next, Titem.Timeout delta value Titem.Sentinel)
  | Titem.Sentinel => Panic
  end.

(** src/timer.rs:171-177 [Titem::set_next] *)
Definition set_next n (new_next : Titem T) : Result (Titem T) :=
  match n with
  | Titem.Head _ => Ok (Titem.Head new_next)
  | Titem.Timeout delta value _ => Ok (Titem.Timeout delta value new_next)
  | Titem.Sentinel => Panic
  end.

(** src/timer.rs:141-146 [Titem::differential] *)
Definition differential n (ndelta : u32) : Result (Titem T) :=
  match n with
  | Titem.Timeout delta value next =>
      if delta <? ndelta then Panic else Ok (Titem.Timeout (delta - ndelta) value next)
  | _ => Panic
  end.

(** src/timer.rs:156-161 [Titem::to_delta] *)
Definition to_delta n : Result u32 :=
  match n with Titem.Timeout delta _ _ => Ok delta | _ => Panic end.

(** src/timer.rs:38-43 [Timer::default] *)
Definition Timer_default (now : Z) : Timer T :=
  Timer.mk now (Titem.Head Titem.Sentinel).

(** The loops walk the chain; each is given what the item it stands on points to, and
    gives back what it points to after the loop. *)
(** src/timer.rs:56-79 [Timer::expired] *)
Fixpoint expired_loop (is_deleted : T → bool) (secs : u32) (next : Titem T)
    : Result (list T * Titem T) :=
  match next with
  | Titem.Sentinel => Ok ([], Titem.Sentinel)
  | Titem.Timeout delta value next =>
      if secs <? delta then Ok ([], Titem.Timeout (delta - secs) value next)
      else if is_deleted value then expired_loop is_deleted secs next
      else
        '(expired, next) ← expired_loop is_deleted secs next;
        Ok (value :: expired, next)
  | Titem.Head _ => Panic
  end.

(** src/timer.rs:47-82 [Timer::expired] *)
Definition Timer_expired (is_deleted : T → bool) (now : Z) (self : Timer T)
    : Result (Timer T * list T) :=
  let secs := elapsed_secs (Timer.instant self) now in
  let instant := Timer.instant self + secs * SECOND in
  '(next, head) ← take_next (Timer.head self);
  '(expired, next) ← expired_loop is_deleted secs next;
  head ← set_next head next;
  Ok (Timer.mk instant head, expired).

(** src/timer.rs:87-109 [Timer::add_timeout] *)
Fixpoint add_loop (ndelta : u32) (value : T) (next : Titem T) : Result (Titem T) :=
  match next with
  | Titem.Sentinel => Ok (Titem.Timeout ndelta value Titem.Sentinel)
  | Titem.Timeout delta v n =>
      if ndelta <? delta then
        nn ← differential next ndelta;
        Ok (Titem.Timeout ndelta value nn)
      else
        n ← add_loop (ndelta - delta) value n;
        Ok (Titem.Timeout delta v n)
  | Titem.Head _ => Panic
  end.

(** src/timer.rs:84-110 [Timer::add_timeout] *)
Definition Timer_add_timeout (now : Z) (secs : u32) (value : T) (self : Timer T)
    : Result (Timer T) :=
  let ndelta := Z.max 0 (secs - elapsed_secs (Timer.instant self) now) in
  '(next, head) ← take_next (Timer.head self);
  next ← add_loop ndelta value next;
  head ← set_next head next;
  Ok (Timer.mk (Timer.instant self) head).

(** [at_head] tells that [prev] is the head of the chain: from there the loop does not
    advance over an item that stays, it panics. *)
(** src/timer.rs:117-136 [Timer::gc] *)
Fixpoint gc_loop (is_deleted : T → bool) (at_head : bool) (next : Titem T) : Result (Titem T) :=
  match next with
  | Titem.Sentinel => Ok Titem.Sentinel
  | Titem.Timeout delta value next =>
      if is_deleted value then gc_loop is_deleted at_head next
      else if at_head then Panic
      else
        next ← gc_loop is_deleted false next;
        Ok (Titem.Timeout delta value next)
  | Titem.Head _ => Panic
  end.

(** src/timer.rs:112-137 [Timer::gc] *)
Definition Timer_gc (is_deleted : T → bool) (self : Timer T) : Result (Timer T) :=
  '(next, head) ← take_next (Timer.head self);
  next ← gc_loop is_deleted true next;
  head ← set_next head next;
  Ok (Timer.mk (Timer.instant self) head).

(** * The items of a timer and their deadlines *)

Fixpoint chain (l : list (u32 * T)) : Titem T :=
  match l with
  | [] => Titem.Sentinel
  | (delta, v) :: l => Titem.Timeout delta v (chain l)
  end.

(** The deadlines of the items, in seconds, when the first delay counts from [base]. *)
Fixpoint deadlines (base : Z) (l : list (u32 * T)) : list (Z * T) :=
  match l with
  | [] => []
  | (delta, v) :: l => (base + delta, v) :: deadlines (base + delta) l
  end.

(** A timer with the items [l]. *)
Definition timer_of (instant : Z) (l : list (u32 * T)) : Timer T :=
  Timer.mk instant (Titem.Head (chain l)).
Abbreviation delays := (Forall (λ i : u32 * T, is_u32 i.1)).
End timer.

Section timer_facts.
Context {T : Type}.
Implicit Types (l : list (u32 * T)) (v : T).
Abbreviation delays := (Forall (λ i : u32 * T, is_u32 i.1)).

Lemma deadlines_values l : ∀ base, (deadlines base l).*2 = l.*2.
Proof. induction l as [|[d v] l IH]; intros base; [done|]. cbn. by rewrite IH. Qed.

Lemma deadlines_le l : ∀ base, delays l → Forall (λ e, base ≤ e.1) (deadlines base l).
Proof.
  induction l as [|[d v] l IH]; intros base Hl; [constructor|].
  apply Forall_cons in Hl as [Hd Hl]. cbn in Hd. unfold is_u32 in Hd.
  constructor; [cbn; lia|]. eapply Forall_impl; [by apply IH|]. cbn. lia.
Qed.

(** Inserting keeps the other deadlines, and goes after those that are not later. *)
Lemma add_loop_spec v l : ∀ nd base, delays l → is_u32 nd → ∃ l' before after,
  add_loop nd v (chain l) = Ok (chain l') ∧ delays l' ∧
  deadlines base l = before ++ after ∧ deadlines base l' = before ++ (base + nd, v) :: after ∧
  Forall (λ e, e.1 ≤ base + nd) before ∧ Forall (λ e, base + nd < e.1) after.
Proof.
  induction l as [|[d x] l IH]; intros nd base Hl Hn.
  { exists [(nd, v)], [], []. split; [done|]. split; [by apply Forall_singleton|]. done. }
  apply Forall_cons in Hl as [Hd Hl]. cbn in Hd. cbn [chain add_loop]. unfold is_u32 in *.
  destruct (Z.ltb_spec nd d).
  - exists ((nd, v) :: (d - nd, x) :: l), [], (deadlines base ((d, x) :: l)).
    cbn [differential]. destruct (Z.ltb_spec d nd); [lia|]. split; [done|].
    split; [by repeat (constructor; [cbn; unfold is_u32; lia|])|]. split; [done|].
    split; [|split; [constructor|]].
    { cbn. by replace (base + nd + (d - nd)) with (base + d) by lia. }
    constructor; [cbn; lia|]. eapply Forall_impl; [by apply deadlines_le|]. cbn. lia.
  - destruct (IH (nd - d) (base + d) Hl) as (l' & before & after & -> & Hl' & E & E' & Hb & Ha);
      [unfold is_u32; lia|].
    replace (base + d + (nd - d)) with (base + nd) in * by lia.
    exists ((d, x) :: l'), ((base + d, x) :: before), after. cbn. rewrite E, E'.
    repeat split; try done; constructor; try done; cbn; unfold is_u32; lia.
Qed.

(** Expiring takes the items in front whose own delay is within the elapsed seconds. *)
Definition shift_head (secs : Z) l : list (u32 * T) :=
  match l with [] => [] | (d, v) :: l => (d - secs, v) :: l end.

Lemma expired_loop_spec (is_deleted : T → bool) secs l : ∃ pre post,
  l = pre ++ post ∧ Forall (λ i, i.1 ≤ secs) pre ∧
  match post with [] => True | i :: _ => secs < i.1 end ∧
  expired_loop is_deleted secs (chain l) =
    Ok (filter (λ v, is_deleted v = false) pre.*2, chain (shift_head secs post)).
Proof.
  induction l as [|[d x] l IH]; [by exists [], []|]. cbn [chain expired_loop].
  destruct (Z.ltb_spec secs d); [by exists [], ((d, x) :: l)|].
  destruct IH as (pre & post & -> & Hpre & Hpost & ->).
  exists ((d, x) :: pre), post. split; [done|]. split; [by constructor|]. split; [done|].
  rewrite fmap_cons, filter_cons. cbn [snd]. destruct (is_deleted x) eqn:E.
  - by rewrite decide_False by congruence.
  - by rewrite bind_Ok_1, decide_True.
Qed.

Lemma gc_loop_spec (is_deleted : T → bool) l :
  gc_loop is_deleted true (chain l)
  = if forallb (λ x, is_deleted x.2) l then Ok Titem.Sentinel else Panic.
Proof. induction l as [|[d x] l IH]; [done|]. cbn. by destruct (is_deleted x). Qed.

(** The operations on a timer of given items. *)
Lemma Timer_add_timeout_of i l now secs v : delays l → is_u32 secs → ∃ l' before after,
  let at_ := Z.max 0 (secs - elapsed_secs i now) in
  Timer_add_timeout now secs v (timer_of i l) = Ok (timer_of i l') ∧ delays l' ∧
  deadlines 0 l = before ++ after ∧ deadlines 0 l' = before ++ (at_, v) :: after ∧
  Forall (λ e, e.1 ≤ at_) before ∧ Forall (λ e, at_ < e.1) after.
Proof.
  intros Hl Hs. cbn zeta. set (at_ := Z.max 0 (secs - elapsed_secs i now)).
  assert (is_u32 at_) as Hat.
  { pose proof (Z.mod_pos_bound (Z.max 0 (now - i) / SECOND) (2 ^ 32) ltac:(lia)).
    unfold is_u32, at_, elapsed_secs in *. lia. }
  destruct (add_loop_spec v l at_ 0 Hl Hat) as (l' & before & after & E & Hl' & Hrest).
  exists l', before, after. split; [|by split].
  unfold Timer_add_timeout, timer_of. cbn -[add_loop]. fold at_. by rewrite E.
Qed.

Lemma Timer_expired_of (is_deleted : T → bool) i l now : ∃ pre post,
  let secs := elapsed_secs i now in
  l = pre ++ post ∧ Forall (λ i, i.1 ≤ secs) pre ∧
  match post with [] => True | i :: _ => secs < i.1 end ∧
  Timer_expired is_deleted now (timer_of i l) =
    Ok (timer_of (i + secs * SECOND) (shift_head secs post),
        filter (λ v, is_deleted v = false) pre.*2).
Proof.
  cbn zeta. destruct (expired_loop_spec is_deleted (elapsed_secs i now) l)
    as (pre & post & El & Hpre & Hpost & E).
  exists pre, post. split; [done|]. split; [done|]. split; [done|].
  unfold Timer_expired, timer_of. cbn -[expired_loop]. by rewrite E.
Qed.

Lemma Timer_gc_of (is_deleted : T → bool) i l :
  Timer_gc is_deleted (timer_of i l)
  = if forallb (λ x, is_deleted x.2) l then Ok (timer_of i []) else Panic.
Proof. unfold Timer_gc, timer_of. cbn -[gc_loop]. rewrite gc_loop_spec. by destruct (forallb _ l). Qed.

(** Dropping items in front or among them never delays the others. *)
Lemma deadlines_mono l b b' : b ≤ b' →
  Forall2 (λ e e', e.1 ≤ e'.1 ∧ e.2 = e'.2) (deadlines b l) (deadlines b' l).
Proof.
  revert b b'. induction l as [|[d v] l IH]; intros b b' H; constructor; [cbn; split; [lia|done]|].
  apply IH. lia.
Qed.
End timer_facts.
