(* ===== verification/TimerTheorems.v ===== *)
(** The properties of the timer of [Timer]: adding a timeout is a sorted insertion
    among the deadlines, and no timeout is ever late, whatever the order of
    additions, collections and expirations; some are early, and collecting panics
    when a timeout stays. *)

From S2P Require Import Prelude Error Util Timer.
Local Open Scope Z_scope.

(** The deadlines of a timer, in seconds after its instant, and its values. *)
Fixpoint titem_deadlines {T} (base : Z) (n : Titem T) : list (Z * T) :=
  match n with
  | Titem.Head n => titem_deadlines base n
  | Titem.Timeout delta v n => (base + delta, v) :: titem_deadlines (base + delta) n
  | Titem.Sentinel => []
  end.
Definition timer_deadlines {T} (t : Timer T) : list (Z * T) :=
  titem_deadlines 0 (Timer.head t).
Definition timer_values {T} (t : Timer T) : list T := (timer_deadlines t).*2.

(** The timers a program can come to, with the time of the last operation.  The clock
    does not go back; [due v] is the time [v] was asked to expire at. *)
Inductive timer_run {T} (due : T → Z) : Timer T → Z → Prop :=
| run_default now : timer_run due (Timer_default now) now
| run_add t t' last now secs v :
    timer_run due t last → last ≤ now → is_u32 secs → due v = now + secs * SECOND →
    Timer_add_timeout now secs v t = Ok t' → timer_run due t' now
| run_gc is_deleted t t' last :
    timer_run due t last → Timer_gc is_deleted t = Ok t' → timer_run due t' last
| run_expired is_deleted t t' last now vs :
    timer_run due t last → last ≤ now → Timer_expired is_deleted now t = Ok (t', vs) →
    timer_run due t' now.

(** * The invariant of a run *)

Section timer_run.
Context {T : Type} (due : T → Z).
Implicit Types (l : list (u32 * T)) (v : T) (t : Timer T).

(** Every item expires by its due time, when the first delay counts from [i]. *)
Fixpoint on_time (i : Z) l : Prop :=
  match l with
  | [] => True
  | (d, v) :: l => i + d * SECOND ≤ due v ∧ on_time (i + d * SECOND) l
  end.

Lemma titem_deadlines_chain l : ∀ base, titem_deadlines base (chain l) = deadlines base l.
Proof. induction l as [|[d v] l IH]; intros base; [done|]. cbn. by rewrite IH. Qed.

Lemma on_time_deadlines i l : ∀ b,
  on_time (i + b * SECOND) l ↔ Forall (λ e, i + e.1 * SECOND ≤ due e.2) (deadlines b l).
Proof.
  induction l as [|[d v] l IH]; intros b; cbn; [by split|].
  rewrite Forall_cons, <- IH. cbn.
  by replace (i + b * SECOND + d * SECOND) with (i + (b + d) * SECOND) by lia.
Qed.

Lemma on_time_deadlines_0 i l :
  on_time i l ↔ Forall (λ e, i + e.1 * SECOND ≤ due e.2) (deadlines 0 l).
Proof. rewrite <- on_time_deadlines. by rewrite Z.mul_0_l, Z.add_0_r. Qed.

Lemma on_time_mono l : ∀ i i', i' ≤ i → on_time i l → on_time i' l.
Proof.
  induction l as [|[d v] l IH]; intros i i' Hi; [done|]. cbn. intros [H Hl].
  split; [lia|]. eapply IH; [|exact Hl]. lia.
Qed.

Lemma on_time_drop pre post : ∀ i, Forall (λ x, is_u32 x.1) pre →
  on_time i (pre ++ post) → on_time i post.
Proof.
  induction pre as [|[d v] pre IH]; intros i Hd; [done|]. cbn. intros [_ H].
  apply Forall_cons in Hd as [Hd Hpre]. cbn in Hd. unfold is_u32 in Hd.
  apply IH in H; [|done]. eapply on_time_mono; [|exact H]. unfold SECOND. lia.
Qed.

Lemma on_time_shift secs i l : on_time i l → on_time (i + secs * SECOND) (shift_head secs l).
Proof.
  destruct l as [|[d v] l]; [done|]. cbn.
  by replace (i + secs * SECOND + (d - secs) * SECOND) with (i + d * SECOND) by lia.
Qed.

Lemma shift_head_delays secs l : Forall (λ x, is_u32 x.1) l → 0 ≤ secs →
  match l with [] => True | x :: _ => secs < x.1 end →
  Forall (λ x, is_u32 x.1) (shift_head secs l).
Proof.
  destruct l as [|[d v] l]; [done|]. cbn. intros H ? ?. apply Forall_cons in H as [Hd Hl].
  constructor; [|done]. cbn in *. unfold is_u32 in *. lia.
Qed.

Lemma elapsed_secs_pos i now : 0 ≤ elapsed_secs i now.
Proof. apply Z.mod_pos_bound. lia. Qed.

Lemma elapsed_secs_le i now : i ≤ now → i + elapsed_secs i now * SECOND ≤ now.
Proof.
  intros H. unfold elapsed_secs. rewrite Z.max_r by lia.
  pose proof (Z.mod_le ((now - i) / SECOND) (2 ^ 32)) as Hm.
  assert (0 ≤ (now - i) / SECOND) by (apply Z.div_pos; unfold SECOND; lia).
  specialize (Hm ltac:(done) ltac:(lia)).
  pose proof (Z.mul_div_le (now - i) SECOND ltac:(unfold SECOND; lia)). unfold SECOND in *. lia.
Qed.

(** Within the range of the counter, the elapsed seconds are the whole seconds. *)
Lemma elapsed_secs_lt i now : i ≤ now → now - i < 2 ^ 32 * SECOND →
  now < i + (elapsed_secs i now + 1) * SECOND.
Proof.
  intros H Hs. unfold elapsed_secs. rewrite Z.max_r by lia. rewrite Z.mod_small.
  - pose proof (Z.mul_succ_div_gt (now - i) SECOND ltac:(unfold SECOND; lia)). unfold SECOND in *. lia.
  - split; [apply Z.div_pos; unfold SECOND; lia|].
    apply Z.div_lt_upper_bound; unfold SECOND in *; lia.
Qed.

Definition run_inv t last : Prop :=
  ∃ i l, t = timer_of i l ∧ Forall (λ x, is_u32 x.1) l ∧ i ≤ last ∧ on_time i l.

Lemma run_inv_holds t last : timer_run due t last → run_inv t last.
Proof.
  induction 1 as [now|t t' last now secs v _ (i & l & -> & Hl & Hi & Ht) Hn Hs Hv E
    |del t t' last _ (i & l & -> & Hl & Hi & Ht) E|del t t' last now vs _ (i & l & -> & Hl & Hi & Ht) Hn E].
  - exists now, []. repeat split; [constructor|lia].
  - destruct (Timer_add_timeout_of i l now secs v Hl Hs) as (l' & before & after & E' & Hl' & E0 & E1 & _).
    cbn zeta in *. rewrite E' in E. injection E as <-. exists i, l'. split; [done|]. split; [done|].
    split; [lia|]. pose proof (elapsed_secs_pos i now).
    rewrite on_time_deadlines_0 in *. rewrite E0 in Ht. rewrite E1.
    rewrite Forall_app in Ht. rewrite Forall_app, Forall_cons.
    split; [apply Ht|]. split; [|apply Ht]. cbn. unfold SECOND, is_u32 in *. lia.
  - rewrite Timer_gc_of in E. destruct (forallb _ l); [|done]. injection E as <-.
    by exists i, [].
  - destruct (Timer_expired_of del i l now) as (pre & post & -> & _ & Hp & E').
    cbn zeta in *. rewrite E' in E. injection E as <- <-. eexists _, _. split; [done|].
    rewrite Forall_app in Hl. pose proof (elapsed_secs_pos i now).
    split; [apply shift_head_delays; [apply Hl|lia|done]|].
    split; [apply elapsed_secs_le; lia|]. apply on_time_shift.
    apply (on_time_drop pre); [apply Hl|done].
Qed.

Lemma timer_deadlines_of i l : timer_deadlines (timer_of i l) = deadlines 0 l.
Proof. apply titem_deadlines_chain. Qed.
Lemma timer_values_of i l : timer_values (timer_of i l) = l.*2.
Proof. unfold timer_values. by rewrite timer_deadlines_of, deadlines_values. Qed.

Lemma filter_split (p : T → bool) (vs : list T) :
  vs ≡ₚ filter (λ v, p v = true) vs ++ filter (λ v, p v = false) vs.
Proof.
  induction vs as [|v vs IH]; [done|]. rewrite !filter_cons. destruct (p v) eqn:E.
  - rewrite decide_True, decide_False by congruence. cbn. by rewrite <- IH.
  - rewrite decide_False, decide_True by congruence. rewrite <- Permutation_middle. by rewrite <- IH.
Qed.

(** What is left after an expiration is due after it. *)
Lemma left_not_due i l now secs :
  Forall (λ x, is_u32 x.1) l → match l with [] => True | x :: _ => secs < x.1 end →
  now < i + (secs + 1) * SECOND → on_time i l → Forall (λ v, now < due v) l.*2.
Proof.
  intros Hl Hs Hn Ht. destruct l as [|[d v] l]; [constructor|]. cbn in Hs.
  apply Forall_cons in Hl as [_ Hl]. cbn in Ht. destruct Ht as [Hv Ht].
  assert (now < i + d * SECOND) as Hd by (unfold SECOND in *; lia). clear Hs Hn.
  constructor; [cbn; lia|]. clear Hv. revert Hd Ht. generalize (i + d * SECOND) as j. clear i d v secs.
  induction l as [|[d v] l IH]; intros j Hj Ht; [constructor|]. cbn in *. destruct Ht as [Hv Ht].
  apply Forall_cons in Hl as [Hd Hl]. cbn in Hd. unfold is_u32 in Hd.
  constructor; [unfold SECOND in *; lia|]. apply (IH Hl (j + d * SECOND)); [unfold SECOND; lia|done].
Qed.
End timer_run.

(** A timeout is inserted among the deadlines in order, after those that are not
    later, without moving any; the deadline counts from the instant of the last
    expiration, the seconds since which are taken off a second time. *)
Theorem timer_insert {T} (due : T → Z) t last now secs v :
  timer_run due t last → is_u32 secs →
  let at_ := Z.max 0 (secs - elapsed_secs (Timer.instant t) now) in
  ∃ t' before after, Timer_add_timeout now secs v t = Ok t' ∧
    Timer.instant t' = Timer.instant t ∧
    timer_deadlines t = before ++ after ∧ timer_deadlines t' = before ++ (at_, v) :: after ∧
    Forall (λ e, e.1 ≤ at_) before ∧ Forall (λ e, at_ < e.1) after.
Proof.
  intros Hr Hs. destruct (run_inv_holds due t last Hr) as (i & l & -> & Hl & _ & _).
  destruct (Timer_add_timeout_of i l now secs v Hl Hs) as (l' & before & after & E & _ & E0 & E1 & H).
  exists (timer_of i l'), before, after. by rewrite !timer_deadlines_of.
Qed.

(** C12: no timeout is late.  In any timer a program can come to, an expiration returns
    every value that is due and was not deleted; what stays in the timer is due
    later, and nothing but deleted values gets lost. *)
Theorem timer_never_late {T} (due : T → Z) t last is_deleted now :
  timer_run due t last → last ≤ now → now - Timer.instant t < 2 ^ 32 * SECOND →
  ∃ t' out gone, Timer_expired is_deleted now t = Ok (t', out) ∧
    timer_values t ≡ₚ gone ++ out ++ timer_values t' ∧
    Forall (λ v, is_deleted v = true) gone ∧ Forall (λ v, is_deleted v = false) out ∧
    Forall (λ v, now < due v) (timer_values t').
Proof.
  intros Hr Hn Hb. destruct (run_inv_holds due t last Hr) as (i & l & -> & Hl & Hi & Ht).
  destruct (Timer_expired_of is_deleted i l now) as (pre & post & -> & _ & Hp & E).
  cbn zeta in *. cbn [Timer.instant timer_of] in Hb. rewrite Forall_app in Hl.
  eexists _, _, (filter (λ v, is_deleted v = true) pre.*2). split; [exact E|].
  rewrite !timer_values_of. assert ((shift_head (elapsed_secs i now) post).*2 = post.*2) as ->
    by (by destruct post as [|[]]).
  rewrite fmap_app, app_assoc. split; [by rewrite <- filter_split|].
  split; [apply Forall_forall; by intros ? [? _]%list_elem_of_filter|].
  split; [apply Forall_forall; by intros ? [? _]%list_elem_of_filter|].
  apply (left_not_due due i post now (elapsed_secs i now)); [apply Hl|done| |].
  - apply elapsed_secs_lt; lia.
  - by apply (on_time_drop due pre); [apply Hl|].
Qed.

(** Two timeouts of three and six seconds: after four seconds both expire. *)
Definition ex_due (v : Z) : Z := v * SECOND.
Definition ex_timer : Result (Timer Z) :=
  t ← Timer_add_timeout 0 3 3 (Timer_default 0); Timer_add_timeout 0 6 6 t.
Definition ex_timer_state : Timer Z := Eval vm_compute in
  match ex_timer with Ok t => t | _ => Timer_default 0 end.

Lemma ex_timer_run : timer_run ex_due ex_timer_state 0.
Proof.
  assert (is_u32 3 ∧ is_u32 6) as [H3 H6] by (unfold is_u32; lia).
  apply (run_add ex_due (timer_of 0 [(3, 3)]) _ 0 0 6 6);
    [|lia|done|vm_compute; reflexivity|vm_compute; reflexivity].
  apply (run_add ex_due (Timer_default 0) _ 0 0 3 3);
    [apply run_default|lia|done|vm_compute; reflexivity|vm_compute; reflexivity].
Qed.

(** A timeout can be early: each delay is compared with all the elapsed seconds, not
    with those its predecessors leave. *)
Theorem timer_is_early : ∃ t' v, 4 * SECOND < ex_due v ∧
  Timer_expired (λ _, false) (4 * SECOND) ex_timer_state = Ok (t', [3; v]).
Proof. eexists _, 6. split; [done|]. vm_compute. reflexivity. Qed.

(** Collecting stops the program unless every timeout is deleted. *)
Theorem gc_panics_on_a_live_timeout {T} (due : T → Z) t last is_deleted :
  timer_run due t last →
  Timer_gc is_deleted t
  = if forallb is_deleted (timer_values t) then Ok (Timer.mk (Timer.instant t) (Titem.Head Titem.Sentinel)) else Panic.
Proof.
  intros Hr. destruct (run_inv_holds due t last Hr) as (i & l & -> & _). rewrite Timer_gc_of, timer_values_of.
  replace (forallb is_deleted l.*2) with (forallb (λ x, is_deleted x.2) l); [done|].
  clear. induction l as [|x l IH]; [done|]. cbn. by rewrite IH.
Qed.

Lemma timer_insert_witness :
  timer_run ex_due ex_timer_state 0 ∧
  ∃ t' before after, Timer_add_timeout 0 4 4 ex_timer_state = Ok t' ∧
    Timer.instant t' = 0 ∧ timer_deadlines ex_timer_state = before ++ after ∧
    timer_deadlines t' = before ++ (4, 4) :: after ∧
    Forall (λ e, e.1 ≤ 4) before ∧ Forall (λ e, 4 < e.1) after.
Proof.
  split; [exact ex_timer_run|].
  assert (Z.max 0 (4 - elapsed_secs (Timer.instant ex_timer_state) 0) = 4) as E
    by (vm_compute; reflexivity).
  pose proof (timer_insert ex_due ex_timer_state 0 0 4 4 ex_timer_run
                ltac:(unfold is_u32; lia)) as H.
  cbn zeta in H. rewrite E in H. exact H.
Defined.

Lemma timer_never_late_witness :
  timer_run ex_due ex_timer_state 0 ∧
  ∃ t' out gone, Timer_expired (λ v, v =? 3) (5 * SECOND) ex_timer_state = Ok (t', out) ∧
    timer_values ex_timer_state ≡ₚ gone ++ out ++ timer_values t' ∧
    Forall (λ v, (v =? 3) = true) gone ∧ Forall (λ v, (v =? 3) = false) out ∧
    Forall (λ v, 5 * SECOND < ex_due v) (timer_values t').
Proof.
  split; [exact ex_timer_run|].
  apply (timer_never_late ex_due ex_timer_state 0 (λ v, v =? 3) (5 * SECOND));
    [exact ex_timer_run|vm_compute; discriminate|vm_compute; reflexivity].
Defined.
