(* ===== verification/Retained.v ===== *)
(** Model of the retained messages of [src/cluster.rs]: the trie of [Ttrie], the index
    of topics and the timer of [Timer] that expires them.

    A [Retain] is shared between the index and the timer ([Arc]): it lives in a heap
    under a location, and deleting it through the one is seen by the other.  The
    cluster thread is the only one that changes any of them.  The clock is an argument
    of the operations that read it. *)

From S2P Require Import Prelude Error Util Codec Types V5 PublishPacket SubPackets Packets.
From S2P Require Import Ttrie Timer.
Local Open Scope Z_scope.

#[export] Instance TopicName_countable : Countable TopicName :=
  inj_countable' topic_name_str mkTopicName ltac:(by intros []).

(** src/cluster.rs:814-817 [Retain] *)
Module Retain.
Record Retain := mk { topic_name : TopicName; deleted : bool }.
End Retain.
Abbreviation Retain := Retain.Retain.

(** The location of a [Retain] in the heap. *)
Abbreviation loc := nat (only parsing).

(** The state of the cluster thread that belongs to retained messages. *)
(** src/cluster.rs:829-832 [Rt] *)
Module Rt.
Record Rt := mk {
  heap : gmap loc Retain;
  retained_messages : Inner Publish;
  retain_timer : Timer loc;
  retain_topics : gmap TopicName loc;
}.
End Rt.
Abbreviation Rt := Rt.Rt.

(** src/cluster.rs:820-822 [Retain::delete] *)
Definition Retain_delete (heap : gmap loc Retain) (l : loc) : gmap loc Retain :=
  alter (λ r, Retain.mk (Retain.topic_name r) true) l heap.

(** A location of the program is in the heap. *)
(** src/cluster.rs:824-826 [Retain::is_deleted] *)
Definition Retain_is_deleted (heap : gmap loc Retain) (l : loc) : bool :=
  match heap !! l with Some r => Retain.deleted r | None => true end.

Definition Rt_default (now : Z) : Rt :=
  Rt.mk ∅ RetainedTrie_default (Timer_default now) ∅.

(** src/cluster.rs:558-566 [Cluster::handle_set_retain_topic] *)
Definition publish_expiry (publish : Publish) : option u32 :=
  match Publish.properties publish with
  | Some p => PublishProperties.message_expiry_interval p
  | None => None
  end.

(** src/cluster.rs:535-570 [Cluster::handle_set_retain_topic] *)
Definition handle_set_retain_topic (now : Z) (publish : Publish) (rt : Rt) : Result Rt :=
  let topic_name := Publish.topic_name publish in
  let retain := fresh (dom (Rt.heap rt)) in
  let heap := <[retain := Retain.mk topic_name false]> (Rt.heap rt) in
  let heap :=
    match Rt.retain_topics rt !! topic_name with
    | Some old_retain => Retain_delete heap old_retain
    | None => heap
    end in
  let retain_topics := <[topic_name := retain]> (Rt.retain_topics rt) in
  retained_messages ←
    RetainedTrie_set (Rt.retained_messages rt) (TopicName_iter_topic_path topic_name) publish;
  retain_timer ←
    match publish_expiry publish with
    | Some secs => Timer_add_timeout now secs retain (Rt.retain_timer rt)
    | None => Ok (Rt.retain_timer rt)
    end;
  Ok (Rt.mk heap retained_messages retain_timer retain_topics).

(** src/cluster.rs:572-591 [Cluster::handle_reset_retain_topic] *)
Definition handle_reset_retain_topic (topic_name : TopicName) (rt : Rt) : Result Rt :=
  let heap :=
    match Rt.retain_topics rt !! topic_name with
    | Some old_retain => Retain_delete (Rt.heap rt) old_retain
    | None => Rt.heap rt
    end in
  let retain_topics := delete topic_name (Rt.retain_topics rt) in
  retained_messages ←
    RetainedTrie_remove (Rt.retained_messages rt) (TopicName_iter_topic_path topic_name);
  Ok (Rt.mk heap retained_messages (Rt.retain_timer rt) retain_topics).

(** src/cluster.rs:499-511 [Cluster::retain_expires] *)
Fixpoint expire_loop (items : list loc) (rt : Rt) : Result Rt :=
  match items with
  | [] => Ok rt
  | item :: items =>
      match Rt.heap rt !! item with
      | Some (Retain.mk topic_name false) =>
          retained_messages ←
            RetainedTrie_remove (Rt.retained_messages rt) (TopicName_iter_topic_path topic_name);
          match Rt.retain_topics rt !! topic_name with
          | Some _ =>
              expire_loop items
                (Rt.mk (Rt.heap rt) retained_messages (Rt.retain_timer rt)
                   (delete topic_name (Rt.retain_topics rt)))
          | None => Panic
          end
      | _ => Panic
      end
  end.

(** src/cluster.rs:487-512 [Cluster::retain_expires] *)
Definition retain_expires (now : Z) (rt : Rt) : Result Rt :=
  let is_deleted := Retain_is_deleted (Rt.heap rt) in
  retain_timer ← Timer_gc is_deleted (Rt.retain_timer rt);
  '(retain_timer, items) ← Timer_expired is_deleted now retain_timer;
  expire_loop items
    (Rt.mk (Rt.heap rt) (Rt.retained_messages rt) retain_timer (Rt.retain_topics rt)).

(** * The operations in sequence *)

Inductive retain_op :=
| SetRetain (publish : Publish)
| ResetRetain (topic_name : TopicName)
| Expires.

Definition retain_step (now : Z) (op : retain_op) (rt : Rt) : Result Rt :=
  match op with
  | SetRetain publish => handle_set_retain_topic now publish rt
  | ResetRetain topic_name => handle_reset_retain_topic topic_name rt
  | Expires => retain_expires now rt
  end.

Fixpoint retain_run (ops : list (Z * retain_op)) (rt : Rt) : Result Rt :=
  match ops with
  | [] => Ok rt
  | (now, op) :: ops => rt ← retain_step now op rt; retain_run ops rt
  end.
