(* ===== verification/RetainedTheorems.v ===== *)
(** The life of a retained message, over [Retained]: setting and resetting messages, in
    any order, refines a map from topics to messages, with two operations that panic:
    looking for expired messages once a message is retained that can expire, and resetting
    a topic without a message while one below it has one. *)

From S2P Require Import Prelude Error Util Codec Types V5 PublishPacket SubPackets Packets.
From S2P Require Import Ttrie TtrieFacts Timer TimerTheorems Retained.
Local Open Scope Z_scope.

(** * The abstract machine

    A message per topic.  Looking for expired messages is possible only while no message
    has an expiry interval, and then there are none.  A topic without a message can be reset
    only while no topic below it has one. *)
Abbreviation retained := (gmap TopicName Publish).

Definition for_ever (s : retained) : Prop := map_Forall (λ _ v, publish_expiry v = None) s.

Definition resettable (s : retained) (n : TopicName) : Prop :=
  is_Some (s !! n) ∨
  map_Forall (λ n' _, ¬ TopicName_iter_topic_path n `prefix_of` TopicName_iter_topic_path n') s.

#[export] Instance resettable_dec s n : Decision (resettable s n).
Proof. unfold resettable. apply _. Defined.

Definition retained_spec (op : retain_op) (s : retained) : option retained :=
  match op with
  | SetRetain v => Some (<[Publish.topic_name v := v]> s)
  | ResetRetain n => if decide (resettable s n) then Some (delete n s) else None
  | Expires => if decide (for_ever s) then Some s else None
  end.

(** Expiry intervals are 32-bit integers. *)
Definition retain_op_ok (op : retain_op) : Prop :=
  match op with
  | SetRetain v => ∀ secs, publish_expiry v = Some secs → is_u32 secs
  | _ => True
  end.

(** * The relation between the two *)

Abbreviation path := TopicName_iter_topic_path (only parsing).

Lemma topic_path_inj n n' : TopicName_iter_topic_path n = TopicName_iter_topic_path n' → n = n'.
Proof. destruct n, n'. intros H. by apply split_slash_inj in H; cbn in H; subst. Qed.

Lemma topic_path_nil n : TopicName_iter_topic_path n ≠ [].
Proof. apply split_slash_not_nil. Qed.

(** The trie holds the messages of [s]. *)
Definition trie_holds (t : Inner Publish) (s : retained) : Prop :=
  ∃ m, retained_as t m ∧ (∀ p, m p ≠ [] → ∃ n, TopicName_iter_topic_path n = p) ∧
    ∀ n, m (TopicName_iter_topic_path n) = match s !! n with Some v => [v] | None => [] end.

(** So do the heap and the index. *)
Record holds (rt : Rt) (s : retained) : Prop := {
  holds_trie : trie_holds (Rt.retained_messages rt) s;
  holds_heap : ∀ n l, Rt.retain_topics rt !! n = Some l →
    Rt.heap rt !! l = Some (Retain.mk n false);
  holds_topics : ∀ n, is_Some (Rt.retain_topics rt !! n) ↔ is_Some (s !! n);
}.

(** The timer has, of the messages that are not deleted, those that can expire. *)
Record timed (rt : Rt) (s : retained) (i : Z) (items : list (u32 * loc)) : Prop := {
  timed_timer : Rt.retain_timer rt = timer_of i items;
  timed_delays : Forall (λ x, is_u32 x.1) items;
  timed_live : ∀ l, l ∈ items.*2 → ∃ n b, Rt.heap rt !! l = Some (Retain.mk n b) ∧
    (b = false → Rt.retain_topics rt !! n = Some l ∧ ∃ v, s !! n = Some v ∧ publish_expiry v ≠ None);
  timed_due : ∀ n v l, s !! n = Some v → publish_expiry v ≠ None → Rt.retain_topics rt !! n = Some l →
    l ∈ items.*2;
}.

Definition refines (rt : Rt) (s : retained) : Prop :=
  holds rt s ∧ ∃ i items, timed rt s i items.

(** ** The trie *)

Lemma trie_holds_default : trie_holds RetainedTrie_default ∅.
Proof.
  exists (λ _, []). split; [|by split].
  split; [by split; [|split; constructor]|]. by intros [|].
Qed.

Lemma trie_holds_set t s n v : trie_holds t s → ∃ t',
  RetainedTrie_set t (TopicName_iter_topic_path n) v = Ok t' ∧ trie_holds t' (<[n := v]> s).
Proof.
  intros (m & Ht & Hp & Hm).
  destruct (set_step t m _ v Ht (topic_path_nil n)) as (t' & E & Ht' & _).
  exists t'. split; [done|]. eexists. split; [exact Ht'|]. unfold put. split.
  - intros p. case_bool_decide as H; [by exists n|apply Hp].
  - intros n'. case_bool_decide as H.
    + apply topic_path_inj in H as ->. by rewrite lookup_insert_eq.
    + rewrite lookup_insert_ne by congruence. apply Hm.
Qed.

Lemma trie_holds_remove t s n : trie_holds t s → is_Some (s !! n) → ∃ t',
  RetainedTrie_remove t (TopicName_iter_topic_path n) = Ok t' ∧ trie_holds t' (delete n s).
Proof.
  intros (m & Ht & Hp & Hm) [v Hs].
  destruct (remove_step t m _ Ht (topic_path_nil n)) as (t' & E & Ht' & _); [by rewrite Hm, Hs|].
  exists t'. split; [done|]. eexists. split; [exact Ht'|]. unfold put. split.
  - intros p. case_bool_decide as H; [by exists n|apply Hp].
  - intros n'. case_bool_decide as H.
    + apply topic_path_inj in H as ->. by rewrite lookup_delete_eq.
    + rewrite lookup_delete_ne by congruence. apply Hm.
Qed.

(** Removing a topic without a message, and without one below it, changes nothing. *)
Lemma trie_holds_remove_none t s n : trie_holds t s → s !! n = None →
  (∀ n' q, TopicName_iter_topic_path n' = TopicName_iter_topic_path n ++ q → s !! n' = None) →
  ∃ t', RetainedTrie_remove t (TopicName_iter_topic_path n) = Ok t' ∧ trie_holds t' (delete n s).
Proof.
  intros (m & Ht & Hp & Hm) Hs Hq.
  destruct (remove_cases t m _ Ht (topic_path_nil n)) as [[_ E]|[[q Hn] _]]; [by rewrite Hm, Hs| |].
  - eexists. split; [exact E|]. exists m. split; [by eapply trie_as_ext|]. split; [done|].
    intros n'. by rewrite delete_id.
  - destruct (Hp _ Hn) as [n' Hn']. by rewrite <- Hn', Hm, (Hq n' q) in Hn.
Qed.

(** With one below it, it is a panic. *)
Lemma trie_holds_remove_hollow t s n : trie_holds t s → ¬ resettable s n →
  RetainedTrie_remove t (TopicName_iter_topic_path n) = Panic.
Proof.
  intros (m & Ht & Hp & Hm) Hno.
  assert (s !! n = None) as Hs by (apply eq_None_not_Some; intros Hs; apply Hno; by left).
  destruct (remove_cases t m _ Ht (topic_path_nil n)) as [[Hq _]|[_ E]]; [by rewrite Hm, Hs| |done].
  destruct Hno. right. intros n' v Hn' [q Eq]. specialize (Hq q). by rewrite <- Eq, Hm, Hn' in Hq.
Qed.

Lemma refines_default t0 : refines (Rt_default t0) ∅.
Proof.
  unfold Rt_default. split.
  - split; cbn [Rt.retain_topics Rt.heap Rt.retained_messages];
      [exact trie_holds_default|intros n l; by rewrite lookup_empty|].
    intros n. by rewrite !lookup_empty.
  - exists t0, []. split; [done|constructor|by intros l ?%elem_of_nil|].
    intros n v l. by rewrite lookup_empty.
Qed.

(** ** The operations *)

(** The heap and the index after a message was set for [n] at the fresh location [l]. *)
Section set_topic.
Context (rt : Rt) (s : retained) (n : TopicName) (x : Publish).
Abbreviation l := (fresh (dom (Rt.heap rt))).
Definition set_heap : gmap loc Retain :=
  match Rt.retain_topics rt !! n with
  | Some old => Retain_delete (<[l := Retain.mk n false]> (Rt.heap rt)) old
  | None => <[l := Retain.mk n false]> (Rt.heap rt)
  end.

Context (Hh : holds rt s).

Lemma fresh_not_in_heap : Rt.heap rt !! l = None.
Proof. apply not_elem_of_dom, is_fresh. Qed.

Lemma old_not_fresh old : Rt.retain_topics rt !! n = Some old → old ≠ l.
Proof.
  intros Ho ->. apply (holds_heap _ _ Hh) in Ho. by rewrite fresh_not_in_heap in Ho.
Qed.

Lemma set_heap_fresh : set_heap !! l = Some (Retain.mk n false).
Proof.
  unfold set_heap, Retain_delete. destruct (_ !! n) as [old|] eqn:Ho; [|by rewrite lookup_insert_eq].
  rewrite lookup_alter_ne by (by apply old_not_fresh). by rewrite lookup_insert_eq.
Qed.

(** A location in use keeps its topic; it is deleted if it was the topic's. *)
Lemma set_heap_old k n' b : Rt.heap rt !! k = Some (Retain.mk n' b) →
  ∃ b', set_heap !! k = Some (Retain.mk n' b') ∧
    (b' = false → b = false ∧ Rt.retain_topics rt !! n ≠ Some k) ∧
    (Rt.retain_topics rt !! n ≠ Some k → b' = b).
Proof.
  intros Hk. assert (k ≠ l) as Hne by (intros ->; by rewrite fresh_not_in_heap in Hk).
  unfold set_heap, Retain_delete. destruct (_ !! n) as [old|] eqn:Ho.
  - destruct (decide (k = old)) as [->|Hko].
    + exists true. rewrite lookup_alter_eq, lookup_insert_ne, Hk by congruence. by split.
    + exists b. rewrite lookup_alter_ne, lookup_insert_ne, Hk by congruence. split; [done|].
      split; [by split; congruence|done].
  - exists b. rewrite lookup_insert_ne, Hk by congruence. by split.
Qed.

Lemma holds_set t timer : trie_holds t (<[n := x]> s) →
  holds (Rt.mk set_heap t timer (<[n := l]> (Rt.retain_topics rt))) (<[n := x]> s).
Proof.
  intros Ht. split; cbn [Rt.retained_messages Rt.retain_topics Rt.heap]; [done| |].
  - intros n' k. rewrite lookup_insert_Some. intros [[<- <-]|[Hn Hk]]; [apply set_heap_fresh|].
    pose proof (holds_heap _ _ Hh _ _ Hk) as Hk'.
    destruct (set_heap_old _ _ _ Hk') as (b & Hb & _ & E). rewrite Hb. rewrite E; [done|].
    intros Ho. apply (holds_heap _ _ Hh) in Ho. congruence.
  - intros n'. destruct (decide (n' = n)) as [->|Hne].
    + rewrite !lookup_insert_eq. by split.
    + rewrite !lookup_insert_ne by done. apply (holds_topics _ _ Hh).
Qed.
End set_topic.

(** The timer after a message was set: the fresh location is in it if it expires. *)
Lemma timed_set rt s i items n v items' t :
  let l := fresh (dom (Rt.heap rt)) in
  holds rt s → timed rt s i items → Forall (λ x, is_u32 x.1) items' →
  items'.*2 ≡ₚ match publish_expiry v with Some _ => [l] | None => [] end ++ items.*2 →
  timed (Rt.mk (set_heap rt n) t (timer_of i items') (<[n := l]> (Rt.retain_topics rt)))
        (<[n := v]> s) i items'.
Proof.
  intros l Hh Ht Hd Hp.
  split; cbn [Rt.retained_messages Rt.retain_topics Rt.heap Rt.retain_timer]; [done|done| |].
  - intros k. rewrite Hp, elem_of_app. intros [Hkl|Hki].
    + destruct (publish_expiry v) as [d|] eqn:Ev; [|by apply elem_of_nil in Hkl].
      apply list_elem_of_singleton in Hkl as ->. exists n, false.
      split; [by apply (set_heap_fresh rt s n Hh)|]. intros _. rewrite !lookup_insert_eq.
      split; [done|]. exists v. by rewrite Ev.
    + destruct (timed_live _ _ _ _ Ht k Hki) as (n' & b & Hkh & Hb).
      destruct (set_heap_old rt n k n' b Hkh) as (b' & Hk' & Hb' & _).
      exists n', b'. split; [done|]. intros ->. destruct (Hb' eq_refl) as [-> Hne].
      destruct (Hb eq_refl) as [Htk Hw]. assert (n' ≠ n) by (intros ->; done).
      by rewrite !lookup_insert_ne.
  - intros n' w k. rewrite Hp, elem_of_app. destruct (decide (n' = n)) as [->|Hne].
    + rewrite !lookup_insert_eq. intros [= ->] He [= <-]. left. by destruct (publish_expiry w); [left|].
    + rewrite !lookup_insert_ne by done. intros Hs He Hk. right. by eapply timed_due.
Qed.

Lemma set_refines now rt s v :
  refines rt s → retain_op_ok (SetRetain v) →
  ∃ rt', handle_set_retain_topic now v rt = Ok rt' ∧ refines rt' (<[Publish.topic_name v := v]> s).
Proof.
  intros [Hh (i & items & Ht)] Hok. cbn in Hok.
  set (n := Publish.topic_name v). set (l := fresh (dom (Rt.heap rt))).
  destruct (trie_holds_set (Rt.retained_messages rt) s n v (holds_trie _ _ Hh)) as (t & Et & Htr).
  unfold handle_set_retain_topic. fold n l. rewrite Et, bind_Ok_1.
  change (match Rt.retain_topics rt !! n with
          | Some old_retain => Retain_delete (<[l:=Retain.mk n false]> (Rt.heap rt)) old_retain
          | None => <[l:=Retain.mk n false]> (Rt.heap rt) end) with (set_heap rt n).
  destruct (publish_expiry v) as [secs|] eqn:Ee.
  - destruct (Timer_add_timeout_of i items now secs l (timed_delays _ _ _ _ Ht) (Hok secs eq_refl))
      as (items' & before & after & Ea & Hd & E0 & E1 & _).
    rewrite (timed_timer _ _ _ _ Ht), Ea, bind_Ok_1. eexists. split; [done|].
    split; [by apply holds_set|]. exists i, items'. apply (timed_set rt s i items); try done.
    rewrite Ee, <- (deadlines_values items' 0), <- (deadlines_values items 0), E0, E1, !fmap_app, fmap_cons.
    by rewrite <- Permutation_middle.
  - rewrite bind_Ok_1. eexists. split; [done|]. split; [by apply holds_set|].
    exists i, items. rewrite (timed_timer _ _ _ _ Ht).
    apply (timed_set rt s i items); try done; [apply Ht|by rewrite Ee].
Qed.

(** Resetting. *)
Section reset_topic.
Context (rt : Rt) (s : retained) (n : TopicName) (Hh : holds rt s).
Definition reset_heap : gmap loc Retain :=
  match Rt.retain_topics rt !! n with
  | Some old => Retain_delete (Rt.heap rt) old
  | None => Rt.heap rt
  end.

Lemma reset_heap_lookup k n' b : Rt.heap rt !! k = Some (Retain.mk n' b) →
  ∃ b', reset_heap !! k = Some (Retain.mk n' b') ∧
    (b' = false → b = false ∧ Rt.retain_topics rt !! n ≠ Some k) ∧
    (Rt.retain_topics rt !! n ≠ Some k → b' = b).
Proof.
  intros Hk. unfold reset_heap, Retain_delete. destruct (_ !! n) as [old|] eqn:Ho; [|by exists b].
  destruct (decide (k = old)) as [->|Hko].
  - exists true. rewrite lookup_alter_eq, Hk. by split.
  - exists b. rewrite lookup_alter_ne, Hk by congruence. split; [done|].
    split; [by split; congruence|done].
Qed.

Lemma holds_reset t timer : trie_holds t (delete n s) →
  holds (Rt.mk reset_heap t timer (delete n (Rt.retain_topics rt))) (delete n s).
Proof.
  intros Ht. split; cbn [Rt.retained_messages Rt.retain_topics Rt.heap]; [done| |].
  - intros n' k [Hn Hk]%lookup_delete_Some. pose proof (holds_heap _ _ Hh _ _ Hk) as Hk'.
    destruct (reset_heap_lookup _ _ _ Hk') as (b & -> & _ & E). rewrite E; [done|].
    intros Ho. apply (holds_heap _ _ Hh) in Ho. congruence.
  - intros n'. destruct (decide (n' = n)) as [->|Hne].
    + rewrite !lookup_delete_eq. by split.
    + rewrite !lookup_delete_ne by done. apply (holds_topics _ _ Hh).
Qed.

Lemma timed_reset i items t : timed rt s i items →
  timed (Rt.mk reset_heap t (Rt.retain_timer rt) (delete n (Rt.retain_topics rt)))
        (delete n s) i items.
Proof.
  intros Ht. split; cbn [Rt.retained_messages Rt.retain_topics Rt.heap Rt.retain_timer]; [apply Ht|apply Ht| |].
  - intros k Hk. destruct (timed_live _ _ _ _ Ht k Hk) as (n' & b & Hkh & Hb).
    destruct (reset_heap_lookup k n' b Hkh) as (b' & Hk' & Hb' & _). exists n', b'.
    split; [done|]. intros ->. destruct (Hb' eq_refl) as [-> Hne].
    destruct (Hb eq_refl) as [Htk Hw]. assert (n' ≠ n) by (intros ->; done).
    by rewrite !lookup_delete_ne.
  - intros n' w k [_ Hs]%lookup_delete_Some He [_ Hk]%lookup_delete_Some.
    by apply (timed_due _ _ _ _ Ht n' w).
Qed.
End reset_topic.

Lemma reset_refines rt s n :
  refines rt s →
  match retained_spec (ResetRetain n) s with
  | Some s' => ∃ rt', handle_reset_retain_topic n rt = Ok rt' ∧ refines rt' s'
  | None => handle_reset_retain_topic n rt = Panic
  end.
Proof.
  intros [Hh (i & items & Ht)]. cbn [retained_spec].
  destruct (decide (resettable s n)) as [Hok|Hno].
  2: { unfold handle_reset_retain_topic. by rewrite (trie_holds_remove_hollow _ s n (holds_trie _ _ Hh) Hno). }
  assert (∃ t, RetainedTrie_remove (Rt.retained_messages rt) (TopicName_iter_topic_path n) = Ok t ∧
               trie_holds t (delete n s)) as (t & Et & Htr).
  { pose proof (holds_trie _ _ Hh) as Htr. destruct (s !! n) eqn:E.
    - apply trie_holds_remove; [done|by eexists].
    - destruct Hok as [[x Hx]|Hok]; [congruence|]. apply trie_holds_remove_none; [done..|].
      intros n' q Eq. destruct (s !! n') eqn:E'; [|done]. destruct (Hok _ _ E'). by exists q. }
  unfold handle_reset_retain_topic. rewrite Et, bind_Ok_1. eexists. split; [done|].
  split; [by apply holds_reset|]. exists i, items. by apply timed_reset.
Qed.

(** The items of the timer are all deleted exactly when no message can expire. *)
Lemma timed_deleted rt s i items : holds rt s → timed rt s i items →
  forallb (λ x, Retain_is_deleted (Rt.heap rt) x.2) items = bool_decide (for_ever s).
Proof.
  intros Hh Ht. apply eq_bool_prop_intro. rewrite bool_decide_spec, Is_true_true, forallb_forall.
  unfold Retain_is_deleted. split.
  - intros Hdel n v Hs. destruct (publish_expiry v) eqn:Ev; [|done]. exfalso.
    assert (is_Some (Rt.retain_topics rt !! n)) as [l Hl] by (apply (holds_topics _ _ Hh); by eexists).
    assert (l ∈ items.*2) as Hin by (eapply (timed_due _ _ _ _ Ht n v); [done|congruence|done]).
    apply list_elem_of_fmap in Hin as (x & -> & Hx). apply list_elem_of_In, Hdel in Hx.
    by rewrite (holds_heap _ _ Hh _ _ Hl) in Hx.
  - intros Hev x Hx. assert (x.2 ∈ items.*2) as Hin by (by apply list_elem_of_fmap_2, list_elem_of_In).
    destruct (timed_live _ _ _ _ Ht _ Hin) as (n & b & -> & Hb). destruct b; [done|].
    destruct (Hb eq_refl) as [_ (v & Hv & He)]. by destruct He, (Hev n v).
Qed.

(** Looking for expired messages finds none, or panics. *)
Lemma expires_refines now rt s :
  refines rt s →
  match retained_spec Expires s with
  | Some s' => ∃ rt', retain_expires now rt = Ok rt' ∧ refines rt' s'
  | None => retain_expires now rt = Panic
  end.
Proof.
  intros [Hh (i & items & Ht)]. cbn [retained_spec]. unfold retain_expires.
  rewrite (timed_timer _ _ _ _ Ht), Timer_gc_of, (timed_deleted rt s i items) by done.
  destruct (decide (for_ever s)) as [Hev|Hev]; [|by rewrite bool_decide_eq_false_2].
  rewrite bool_decide_eq_true_2, bind_Ok_1 by done. eexists. split; [reflexivity|].
  split; [by destruct Hh; split|]. eexists _, []. split; [reflexivity|constructor|by intros l ?%elem_of_nil|].
  intros n v l Hs Hv. by destruct Hv, (Hev n v).
Qed.

Lemma step_refines now rt s op :
  refines rt s → retain_op_ok op →
  match retained_spec op s with
  | Some s' => ∃ rt', retain_step now op rt = Ok rt' ∧ refines rt' s'
  | None => retain_step now op rt = Panic
  end.
Proof.
  intros Hr Hok. destruct op as [v|n|]; [by apply set_refines|by apply reset_refines|by apply expires_refines].
Qed.

(** What the trie answers for a topic. *)
Lemma holds_values rt s n : holds rt s →
  values_at (TopicName_iter_topic_path n) (Inner.root (Rt.retained_messages rt))
  = match s !! n with Some v => [v] | None => [] end.
Proof. intros Hh. destruct (holds_trie _ _ Hh) as (m & [_ Hm] & _ & Hs). by rewrite Hm. Qed.

(** * Runs *)

Fixpoint spec_run (s : retained) (ops : list (Z * retain_op)) : option retained :=
  match ops with
  | [] => Some s
  | (_, op) :: ops => s' ← retained_spec op s; spec_run s' ops
  end.

Lemma run_refines ops : ∀ rt s,
  refines rt s → Forall (λ x, retain_op_ok x.2) ops →
  match spec_run s ops with
  | Some s' => ∃ rt', retain_run ops rt = Ok rt' ∧ holds rt' s'
  | None => retain_run ops rt = Panic
  end.
Proof.
  induction ops as [|[now op] ops IH]; intros rt s Hr; cbn [spec_run retain_run].
  - intros _. exists rt. split; [done|apply Hr].
  - intros [Hok Hops]%Forall_cons. pose proof (step_refines now rt s op Hr Hok) as H.
    destruct (retained_spec op s) as [s'|]; cbn [mbind option_bind]; [|by rewrite H].
    destruct H as (rt' & -> & Hr'). rewrite bind_Ok_1. by apply IH.
Qed.

(** C9: any sequence of messages set and reset, and looked through for expired ones, from the
    start of a cluster, with expiry intervals of 32 bits, does what the map does: a message is
    retained from when it is set until it is replaced or reset.  None ever expires: looking
    for expired messages changes nothing while no message can expire, and panics once one
    can.  Resetting a topic without a message changes nothing while no topic below it has
    one, and panics once one has.  In these two cases, and in no other, the run panics. *)
Theorem retained_lifecycle t0 ops :
  Forall (λ x, retain_op_ok x.2) ops →
  match spec_run ∅ ops with
  | Some s => ∃ rt, retain_run ops (Rt_default t0) = Ok rt ∧
      ∀ n, values_at (TopicName_iter_topic_path n) (Inner.root (Rt.retained_messages rt))
           = match s !! n with Some v => [v] | None => [] end
  | None => retain_run ops (Rt_default t0) = Panic
  end.
Proof.
  intros Hok. pose proof (run_refines ops _ _ (refines_default t0) Hok) as H.
  destruct (spec_run ∅ ops) as [s|]; [|done]. destruct H as (rt & E & Hh).
  exists rt. split; [done|]. intros n. by apply holds_values.
Qed.

(** A message replaced before its expiry, its successor, another one, and a reset. *)
Definition ex_retain (topic : Z) (secs : option u32) : Publish :=
  Publish.mk true QoS.AtMostOnce false (mkTopicName [topic]) None
    ((λ s, PublishProperties.mk PayloadFormat.Binary (Some s) None None None [] None []) <$> secs)
    (Some [topic]).
Definition ex_ops : list (Z * retain_op) :=
  [(0, SetRetain (ex_retain 97 (Some 5))); (SECOND, SetRetain (ex_retain 97 None));
   (SECOND, SetRetain (ex_retain 98 None)); (2 * SECOND, SetRetain (ex_retain 99 (Some 90)));
   (2 * SECOND, ResetRetain (mkTopicName [99])); (7 * SECOND, Expires)].

Lemma ex_ops_ok ops :
  ops = ex_ops ∨ ops = ex_ops ++ [(8 * SECOND, SetRetain (ex_retain 99 (Some 90))); (9 * SECOND, Expires)] ∨
  ops = [(0, SetRetain (Publish.mk true QoS.AtMostOnce false (mkTopicName [97; 47; 98]) None None (Some [1])));
         (1, ResetRetain (mkTopicName [97]))] →
  Forall (λ x, retain_op_ok x.2) ops.
Proof.
  assert (∀ t secs, match secs with Some x => is_u32 x | None => True end →
            retain_op_ok (SetRetain (ex_retain t secs))) as Hu
    by (intros t [x|] Hx y; cbn; [by intros [= <-]|done]).
  intros [->|[->| ->]]; cbn [ex_ops app]; repeat apply Forall_cons_2; try apply Forall_nil_2; cbn [snd];
    first [exact I|apply Hu; first [exact I|unfold is_u32; lia]|done].
Qed.

Lemma retained_lifecycle_witness :
  retain_run (ex_ops ++ [(8 * SECOND, SetRetain (ex_retain 99 (Some 90))); (9 * SECOND, Expires)]) (Rt_default 0) = Panic ∧
  retain_run [(0, SetRetain (Publish.mk true QoS.AtMostOnce false (mkTopicName [97; 47; 98]) None None (Some [1])));
              (1, ResetRetain (mkTopicName [97]))] (Rt_default 0) = Panic ∧
  ∃ s, spec_run ∅ ex_ops = Some s ∧ ∃ rt, retain_run ex_ops (Rt_default 0) = Ok rt ∧
    ∀ n, values_at (TopicName_iter_topic_path n) (Inner.root (Rt.retained_messages rt))
         = match s !! n with Some v => [v] | None => [] end.
Proof.
  split; [|split].
  - pose proof (retained_lifecycle 0 _ (ex_ops_ok _ (or_intror (or_introl eq_refl)))) as H.
    destruct (spec_run ∅ _) as [s|] eqn:E; [by vm_compute in E|exact H].
  - pose proof (retained_lifecycle 0 _ (ex_ops_ok _ (or_intror (or_intror eq_refl)))) as H.
    destruct (spec_run ∅ _) as [s|] eqn:E; [by vm_compute in E|exact H].
  - pose proof (retained_lifecycle 0 ex_ops (ex_ops_ok _ (or_introl eq_refl))) as H.
    destruct (spec_run ∅ ex_ops) as [s|] eqn:E; [exists s; split; [done|exact H]|clear H; vm_compute in E; discriminate E].
Defined.

Example ex_ops_run :
  (λ rt, map (λ t, map Publish.topic_name
            (values_at (TopicName_iter_topic_path (mkTopicName [t])) (Inner.root (Rt.retained_messages rt))))
         [97; 98; 99]) <$> retain_run ex_ops (Rt_default 0)
  = Ok [[mkTopicName [97]]; [mkTopicName [98]]; []].
Proof. vm_compute. reflexivity. Qed.
