(* ===== verification/Spinlock.v ===== *)
(** Model of [src/spinlock.rs]: the read-write lock that the tries share.

    A thread that acquires or releases the lock takes one atomic access of the code per
    step; between two of its steps any other thread may take any number of its own.
    What a thread has loaded and still compares with is part of its phase.  At the
    end are the flags of the word as arithmetic. *)

From S2P Require Import Prelude Error Util.
Local Open Scope Z_scope.

(** src/spinlock.rs:76-76 [Spinlock] *)
Definition LATCH_FLAG : u32 := 0x40000000.
(** src/spinlock.rs:77-77 [Spinlock] *)
Definition LOCK_FLAG : u32 := 0x80000000.
(** src/spinlock.rs:78-78 [Spinlock] *)
Definition LATCH_LOCK_FLAG : u32 := 0xC0000000.
(** src/spinlock.rs:79-79 [Spinlock] *)
Definition READERS_FLAG : u32 := 0x3FFFFFFF.

(** The counters change only with the feature [debug]; nothing reads them but
    [to_stats].  They are bumped in the step of the access they count. *)
(** src/spinlock.rs:59-66 [Spinlock] *)
Module Spinlock.
Record Spinlock (T : Type) := mk {
  latchlock : u32;
  read_locks : u32;
  write_locks : u32;
  conflicts : u32;
  value : T;
}.
Arguments mk {T} _ _ _ _ _.
Arguments latchlock {T} _.
Arguments read_locks {T} _.
Arguments write_locks {T} _.
Arguments conflicts {T} _.
Arguments value {T} _.
End Spinlock.
Abbreviation Spinlock := Spinlock.Spinlock.

(** Where a thread is in the code of the lock.  [Reading] and [Writing] are a thread
    that holds a guard. *)
Inductive phase :=
| Idle
| ReadLoad
| ReadCas (old : u32)
| Reading
| WriteLoad
| WriteCas (old : u32)
| LockLoad
| LockCas (old : u32)
| Writing
| DropLoad
| DropCas (old : u32)
| Panicked.

#[export] Instance phase_eq_dec : EqDecision phase.
Proof. solve_decision. Defined.

(** What a thread does next: call [read] or [write], go on with what it is in, release
    the guard it holds, or assign through a write guard. *)
Inductive action (T : Type) :=
| CallRead | CallWrite | Continue | DropGuard | Assign (f : T → T).
Arguments CallRead {T}.
Arguments CallWrite {T}.
Arguments Continue {T}.
Arguments DropGuard {T}.
Arguments Assign {T} f.

Section spinlock.
Context {T : Type} (debug : bool).
Implicit Types (self : Spinlock T).

(** src/spinlock.rs:82-91 [Spinlock::new] *)
Definition Spinlock_new (value : T) : Spinlock T := Spinlock.mk 0 0 0 0 value.

Definition set_latchlock (v : u32) self : Spinlock T :=
  Spinlock.mk v (Spinlock.read_locks self) (Spinlock.write_locks self)
    (Spinlock.conflicts self) (Spinlock.value self).

(** [fetch_add(1, SeqCst)] on a counter, with the feature. *)
Definition bump (n : u32) : u32 := if debug then (n + 1) mod 2 ^ 32 else n.
(** src/spinlock.rs:100-102 [Spinlock::read] *)
Definition bump_read self : Spinlock T :=
  Spinlock.mk (Spinlock.latchlock self) (bump (Spinlock.read_locks self))
    (Spinlock.write_locks self) (Spinlock.conflicts self) (Spinlock.value self).
(** src/spinlock.rs:139-141 [Spinlock::write] *)
Definition bump_write self : Spinlock T :=
  Spinlock.mk (Spinlock.latchlock self) (Spinlock.read_locks self)
    (bump (Spinlock.write_locks self)) (Spinlock.conflicts self) (Spinlock.value self).
(** src/spinlock.rs:106-108 [Spinlock::read] *)
Definition bump_conflicts self : Spinlock T :=
  Spinlock.mk (Spinlock.latchlock self) (Spinlock.read_locks self)
    (Spinlock.write_locks self) (bump (Spinlock.conflicts self)) (Spinlock.value self).

(** src/spinlock.rs:94-110 [Spinlock::read] *)
Definition read_step self (p : phase) : option (Spinlock T * phase) :=
  match p with
  | ReadLoad =>
      let old := Spinlock.latchlock self in
      if Z.land old LATCH_LOCK_FLAG =? 0 then Some (self, ReadCas old)
      else Some (bump_conflicts self, ReadLoad)
  | ReadCas old =>
      if Spinlock.latchlock self =? old
      then Some (bump_read (set_latchlock (old + 1) self), Reading)
      else Some (bump_conflicts self, ReadLoad)
  | _ => None
  end.

(** src/spinlock.rs:113-157 [Spinlock::write] *)
Definition write_step self (p : phase) : option (Spinlock T * phase) :=
  match p with
  | WriteLoad =>
      let old := Spinlock.latchlock self in
      if Z.land old LATCH_FLAG =? 0 then
        if negb (Z.land old LOCK_FLAG =? 0) then Some (self, Panicked)
        else Some (self, WriteCas old)
      else Some (bump_conflicts self, WriteLoad)
  | WriteCas old =>
      if Spinlock.latchlock self =? old
      then Some (set_latchlock (Z.lor old LATCH_FLAG) self, LockLoad)
      else Some (bump_conflicts self, WriteLoad)
  | LockLoad =>
      let old := Spinlock.latchlock self in
      if Z.land old READERS_FLAG =? 0 then Some (self, LockCas old)
      else Some (bump_conflicts self, LockLoad)
  | LockCas old =>
      if Spinlock.latchlock self =? old
      then Some (bump_write (set_latchlock (Z.lor old LOCK_FLAG) self), Writing)
      else Some (self, Panicked)
  | _ => None
  end.

(** src/spinlock.rs:211-225 [WriteGuard::drop] *)
Definition drop_write_step self (p : phase) : option (Spinlock T * phase) :=
  match p with
  | DropLoad =>
      let old := Spinlock.latchlock self in
      if 0 <? Z.land old READERS_FLAG then Some (self, Panicked)
      else Some (self, DropCas old)
  | DropCas old =>
      if Spinlock.latchlock self =? old then Some (set_latchlock 0 self, Idle)
      else Some (self, Panicked)
  | _ => None
  end.

(** src/spinlock.rs:186-188 [ReadGuard::drop] *)
Definition drop_read self : Spinlock T :=
  set_latchlock ((Spinlock.latchlock self - 1) mod 2 ^ 32) self.

(** src/spinlock.rs:205-207 [WriteGuard::deref_mut] *)
Definition assign (f : T → T) self : Spinlock T :=
  Spinlock.mk (Spinlock.latchlock self) (Spinlock.read_locks self)
    (Spinlock.write_locks self) (Spinlock.conflicts self) (f (Spinlock.value self)).

(** One step of a thread; [None] where the action makes no sense in its phase. *)
Definition thread_step self (p : phase) (a : action T) : option (Spinlock T * phase) :=
  match p, a with
  | Idle, CallRead => Some (self, ReadLoad)
  | Idle, CallWrite => Some (self, WriteLoad)
  | (ReadLoad | ReadCas _), Continue => read_step self p
  | (WriteLoad | WriteCas _ | LockLoad | LockCas _), Continue => write_step self p
  | Reading, DropGuard => Some (drop_read self, Idle)
  | Writing, DropGuard => Some (self, DropLoad)
  | Writing, Assign f => Some (assign f self, Writing)
  | (DropLoad | DropCas _), Continue => drop_write_step self p
  | _, _ => None
  end.

(** The lock and its threads; a thread that is not listed is idle. *)
Record system := mkSystem { door : Spinlock T; threads : gmap nat phase }.
Definition phase_of (st : system) (i : nat) : phase := default Idle (threads st !! i).

Definition system_step (st : system) (i : nat) (a : action T) : option system :=
  match thread_step (door st) (phase_of st i) a with
  | Some (door, p) => Some (mkSystem door (<[i := p]> (threads st)))
  | None => None
  end.

(** What [n] threads can come to from a new lock. *)
Inductive reachable (n : nat) (value : T) : system → Prop :=
| reach_new : reachable n value (mkSystem (Spinlock_new value) ∅)
| reach_step st i a st' :
    reachable n value st → (i < n)%nat → system_step st i a = Some st' →
    reachable n value st'.

(** A run of one thread's steps. *)
Fixpoint thread_run (st : system) (i : nat) (acts : list (action T)) : option system :=
  match acts with
  | [] => Some st
  | a :: acts =>
      match system_step st i a with
      | Some st => thread_run st i acts
      | None => None
      end
  end.

(** ** Statistics *)

(** Named apart from the statistics of the tries. *)
(** src/spinlock.rs:229-240 [Stats] *)
Record Spinlock_Stats := mkStats {
  stats_latchlock : u32; stats_read_locks : Z; stats_write_locks : Z; stats_conflicts : Z;
}.

(** [usize::try_from] of a 32-bit number where addresses have [2 ^ bits] values. *)
Definition usize_try_from (bits : Z) (n : u32) : Result Z :=
  if n <? 2 ^ bits then Ok n else err_desc ErrorKind.TryFromIntError.

(** The four loads see the lock as it is at four times. *)
(** src/spinlock.rs:159-169 [Spinlock::to_stats] *)
Definition to_stats (bits : Z) (first second third fourth : Spinlock T) : Result Spinlock_Stats :=
  rl ← usize_try_from bits (Spinlock.read_locks first);
  wl ← usize_try_from bits (Spinlock.write_locks second);
  cn ← usize_try_from bits (Spinlock.conflicts third);
  Ok (mkStats (Spinlock.latchlock fourth) rl wl cn).
End spinlock.

(** * The flags in the word

    The word is the number of readers plus [k] times the latch bit: 0, 1 (latched) or
    3 (latched and locked). *)
Definition word (readers k : Z) : u32 := readers + k * 2 ^ 30.

Section word.
Context (r : Z) (Hr : 0 ≤ r < 2 ^ 30).

Lemma land_word k m : Z.land (word r k) (m * 2 ^ 30) = Z.land k m * 2 ^ 30.
Proof.
  unfold word. rewrite Z.add_comm, <- lor_shiftl_add by lia.
  rewrite Z.land_lor_distr_l, <- !Z.shiftl_mul_pow2, <- Z.shiftl_land by lia.
  replace (Z.land r (Z.shiftl m 30)) with 0; [by rewrite Z.lor_0_r|].
  symmetry. apply Z.bits_inj'. intros i Hi. rewrite Z.land_spec, Z.bits_0.
  destruct (Z.lt_ge_cases i 30); [rewrite (Z.shiftl_spec_low m) by lia; apply andb_false_r|].
  rewrite <- (Z.mod_small r (2 ^ 30)) by lia. by rewrite Z.mod_pow2_bits_high by lia.
Qed.

Lemma latch_of_word k : Z.land (word r k) LATCH_FLAG = Z.land k 1 * 2 ^ 30.
Proof. exact (land_word k 1). Qed.
Lemma lock_of_word k : Z.land (word r k) LOCK_FLAG = Z.land k 2 * 2 ^ 30.
Proof. exact (land_word k 2). Qed.
Lemma latch_lock_of_word k : Z.land (word r k) LATCH_LOCK_FLAG = Z.land k 3 * 2 ^ 30.
Proof. exact (land_word k 3). Qed.
Lemma readers_of_word k : Z.land (word r k) READERS_FLAG = r.
Proof.
  unfold word. change READERS_FLAG with (Z.ones 30). rewrite Z.land_ones by lia.
  by rewrite Z.mod_add, Z.mod_small.
Qed.
Lemma set_latch_word : Z.lor (word r 0) LATCH_FLAG = word r 1.
Proof.
  unfold word. rewrite Z.mul_0_l, Z.add_0_r, Z.lor_comm.
  change LATCH_FLAG with (Z.shiftl 1 30). rewrite lor_shiftl_add by lia. lia.
Qed.
End word.
