(* ===== verification/SpinlockTheorems.v ===== *)
(** The properties of the lock of [Spinlock]: mutual exclusion, with the panics its code
    guards itself with out of reach, no deadlock, and what its statistics count. *)

From S2P Require Import Prelude Error Util Spinlock.
Local Open Scope Z_scope.

(** A thread that has the latch, and how it shows in the word. *)
Definition latched (p : phase) : bool :=
  match p with LockLoad | LockCas _ | Writing | DropLoad | DropCas _ => true | _ => false end.
Definition lock_bits (p : phase) : Z :=
  match p with LockLoad | LockCas _ => 1 | Writing | DropLoad | DropCas _ => 3 | _ => 0 end.

(** What a thread knows in its phase, given the threads that hold a read guard. *)
Definition phase_ok (readers : gset nat) (p : phase) : Prop :=
  match p with
  | ReadCas old | WriteCas old => ∃ r, old = word r 0 ∧ 0 ≤ r < 2 ^ 30
  | LockCas old => readers = ∅ ∧ old = word 0 1
  | Writing | DropLoad => readers = ∅
  | DropCas old => readers = ∅ ∧ old = word 0 3
  | Panicked => False
  | _ => True
  end.

Section invariant.
Context {T : Type} (debug : bool) (n : nat) (Hn : Z.of_nat n < 2 ^ 30).
Implicit Types (st : system (T := T)) (R : gset nat) (W : option nat) (p : phase).

Definition writer_bits st W : Z :=
  match W with Some w => lock_bits (phase_of st w) | None => 0 end.

Record lock_inv st R W : Prop := {
  inv_readers : ∀ i, i ∈ R ↔ phase_of st i = Reading;
  inv_writer : ∀ i, W = Some i ↔ latched (phase_of st i) = true;
  inv_word : Spinlock.latchlock (door st) = word (Z.of_nat (size R)) (writer_bits st W);
  inv_phase : ∀ i, phase_ok R (phase_of st i);
  inv_bound : R ⊆ set_seq 0 n;
}.

Lemma readers_bound R : R ⊆ set_seq 0 n → 0 ≤ Z.of_nat (size R) < 2 ^ 30.
Proof.
  intros H. apply subseteq_size in H. rewrite size_set_seq in H. lia.
Qed.

Lemma phase_of_insert d st i p j :
  phase_of (mkSystem (T := T) d (<[i := p]> (threads st))) j = if decide (j = i) then p else phase_of st j.
Proof.
  unfold phase_of. cbn [threads]. destruct (decide (j = i)) as [->|Hne].
  - by rewrite lookup_insert_eq.
  - by rewrite lookup_insert_ne.
Qed.

Lemma phase_ok_fewer R R' p : R' ⊆ R → phase_ok R p → phase_ok R' p.
Proof.
  intros HR. assert (R = ∅ → R' = ∅) as He by set_solver.
  destruct p; cbn; try done; try (intros [? ?]; split; [by apply He|done]); by apply He.
Qed.

Lemma phase_ok_unlatched R R' p : latched p = false → phase_ok R p → phase_ok R' p.
Proof. by destruct p. Qed.

(** One thread moves on, the others stay where they are. *)
Lemma lock_inv_step st R W d i p R' W' :
  lock_inv st R W →
  (∀ j, j ∈ R' ↔ if decide (j = i) then p = Reading else j ∈ R) →
  (∀ j, W' = Some j ↔ if decide (j = i) then latched p = true else W = Some j) →
  Spinlock.latchlock d
    = word (Z.of_nat (size R'))
        (match W' with Some w => if decide (w = i) then lock_bits p else writer_bits st W | None => 0 end) →
  phase_ok R' p → R' ⊆ R ∨ W = None → R' ⊆ set_seq 0 n →
  lock_inv (mkSystem d (<[i := p]> (threads st))) R' W'.
Proof.
  intros HI HR HW Hword Hp HRR Hb. split; [| | | |done].
  - intros j. rewrite HR, phase_of_insert. destruct (decide (j = i)); [done|apply HI].
  - intros j. rewrite HW, phase_of_insert. destruct (decide (j = i)); [done|apply HI].
  - cbn [door]. rewrite Hword. f_equal. unfold writer_bits. destruct W' as [w|] eqn:EW; [|done].
    rewrite phase_of_insert. destruct (decide (w = i)) as [|Hne]; [done|].
    assert (W = Some w) as -> by (pose proof (proj1 (HW w) eq_refl) as H; by rewrite decide_False in H).
    done.
  - intros j. rewrite phase_of_insert. destruct (decide (j = i)) as [|Hne]; [done|].
    destruct HRR as [HRR|HWn]; [eapply phase_ok_fewer; [exact HRR|apply HI]|].
    eapply phase_ok_unlatched; [|apply HI]. destruct (latched (phase_of st j)) eqn:E; [|done].
    apply (inv_writer _ _ _ HI) in E. congruence.
Qed.

(** A step that leaves the word alone. *)
Lemma lock_inv_local st R W d i p :
  lock_inv st R W → Spinlock.latchlock d = Spinlock.latchlock (door st) →
  (phase_of st i = Reading ↔ p = Reading) → latched (phase_of st i) = latched p →
  lock_bits (phase_of st i) = lock_bits p → phase_ok R p →
  lock_inv (mkSystem d (<[i := p]> (threads st))) R W.
Proof.
  intros HI Hd Hr Hl Hb Hp. apply (lock_inv_step st R W); try done.
  - intros j. destruct (decide (j = i)) as [->|]; [|done]. rewrite <- Hr. apply HI.
  - intros j. destruct (decide (j = i)) as [->|]; [|done]. rewrite <- Hl. apply HI.
  - rewrite Hd, (inv_word _ _ _ HI). f_equal. unfold writer_bits. destruct W as [w|]; [|done].
    destruct (decide (w = i)) as [->|]; done.
  - by left.
  - apply HI.
Qed.

Lemma writer_bits_cases st R W : lock_inv st R W →
  (W = None ∧ writer_bits st W = 0) ∨
  (∃ w, W = Some w ∧ latched (phase_of st w) = true ∧
        (writer_bits st W = 1 ∨ writer_bits st W = 3)).
Proof.
  intros HI. destruct W as [w|]; [right|by left]. exists w. split; [done|].
  pose proof (proj1 (inv_writer _ _ _ HI w) eq_refl) as Hl. split; [done|].
  cbn. destruct (phase_of st w); try done; auto.
Qed.

Lemma word_inj r r' k k' : 0 ≤ r < 2 ^ 30 → 0 ≤ r' < 2 ^ 30 → word r k = word r' k' → r = r' ∧ k = k'.
Proof. unfold word. lia. Qed.

(** A thread that loads an unlatched word sees no writer. *)
Lemma no_latch_no_writer st R W : lock_inv st R W →
  ∀ m, m = 1 ∨ m = 3 → Z.land (writer_bits st W) m * 2 ^ 30 = 0 → W = None.
Proof.
  intros HI m Hm Hz. destruct (writer_bits_cases st R W HI) as [[? _]|(w & -> & _ & [E|E])]; [done| |];
    rewrite E in Hz; destruct Hm as [-> | ->]; discriminate.
Qed.

(** ** Each step keeps the invariant *)

Abbreviation keeps st i d p :=
  (∃ R' W', lock_inv (mkSystem d (<[i := p]> (threads st))) R' W').

Lemma keeps_local st R W d i p p0 :
  lock_inv st R W → phase_of st i = p0 →
  Spinlock.latchlock d = Spinlock.latchlock (door st) →
  (p0 = Reading ↔ p = Reading) → latched p0 = latched p → lock_bits p0 = lock_bits p →
  phase_ok R p → keeps st i d p.
Proof. intros HI <- Hd Hr Hl Hb Hp. exists R, W. by apply lock_inv_local. Qed.

(** A compare-and-exchange that succeeds on an unlatched word finds no writer. *)
Lemma cas_unlatched st R W r : lock_inv st R W → 0 ≤ r < 2 ^ 30 →
  Spinlock.latchlock (door st) = word r 0 → W = None ∧ r = Z.of_nat (size R).
Proof.
  intros HI Hr Hw. rewrite (inv_word _ _ _ HI) in Hw.
  apply word_inj in Hw as [Hr' Hk]; [|apply readers_bound, HI|done]. split; [|done].
  destruct (writer_bits_cases st R W HI) as [[? _]|(w & _ & _ & [E|E])]; [done|lia|lia].
Qed.

Lemma read_step_keeps st R W i p d p' :
  lock_inv st R W → (i < n)%nat → phase_of st i = p →
  read_step debug (door st) p = Some (d, p') → keeps st i d p'.
Proof.
  intros HI Hi Hp. pose proof (inv_phase _ _ _ HI i) as Hok. rewrite Hp in Hok.
  pose proof (readers_bound R (inv_bound _ _ _ HI)) as HR.
  destruct p as [| |old| | | | | | | | |]; try discriminate; cbn [read_step].
  - destruct (Z.eqb_spec (Z.land (Spinlock.latchlock (door st)) LATCH_LOCK_FLAG) 0) as [Hz|_];
      intros [= <- <-]; [|by apply (keeps_local st R W _ _ _ _ HI Hp)].
    apply (keeps_local st R W _ _ _ _ HI Hp); try done. cbn.
    rewrite (inv_word _ _ _ HI), latch_lock_of_word in Hz by done.
    assert (W = None) as -> by (apply (no_latch_no_writer st R W HI 3); auto).
    rewrite (inv_word _ _ _ HI). by exists (Z.of_nat (size R)).
  - destruct (Z.eqb_spec (Spinlock.latchlock (door st)) old) as [Hc|_];
      intros [= <- <-]; [|by apply (keeps_local st R W _ _ _ _ HI Hp)].
    destruct Hok as (r & -> & Hr). destruct (cas_unlatched st R W r HI Hr Hc) as [-> ->].
    assert (i ∉ R) as HiR by (rewrite (inv_readers _ _ _ HI), Hp; done).
    exists ({[i]} ∪ R), None. apply (lock_inv_step st R None); [done| | | |done|by right|].
    + intros j. destruct (decide (j = i)) as [->|Hne]; [set_solver|]. set_solver.
    + intros j. destruct (decide (j = i)); [done|]. done.
    + rewrite size_union, size_singleton by set_solver. cbn. unfold word. lia.
    + pose proof (inv_bound _ _ _ HI). assert (i ∈ (set_seq 0 n : gset nat)) by (apply elem_of_set_seq; lia).
      set_solver.
Qed.

Lemma write_step_keeps st R W i p d p' :
  lock_inv st R W → phase_of st i = p →
  write_step debug (door st) p = Some (d, p') → keeps st i d p'.
Proof.
  intros HI Hp. pose proof (inv_phase _ _ _ HI i) as Hok. rewrite Hp in Hok.
  pose proof (readers_bound R (inv_bound _ _ _ HI)) as HR.
  pose proof (inv_writer _ _ _ HI i) as Hwr. rewrite Hp in Hwr.
  destruct p as [| | | | |old| |old| | | |]; try discriminate; cbn [write_step].
  - rewrite (inv_word _ _ _ HI), latch_of_word, lock_of_word by done.
    destruct (Z.eqb_spec (Z.land (writer_bits st W) 1 * 2 ^ 30) 0) as [Hz|_];
      [|intros [= <- <-]; by apply (keeps_local st R W _ _ _ _ HI Hp)].
    assert (W = None) as -> by (apply (no_latch_no_writer st R W HI 1); auto). cbn.
    intros [= <- <-]. apply (keeps_local st R None _ _ _ _ HI Hp); try done. by eexists.
  - destruct (Z.eqb_spec (Spinlock.latchlock (door st)) old) as [Hc|_];
      intros [= <- <-]; [|by apply (keeps_local st R W _ _ _ _ HI Hp)].
    destruct Hok as (r & -> & Hr). destruct (cas_unlatched st R W r HI Hr Hc) as [-> ->].
    exists R, (Some i). apply (lock_inv_step st R None); [done| | | |done|by left|apply HI].
    + intros j. destruct (decide (j = i)) as [->|]; [|done]. rewrite (inv_readers _ _ _ HI), Hp. done.
    + intros j. destruct (decide (j = i)) as [->|]; [done|]. split; [by intros [= ->]|done].
    + cbn. rewrite decide_True by done. by apply set_latch_word.
  - rewrite (inv_word _ _ _ HI), readers_of_word by done.
    destruct (Z.eqb_spec (Z.of_nat (size R)) 0) as [Hz|_];
      intros [= <- <-]; [|by apply (keeps_local st R W _ _ _ _ HI Hp)].
    assert (R = ∅) as -> by (apply leibniz_equiv, size_empty_inv; lia).
    assert (W = Some i) as -> by by apply Hwr.
    apply (keeps_local st ∅ (Some i) _ _ _ _ HI Hp); try done. cbn. by rewrite Hp.
  - destruct Hok as [-> ->]. assert (W = Some i) as -> by by apply Hwr.
    rewrite (inv_word _ _ _ HI). cbn [writer_bits]. rewrite Hp, size_empty. cbn.
    intros [= <- <-]. exists ∅, (Some i). apply (lock_inv_step st ∅ (Some i)); [done| | | |done|by left|done].
    + intros j. destruct (decide (j = i)) as [->|]; [set_solver|done].
    + intros j. destruct (decide (j = i)) as [->|]; [done|done].
    + by rewrite decide_True.
Qed.

Lemma drop_write_step_keeps st R W i p d p' :
  lock_inv st R W → phase_of st i = p →
  drop_write_step (door st) p = Some (d, p') → keeps st i d p'.
Proof.
  intros HI Hp. pose proof (inv_phase _ _ _ HI i) as Hok. rewrite Hp in Hok.
  pose proof (inv_writer _ _ _ HI i) as Hwr. rewrite Hp in Hwr.
  destruct p as [| | | | | | | | | |old|]; try discriminate; cbn [drop_write_step];
    assert (W = Some i) as -> by by apply Hwr.
  - cbn in Hok. subst R. rewrite (inv_word _ _ _ HI). cbn [writer_bits]. rewrite Hp, size_empty. cbn.
    intros [= <- <-]. by apply (keeps_local st ∅ (Some i) _ _ _ _ HI Hp).
  - destruct Hok as [-> ->]. rewrite (inv_word _ _ _ HI). cbn [writer_bits]. rewrite Hp, size_empty. cbn.
    intros [= <- <-]. exists ∅, None. apply (lock_inv_step st ∅ (Some i)); [done| | |done|done|by left|done].
    + intros j. destruct (decide (j = i)) as [->|]; [set_solver|done].
    + intros j. destruct (decide (j = i)) as [->|]; [done|]. split; [done|by intros [= ->]].
Qed.

Lemma drop_read_keeps st R W i :
  lock_inv st R W → phase_of st i = Reading → keeps st i (drop_read (door st)) Idle.
Proof.
  intros HI Hp. pose proof (readers_bound R (inv_bound _ _ _ HI)) as HR.
  assert (i ∈ R) as HiR by by apply (inv_readers _ _ _ HI).
  assert (size R = S (size (R ∖ {[i]}))) as Hs.
  { rewrite (union_difference_singleton_L i R HiR) at 1.
    by rewrite size_union, size_singleton by set_solver. }
  exists (R ∖ {[i]}), W. apply (lock_inv_step st R W); [done| | | |done|left; set_solver|].
  - intros j. destruct (decide (j = i)) as [->|]; [set_solver|set_solver].
  - intros j. destruct (decide (j = i)) as [->|]; [|done]. rewrite (inv_writer _ _ _ HI), Hp. done.
  - unfold drop_read. cbn [set_latchlock Spinlock.latchlock]. rewrite (inv_word _ _ _ HI).
    assert (∀ w, W = Some w → w ≠ i) as Hwi.
    { intros w -> ->. pose proof (proj1 (inv_writer _ _ _ HI i) eq_refl). by rewrite Hp in *. }
    assert (match W with Some w => if decide (w = i) then lock_bits Idle else writer_bits st W | None => 0 end
            = writer_bits st W) as ->.
    { destruct W as [w|]; [|done]. rewrite decide_False; [done|by apply Hwi]. }
    destruct (writer_bits_cases st R W HI) as [[_ ->]|(w & _ & _ & [-> | ->])];
      unfold word in *; rewrite Z.mod_small by lia; lia.
  - pose proof (inv_bound _ _ _ HI). set_solver.
Qed.

Lemma system_step_keeps st R W i a st' :
  lock_inv st R W → (i < n)%nat → system_step debug st i a = Some st' → ∃ R' W', lock_inv st' R' W'.
Proof.
  intros HI Hi. unfold system_step. destruct (thread_step _ _ _ _) as [[d p']|] eqn:E; [|done].
  intros [= <-]. destruct (phase_of st i) as [| |old| | |old| |old| | |old|] eqn:Hp, a; try discriminate E.
  - injection E as <- <-. by apply (keeps_local st R W _ _ _ _ HI Hp).
  - injection E as <- <-. by apply (keeps_local st R W _ _ _ _ HI Hp).
  - by eapply read_step_keeps.
  - by eapply read_step_keeps.
  - injection E as <- <-. by eapply drop_read_keeps.
  - by eapply write_step_keeps.
  - by eapply write_step_keeps.
  - by eapply write_step_keeps.
  - by eapply write_step_keeps.
  - injection E as <- <-. pose proof (inv_phase _ _ _ HI i) as Hok. rewrite Hp in Hok.
    by apply (keeps_local st R W _ _ _ _ HI Hp).
  - injection E as <- <-. pose proof (inv_phase _ _ _ HI i) as Hok. rewrite Hp in Hok.
    by apply (keeps_local st R W _ _ _ _ HI Hp).
  - by eapply drop_write_step_keeps.
  - by eapply drop_write_step_keeps.
Qed.

Lemma reachable_inv v st : reachable debug n v st → ∃ R W, lock_inv st R W.
Proof.
  induction 1 as [|st i a st' _ (R & W & HI) Hi E].
  - exists ∅, None. split; try done; intros i; cbn; unfold phase_of; cbn; rewrite lookup_empty; cbn; try done.
  - by eapply system_step_keeps.
Qed.
End invariant.

(** C11: mutual exclusion.  In whatever order fewer than 2^30 threads take their steps, no
    panic of the lock is reached, a thread that writes is alone in the lock, and while
    a thread holds a guard no other changes the value. *)
Theorem spinlock_exclusion {T} debug n (v : T) st i :
  Z.of_nat n < 2 ^ 30 → reachable debug n v st →
  phase_of st i ≠ Panicked ∧
  (phase_of st i = Writing → ∀ j, j ≠ i → phase_of st j ≠ Writing ∧ phase_of st j ≠ Reading) ∧
  (phase_of st i = Reading ∨ phase_of st i = Writing → ∀ j a st', j ≠ i →
     system_step debug st j a = Some st' →
     Spinlock.value (door st') = Spinlock.value (door st)).
Proof.
  intros Hn Hr. destruct (reachable_inv debug n Hn v st Hr) as (R & W & HI).
  assert (∀ k, phase_of st k = Writing → W = Some k ∧ R = ∅) as Hw.
  { intros k Hk. split; [apply (inv_writer _ _ _ _ HI); by rewrite Hk|].
    pose proof (inv_phase _ _ _ _ HI k) as Hok. by rewrite Hk in Hok. }
  split; [|split].
  - intros Hp. pose proof (inv_phase _ _ _ _ HI i) as Hok. by rewrite Hp in Hok.
  - intros Hi j Hj. destruct (Hw i Hi) as [-> ->]. split.
    + intros Hjw. destruct (Hw j Hjw) as [[= ->] _]. done.
    + intros Hjr. apply (inv_readers _ _ _ _ HI) in Hjr. set_solver.
  - intros Hi j a st' Hj. unfold system_step.
    destruct (thread_step _ _ _ _) as [[d p]|] eqn:E; [|done]. intros [= <-]. cbn [door].
    assert (phase_of st j ≠ Writing) as Hjw.
    { intros Hjw. destruct (Hw j Hjw) as [-> ->]. destruct Hi as [Hi|Hi].
      - apply (inv_readers _ _ _ _ HI) in Hi. set_solver.
      - destruct (Hw i Hi) as [[= ->] _]. done. }
    destruct (phase_of st j), a; try done; cbn in E; repeat case_match; by simplify_eq.
Qed.

(** A thread on its own way to a guard, or out of one. *)
Definition busy (p : phase) : Prop :=
  match p with Idle | Reading | Writing | Panicked => False | _ => True end.
Definition arrived (p p' : phase) : Prop :=
  match p with
  | ReadLoad | ReadCas _ => p' = Reading
  | DropLoad | DropCas _ => p' = Idle
  | _ => p' = Writing
  end.

(** A thread that runs alone. *)
Fixpoint solo {T} (debug : bool) (self : Spinlock T) (p : phase) (k : nat) : option phase :=
  match k with
  | O => Some p
  | S k => '(self, p) ← thread_step debug self p Continue; solo debug self p k
  end.

Lemma solo_run {T} debug k i p' : ∀ st : system (T := T),
  solo debug (door st) (phase_of st i) k = Some p' →
  ∃ st', thread_run debug st i (replicate k Continue) = Some st' ∧ phase_of st' i = p'.
Proof.
  induction k as [|k IH]; intros st; cbn.
  { intros [= <-]. by exists st. }
  unfold system_step. destruct (thread_step _ _ _ _) as [[d p]|]; [|done]. cbn. intros H.
  apply IH. cbn [door]. by rewrite phase_of_insert, decide_True.
Qed.

(** From a word without readers, the thread that has the latch goes on to its end; with
    no latch, any thread does. *)
Lemma solo_arrives {T} debug (self : Spinlock T) p :
  busy p →
  Spinlock.latchlock self = word 0 (lock_bits p) →
  (latched p = true → phase_ok ∅ p) →
  ∃ k p', (k ≤ 5)%nat ∧ solo debug self p k = Some p' ∧ arrived p p'.
Proof.
  destruct self as [l rl wl c v]. cbn [Spinlock.latchlock]. intros Hb -> Hok.
  destruct p as [| |old| | |old| |old| | |old|]; try done; cbn [latched phase_ok] in Hok.
  - exists 2%nat, Reading. by repeat split; try lia.
  - destruct (Z.eqb_spec 0 old) as [<-|Hne].
    + exists 1%nat, Reading. by repeat split; try lia.
    + exists 3%nat, Reading. split; [lia|]. split; [|done]. cbn.
      change (word 0 0) with 0. by destruct (Z.eqb_spec 0 old).
  - exists 4%nat, Writing. by repeat split; try lia.
  - destruct (Z.eqb_spec 0 old) as [<-|Hne].
    + exists 3%nat, Writing. by repeat split; try lia.
    + exists 5%nat, Writing. split; [lia|]. split; [|done]. cbn.
      change (word 0 0) with 0. by destruct (Z.eqb_spec 0 old).
  - exists 2%nat, Writing. by repeat split; try lia.
  - destruct Hok as [_ ->]; [done|]. exists 1%nat, Writing. by repeat split; try lia.
  - exists 2%nat, Idle. by repeat split; try lia.
  - destruct Hok as [_ ->]; [done|]. exists 1%nat, Idle. by repeat split; try lia.
Qed.

(** C34: the lock does not deadlock.  When threads are on their way and none holds a guard,
    one of them gets through in at most five steps of its own: into the lock, or out of
    it. *)
Theorem spinlock_no_deadlock {T} debug n (v : T) st i :
  Z.of_nat n < 2 ^ 30 → reachable debug n v st → busy (phase_of st i) →
  (∀ j, phase_of st j ≠ Reading ∧ phase_of st j ≠ Writing) →
  ∃ j k st', busy (phase_of st j) ∧ (k ≤ 5)%nat ∧
    thread_run debug st j (replicate k Continue) = Some st' ∧
    arrived (phase_of st j) (phase_of st' j).
Proof.
  intros Hn Hr Hi Hg. destruct (reachable_inv debug n Hn v st Hr) as (R & W & HI).
  assert (R = ∅) as ->.
  { apply set_eq. intros j. rewrite (inv_readers _ _ _ _ HI). split; [by destruct (Hg j)|set_solver]. }
  pose proof (inv_word _ _ _ _ HI) as Hw. rewrite size_empty in Hw.
  set (j := default i W).
  assert (busy (phase_of st j) ∧ lock_bits (phase_of st j) = writer_bits st W) as [Hj Hb].
  { unfold j. destruct W as [w|]; cbn.
    - pose proof (proj1 (inv_writer _ _ _ _ HI w) eq_refl) as Hl. destruct (Hg w) as [_ H].
      split; [|done]. by destruct (phase_of st w).
    - split; [done|]. destruct (latched (phase_of st i)) eqn:E;
        [by apply (inv_writer _ _ _ _ HI) in E|]. by destruct (phase_of st i). }
  destruct (solo_arrives debug (door st) (phase_of st j) Hj) as (k & p' & Hk & Hs & Ha).
  - by rewrite Hb.
  - intros _. apply HI.
  - destruct (solo_run debug k j p' st Hs) as (st' & E & <-). by exists j, k, st'.
Qed.

(** * Statistics *)

(** What a step of a thread counts as: a read guard, a write guard, an attempt that failed. *)
Definition guard_read (p p' : phase) : Z := match p, p' with ReadCas _, Reading => 1 | _, _ => 0 end.
Definition guard_write (p p' : phase) : Z := match p, p' with LockCas _, Writing => 1 | _, _ => 0 end.
Definition failed_attempt (p p' : phase) : Z :=
  match p, p' with
  | (ReadLoad | ReadCas _), ReadLoad | (WriteLoad | WriteCas _), WriteLoad | LockLoad, LockLoad => 1
  | _, _ => 0
  end.
(** A read guard that is given back. *)
Definition dropped_read (p p' : phase) : Z := match p, p' with Reading, Idle => 1 | _, _ => 0 end.

Section statistics.
Context {T : Type} (debug : bool) (n : nat) (v : T).

(** A run with its counts: read and write guards given, attempts that failed, read guards
    given back. *)
Inductive counted : system (T := T) → Z → Z → Z → Z → Prop :=
| counted_new : counted (mkSystem (Spinlock_new v) ∅) 0 0 0 0
| counted_step st i a st' r w c d :
    counted st r w c d → (i < n)%nat → system_step debug st i a = Some st' →
    counted st' (r + guard_read (phase_of st i) (phase_of st' i))
      (w + guard_write (phase_of st i) (phase_of st' i))
      (c + failed_attempt (phase_of st i) (phase_of st' i))
      (d + dropped_read (phase_of st i) (phase_of st' i)).

Lemma counted_reachable st r w c d : counted st r w c d → reachable debug n v st.
Proof. induction 1; [constructor|]. by eapply reach_step. Qed.

Definition counter (k : Z) : u32 := if debug then k mod 2 ^ 32 else 0.

Lemma bump_counter k : bump debug (counter k) = counter (k + 1).
Proof. unfold bump, counter. destruct debug; [|done]. by rewrite Zplus_mod_idemp_l. Qed.

Lemma counters_step (self self' : Spinlock T) p a p' r w c :
  thread_step debug self p a = Some (self', p') →
  Spinlock.read_locks self = counter r → Spinlock.write_locks self = counter w →
  Spinlock.conflicts self = counter c →
  Spinlock.read_locks self' = counter (r + guard_read p p') ∧
  Spinlock.write_locks self' = counter (w + guard_write p p') ∧
  Spinlock.conflicts self' = counter (c + failed_attempt p p').
Proof.
  intros E Hr Hw Hc. destruct p, a; cbn in E; try done; repeat case_match; simplify_eq; cbn;
    rewrite ?Hr, ?Hw, ?Hc, ?bump_counter, ?Z.add_0_r; done.
Qed.

(** The counters of a lock are those of its run, modulo the word. *)
Lemma counters_count st r w c d :
  counted st r w c d →
  Spinlock.read_locks (door st) = counter r ∧ Spinlock.write_locks (door st) = counter w ∧
  Spinlock.conflicts (door st) = counter c.
Proof.
  induction 1 as [|st i a st' r w c d _ (Hr & Hw & Hc) Hi E].
  - unfold counter. by destruct debug.
  - unfold system_step in E. destruct (thread_step _ _ _ _) as [[self' p']|] eqn:Es; [|done].
    injection E as <-. rewrite phase_of_insert, decide_True by done. cbn [door].
    by eapply counters_step.
Qed.

(** With 64-bit addresses, [to_stats] on a lock at rest gives its word and its counts. *)
Lemma stats_at_rest st r w c d :
  counted st r w c d →
  to_stats 64 (door st) (door st) (door st) (door st)
  = Ok (mkStats (Spinlock.latchlock (door st)) (counter r) (counter w) (counter c)).
Proof.
  intros (Hr & Hw & Hc)%counters_count.
  assert (∀ k, usize_try_from 64 (counter k) = Ok (counter k)) as Hu.
  { intros k. unfold usize_try_from. rewrite (proj2 (Z.ltb_lt _ _)); [done|].
    unfold counter. destruct debug; [|done]. by eapply Z.lt_trans; [apply Z.mod_pos_bound|]. }
  unfold to_stats. by rewrite Hr, Hw, Hc, !Hu, !bind_Ok_1.
Qed.
End statistics.

(** * Instances *)

(** Two readers in the lock and a writer that has latched it. *)
Definition ex_acts : list (nat * action Z) :=
  [(0, CallRead); (1, CallRead); (2, CallWrite); (0, Continue); (0, Continue);
   (1, Continue); (1, Continue); (2, Continue); (2, Continue)]%nat.
Definition ex_run (debug : bool) (acts : list (nat * action Z)) (st : system) : option system :=
  fold_left (λ o '(i, a), st ← o; system_step debug st i a) acts (Some st).
Definition ex_new : system := mkSystem (Spinlock_new 7) ∅.
Definition ex_locked : system := Eval vm_compute in default ex_new (ex_run true ex_acts ex_new).

Lemma ex_reachable n debug acts : ∀ st st', Forall (λ x, (x.1 < n)%nat) acts →
  reachable debug n 7 st → ex_run debug acts st = Some st' → reachable debug n 7 st'.
Proof.
  induction acts as [|[i a] acts IH]; intros st st' Hn Hr; unfold ex_run; cbn.
  { by intros [= <-]. }
  apply Forall_cons in Hn as [Hi Hn]. destruct (system_step debug st i a) as [st1|] eqn:E.
  - cbn. intros H. apply (IH st1); [done| |done]. by eapply reach_step.
  - cbn. clear IH. intros H. exfalso. induction acts as [|[] acts IH]; [done|].
    apply IH; [by apply Forall_cons in Hn as [_ ?]|exact H].
Qed.

Lemma ex_locked_reachable : reachable true 3 7 ex_locked.
Proof.
  apply (ex_reachable 3 true ex_acts ex_new); [|constructor|vm_compute; reflexivity].
  repeat (constructor; [cbn; lia|]). constructor.
Qed.

Lemma spinlock_exclusion_witness :
  reachable true 3 7 ex_locked ∧ phase_of ex_locked 0 = Reading ∧
  (phase_of ex_locked 0 ≠ Panicked ∧
   (phase_of ex_locked 0 = Writing →
      ∀ j, j ≠ 0%nat → phase_of ex_locked j ≠ Writing ∧ phase_of ex_locked j ≠ Reading) ∧
   (phase_of ex_locked 0 = Reading ∨ phase_of ex_locked 0 = Writing → ∀ j a st', j ≠ 0%nat →
      system_step true ex_locked j a = Some st' →
      Spinlock.value (door st') = Spinlock.value (door ex_locked))).
Proof.
  split; [exact ex_locked_reachable|]. split; [vm_compute; reflexivity|].
  apply (spinlock_exclusion true 3 7 ex_locked 0); [lia|exact ex_locked_reachable].
Defined.

(** A reader and a writer that have not started. *)
Definition ex_waiting : system :=
  mkSystem (Spinlock_new 7) (<[0%nat := ReadLoad]> (<[1%nat := WriteCas 0]> ∅)).

Lemma spinlock_no_deadlock_witness :
  busy (phase_of ex_waiting 0) ∧
  ∃ j k st', busy (phase_of ex_waiting j) ∧ (k ≤ 5)%nat ∧
    thread_run true ex_waiting j (replicate k Continue) = Some st' ∧
    arrived (phase_of ex_waiting j) (phase_of st' j).
Proof.
  assert (busy (phase_of ex_waiting 0)) as Hb by (vm_compute; exact I).
  split; [exact Hb|]. apply (spinlock_no_deadlock true 2 7 ex_waiting 0); [lia| |exact Hb|].
  - apply (ex_reachable 2 true [(0, CallRead); (1, CallWrite); (1, Continue)]%nat ex_new);
      [|constructor|vm_compute; reflexivity].
    repeat (constructor; [cbn; lia|]). constructor.
  - intros [|[|j]]; [split; vm_compute; discriminate..|].
    assert (phase_of ex_waiting (S (S j)) = Idle) as ->; [|done].
    unfold phase_of, ex_waiting. cbn [threads].
    by rewrite !lookup_insert_ne, lookup_empty by lia.
Defined.
