(* ===== verification/LockedCell.v ===== *)
(** The tries of [src/ttrie.rs] under the lock of [src/spinlock.rs]: the two components
    put together.

    A call on a trie takes the pointer it finds under a read guard, computes with nothing
    held, and replaces the pointer under a write guard.  Here each of these is made of
    the lock's own atomic steps, and replacing the pointer takes two: the old value is
    dropped before the new one is there.  The theorems show that no call ever sees a
    dropped value, that every interleaving amounts to snapshots and commits of the cell
    of [Ttrie], and what a call comes to that is made alone. *)

From S2P Require Import Prelude Error Util Codec Types V5 PublishPacket SubPackets Packets.
From S2P Require Import Ttrie TtrieFacts TtrieTheorems Spinlock SpinlockTheorems.
Local Open Scope Z_scope.

(** Where a thread is in a call, the [k]-th that was made of the trie.  A call that took a
    dropped value would be [Torn]; one whose operation panics has [Failed]. *)
Module Point.
Inductive Point (S : Type) :=
| Resting
| Fetching (k : nat)
| Fetched (k : nat) (snap : S)
| Computing (k : nat) (snap : S)
| Replacing (k : nat) (new : S)
| Dropped (k : nat) (new : S)
| Replaced
| Failed
| Torn.
Arguments Resting {S}.
Arguments Fetching {S} k.
Arguments Fetched {S} k snap.
Arguments Computing {S} k snap.
Arguments Replacing {S} k new.
Arguments Dropped {S} k new.
Arguments Replaced {S}.
Arguments Failed {S}.
Arguments Torn {S}.
End Point.
Abbreviation Point := Point.Point.

Section locked.
Context {S : Type} (debug : bool) (ops : nat → S → Result S).

(** The lock around the pointer, [None] while what it pointed to is dropped and what it
    is to point to is not there; where the threads are; how many calls were made. *)
(** src/ttrie.rs:8-10 [SubscribedTrie] *)
Record locked := mkLocked {
  lock : system (T := option S);
  points : gmap nat (Point S);
  begun : nat;
}.
Definition point_of (st : locked) (i : nat) : Point S := default Point.Resting (points st !! i).

(** [Spinlock::new(Arc::new(inner))] *)
(** src/ttrie.rs:17-25 [SubscribedTrie::default] *)
Definition locked_new (v : S) : locked := mkLocked (mkSystem (Spinlock_new (Some v)) ∅) ∅ 0.

Definition stay (st : locked) (i : nat) (p : Point S) : option locked :=
  Some (mkLocked (lock st) (<[i := p]> (points st)) (begun st)).

Definition go (st : locked) (i : nat) (a : action (option S)) (p : Point S) : option locked :=
  match system_step debug (lock st) i a with
  | Some l => Some (mkLocked l (<[i := p]> (points st)) (begun st))
  | None => None
  end.

Definition begin_call (st : locked) : locked :=
  mkLocked (lock st) (points st) (Datatypes.S (begun st)).

(** One step of a thread: [Arc::clone(&self.inner.read())], the operation, and
    [*self.inner.write() = Arc::new(inner)]. *)
(** src/ttrie.rs:77-98 [SubscribedTrie::do_subscribe] *)
Definition locked_step (st : locked) (i : nat) : option locked :=
  match point_of st i with
  | Point.Resting => go (begin_call st) i CallRead (Point.Fetching (begun st))
  | Point.Fetching k =>
      match phase_of (lock st) i with
      | Reading =>
          match Spinlock.value (door (lock st)) with
          | Some v => stay st i (Point.Fetched k v)
          | None => stay st i Point.Torn
          end
      | _ => go st i Continue (Point.Fetching k)
      end
  | Point.Fetched k v => go st i DropGuard (Point.Computing k v)
  | Point.Computing k v =>
      match ops k v with
      | Ok new => go st i CallWrite (Point.Replacing k new)
      | _ => stay st i Point.Failed
      end
  | Point.Replacing k new =>
      match phase_of (lock st) i with
      | Writing => go st i (Assign (λ _, None)) (Point.Dropped k new)
      | _ => go st i Continue (Point.Replacing k new)
      end
  | Point.Dropped k new => go st i (Assign (λ _, Some new)) Point.Replaced
  | Point.Replaced =>
      match phase_of (lock st) i with
      | Writing => go st i DropGuard Point.Replaced
      | Idle => stay st i Point.Resting
      | _ => go st i Continue Point.Replaced
      end
  | Point.Failed | Point.Torn => None
  end.

(** The threads take their steps in the order of a schedule; one that has failed, none. *)
Fixpoint locked_run (st : locked) (sched : list nat) : locked :=
  match sched with
  | [] => st
  | i :: sched => locked_run (default st (locked_step st i)) sched
  end.
End locked.
Arguments locked S : clear implicits.

(** * The steps amount to snapshots and commits *)

Section refinement.
Context {S : Type} (debug : bool) (ops : nat → S → Result S).
Context (n : nat) (Hn : Z.of_nat n < 2 ^ 30).
Implicit Types (st : locked S) (c : cell_state (S := S)) (p : Point S).

(** The call a thread is in. *)
Definition call_of p : option nat :=
  match p with
  | Point.Fetching k | Point.Fetched k _ | Point.Computing k _ | Point.Replacing k _
  | Point.Dropped k _ => Some k
  | _ => None
  end.

(** Where in a call a thread is in which part of the lock. *)
Definition in_phase p (ph : phase) : Prop :=
  match p with
  | Point.Resting | Point.Computing _ _ | Point.Failed => ph = Idle
  | Point.Fetching _ => match ph with ReadLoad | ReadCas _ | Reading => True | _ => False end
  | Point.Fetched _ _ => ph = Reading
  | Point.Replacing _ _ =>
      match ph with WriteLoad | WriteCas _ | LockLoad | LockCas _ | Writing => True | _ => False end
  | Point.Dropped _ _ => ph = Writing
  | Point.Replaced =>
      match ph with Writing | DropLoad | DropCas _ | Idle => True | _ => False end
  | Point.Torn => False
  end.

(** What a thread has in hand, against the snapshots of the cell. *)
Definition in_hand c p : Prop :=
  match p with
  | Point.Fetched k v | Point.Computing k v => snapshots c !! k = Some v
  | Point.Replacing k new | Point.Dropped k new =>
      ∃ v, snapshots c !! k = Some v ∧ ops k v = Ok new
  | _ => True
  end.

(** The pointer is the cell's value, except while a thread replaces it. *)
Definition value_is (v : option S) c (dropped : Prop) : Prop :=
  match v with Some v => v = cell c ∧ ¬ dropped | None => dropped end.

Definition is_dropped p : Prop := match p with Point.Dropped _ _ => True | _ => False end.

Record simulates st c : Prop := {
  sim_lock : ∃ R W, lock_inv n (lock st) R W;
  sim_phase : ∀ i, in_phase (point_of st i) (phase_of (lock st) i);
  sim_value : value_is (Spinlock.value (door (lock st))) c (∃ i, is_dropped (point_of st i));
  sim_hand : ∀ i, in_hand c (point_of st i);
  sim_begun : ∀ i k, call_of (point_of st i) = Some k → (k < begun st)%nat;
  sim_distinct : ∀ i j k,
    call_of (point_of st i) = Some k → call_of (point_of st j) = Some k → i = j;
}.

Lemma point_of_insert l i p b pts j :
  point_of (mkLocked l (<[i := p]> pts) b) j
  = if decide (j = i) then p else point_of (mkLocked l pts b) j.
Proof.
  unfold point_of. cbn [points]. destruct (decide (j = i)) as [->|Hne].
  - by rewrite lookup_insert_eq.
  - by rewrite lookup_insert_ne.
Qed.

Lemma writer_alone st c i : simulates st c → phase_of (lock st) i = Writing →
  ∀ j, j ≠ i → phase_of (lock st) j ≠ Writing ∧ phase_of (lock st) j ≠ Reading.
Proof.
  intros [(R & W & HI) _ _ _ _ _] Hi j Hj.
  pose proof (proj2 (inv_writer _ _ _ _ HI i)) as HW. rewrite Hi in HW. specialize (HW eq_refl).
  pose proof (inv_phase _ _ _ _ HI i) as HR. rewrite Hi in HR. cbn in HR.
  split; intros E.
  - pose proof (proj2 (inv_writer _ _ _ _ HI j)) as HWj. rewrite E in HWj. specialize (HWj eq_refl). congruence.
  - apply (inv_readers _ _ _ _ HI) in E. set_solver.
Qed.

(** A step of the lock, seen from outside: one thread's phase, and the value only when it
    is assigned. *)
Lemma system_step_outside (l l' : system (T := option S)) i a : system_step debug l i a = Some l' →
  (∀ j, j ≠ i → phase_of l' j = phase_of l j) ∧
  Spinlock.value (door l')
  = match a with Assign f => f (Spinlock.value (door l)) | _ => Spinlock.value (door l) end.
Proof.
  unfold system_step. destruct (thread_step _ _ _ _) as [[d p]|] eqn:E; [|done]. intros [= <-]. split.
  - intros j Hj. rewrite phase_of_insert. by rewrite decide_False.
  - cbn [door]. destruct (phase_of l i), a; try done; cbn in E; repeat case_match; by simplify_eq.
Qed.

(** One thread moves on to [p], the others stay where they are. *)
Lemma simulates_step st c i l p b c' :
  simulates st c → (∃ R W, lock_inv n l R W) →
  (∀ j, j ≠ i → phase_of l j = phase_of (lock st) j) →
  in_phase p (phase_of l i) →
  value_is (Spinlock.value (door l)) c'
    (is_dropped p ∨ ∃ j, j ≠ i ∧ is_dropped (point_of st j)) →
  in_hand c' p → (∀ j, j ≠ i → in_hand c' (point_of st j)) →
  (begun st ≤ b)%nat →
  (∀ k, call_of p = Some k → (k < b)%nat ∧ ∀ j, j ≠ i → call_of (point_of st j) ≠ Some k) →
  simulates (mkLocked l (<[i := p]> (points st)) b) c'.
Proof.
  intros HS Hl Hph Hp Hv Hh Hho Hb Hc.
  assert (∀ j, point_of (mkLocked l (<[i := p]> (points st)) b) j
               = if decide (j = i) then p else point_of st j) as Hpt by (intros; apply point_of_insert).
  split; cbn [lock begun].
  - done.
  - intros j. rewrite Hpt. destruct (decide (j = i)) as [->|Hj]; [done|]. rewrite Hph by done. apply HS.
  - assert ((∃ j, is_dropped (point_of (mkLocked l (<[i := p]> (points st)) b) j)) ↔
            (is_dropped p ∨ ∃ j, j ≠ i ∧ is_dropped (point_of st j))) as Hd.
    { split.
      - intros [j Hd]. rewrite Hpt in Hd. destruct (decide (j = i)); [by left|right; by exists j].
      - intros [Hd|(j & Hj & Hd)]; [exists i|exists j]; rewrite Hpt; by case_decide. }
    unfold value_is in *. destruct (Spinlock.value _); [|by apply Hd].
    split; [apply Hv|]. intros H%Hd. by apply Hv.
  - intros j. rewrite Hpt. destruct (decide (j = i)); [done|by apply Hho].
  - intros j k. rewrite Hpt. destruct (decide (j = i)); [apply Hc|].
    intros H. apply (sim_begun _ _ HS) in H. lia.
  - intros j1 j2 k. rewrite !Hpt. destruct (decide (j1 = i)), (decide (j2 = i)); try congruence.
    + intros Hk H2. by destruct (proj2 (Hc k Hk) j2).
    + intros H1 Hk. by destruct (proj2 (Hc k Hk) j1).
    + apply HS.
Qed.
(** A step that neither drops nor puts the value, in a call that goes on or is new. *)
Lemma quiet_step st c i l p b :
  simulates st c → (∃ R W, lock_inv n l R W) →
  (∀ j, j ≠ i → phase_of l j = phase_of (lock st) j) →
  Spinlock.value (door l) = Spinlock.value (door (lock st)) →
  ¬ is_dropped (point_of st i) → ¬ is_dropped p →
  in_phase p (phase_of l i) → in_hand c p → (begun st ≤ b)%nat →
  (∀ k, call_of p = Some k → call_of (point_of st i) = Some k ∨ (begun st ≤ k < b)%nat) →
  simulates (mkLocked l (<[i := p]> (points st)) b) c.
Proof.
  intros HS Hl Hph Hv Hi Hd Hp Hh Hb Hc. eapply simulates_step; try done.
  - rewrite Hv. pose proof (sim_value _ _ HS) as H. unfold value_is in *. destruct (Spinlock.value (door (lock st))) as [v|].
    + destruct H as [-> H]. split; [done|]. intros [?|(j & _ & Hj)]; [done|]. apply H. by exists j.
    + right. destruct H as [j Hj]. exists j. split; [by intros ->|done].
  - intros j _. apply HS.
  - intros k [Hk|Hk]%Hc.
    + split; [apply (sim_begun _ _ HS) in Hk; lia|]. intros j Hj Hkj. apply Hj.
      by eapply (sim_distinct _ _ HS).
    + split; [lia|]. intros j Hj Hkj. apply (sim_begun _ _ HS) in Hkj. lia.
Qed.

Lemma lock_step_keeps st c i a l : simulates st c → (i < n)%nat →
  system_step debug (lock st) i a = Some l →
  (∃ R W, lock_inv n l R W) ∧ (∀ j, j ≠ i → phase_of l j = phase_of (lock st) j) ∧
  phase_of l i ≠ Panicked ∧
  ∃ d, thread_step debug (door (lock st)) (phase_of (lock st) i) a = Some (d, phase_of l i).
Proof.
  intros HS Hi E. destruct (sim_lock _ _ HS) as (R & W & HI).
  destruct (system_step_keeps debug n Hn _ _ _ _ _ _ HI Hi E) as (R' & W' & HI').
  split; [by exists R', W'|]. split; [by apply (system_step_outside _ _ _ _ E)|]. split.
  - intros Hp. pose proof (inv_phase _ _ _ _ HI' i) as Hok. by rewrite Hp in Hok.
  - unfold system_step in E. destruct (thread_step _ _ _ _) as [[d p]|]; [|done]. injection E as <-.
    exists d. by rewrite phase_of_insert, decide_True.
Qed.

(** The phases a step of the lock leads to. *)
Lemma next_phase (self d : Spinlock (option S)) ph ph' a :
  thread_step debug self ph a = Some (d, ph') → ph' ≠ Panicked →
  match ph, a with
  | Idle, CallRead => ph' = ReadLoad
  | Idle, CallWrite => ph' = WriteLoad
  | (ReadLoad | ReadCas _), _ => match ph' with ReadLoad | ReadCas _ | Reading => True | _ => False end
  | (WriteLoad | WriteCas _ | LockLoad | LockCas _), _ =>
      match ph' with WriteLoad | WriteCas _ | LockLoad | LockCas _ | Writing => True | _ => False end
  | Reading, _ => ph' = Idle
  | Writing, DropGuard => ph' = DropLoad
  | Writing, _ => ph' = Writing
  | (DropLoad | DropCas _), _ => match ph' with DropCas _ | Idle => True | _ => False end
  | _, _ => False
  end.
Proof. destruct ph, a; try done; cbn; intros E Hp; repeat case_match; by simplify_eq. Qed.

(** Which event of the cell a step is. *)
Definition event_of st (i : nat) : list cell_event :=
  match point_of st i, phase_of (lock st) i with
  | Point.Fetching k, Reading => [Snapshot k]
  | Point.Dropped k _, _ => [Commit k]
  | _, _ => []
  end.

Lemma snapshot_step st c i k v : simulates st c →
  point_of st i = Point.Fetching k → phase_of (lock st) i = Reading →
  Spinlock.value (door (lock st)) = Some v →
  simulates (mkLocked (lock st) (<[i := Point.Fetched k v]> (points st)) (begun st))
    (mkCell (cell c) (<[k := cell c]> (snapshots c))).
Proof.
  intros HS Hi Hph Hv. pose proof (sim_value _ _ HS) as Hval. rewrite Hv in Hval. destruct Hval as [-> Hd].
  assert (call_of (point_of st i) = Some k) as Hk by by rewrite Hi.
  eapply simulates_step; try done; try apply HS.
  - rewrite Hv. split; [done|]. intros [?|(j & _ & Hj)]; [done|]. apply Hd. by exists j.
  - cbn. by rewrite lookup_insert_eq.
  - intros j Hj. pose proof (sim_hand _ _ HS j) as Hh.
    assert (∀ k', call_of (point_of st j) = Some k' → k' ≠ k) as Hne.
    { intros k' Hk' ->. apply Hj. by eapply (sim_distinct _ _ HS). }
    destruct (point_of st j); try done; cbn in *; by rewrite lookup_insert_ne by (symmetry; by apply Hne).
  - intros k' [= <-]. split; [by apply (sim_begun _ _ HS i)|]. intros j Hj Hkj. apply Hj.
    by eapply (sim_distinct _ _ HS).
Qed.

Lemma commit_step st c i k new l : simulates st c → (i < n)%nat →
  point_of st i = Point.Dropped k new → system_step debug (lock st) i (Assign (λ _, Some new)) = Some l →
  ∃ c', cell_step ops c (Commit k) = Ok c' ∧
    simulates (mkLocked l (<[i := Point.Replaced]> (points st)) (begun st)) c'.
Proof.
  intros HS Hi Hpt E. pose proof (sim_hand _ _ HS i) as Hh. rewrite Hpt in Hh. destruct Hh as (v & Hsnap & Hop).
  pose proof (sim_phase _ _ HS i) as Hp. rewrite Hpt in Hp. cbn in Hp.
  destruct (lock_step_keeps _ _ _ _ _ HS Hi E) as (Hl & Hph & Hnp & d & Hs).
  apply next_phase in Hs; [|done]. rewrite Hp in Hs. cbn in Hs.
  exists (mkCell new (delete k (snapshots c))). split; [cbn; by rewrite Hsnap, Hop|].
  destruct (system_step_outside _ _ _ _ E) as [_ Hv]. cbn in Hv.
  assert (∀ j k', j ≠ i → call_of (point_of st j) = Some k' → k' ≠ k) as Hne.
  { intros j k' Hj Hk' ->. apply Hj. apply (sim_distinct _ _ HS j i k Hk'). by rewrite Hpt. }
  eapply simulates_step; try done.
  - by rewrite Hs.
  - rewrite Hv. split; [done|]. intros [?|(j & Hj & Hd)]; [done|].
    pose proof (sim_phase _ _ HS j) as Hpj. destruct (point_of st j); try done. cbn in Hpj.
    by destruct (writer_alone _ _ _ HS Hp j Hj).
  - intros j Hj. pose proof (sim_hand _ _ HS j) as Hh. pose proof (λ k', Hne j k' Hj) as Hnj.
    destruct (point_of st j); try done; cbn in *; by rewrite lookup_delete_ne by (symmetry; by apply Hnj).
Qed.
Lemma drop_step st c i k new st' : simulates st c → (i < n)%nat →
  point_of st i = Point.Replacing k new → phase_of (lock st) i = Writing →
  go debug st i (Assign (λ _, None)) (Point.Dropped k new) = Some st' → simulates st' c.
Proof.
  intros HS Hi Hpt Hp E. unfold go in E. destruct (system_step _ _ _ _) as [l|] eqn:El; [|done]. injection E as <-.
  destruct (lock_step_keeps _ _ _ _ _ HS Hi El) as (Hl & Hph & Hnp & d & Hs).
  destruct (system_step_outside _ _ _ _ El) as [_ Hv]. cbn in Hv.
  apply next_phase in Hs; [|done]. rewrite Hp in Hs. cbn in Hs.
  pose proof (sim_hand _ _ HS i) as Hh. rewrite Hpt in Hh.
  eapply simulates_step; try done.
  - rewrite Hv. by left.
  - intros j _. apply HS.
  - cbn. intros k' [= <-]. assert (call_of (point_of st i) = Some k) as Hk by by rewrite Hpt.
    split; [by apply (sim_begun _ _ HS i)|]. intros j Hj Hkj. apply Hj. by eapply (sim_distinct _ _ HS).
Qed.

(** A step of the lock on the way in or out. *)
Lemma go_step st c i a p st' : simulates st c → (i < n)%nat → go debug st i a p = Some st' →
  (∀ f, a ≠ Assign f) → ¬ is_dropped (point_of st i) → ¬ is_dropped p →
  in_hand c p → call_of p = None ∨ call_of p = call_of (point_of st i) →
  (∀ d ph, thread_step debug (door (lock st)) (phase_of (lock st) i) a = Some (d, ph) →
     ph ≠ Panicked → in_phase p ph) →
  simulates st' c.
Proof.
  intros HS Hi E Ha Hd Hdp Hh Hc Hp. unfold go in E.
  destruct (system_step _ _ _ _) as [l|] eqn:El; [|done]. injection E as <-.
  destruct (lock_step_keeps _ _ _ _ _ HS Hi El) as (Hl & Hph & Hnp & d & Hs).
  destruct (system_step_outside _ _ _ _ El) as [_ Hv].
  eapply quiet_step; try done.
  - rewrite Hv. destruct a; try done. by destruct (Ha f).
  - by eapply Hp.
  - intros k Hk. left. destruct Hc as [Hc|Hc]; congruence.
Qed.

Lemma stay_step st c i p st' : simulates st c → stay st i p = Some st' →
  ¬ is_dropped (point_of st i) → ¬ is_dropped p → in_hand c p →
  call_of p = None → in_phase p (phase_of (lock st) i) → simulates st' c.
Proof.
  intros HS [= <-] Hd Hdp Hh Hc Hp. eapply quiet_step; try done; try apply HS. intros k Hk. congruence.
Qed.

Ltac not_dropped :=
  let Hd := fresh in intros Hd;
  repeat match goal with H : point_of _ _ = _ |- _ => rewrite H in Hd end; exact Hd.
Ltac by_phase :=
  let Hs := fresh in let Hnp := fresh in
  intros d ph Hs Hnp; apply next_phase in Hs; [|done];
  repeat match goal with H : phase_of _ _ = _ |- _ => rewrite H in Hs end; by destruct ph.
Ltac by_go HS Hi Hh E :=
  eapply (go_step _ _ _ _ _ _ HS Hi E);
  [done|not_dropped|not_dropped|first [exact I|exact Hh]
  |repeat match goal with H : point_of _ _ = _ |- _ => rewrite H end; auto|by_phase].

Lemma locked_step_simulates st c i st' : simulates st c → (i < n)%nat →
  locked_step debug ops st i = Some st' →
  ∃ c', cell_run ops c (event_of st i) = Ok c' ∧ simulates st' c'.
Proof.
  intros HS Hi. unfold locked_step, event_of. pose proof (sim_phase _ _ HS i) as Hp.
  pose proof (sim_hand _ _ HS i) as Hh. pose proof (sim_value _ _ HS) as Hv.
  destruct (point_of st i) as [|k|k v|k v|k new|k new| | |] eqn:Hpt; try done; cbn [in_phase] in Hp.
  - intros E. unfold go in E. destruct (system_step _ _ _ _) as [l|] eqn:El; [|done]. injection E as <-.
    change (lock (begin_call st)) with (lock st) in El.
    exists c. split; [done|].
    destruct (lock_step_keeps _ _ _ _ _ HS Hi El) as (Hl & Hph & Hnp & d & Hs).
    destruct (system_step_outside _ _ _ _ El) as [_ Hv'].
    apply next_phase in Hs; [|done]. rewrite Hp in Hs.
    eapply quiet_step; try done; [not_dropped|not_dropped|cbn; by rewrite Hs|cbn; lia|].
    cbn. intros k [= <-]. right. lia.
  - destruct (phase_of (lock st) i) eqn:Hph; try done; intros E.
    1,2: exists c; split; [done|]; by_go HS Hi Hh E.
    destruct (Spinlock.value (door (lock st))) as [v|] eqn:Ev.
    + injection E as <-. eexists. split; [done|]. by apply snapshot_step.
    + exfalso. destruct Hv as [j Hd]. pose proof (sim_phase _ _ HS j) as Hpj.
      destruct (point_of st j) eqn:Hj; try done. cbn in Hpj. assert (i ≠ j) as Hij by congruence.
      by destruct (writer_alone _ _ _ HS Hpj i Hij).
  - intros E. exists c. split; [done|]. by_go HS Hi Hh E.
  - destruct (ops k v) as [new| | |] eqn:Hop; intros E; exists c; (split; [done|]).
    2-4: by eapply (stay_step _ _ _ _ _ HS E); [not_dropped|not_dropped|..].
    by_go HS Hi (ex_intro (λ v, snapshots c !! k = Some v ∧ ops k v = Ok new) v (conj Hh Hop)) E.
  - destruct (phase_of (lock st) i) eqn:Hph; try done; intros E.
    1-4: exists c; split; [done|]; by_go HS Hi Hh E.
    exists c. split; [done|]. by apply (drop_step _ _ _ _ _ _ HS Hi Hpt Hph).
  - intros E. unfold go in E. destruct (system_step _ _ _ _) as [l|] eqn:El; [|done]. injection E as <-.
    destruct (commit_step _ _ _ _ _ _ HS Hi Hpt El) as (c' & Hc & HS').
    exists c'. split; [|done]. cbn [cell_run]. by rewrite Hc.
  - destruct (phase_of (lock st) i) eqn:Hph; try done; intros E; exists c; (split; [done|]).
    + by eapply (stay_step _ _ _ _ _ HS E); [not_dropped|not_dropped|..].
    + by_go HS Hi Hh E.
    + by_go HS Hi Hh E.
    + by_go HS Hi Hh E.
Qed.
(** The events of a run. *)
Fixpoint events_of st (sched : list nat) : list cell_event :=
  match sched with
  | [] => []
  | i :: sched =>
      match locked_step debug ops st i with
      | Some st' => event_of st i ++ events_of st' sched
      | None => events_of st sched
      end
  end.

Lemma locked_step_enabled st c i : simulates st c →
  locked_step debug ops st i = None → point_of st i = Point.Failed.
Proof.
  intros HS. unfold locked_step, go, stay, system_step. pose proof (sim_phase _ _ HS i) as Hp.
  destruct (point_of st i) as [|k|k v|k v|k new|k new| | |] eqn:Hpt; try done; cbn [in_phase] in Hp.
  all: cbn [begin_call lock]; repeat case_match; try done.
  all: match goal with H : thread_step _ _ _ _ = None |- _ => rename H into Hs end.
  all: repeat match goal with H : phase_of _ _ = _ |- _ => rewrite H in Hs end.
  all: cbn in Hs; repeat case_match; done.
Qed.
Lemma cell_run_app c c' es es' :
  cell_run ops c es = Ok c' → cell_run ops c (es ++ es') = cell_run ops c' es'.
Proof.
  revert c. induction es as [|e es IH]; intros c; cbn; [by intros [= ->]|].
  destruct (cell_step ops c e) as [c1| | |]; try done. apply IH.
Qed.

Lemma locked_run_simulates sched : ∀ st c, simulates st c → Forall (λ i, (i < n)%nat) sched →
  ∃ c', cell_run ops c (events_of st sched) = Ok c' ∧ simulates (locked_run debug ops st sched) c'.
Proof.
  induction sched as [|i sched IH]; intros st c HS; [by exists c|].
  intros [Hi Hs]%Forall_cons. cbn [events_of locked_run].
  destruct (locked_step debug ops st i) as [st'|] eqn:E; cbn [default]; [|by apply IH].
  destruct (locked_step_simulates _ _ _ _ HS Hi E) as (c1 & Hc & HS').
  destruct (IH st' c1 HS' Hs) as (c2 & Hc2 & HS2). exists c2. split; [|done].
  by rewrite (cell_run_app _ c1).
Qed.

Lemma locked_new_simulates v : simulates (locked_new v) (mkCell v ∅).
Proof.
  split; try done.
  - apply (reachable_inv debug n Hn (Some v)), reach_new.
  - split; [done|]. by intros [i Hd].
Qed.
End refinement.

(** C17: the tries are safe under their lock, and calls on them are snapshots and commits.
    Fewer than 2^30 threads make any calls on a trie, taking the atomic steps of the
    lock, of the copy under the read guard and of the replacement under the write guard
    in any order.  Then no call ever takes a value that was dropped and no lock panics;
    a thread can always take its next step, unless the operation of its own call
    panicked; and what the trie holds is what the cell of [Ttrie] comes to with the
    events of the run, one snapshot and one commit for each call that was made in full. *)
Theorem calls_are_snapshots_and_commits {S} debug (ops : nat → S → Result S) n (v : S) sched :
  Z.of_nat n < 2 ^ 30 → Forall (λ i, (i < n)%nat) sched →
  let st := locked_run debug ops (locked_new v) sched in
  (∃ c, cell_run ops (mkCell v ∅) (events_of debug ops (locked_new v) sched) = Ok c ∧
     match Spinlock.value (door (lock st)) with
     | Some v' => v' = cell c
     | None => ∃ i, phase_of (lock st) i = Writing
     end) ∧
  ∀ i, point_of st i ≠ Point.Torn ∧ phase_of (lock st) i ≠ Panicked ∧
    (point_of st i ≠ Point.Failed → locked_step debug ops st i ≠ None).
Proof.
  intros Hn Hs st.
  destruct (locked_run_simulates debug ops n Hn sched _ _ (locked_new_simulates debug ops n Hn v) Hs)
    as (c & Hc & HS). fold st in HS. split.
  - exists c. split; [done|]. pose proof (sim_value _ _ _ _ HS) as Hv.
    destruct (Spinlock.value (door (lock st))) as [v'|]; [by destruct Hv|].
    destruct Hv as [i Hd]. exists i. pose proof (sim_phase _ _ _ _ HS i) as Hp.
    by destruct (point_of st i).
  - intros i. pose proof (sim_phase _ _ _ _ HS i) as Hp. split; [by intros Et; rewrite Et in Hp|]. split.
    + intros Ep. rewrite Ep in Hp. by destruct (point_of st i).
    + intros Hf E. by apply Hf, (locked_step_enabled debug ops n st c i HS).
Qed.

(** * Calls made alone *)

Section alone.
Context {S : Type} (debug : bool) (ops : nat → S → Result S).
Implicit Types (st : locked S).

(** Nobody is in the lock, and the trie is whole. *)
Definition at_rest st (v : S) : Prop :=
  Spinlock.latchlock (door (lock st)) = 0 ∧ Spinlock.value (door (lock st)) = Some v.

(** What a thread finds, and leaves to the others. *)
Definition others_kept st st' (i : nat) : Prop :=
  ∀ j, j ≠ i → point_of st' j = point_of st j ∧ phase_of (lock st') j = phase_of (lock st) j.

(** What a step depends on: the lock, and where the thread is. *)
Definition view st (i : nat) := (door (lock st), phase_of (lock st) i, point_of st i, begun st).

Lemma view_go st st' i i' a p : view st i = view st' i' →
  (λ s, view s i) <$> go debug st i a p = (λ s, view s i') <$> go debug st' i' a p.
Proof.
  intros [= Ed Ep Ept Eb]. unfold go, system_step. rewrite Ed, Ep.
  destruct (thread_step _ _ _ _) as [[d ph]|]; [|done]. cbn. unfold view. cbn [lock begun door].
  by rewrite !phase_of_insert, !point_of_insert, !decide_True, Eb.
Qed.

Lemma view_stay st st' i i' p : view st i = view st' i' →
  (λ s, view s i) <$> stay st i p = (λ s, view s i') <$> stay st' i' p.
Proof.
  intros [= Ed Ep Ept Eb]. cbn. unfold view. cbn [lock begun door].
  by rewrite Ed, Ep, Eb, !point_of_insert, !decide_True.
Qed.

Lemma view_step st st' i i' : view st i = view st' i' →
  (λ s, view s i) <$> locked_step debug ops st i = (λ s, view s i') <$> locked_step debug ops st' i'.
Proof.
  intros E. pose proof E as [= Ed Ep Ept Eb]. unfold locked_step. rewrite Ept, Ep, Ed, Eb.
  repeat case_match; try done; first [by apply view_stay|by apply view_go|apply view_go].
  unfold view, begin_call, point_of in *. cbn in *. congruence.
Qed.

Lemma view_run k i i' : ∀ st st', view st i = view st' i' →
  view (locked_run debug ops st (replicate k i)) i = view (locked_run debug ops st' (replicate k i')) i'.
Proof.
  induction k as [|k IH]; intros st st' E; [done|]. cbn [replicate locked_run]. apply IH.
  pose proof (view_step _ _ _ _ E) as Hs.
  destruct (locked_step _ _ st i), (locked_step _ _ st' i'); cbn in Hs |- *; congruence.
Qed.

Lemma others_step st st' i : locked_step debug ops st i = Some st' → others_kept st st' i.
Proof.
  assert (∀ p st', stay st i p = Some st' → others_kept st st' i) as Hstay.
  { intros p s [= <-] j Hj. by rewrite point_of_insert, decide_False. }
  assert (∀ s a p st', go debug s i a p = Some st' →
            threads (lock s) = threads (lock st) → points s = points st → others_kept st st' i) as Hgo.
  { intros s a p s' E Ht Hp j Hj. unfold go in E. destruct (system_step _ _ _ _) as [l|] eqn:El; [|done].
    injection E as <-. rewrite point_of_insert, decide_False by done. cbn [lock].
    destruct (system_step_outside _ _ _ _ _ El) as [-> _]; [|done]. unfold point_of, phase_of. cbn. by rewrite Ht, Hp. }
  unfold locked_step. intros E. repeat case_match; try done;
    first [by apply (Hstay _ _ E)|by apply (Hgo _ _ _ _ E)].
Qed.

Lemma others_run k i : ∀ st, others_kept st (locked_run debug ops st (replicate k i)) i.
Proof.
  induction k as [|k IH]; intros st; [done|]. cbn [replicate locked_run]. intros j Hj.
  destruct (locked_step debug ops st i) as [st'|] eqn:E; [|by apply IH].
  destruct (IH st' j Hj) as [E1 E2]. destruct (others_step _ _ _ E j Hj) as [E3 E4].
  split; [exact (eq_trans E1 E3)|exact (eq_trans E2 E4)].
Qed.

(** A thread as the only one. *)
Definition lone (d : Spinlock (option S)) ph p b : locked S :=
  mkLocked (mkSystem d {[0%nat := ph]}) {[0%nat := p]} b.

Definition rest_door rl wl cf (v : S) : Spinlock (option S) := Spinlock.mk 0 rl wl cf (Some v).

(** A run of a thread alone, from its run as the only thread. *)
Lemma run_alone st i k ph p v v' ph' p' b' :
  at_rest st v → phase_of (lock st) i = ph → point_of st i = p →
  (∀ rl wl cf, ∃ rl' wl' cf',
    view (locked_run debug ops (lone (rest_door rl wl cf v) ph p (begun st)) (replicate k 0%nat)) 0
    = (rest_door rl' wl' cf' v', ph', p', b')) →
  let st' := locked_run debug ops st (replicate k i) in
  at_rest st' v' ∧ phase_of (lock st') i = ph' ∧ point_of st' i = p' ∧ begun st' = b' ∧
  others_kept st st' i.
Proof.
  intros [Hl Hv] Hph Hp Hk st'. destruct (door (lock st)) as [ll rl wl cf val] eqn:Ed.
  cbn in Hl, Hv. subst ll val. destruct (Hk rl wl cf) as (rl' & wl' & cf' & E).
  rewrite <- (view_run k i 0 st (lone (rest_door rl wl cf v) ph p (begun st))) in E.
  - change (locked_run debug ops st (replicate k i)) with st' in E. injection E as Ed' Eph Ept Eb.
    unfold at_rest. rewrite Ed'. repeat split; try done; by apply others_run.
  - unfold view. by rewrite Ed, Hph, Hp.
Qed.

Lemma lone_step d ph p b k s d' ph' p' b' x :
  locked_step debug ops (lone d ph p b) 0 = Some s → view s 0 = (d', ph', p', b') →
  view (locked_run debug ops (lone d' ph' p' b') (replicate k 0%nat)) 0 = x →
  view (locked_run debug ops (lone d ph p b) (replicate (Datatypes.S k) 0%nat)) 0 = x.
Proof.
  intros Es Ev <-. cbn [replicate locked_run]. rewrite Es. by apply view_run.
Qed.

Ltac lone_to d ph p b := eapply (lone_step _ _ _ _ _ _ d ph p b); [reflexivity|reflexivity|].

(** The first part of a call: the snapshot. *)
Lemma fetch_alone st i v :
  at_rest st v → phase_of (lock st) i = Idle → point_of st i = Point.Resting →
  let st' := locked_run debug ops st (replicate 5 i) in
  at_rest st' v ∧ phase_of (lock st') i = Idle ∧ point_of st' i = Point.Computing (begun st) v ∧
  begun st' = Datatypes.S (begun st) ∧ others_kept st st' i.
Proof.
  intros Hr Hph Hp. eapply run_alone; [done..|]. intros rl wl cf. eexists _, _, _. reflexivity.
Qed.

(** The second: the new value in the place of the old. *)
Lemma replace_alone st i k v v' new :
  at_rest st v → phase_of (lock st) i = Idle → point_of st i = Point.Computing k v' →
  ops k v' = Ok new →
  let st' := locked_run debug ops st (replicate 11 i) in
  at_rest st' new ∧ phase_of (lock st') i = Idle ∧ point_of st' i = Point.Resting ∧
  begun st' = begun st ∧ others_kept st st' i.
Proof.
  intros Hr Hph Hp Hop. eapply run_alone; [done..|]. intros rl wl cf.
  assert (locked_step debug ops (lone (rest_door rl wl cf v) Idle (Point.Computing k v') (begun st)) 0
          = Some (lone (rest_door rl wl cf v) WriteLoad (Point.Replacing k new) (begun st))) as E.
  { unfold locked_step. change (point_of (lone _ _ ?p _) 0) with p. cbv beta iota. by rewrite Hop. }
  eexists _, _, _. eapply lone_step; [exact E|reflexivity|].
  set (door_with := λ word wl v, Spinlock.mk word rl wl cf v : Spinlock (option S)).
  set (wl' := bump debug wl).
  lone_to (door_with 0 wl (Some v)) (WriteCas 0) (Point.Replacing k new) (begun st).
  lone_to (door_with LATCH_FLAG wl (Some v)) LockLoad (Point.Replacing k new) (begun st).
  lone_to (door_with LATCH_FLAG wl (Some v)) (LockCas LATCH_FLAG) (Point.Replacing k new) (begun st).
  lone_to (door_with LATCH_LOCK_FLAG wl' (Some v)) Writing (Point.Replacing k new) (begun st).
  lone_to (door_with LATCH_LOCK_FLAG wl' None) Writing (Point.Dropped k new) (begun st).
  lone_to (door_with LATCH_LOCK_FLAG wl' (Some new)) Writing (Point.Replaced (S := S)) (begun st).
  lone_to (door_with LATCH_LOCK_FLAG wl' (Some new)) DropLoad (Point.Replaced (S := S)) (begun st).
  lone_to (door_with LATCH_LOCK_FLAG wl' (Some new)) (DropCas LATCH_LOCK_FLAG) (Point.Replaced (S := S)) (begun st).
  lone_to (door_with 0 wl' (Some new)) Idle (Point.Replaced (S := S)) (begun st).
  lone_to (door_with 0 wl' (Some new)) Idle (Point.Resting (S := S)) (begun st).
  reflexivity.
Qed.
Lemma locked_run_app st s1 s2 :
  locked_run debug ops st (s1 ++ s2) = locked_run debug ops (locked_run debug ops st s1) s2.
Proof. revert st. induction s1 as [|i s1 IH]; intros st; [done|]. apply IH. Qed.

Lemma call_alone st i v new :
  at_rest st v → phase_of (lock st) i = Idle → point_of st i = Point.Resting →
  ops (begun st) v = Ok new →
  let st' := locked_run debug ops st (replicate 16 i) in
  at_rest st' new ∧ phase_of (lock st') i = Idle ∧ point_of st' i = Point.Resting ∧
  begun st' = Datatypes.S (begun st) ∧ others_kept st st' i.
Proof.
  intros Hr Hph Hp Hop st'. destruct (fetch_alone st i v Hr Hph Hp) as (Hr1 & Hph1 & Hp1 & Hb1 & Ho1).
  change (replicate 16 i) with (replicate 5 i ++ replicate 11 i) in st'.
  unfold st'. rewrite locked_run_app. set (st1 := locked_run debug ops st (replicate 5 i)) in *.
  destruct (replace_alone st1 i _ v v new Hr1 Hph1 Hp1 Hop) as (Hr2 & Hph2 & Hp2 & Hb2 & Ho2).
  rewrite Hb2. repeat split; try done; try apply Hr2.
  - destruct (Ho1 j), (Ho2 j); congruence.
  - destruct (Ho1 j), (Ho2 j); congruence.
Qed.

(** The operations of the calls from the [k]-th on, one after the other. *)
Fixpoint apply_calls (k : nat) (v : S) (calls : list nat) : Result S :=
  match calls with
  | [] => Ok v
  | _ :: calls => v ← ops k v; apply_calls (Datatypes.S k) v calls
  end.
End alone.

(** C22: calls that do not overlap take effect in their order.  Whichever threads make them,
    calls on a trie of which each runs to its end before the next begins need sixteen
    steps each, and the trie then holds what the operations give when they are applied
    one after the other to what it held. *)
Theorem calls_one_at_a_time {S} debug (ops : nat → S → Result S) calls :
  ∀ (st : locked S) v v',
  at_rest st v → (∀ i, phase_of (lock st) i = Idle ∧ point_of st i = Point.Resting) →
  apply_calls ops (begun st) v calls = Ok v' →
  let st' := locked_run debug ops st (concat (replicate 16 <$> calls)) in
  at_rest st' v' ∧ (∀ i, phase_of (lock st') i = Idle ∧ point_of st' i = Point.Resting).
Proof.
  induction calls as [|i calls IH]; intros st v v' Hr Hi E; cbn [apply_calls] in E.
  { injection E as <-. by split. }
  apply bind_Ok in E as (v1 & Hop & E). destruct (Hi i) as [Hph Hp].
  destruct (call_alone debug ops st i v v1 Hr Hph Hp Hop) as (Hr1 & Hph1 & Hp1 & Hb1 & Ho1).
  rewrite fmap_cons. cbn [concat]. rewrite locked_run_app.
  apply (IH _ v1 v'); [done| |by rewrite Hb1].
  intros j. destruct (decide (j = i)) as [->|Hj]; [done|]. destruct (Ho1 j Hj) as [-> ->]. apply Hi.
Qed.

(** C25: a subscription lost under the lock.  A thread that looks for the subscriptions of a
    topic, and whose snapshot is older than another thread's subscription but whose
    replacement comes later, takes the subscription out again, though no two of them are
    ever in the lock together: what a match writes back is what it read. *)
Theorem matching_undoes_a_subscription debug t t1 m p s n (st : locked (Inner Subscription)) i j :
  let ops := λ k t, if decide (k = begun st) then SubscribedTrie_subscribe t p s
                    else fst <$> SubscribedTrie_match_topic_name t (TopicName_iter_topic_path n) in
  subscribed_as t m → SubscribedTrie_subscribe t p s = Ok t1 →
  at_rest st t → i ≠ j → (∀ i, phase_of (lock st) i = Idle ∧ point_of st i = Point.Resting) →
  let st' := locked_run debug ops st
               (replicate 5 i ++ replicate 5 j ++ replicate 11 i ++ replicate 11 j) in
  ∃ t2, at_rest st' t2 ∧ Inner.root t2 = Inner.root t.
Proof.
  intros ops Ht Hs Hr Hij Hi. destruct (match_keeps_root t m n Ht) as (t2 & H2 & Hroot).
  assert (ops (begun st) t = Ok t1) as Hop1 by (unfold ops; by rewrite decide_True).
  assert (ops (Datatypes.S (begun st)) t = Ok t2) as Hop2 by (unfold ops; by rewrite decide_False by lia).
  clearbody ops. cbv zeta. rewrite !locked_run_app.
  destruct (Hi i) as [Hph Hp]. destruct (Hi j) as [Hphj Hpj].
  destruct (fetch_alone debug ops st i t Hr Hph Hp) as (Hr1 & Hph1 & Hp1 & Hb1 & Ho1).
  set (st1 := locked_run debug ops st (replicate 5 i)) in *.
  destruct (Ho1 j (not_eq_sym Hij)) as [Ej1 Ej2].
  destruct (fetch_alone debug ops st1 j t Hr1 (eq_trans Ej2 Hphj) (eq_trans Ej1 Hpj))
    as (Hr2 & Hph2 & Hp2 & Hb2 & Ho2).
  set (st2 := locked_run debug ops st1 (replicate 5 j)) in *. destruct (Ho2 i Hij) as [Ei1 Ei2].
  destruct (replace_alone debug ops st2 i _ t t t1 Hr2 (eq_trans Ei2 Hph1) (eq_trans Ei1 Hp1) Hop1)
    as (Hr3 & Hph3 & Hp3 & Hb3 & Ho3).
  set (st3 := locked_run debug ops st2 (replicate 11 i)) in *.
  destruct (Ho3 j (not_eq_sym Hij)) as [Ek1 Ek2]. rewrite Hb1 in Hp2.
  destruct (replace_alone debug ops st3 j _ t1 t t2 Hr3 (eq_trans Ek2 Hph2) (eq_trans Ek1 Hp2) Hop2)
    as (Hr4 & _). by exists t2.
Qed.

(** * Instances *)

Lemma calls_are_snapshots_and_commits_witness :
  let ops := λ (k : nat) (t : Inner Subscription),
               SubscribedTrie_subscribe t (TopicFilter_iter_topic_path ex_filter) (ex_sub QoS.AtMostOnce) in
  let sched := concat (replicate 24 [0; 1]%nat) in
  let st := locked_run true ops (locked_new SubscribedTrie_default) sched in
  events_of true ops (locked_new SubscribedTrie_default) sched = [Snapshot 0; Snapshot 1; Commit 0; Commit 1] ∧
  ∃ c, cell_run ops (mkCell SubscribedTrie_default ∅)
         (events_of true ops (locked_new SubscribedTrie_default) sched) = Ok c ∧
    Spinlock.value (door (lock st)) = Some (cell c).
Proof.
  intros ops sched st. split; [by vm_compute|].
  destruct (calls_are_snapshots_and_commits true ops 2 SubscribedTrie_default sched) as [(c & E & Hv) _].
  - lia.
  - apply (bool_decide_unpack _). by vm_compute.
  - exists c. split; [exact E|]. fold st in Hv.
    destruct (Spinlock.value (door (lock st))) as [v|] eqn:Ev; [by rewrite Hv|].
    clear Hv. vm_compute in Ev. discriminate Ev.
Defined.

Lemma calls_one_at_a_time_witness :
  let ops := λ (k : nat) (t : Inner Subscription),
               SubscribedTrie_subscribe t (TopicFilter_iter_topic_path ex_filter) (ex_sub QoS.AtMostOnce) in
  ∃ t, apply_calls ops 0 SubscribedTrie_default [3; 5]%nat = Ok t ∧
    at_rest (locked_run true ops (locked_new SubscribedTrie_default)
               (concat (replicate 16 <$> [3; 5]%nat))) t.
Proof.
  intros ops. destruct (apply_calls ops 0 SubscribedTrie_default [3; 5]%nat) as [t| | |] eqn:E;
    [|vm_compute in E; discriminate E..].
  exists t. split; [reflexivity|].
  refine (proj1 (calls_one_at_a_time true ops [3; 5]%nat (locked_new SubscribedTrie_default)
                   SubscribedTrie_default t _ _ E)).
  - split; reflexivity.
  - intros i. split; reflexivity.
Defined.

Lemma matching_undoes_a_subscription_witness :
  let p := TopicFilter_iter_topic_path ex_filter in let s := ex_sub QoS.AtMostOnce in
  let st := locked_new SubscribedTrie_default in
  let ops := λ k t, if decide (k = begun st) then SubscribedTrie_subscribe t p s
                    else fst <$> SubscribedTrie_match_topic_name t (TopicName_iter_topic_path ex_topic) in
  ∃ t2, at_rest (locked_run false ops st
                   (replicate 5 0%nat ++ replicate 5 1%nat ++ replicate 11 0%nat ++ replicate 11 1%nat)) t2 ∧
    Inner.root t2 = Inner.root SubscribedTrie_default.
Proof.
  intros p s st ops.
  eapply (matching_undoes_a_subscription false SubscribedTrie_default _ _ p s ex_topic st 0 1 default_as).
  - reflexivity.
  - split; reflexivity.
  - discriminate.
  - intros i. split; reflexivity.
Defined.
