(* ===== verification/State.v ===== *)
(** The monad of the stateful components: a computation over a state gives the new
    state and an outcome.  The state of a computation that fails is the state at the
    point of failure, as it is for a Rust method on [&mut self] that returns an
    error.  With it, the iteration order of a [BTreeMap]. *)

From S2P Require Import Prelude Error Util.

Definition M (S A : Type) : Type := S → S * Result A.

#[export] Instance M_ret {S} : MRet (M S) := λ A a s, (s, Ok a).
#[export] Instance M_bind {S} : MBind (M S) := λ A B f m s,
  let '(s, r) := m s in
  match r with
  | Ok a => f a s
  | Err e => (s, Err e)
  | Panic => (s, Panic)
  | Diverge => (s, Diverge)
  end.

Section operations.
Context {S T : Type}.

Definition get : M S S := λ s, (s, Ok s).
Definition gets {A} (f : S → A) : M S A := λ s, (s, Ok (f s)).
Definition modify (f : S → S) : M S unit := λ s, (f s, Ok ()).
(** A computation without the state: a pure function that may fail. *)
Definition lift {A} (r : Result A) : M S A := λ s, (s, r).
Definition panic {A} : M S A := lift Panic.

(** [m.ok();]: whether it fails is not looked at. *)
Definition ignored {A} (m : M S A) : M S unit := λ s,
  let '(s, r) := m s in
  (s, match r with Ok _ | Err _ => Ok () | Panic => Panic | Diverge => Diverge end).

(** A method on one of two objects. *)
Definition on_fst {A} (m : M S A) : M (S * T) A :=
  λ s, let '(s1, r) := m (fst s) in ((s1, snd s), r).
Definition on_snd {A} (m : M T A) : M (S * T) A :=
  λ s, let '(s2, r) := m (snd s) in ((fst s, s2), r).

(** [for x in xs]. *)
Fixpoint for_each {A} (xs : list A) (f : A → M S unit) : M S unit :=
  match xs with
  | [] => mret ()
  | x :: xs => _ ← f x; for_each xs f
  end.

(** [for x in xs], each giving a list to collect. *)
Fixpoint for_collect {A B} (xs : list A) (f : A → M S (list B)) : M S (list B) :=
  match xs with
  | [] => mret []
  | x :: xs => ys ← f x; zs ← for_collect xs f; mret (ys ++ zs)
  end.
End operations.

Arguments M_ret {S} A a s /.
Arguments M_bind {S} A B f m s /.

(** How a computation ends. *)
Section run.
Context {S A B : Type}.

Lemma M_bind_eq (m : M S A) (f : A → M S B) s s1 r :
  m s = (s1, r) →
  (m ≫= f) s = match r with
               | Ok a => f a s1
               | Err e => (s1, Err e)
               | Panic => (s1, Panic)
               | Diverge => (s1, Diverge)
               end.
Proof. unfold mbind, M_bind. by intros ->. Qed.

Lemma M_bind_Ok (m : M S A) (f : A → M S B) s s1 a :
  m s = (s1, Ok a) → (m ≫= f) s = f a s1.
Proof. apply M_bind_eq. Qed.

Lemma M_bind_inv (m : M S A) (f : A → M S B) s s' b :
  (m ≫= f) s = (s', Ok b) → ∃ s1 a, m s = (s1, Ok a) ∧ f a s1 = (s', Ok b).
Proof. unfold mbind, M_bind. destruct (m s) as [s1 [a|e| |]]; [|done..]. by exists s1, a. Qed.

Lemma lift_bind_Ok (a : A) (f : A → M S B) s : (lift (Ok a) ≫= f) s = f a s.
Proof. done. Qed.
End run.

(** * Invariants

    A computation keeps [I] when it holds of the state it leaves, however it ends; what
    it returns satisfies [Q]. *)
Section keeps.
Context {S : Type} (I : S → Prop).

Definition keeps {A} (m : M S A) (Q : A → Prop) : Prop :=
  ∀ s, I s → I (fst (m s)) ∧ ∀ a, snd (m s) = Ok a → Q a.
Definition anything {A} : A → Prop := λ _, True.

Lemma keeps_weaken {A} (m : M S A) (Q R : A → Prop) :
  keeps m Q → (∀ a, Q a → R a) → keeps m R.
Proof. intros H HQ s Hs. destruct (H s Hs) as [HI Ha]. split; [done|]. intros a E. auto. Qed.

Lemma keeps_anything {A} (m : M S A) (Q : A → Prop) : keeps m Q → keeps m anything.
Proof. intros H. by eapply keeps_weaken. Qed.

Lemma keeps_ret {A} (a : A) (Q : A → Prop) : Q a → keeps (mret a) Q.
Proof. intros H s Hs. split; [done|]. by intros a' [= <-]. Qed.

Lemma keeps_bind {A B} (m : M S A) (f : A → M S B) (Q : A → Prop) (R : B → Prop) :
  keeps m Q → (∀ a, Q a → keeps (f a) R) → keeps (m ≫= f) R.
Proof.
  intros Hm Hf s Hs. destruct (Hm s Hs) as [HI HQ]. unfold mbind, M_bind.
  destruct (m s) as [s1 [a|e| |]]; [|done..]. apply (Hf a); [by apply HQ|done].
Qed.

Lemma keeps_lift {A} (r : Result A) (Q : A → Prop) : (∀ a, r = Ok a → Q a) → keeps (lift r) Q.
Proof. intros H s Hs. by split. Qed.

Lemma keeps_panic {A} (Q : A → Prop) : keeps panic Q.
Proof. by apply keeps_lift. Qed.

Lemma keeps_get (Q : S → Prop) : (∀ s, I s → Q s) → keeps get Q.
Proof. intros H s Hs. split; [done|]. intros a [= <-]. auto. Qed.

Lemma keeps_gets {A} (f : S → A) (Q : A → Prop) : (∀ s, I s → Q (f s)) → keeps (gets f) Q.
Proof. intros H s Hs. split; [done|]. intros a [= <-]. auto. Qed.

Lemma keeps_get_inv : keeps get I.
Proof. by apply keeps_get. Qed.

Lemma keeps_gets_any {A} (f : S → A) : keeps (gets f) anything.
Proof. by apply keeps_gets. Qed.

Lemma keeps_lift_any {A} (r : Result A) : keeps (lift r) anything.
Proof. by apply keeps_lift. Qed.

Lemma keeps_modify (f : S → S) : (∀ s, I s → I (f s)) → keeps (modify f) anything.
Proof. intros H s Hs. split; [by apply H|done]. Qed.

Lemma keeps_for_each {A} (xs : list A) (f : A → M S unit) :
  (∀ x, x ∈ xs → keeps (f x) anything) → keeps (for_each xs f) anything.
Proof.
  induction xs as [|x xs IH]; intros H; cbn [for_each]; [by apply keeps_ret|].
  eapply keeps_bind; [apply H; by left|]. intros _ _. apply IH. intros y Hy. apply H. by right.
Qed.

Lemma keeps_for_collect {A B} (xs : list A) (f : A → M S (list B)) (Q : B → Prop) :
  (∀ x, x ∈ xs → keeps (f x) (Forall Q)) → keeps (for_collect xs f) (Forall Q).
Proof.
  induction xs as [|x xs IH]; intros H; cbn [for_collect]; [apply keeps_ret; constructor|].
  eapply keeps_bind; [apply H; by left|]. intros ys Hys.
  eapply keeps_bind; [apply IH; intros y Hy; apply H; by right|]. intros zs Hzs.
  apply keeps_ret. by apply Forall_app.
Qed.
End keeps.

Create HintDb keeps.
#[export] Hint Resolve keeps_ret keeps_panic keeps_get_inv keeps_gets_any keeps_lift_any : keeps.

(** A method on one of two objects keeps what holds of that object. *)
Section keeps_pair.
Context {S T : Type}.

Definition both (I : S → Prop) (J : T → Prop) (s : S * T) : Prop := I (fst s) ∧ J (snd s).

Lemma keeps_on_fst {A} (I : S → Prop) (J : T → Prop) (m : M S A) (Q : A → Prop) :
  keeps I m Q → keeps (both I J) (on_fst m) Q.
Proof.
  intros H [s t] [Hs Ht]. unfold on_fst. cbn [fst snd] in *. specialize (H s Hs).
  destruct (m s) as [s1 r], H as [HI HQ]. split; [by split|exact HQ].
Qed.

Lemma keeps_on_snd {A} (I : S → Prop) (J : T → Prop) (m : M T A) (Q : A → Prop) :
  keeps J m Q → keeps (both I J) (on_snd m) Q.
Proof.
  intros H [s t] [Hs Ht]. unfold on_snd. cbn [fst snd] in *. specialize (H t Ht).
  destruct (m t) as [t1 r], H as [HI HQ]. split; [by split|exact HQ].
Qed.
End keeps_pair.

(** * Ordered maps

    The entries of a [BTreeMap] in the order of its keys. *)
Section btree.
Context `{Countable K} {A : Type} (cmp : K → K → comparison).

Definition entry_le (x y : K * A) : Prop := cmp (fst x) (fst y) ≠ Gt.
#[local] Instance entry_le_dec x y : Decision (entry_le x y).
Proof. unfold entry_le. destruct (cmp (fst x) (fst y)); [left|left|right]; congruence. Defined.

Definition btree_iter (m : gmap K A) : list (K * A) := merge_sort entry_le (map_to_list m).

Lemma btree_iter_permutation m : btree_iter m ≡ₚ map_to_list m.
Proof. apply merge_sort_Permutation. Qed.

Lemma elem_of_btree_iter m k x : (k, x) ∈ btree_iter m ↔ m !! k = Some x.
Proof. rewrite btree_iter_permutation. apply elem_of_map_to_list. Qed.

Lemma btree_iter_keys_NoDup m : NoDup (btree_iter m).*1.
Proof. rewrite btree_iter_permutation. apply NoDup_fst_map_to_list. Qed.

(** In the order of the keys, each of them once. *)
Lemma btree_iter_sorted m :
  (∀ x y, cmp x y = Gt → cmp y x ≠ Gt) →
  (∀ x y z, cmp x y ≠ Gt → cmp y z ≠ Gt → cmp x z ≠ Gt) →
  StronglySorted (λ x y, cmp x y ≠ Gt) (btree_iter m).*1.
Proof.
  intros Htot Htr.
  assert (Transitive entry_le) by (intros x y z; apply Htr).
  assert (Total entry_le).
  { intros x y. unfold entry_le. destruct (cmp x.1 y.1) eqn:E; [by left..|].
    right. by apply Htot. }
  pose proof (StronglySorted_merge_sort entry_le (map_to_list m)) as Hs. fold (btree_iter m) in Hs.
  induction Hs as [|x l Hl IH Hx]; cbn; constructor; [done|]. by apply Forall_fmap.
Qed.

Lemma btree_iter_empty : btree_iter ∅ = [].
Proof. unfold btree_iter. by rewrite map_to_list_empty. Qed.

Lemma btree_iter_singleton k x : btree_iter {[k := x]} = [(k, x)].
Proof. unfold btree_iter. by rewrite map_to_list_singleton. Qed.
End btree.

Lemma StronglySorted_filter {A} (R : A → A → Prop) (P : A → Prop) `{∀ x, Decision (P x)} l :
  StronglySorted R l → StronglySorted R (filter P l).
Proof.
  induction 1 as [|x l _ IH Hx]; [constructor|]. rewrite filter_cons. case_decide; [|done].
  constructor; [done|]. apply Forall_forall. intros y [_ Hy]%list_elem_of_filter.
  rewrite Forall_forall in Hx. by apply Hx.
Qed.

Lemma Z_keys_sorted {A} (m : gmap Z A) : StronglySorted Z.lt (btree_iter Z.compare m).*1.
Proof.
  pose proof (btree_iter_sorted Z.compare m) as Hs. pose proof (btree_iter_keys_NoDup Z.compare m) as Hd.
  specialize (Hs ltac:(intros x y; rewrite Z.compare_gt_iff, Z.compare_gt_iff; lia)
                ltac:(intros x y z; rewrite !Z.compare_gt_iff; lia)).
  induction Hs as [|x l Hl IH Hx]; [constructor|]. apply NoDup_cons in Hd as [Hn Hd].
  constructor; [by apply IH|]. apply Forall_forall. intros y Hy. rewrite Forall_forall in Hx.
  specialize (Hx y Hy). rewrite Z.compare_gt_iff in Hx. assert (x ≠ y) by by intros ->. lia.
Qed.

