(* ===== verification/Queue.v ===== *)
(** Model of the queues between threads: [QueueStatus] of [src/lib.rs], the packet queue
    ends of [src/socket.rs], the message queue ends of [src/message.rs], and the loop of
    [src/thread.rs] that drains requests.

    The channel itself ([mpsc::sync_channel] of the standard library) is shared with
    the thread at its other end, which may take or put values between two accesses of
    a loop.  A loop is therefore given the answer of the channel to each of its
    accesses. *)

From S2P Require Import Prelude Error Util.

(** src/lib.rs:127-131 [QueueStatus] *)
Module QueueStatus.
Inductive QueueStatus (T : Type) :=
| Ok (values : list T)
| Block (values : list T)
| Disconnected (values : list T).
Arguments Ok {T} values.
Arguments Block {T} values.
Arguments Disconnected {T} values.
End QueueStatus.
Abbreviation QueueStatus := QueueStatus.QueueStatus.

(** The values, and the status without them. *)
(** src/lib.rs:134-143 [QueueStatus::take_values] *)
Definition take_values {T} (self : QueueStatus T) : list T * QueueStatus T :=
  match self with
  | QueueStatus.Ok val => (val, QueueStatus.Ok [])
  | QueueStatus.Block val => (val, QueueStatus.Block [])
  | QueueStatus.Disconnected val => (val, QueueStatus.Disconnected [])
  end.
Definition values {T} (self : QueueStatus T) : list T := fst (take_values self).

(** The answers of [try_send] and of [try_recv]. *)
Inductive send_answer := Sent | Full | ReceiverGone.
Inductive recv_answer (T : Type) := Received (value : T) | Empty | SendersGone.
Arguments Received {T} value.
Arguments Empty {T}.
Arguments SendersGone {T}.

Section loops.
Context {T : Type}.

(** The values the channel took, and the status with those it did not. *)
(** src/socket.rs:36-55 [PktTx::try_sends] *)
Fixpoint try_sends (chan : nat → send_answer) (values : list T) : list T * QueueStatus T :=
  match values with
  | [] => ([], QueueStatus.Ok [])
  | value :: rest =>
      match chan 0 with
      | Sent =>
          let '(sent, status) := try_sends (λ i, chan (S i)) rest in
          (value :: sent, status)
      | Full => ([], QueueStatus.Block values)
      | ReceiverGone => ([], QueueStatus.Disconnected values)
      end
  end.

(** One value more than the batch size is taken before the loop ends by itself. *)
(** src/socket.rs:67-81 [PktRx::try_recvs] *)
Fixpoint try_recvs_loop (chan : nat → recv_answer T) (batch_size : nat) (fuel : nat)
    (i : nat) (values : list T) : Result (QueueStatus T) :=
  match fuel with
  | O => Diverge
  | S fuel =>
      match chan i with
      | Received value =>
          if (length values <? batch_size)%nat
          then try_recvs_loop chan batch_size fuel (S i) (values ++ [value])
          else Ok (QueueStatus.Ok (values ++ [value]))
      | Empty => Ok (QueueStatus.Block values)
      | SendersGone => Ok (QueueStatus.Disconnected values)
      end
  end.

Definition try_recvs (chan : nat → recv_answer T) (batch_size : nat) : Result (QueueStatus T) :=
  try_recvs_loop chan batch_size (S batch_size) 0 [].
End loops.

(** * The ends of the queues

    [count] is what the sender has put into the queue; a sender that has sent wakes the
    receiving thread when it is dropped. *)

(** src/socket.rs:14-19 [PktTx] *)
Module PktTx.
Record PktTx := mk { miot_id : u32; count : nat }.
End PktTx.
Abbreviation PktTx := PktTx.PktTx.

(** src/socket.rs:35-56 [PktTx::try_sends] *)
Definition PktTx_try_sends {P} (self : PktTx) (chan : nat → send_answer) (pkts : list P)
    : PktTx * (list P * QueueStatus P) :=
  let '(sent, status) := try_sends chan pkts in
  (PktTx.mk (PktTx.miot_id self) (PktTx.count self + length sent), (sent, status)).

(** Whether dropping the sender wakes the receiver. *)
(** src/socket.rs:22-31 [PktTx::drop] *)
Definition PktTx_drop_wakes (self : PktTx) : bool := (0 <? PktTx.count self)%nat.

(** src/socket.rs:60-63 [PktRx] *)
Module PktRx.
Record PktRx := mk { pkt_batch_size : nat }.
End PktRx.
Abbreviation PktRx := PktRx.PktRx.

(** src/socket.rs:66-82 [PktRx::try_recvs] *)
Definition PktRx_try_recvs {P} (self : PktRx) (chan : nat → recv_answer P) : Result (QueueStatus P) :=
  try_recvs chan (PktRx.pkt_batch_size self).

(** src/socket.rs:319-325 [pkt_channel] *)
Definition pkt_channel (miot_id : u32) (size : nat) : PktTx * PktRx :=
  (PktTx.mk miot_id 0, PktRx.mk size).

(** src/message.rs:10-15 [MsgTx] *)
Module MsgTx.
Record MsgTx := mk { shard_id : u32; count : nat }.
End MsgTx.
Abbreviation MsgTx := MsgTx.MsgTx.

(** src/message.rs:31-52 [MsgTx::try_sends] *)
Definition MsgTx_try_sends {P} (self : MsgTx) (chan : nat → send_answer) (msgs : list P)
    : MsgTx * (list P * QueueStatus P) :=
  let '(sent, status) := try_sends chan msgs in
  (MsgTx.mk (MsgTx.shard_id self) (MsgTx.count self + length sent), (sent, status)).

(** src/message.rs:18-27 [MsgTx::drop] *)
Definition MsgTx_drop_wakes (self : MsgTx) : bool := (0 <? MsgTx.count self)%nat.

(** src/message.rs:56-60 [MsgRx] *)
Module MsgRx.
Record MsgRx := mk { shard_id : u32; msg_batch_size : nat }.
End MsgRx.
Abbreviation MsgRx := MsgRx.MsgRx.

(** src/message.rs:63-79 [MsgRx::try_recvs] *)
Definition MsgRx_try_recvs {P} (self : MsgRx) (chan : nat → recv_answer P) : Result (QueueStatus P) :=
  try_recvs chan (MsgRx.msg_batch_size self).

(** src/message.rs:264-270 [msg_channel] *)
Definition msg_channel (shard_id : u32) (size : nat) : MsgTx * MsgRx :=
  (MsgTx.mk shard_id 0, MsgRx.mk shard_id size).

(** src/thread.rs:270-286 [pending_requests] *)
Definition pending_requests {Q} (chan : nat → recv_answer Q) (max : nat) : Result (QueueStatus Q) :=
  try_recvs chan max.

(** What a blocking receive gives: a request, or nothing once the senders are gone.  When
    nothing more arrives and there still are senders, the caller waits: [Diverge]. *)
(** src/thread.rs:292-304 [get_requests] *)
Fixpoint get_requests_loop {Q} (arrivals : list (option Q)) (max : nat) (reqs : list Q)
    : Result (QueueStatus Q) :=
  match arrivals with
  | [] => Diverge
  | Some req :: arrivals =>
      if (length reqs <? max)%nat then get_requests_loop arrivals max (reqs ++ [req])
      else Ok (QueueStatus.Ok (reqs ++ [req]))
  | None :: _ => Ok (QueueStatus.Disconnected reqs)
  end.

(** src/thread.rs:290-305 [get_requests] *)
Definition get_requests {Q} (arrivals : list (option Q)) (max : nat) : Result (QueueStatus Q) :=
  get_requests_loop arrivals max [].

(** * What the loops do *)

Section facts.
Context {T : Type}.
Implicit Types (xs : list T).

(** The number of values sent before the channel first says no. *)
Fixpoint accepts (chan : nat → send_answer) (n : nat) : nat :=
  match n with
  | O => O
  | S n => match chan 0 with Sent => S (accepts (λ i, chan (S i)) n) | _ => O end
  end.

Lemma accepts_le chan n : (accepts chan n ≤ n)%nat.
Proof.
  revert chan. induction n as [|n IH]; intros chan; cbn; [lia|].
  destruct (chan 0); [|lia..]. specialize (IH (λ i, chan (S i))). lia.
Qed.

(** The values sent are the first ones, in order; the status has the others. *)
Lemma try_sends_all xs : ∀ chan, (∀ i, (i < length xs)%nat → chan i = Sent) → try_sends chan xs = (xs, QueueStatus.Ok []).
Proof.
  induction xs as [|x xs IH]; intros chan Hc; [done|]. cbn [try_sends]. rewrite (Hc 0%nat) by (cbn; lia).
  rewrite IH; [done|]. intros i Hi. apply Hc. cbn. lia.
Qed.

Lemma try_sends_spec chan xs :
  let k := accepts chan (length xs) in
  ∃ status, try_sends chan xs = (take k xs, status) ∧ values status = drop k xs ∧
    (k = length xs ↔ status = QueueStatus.Ok []) ∧
    ((k < length xs)%nat → ∀ vs, status ≠ QueueStatus.Ok vs).
Proof.
  revert chan. induction xs as [|x xs IH]; intros chan; cbn.
  { exists (QueueStatus.Ok []). repeat split; try done. lia. }
  destruct (chan 0).
  - destruct (IH (λ i, chan (S i))) as (status & -> & Hv & Hk & Hl). exists status.
    split; [done|]. split; [done|]. split; [rewrite <- Hk; lia|]. intros ?. apply Hl. lia.
  - exists (QueueStatus.Block (x :: xs)). repeat split; done.
  - exists (QueueStatus.Disconnected (x :: xs)). repeat split; done.
Qed.

(** The status an end of the loop has. *)
Definition recv_status (answer : option (recv_answer T)) (xs : list T) : QueueStatus T :=
  match answer with
  | Some SendersGone => QueueStatus.Disconnected xs
  | Some _ => QueueStatus.Block xs
  | None => QueueStatus.Ok xs
  end.

Lemma try_recvs_loop_spec (chan : nat → recv_answer T) batch fuel : ∀ i acc,
  (length acc + fuel = batch)%nat →
  ∃ got, (∀ j x, got !! j = Some x → chan (i + j)%nat = Received x) ∧
    ((length (acc ++ got) ≤ batch)%nat ∧ (∀ x, chan (i + length got)%nat ≠ Received x) ∧
       try_recvs_loop chan batch (S fuel) i acc
       = Ok (recv_status (Some (chan (i + length got)%nat)) (acc ++ got)) ∨
     length (acc ++ got) = S batch ∧
       try_recvs_loop chan batch (S fuel) i acc = Ok (recv_status None (acc ++ got))).
Proof.
  induction fuel as [|fuel IH]; intros i acc Hf; cbn [try_recvs_loop];
    destruct (chan i) as [x| |] eqn:E.
  2,3,5,6: exists []; rewrite app_nil_r, Nat.add_0_r, E; split; [done|]; left;
    split; [lia|]; split; [done|]; by rewrite ?E.
  - rewrite (proj2 (Nat.ltb_ge _ _)) by lia. exists [x]. split.
    + intros [|j] y; [|done]. intros [= <-]. by rewrite Nat.add_0_r.
    + right. rewrite length_app. cbn. split; [lia|done].
  - rewrite (proj2 (Nat.ltb_lt _ _)) by lia.
    destruct (IH (S i) (acc ++ [x])) as (got & Hg & H); [rewrite length_app; cbn; lia|].
    exists (x :: got). rewrite (cons_middle x acc got), app_assoc. split.
    + intros [|j] y; cbn; [intros [= <-]; by rewrite Nat.add_0_r|].
      intros Hj. rewrite Nat.add_succ_r. by apply (Hg j).
    + cbn [length]. rewrite Nat.add_succ_r. exact H.
Qed.

(** Receiving ends: with what the channel gave until it had no more, or with one value
    more than the batch size. *)
Lemma try_recvs_spec (chan : nat → recv_answer T) batch :
  ∃ got, (∀ j x, got !! j = Some x → chan j = Received x) ∧
    ((length got ≤ batch)%nat ∧ (∀ x, chan (length got) ≠ Received x) ∧
       try_recvs chan batch = Ok (recv_status (Some (chan (length got))) got) ∨
     length got = S batch ∧ try_recvs chan batch = Ok (QueueStatus.Ok got)).
Proof. exact (try_recvs_loop_spec chan batch batch 0 [] eq_refl). Qed.
End facts.

(** However the other threads fill it meanwhile, draining a queue ends: within one value
    more than the batch size, with all that the channel gave, in order, and with the
    reason it stopped - the channel was empty, or gone, or the batch is full. *)
Theorem draining_ends {P} (self : PktRx) (chan : nat → recv_answer P) :
  ∃ got status, PktRx_try_recvs self chan = Ok status ∧ values status = got ∧
    (∀ j x, got !! j = Some x → chan j = Received x) ∧
    (length got ≤ S (PktRx.pkt_batch_size self))%nat ∧
    match status with
    | QueueStatus.Ok _ => length got = S (PktRx.pkt_batch_size self)
    | QueueStatus.Block _ => chan (length got) = Empty
    | QueueStatus.Disconnected _ => chan (length got) = SendersGone
    end.
Proof.
  destruct (try_recvs_spec chan (PktRx.pkt_batch_size self)) as (got & Hg & [(Hl & Hn & E)|[Hl E]]);
    eexists got, _; (split; [exact E|]).
  - specialize (Hn). destruct (chan (length got)) as [x| |] eqn:Ec; [by destruct (Hn x)|..];
      cbn [recv_status]; auto with lia.
  - cbn [recv_status]. auto with lia.
Qed.

Lemma draining_ends_witness :
  ∃ status, PktRx_try_recvs (PktRx.mk 1) (λ i, Received i) = Ok status ∧ values status = [0; 1]%nat.
Proof.
  destruct (draining_ends (PktRx.mk 1) (λ i, Received i)) as (got & status & E & Hv & _).
  exists status. split; [exact E|]. vm_compute in E. injection E as <-. reflexivity.
Defined.

(** A thread that takes its requests this way serves none of them before there are more
    than [max], or its senders are gone. *)
Theorem requests_wait_for_a_full_batch {Q} (reqs : list Q) max :
  (get_requests (Some <$> reqs) max = Diverge ↔ (length reqs ≤ max)%nat) ∧
  ((length reqs ≤ max)%nat → get_requests ((Some <$> reqs) ++ [None]) max = Ok (QueueStatus.Disconnected reqs)).
Proof.
  assert (∀ got, (length got ≤ max)%nat →
    (get_requests_loop (Some <$> reqs) max got = Diverge ↔ (length got + length reqs ≤ max)%nat) ∧
    ((length got + length reqs ≤ max)%nat →
     get_requests_loop ((Some <$> reqs) ++ [None]) max got = Ok (QueueStatus.Disconnected (got ++ reqs)))) as H;
    [|by apply (H []); cbn; lia].
  induction reqs as [|req reqs IH]; intros got Hg; cbn -[Nat.ltb].
  - rewrite app_nil_r. split; [|done]. split; [intros _; lia|done].
  - destruct (Nat.ltb_spec (length got) max) as [Hl|Hl].
    + destruct (IH (got ++ [req])) as [IH1 IH2]; [rewrite length_app; cbn; lia|].
      rewrite length_app in IH1, IH2. cbn [length] in IH1, IH2. rewrite <- app_assoc in IH2.
      split; [rewrite IH1; lia|]. intros H. apply IH2. lia.
    + split; [|lia]. split; [done|lia].
Qed.
