(* ===== verification/Thread.v ===== *)
(** Model of [src/thread.rs]: channels of the standard library, the handles by which one
    thread talks to another, and the threads that serve them.

    A thread has one channel for requests; each request that waits has a channel of its
    own for the response, known by its number.  [Diverge] is a call that waits for what
    another thread has to do first.  The waker of [mio] is given by the answer to
    [wake()]; a thread that polls sees that it was woken. *)

From S2P Require Import Prelude Error Util State Queue.

(** * Channels

    The channels of [std::sync::mpsc]: what is sent and not yet received, how much fits,
    how many senders there are, and whether there still is a receiver. *)
Module Chan.
Record Chan (A : Type) := mk {
  queue : list A;
  bound : option nat;
  senders : nat;
  receiver : bool;
}.
Arguments mk {A} queue bound senders receiver.
Arguments queue {A} c.
Arguments bound {A} c.
Arguments senders {A} c.
Arguments receiver {A} c.
End Chan.
Abbreviation Chan := Chan.Chan.

Section chan.
Context {A : Type}.
Implicit Types (c : Chan A).

Definition channel : Chan A := Chan.mk [] None 1 true.
Definition sync_channel (size : nat) : Chan A := Chan.mk [] (Some size) 1 true.

Definition chan_set_queue (q : list A) c : Chan A :=
  Chan.mk q (Chan.bound c) (Chan.senders c) (Chan.receiver c).
Definition chan_set_senders (n : nat) c : Chan A :=
  Chan.mk (Chan.queue c) (Chan.bound c) n (Chan.receiver c).

(** What is not received when the receiver goes is lost. *)
Definition chan_drop_receiver c : Chan A := Chan.mk [] (Chan.bound c) (Chan.senders c) false.
Definition chan_drop_sender c : Chan A := chan_set_senders (Chan.senders c - 1) c.

Definition chan_full c : bool :=
  match Chan.bound c with Some size => (size <=? length (Chan.queue c))%nat | None => false end.

(** [send], which fails with what it could not send, and waits for a place. *)
Definition chan_send (a : A) : Chan A → Chan A * outcome A unit := λ c,
  if negb (Chan.receiver c) then (c, Err a)
  else if chan_full c then (c, Diverge)
  else (chan_set_queue (Chan.queue c ++ [a]) c, Ok ()).

Definition chan_try_recv c : Chan A * recv_answer A :=
  match Chan.queue c with
  | a :: q => (chan_set_queue q c, Received a)
  | [] => (c, if (Chan.senders c =? 0)%nat then SendersGone else Empty)
  end.

(** [recv], which fails when there is no sender left. *)
Definition chan_recv : Chan A → Chan A * outcome unit A := λ c,
  match chan_try_recv c with
  | (c, Received a) => (c, Ok a)
  | (c, SendersGone) => (c, Err ())
  | (c, Empty) => (c, Diverge)
  end.

(** What repeated accesses of the receiver give when nothing is sent meanwhile. *)
Definition chan_answers c (i : nat) : recv_answer A :=
  match Chan.queue c !! i with
  | Some a => Received a
  | None => if (Chan.senders c =? 0)%nat then SendersGone else Empty
  end.
End chan.

(** * Handles *)

(** The sending end of a thread's channel: bounded or not, with a waker or without. *)
(** src/thread.rs:34-37 [Tx] *)
Module Tx.
Inductive Tx := N (waker : bool) | S (waker : bool).
End Tx.
Abbreviation Tx := Tx.Tx.

(** What the handles of a thread share with it: its requests, each with the number of the
    channel its response is to go to; those channels; and whether it was woken. *)
(** src/thread.rs:130-130 [Rx] *)
Module Ipc.
Record Ipc (Q R : Type) := mk {
  requests : Chan (Q * option nat);
  responses : list (Chan R);
  woken : bool;
}.
Arguments mk {Q R} requests responses woken.
Arguments requests {Q R} i.
Arguments responses {Q R} i.
Arguments woken {Q R} i.
End Ipc.
Abbreviation Ipc := Ipc.Ipc.

Section handles.
Context {Q R : Type} (wake_result : outcome unit unit).
Implicit Types (ipc : Ipc Q R).

Definition ipc_set_requests (c : Chan (Q * option nat)) ipc : Ipc Q R :=
  Ipc.mk c (Ipc.responses ipc) (Ipc.woken ipc).
Definition ipc_set_responses (cs : list (Chan R)) ipc : Ipc Q R :=
  Ipc.mk (Ipc.requests ipc) cs (Ipc.woken ipc).
Definition ipc_set_woken (woken : bool) ipc : Ipc Q R :=
  Ipc.mk (Ipc.requests ipc) (Ipc.responses ipc) woken.

(** [err!(IPCFail, try: tx.send(..))]. *)
Definition ipc_send (req : Q * option nat) : M (Ipc Q R) unit := λ ipc,
  let '(c, r) := chan_send req (Ipc.requests ipc) in
  (ipc_set_requests c ipc, err_try ErrorKind.IPCFail r).

(** [err!(IOError, try: waker.wake())], if there is one. *)
Definition ipc_wake (waker : bool) : M (Ipc Q R) unit :=
  if waker then
    _ ← lift (err_try ErrorKind.IOError wake_result);
    modify (ipc_set_woken true)
  else mret ().

(** src/thread.rs:50-71 [Tx::post] *)
Definition Tx_post (self : Tx) (msg : Q) : M (Ipc Q R) unit :=
  match self with
  | Tx.N waker => _ ← ipc_send (msg, None); ipc_wake waker
  | Tx.S waker => _ ← ipc_send (msg, None); ipc_wake waker
  end.

(** A new channel for a response. *)
Definition ipc_new_response : M (Ipc Q R) nat := λ ipc,
  (ipc_set_responses (Ipc.responses ipc ++ [channel]) ipc, Ok (length (Ipc.responses ipc))).

(** The request up to where its sender waits. *)
(** src/thread.rs:74-95 [Tx::request] *)
Definition Tx_submit (self : Tx) (request : Q) : M (Ipc Q R) nat :=
  stx ← ipc_new_response;
  _ ← match self with
      | Tx.N waker => _ ← ipc_send (request, Some stx); ipc_wake waker
      | Tx.S waker => _ ← ipc_send (request, Some stx); ipc_wake waker
      end;
  mret stx.

(** [err!(IPCFail, try: srx.recv())]. *)
(** src/thread.rs:97-97 [Tx::request] *)
Definition Tx_await (srx : nat) : M (Ipc Q R) R := λ ipc,
  match Ipc.responses ipc !! srx with
  | Some c =>
      let '(c, r) := chan_recv c in
      (ipc_set_responses (<[srx := c]> (Ipc.responses ipc)) ipc, err_try ErrorKind.IPCFail r)
  | None => (ipc, Panic)
  end.

(** [meanwhile] is what the other threads do until the sender looks for the response. *)
(** src/thread.rs:74-98 [Tx::request] *)
Definition Tx_request (meanwhile : Ipc Q R → Ipc Q R) (self : Tx) (request : Q) : M (Ipc Q R) R :=
  srx ← Tx_submit self request;
  _ ← modify meanwhile;
  Tx_await srx.

(** src/thread.rs:102-123 [Tx::request_with] *)
Definition Tx_request_with (self : Tx) (request : Q) (resp_tx : nat) : M (Ipc Q R) unit :=
  match self with
  | Tx.N waker => _ ← ipc_send (request, Some resp_tx); ipc_wake waker
  | Tx.S waker => _ ← ipc_send (request, Some resp_tx); ipc_wake waker
  end.

(** A clone is one sender more, with the same waker. *)
(** src/thread.rs:40-45 [Tx::clone] *)
Definition Tx_clone (self : Tx) : M (Ipc Q R) Tx :=
  _ ← modify (λ ipc, ipc_set_requests
        (chan_set_senders (Chan.senders (Ipc.requests ipc) + 1) (Ipc.requests ipc)) ipc);
  mret match self with Tx.N waker => Tx.N waker | Tx.S waker => Tx.S waker end.
End handles.

(** A call to the operating system, made with [?] or with [err!(IOError, try: ..)]. *)
Definition io_call (ok : bool) : Result unit := if ok then Ok () else err_desc ErrorKind.IOError.

(** * Threads *)

(** Whether there is a join handle, and the sender. *)
(** src/thread.rs:144-153 [Thread] *)
Module Thread.
Record Thread := mk { name : bytes; handle : bool; tx : option Tx }.
End Thread.
Abbreviation Thread := Thread.Thread.

(** Dropping a thread that was not waited for panics. *)
(** src/thread.rs:161-167 [Thread::drop] *)
Definition Thread_drop (self : Thread) : Result unit :=
  if Thread.handle self || bool_decide (is_Some (Thread.tx self)) then Panic else Ok ().

Section thread.
Context {Q R : Type} (wake_result : outcome unit unit).

(** src/thread.rs:179-186 [Thread::spawn] *)
Definition Thread_spawn (name : bytes) : Thread * Ipc Q R :=
  (Thread.mk name true (Some (Tx.N false)), Ipc.mk channel [] false).

(** src/thread.rs:189-197 [Thread::spawn_sync] *)
Definition Thread_spawn_sync (name : bytes) (chan_size : nat) : Thread * Ipc Q R :=
  (Thread.mk name true (Some (Tx.S false)), Ipc.mk (sync_channel chan_size) [] false).

(** src/thread.rs:201-207 [Thread::set_waker] *)
Definition Thread_set_waker (self : Thread) : Result Thread :=
  match Thread.tx self with
  | Some (Tx.N false) => Ok (Thread.mk (Thread.name self) (Thread.handle self) (Some (Tx.N true)))
  | Some (Tx.S false) => Ok (Thread.mk (Thread.name self) (Thread.handle self) (Some (Tx.S true)))
  | _ => Panic
  end.

(** src/thread.rs:210-212 [Thread::to_tx] *)
Definition Thread_to_tx (self : Thread) : M (Ipc Q R) Tx :=
  tx ← lift (match Thread.tx self with Some tx => Ok tx | None => Panic end);
  Tx_clone tx.

(** src/thread.rs:215-217 [Thread::to_name] *)
Definition Thread_to_name (self : Thread) : bytes := Thread.name self.

(** How the thread ends, when it does: with the value of its main loop, or by a panic,
    which goes on here.  With it what is left of the handle, which is dropped. *)
(** src/thread.rs:224-234 [Thread::close_wait] *)
Definition Thread_close_wait {T} (joined : option (outcome unit T)) (self : Thread)
    : M (Ipc Q R) (Thread * T) :=
  _ ← match Thread.tx self with
      | Some _ => modify (λ ipc, ipc_set_requests (chan_drop_sender (Ipc.requests ipc)) ipc)
      | None => mret ()
      end;
  thread_val ← lift (if Thread.handle self then
                       match joined with
                       | Some (Ok thread_val) => Ok thread_val
                       | Some _ => Panic
                       | None => Diverge
                       end
                     else Panic);
  mret (Thread.mk (Thread.name self) false None, thread_val).

Definition thread_tx (self : Thread) : Result Tx :=
  match Thread.tx self with Some tx => Ok tx | None => Panic end.

(** src/thread.rs:244-249 [Thread::post] *)
Definition Thread_post (self : Thread) (msg : Q) : M (Ipc Q R) unit :=
  tx ← lift (thread_tx self); Tx_post wake_result tx msg.

(** src/thread.rs:252-257 [Thread::request] *)
Definition Thread_request (meanwhile : Ipc Q R → Ipc Q R) (self : Thread) (request : Q)
    : M (Ipc Q R) R :=
  tx ← lift (thread_tx self); Tx_request wake_result meanwhile tx request.

(** src/thread.rs:261-266 [Thread::request_with] *)
Definition Thread_request_with (self : Thread) (request : Q) (resp_tx : nat) : M (Ipc Q R) unit :=
  tx ← lift (thread_tx self); Tx_request_with wake_result tx request resp_tx.
End thread.
