(* ===== verification/Server.v ===== *)
(** Model of how a thread of the broker serves its requests, common to the main loops of
    [src/cluster.rs], [src/shard.rs], [src/miot.rs], [src/listener.rs], [src/flush.rs],
    [src/ticker.rs] and [src/handshake.rs]: what a type promises to be run as a thread, and
    the steps of such a thread with any number of others that talk to it, in every
    interleaving. *)

From S2P Require Import Prelude Error Util State Queue Thread.

(** * What a type promises *)

(** Requests are taken in batches of this size, and one. *)
(** src/lib.rs:67-67 [CONTROL_CHAN_SIZE] *)
Definition CONTROL_CHAN_SIZE : nat := 1024.

(** What the main loop of a thread is made of: how many requests its channel holds, if it is
    bounded; whether it takes requests at all; how it takes them off the queue
    ([get_requests], which waits, or [pending_requests], which does not), how many at
    most before the last one; whether a request to close ends the batch it is in; how a
    request is handled, with whether its sender waits; what is done after each drain of
    the queue; and what after the last.

    Handling gives a response if the sender waits for one, and whether to close, as does
    what comes after a drain.  All three are relations: they depend on what the system and
    the other threads answer meanwhile. *)
(** src/thread.rs:21-29 [Threadable] *)
Class Threadable (T Q R : Type) := {
  chan_bound : option nat;
  takes_requests : bool;
  get_waits : bool;
  batch_max : nat;
  close_breaks : bool;
  handles : Q → bool → T → T → Result (option R * bool) → Prop;
  works : T → T → Result bool → Prop;
  finishes : T → T → Result unit → Prop;
  handles_replies q w t t' r c : handles q w t t' (Ok (r, c)) → (is_Some r ↔ w = true);
}.

(** Handling, working and finishing end, by returning or by a panic. *)
Definition handles_ends {T Q R} `{!Threadable T Q R} : Prop :=
  (∀ q w t, ∃ t' r, handles q w t t' r ∧ r ≠ Diverge) ∧ (∀ t, ∃ t' r, works t t' r ∧ r ≠ Diverge) ∧
  ∀ t, ∃ t' r, finishes t t' r ∧ r ≠ Diverge.

(** * Draining the queue

    The loops that the threads share: a batch is taken with [pending_requests], its
    requests are handled in order, and so on until the queue is empty. *)
Section drain.
Context {T Q R : Type} (handle : Q → bool → M T (option R * bool)).

(** The responses, and whether a request asked to close. *)
(** src/listener.rs:250-259 [Listener::drain_control_chan] *)
Fixpoint handle_requests (reqs : list (Q * bool)) (closed : bool) : M T (list (option R) * bool) :=
  match reqs with
  | [] => mret ([], closed)
  | (q, waits) :: reqs =>
      '(resp, c) ← handle q waits;
      '(resps, closed) ← handle_requests reqs (closed || c);
      mret (resp :: resps, closed)
  end.

(** src/listener.rs:242-262 [Listener::drain_control_chan] *)
Definition drain_control_chan (rx : nat → recv_answer (Q * bool))
    : M T (list (option R) * (QueueStatus (Q * bool) * bool)) :=
  status ← (lift (pending_requests rx CONTROL_CHAN_SIZE) : M T (QueueStatus (Q * bool)));
  let '(reqs, status) := take_values status in
  '(resps, closed) ← handle_requests reqs false;
  mret (resps, (status, closed)).

(** [true] when the thread is to exit; the answers of the queue to each drain. *)
(** src/miot.rs:267-275 [Miot::mio_events] *)
Fixpoint drain_until_empty (drains : list (nat → recv_answer (Q * bool))) : M T bool :=
  match drains with
  | [] => lift Diverge
  | rx :: drains =>
      '(_, (status, closed)) ← drain_control_chan rx;
      if (closed : bool) then mret true else
      match status with
      | QueueStatus.Ok _ => drain_until_empty drains
      | QueueStatus.Block _ => mret false
      | QueueStatus.Disconnected _ => mret true
      end
  end.
End drain.

(** * The steps *)

Section server.
Context {T Q R : Type} `{!Threadable T Q R}.
Local Abbreviation req := (Q * option nat)%type.

(** Where the thread is: waiting to be woken, taking requests, handling those it took
    with whether the queue was full or its senders gone, or at its end. *)
Inductive phase_of_thread :=
| Polling
| Collecting (reqs : list req)
| Serving (reqs : list req) (status : QueueStatus unit) (closed : bool)
| Exited (joined : outcome unit T).

(** [waking] counts the senders that have sent and are about to wake the thread; [posted]
    are the requests sent so far, in order, [served] those handled, with the responses. *)
Record Sys := mkSys {
  ipc : Ipc Q R;
  self : T;
  phase : phase_of_thread;
  waking : nat;
  posted : list req;
  served : list (req * option R);
}.

Definition sys_queue (s : Sys) : list req := Chan.queue (Ipc.requests (ipc s)).
Definition sys_senders (s : Sys) : nat := Chan.senders (Ipc.requests (ipc s)).

(** A sender that waits for its response. *)
Definition pending (s : Sys) (id : nat) : Prop := ∃ c, Ipc.responses (ipc s) !! id = Some c ∧
  Chan.queue c = [] ∧ Chan.senders c = 1.

(** The response is sent, whether or not it is still waited for, and the sender dropped. *)
Definition respond (to : option nat) (resp : option R) (rs : list (Chan R)) : list (Chan R) :=
  match to, resp with
  | Some id, Some r => alter (λ c, chan_drop_sender (fst (chan_send r c))) id rs
  | _, _ => rs
  end.

(** The senders that come with requests nobody handles any more are dropped. *)
Definition hang_up (reqs : list req) (rs : list (Chan R)) : list (Chan R) :=
  foldr (λ r rs, match snd r with Some id => alter chan_drop_sender id rs | None => rs end) rs reqs.

(** The thread ends, with what it had taken and what is still in its queue. *)
Definition exit_with (joined : outcome unit T) (t : T) (taken : list req) (s : Sys) : Sys :=
  mkSys (Ipc.mk (chan_drop_receiver (Ipc.requests (ipc s)))
           (hang_up (taken ++ sys_queue s) (Ipc.responses (ipc s))) (Ipc.woken (ipc s)))
    t (Exited joined) (waking s) (posted s) (served s).

(** It leaves its loop, and is [t] then, or panics. *)
Definition finished (t : T) (r : Result unit) (taken : list req) (s : Sys) : Sys :=
  exit_with (match r with Ok _ => Ok t | _ => Panic end) t taken s.

Definition at_phase (p : phase_of_thread) (s : Sys) : Sys :=
  mkSys (ipc s) (self s) p (waking s) (posted s) (served s).
Definition at_ipc (i : Ipc Q R) (p : phase_of_thread) (s : Sys) : Sys :=
  mkSys i (self s) p (waking s) (posted s) (served s).

(** One access of the queue, in the loop of [pending_requests] or of [get_requests]. *)
(** src/thread.rs:292-304 [get_requests] *)
Definition take_request (reqs : list req) (s : Sys) : option Sys :=
  let '(c, answer) := chan_try_recv (Ipc.requests (ipc s)) in
  let ipc := ipc_set_requests c (ipc s) in
  match answer with
  | Received r =>
      if (length reqs <? batch_max)%nat then Some (at_ipc ipc (Collecting (reqs ++ [r])) s)
      else Some (at_ipc ipc (Serving (reqs ++ [r]) (QueueStatus.Ok []) false) s)
  | Empty => if get_waits then None else Some (at_ipc ipc (Serving reqs (QueueStatus.Block []) false) s)
  | SendersGone => Some (at_ipc ipc (Serving reqs (QueueStatus.Disconnected []) false) s)
  end.

(** A request was handled, and its response sent. *)
Definition responded (s : Sys) (r : req) (reqs : list req) (status : QueueStatus unit) (closed : bool)
    (t : T) (resp : option R) (c : bool) : Sys :=
  mkSys (ipc_set_responses (respond (snd r) resp (Ipc.responses (ipc s))) (ipc s)) t
    (Serving reqs status (closed || c)) (waking s) (posted s) (served s ++ [(r, resp)]).

(** A step of the thread.  A panic, like an error that is not expected, ends it. *)
Inductive server_step : Sys → Sys → Prop :=
| step_poll s :
    phase s = Polling → Ipc.woken (ipc s) = true →
    server_step s (at_ipc (ipc_set_woken false (ipc s)) (Collecting []) s)
| step_take s s' reqs :
    phase s = Collecting reqs → take_request reqs s = Some s' → server_step s s'
| step_serve s r reqs status closed t resp c :
    phase s = Serving (r :: reqs) status closed →
    handles (fst r) (bool_decide (is_Some (snd r))) (self s) t (Ok (resp, c)) →
    close_breaks && c = false →
    server_step s (responded s r reqs status closed t resp c)
| step_serve_close s r reqs status closed t resp c t' e :
    phase s = Serving (r :: reqs) status closed →
    handles (fst r) (bool_decide (is_Some (snd r))) (self s) t (Ok (resp, c)) →
    close_breaks && c = true → finishes t t' e → e ≠ Diverge →
    server_step s (finished t' e reqs (responded s r reqs status closed t resp c))
| step_serve_panic s r reqs status closed t e :
    phase s = Serving (r :: reqs) status closed →
    handles (fst r) (bool_decide (is_Some (snd r))) (self s) t e → (∀ a, e ≠ Ok a) → e ≠ Diverge →
    server_step s (exit_with Panic t (r :: reqs) s)
| step_close s status closed t e :
    phase s = Serving [] status closed → (closed = true ∨ ∃ v, status = QueueStatus.Disconnected v) →
    finishes (self s) t e → e ≠ Diverge →
    server_step s (finished t e [] s)
| step_again s v :
    phase s = Serving [] (QueueStatus.Ok v) false →
    server_step s (at_phase (Collecting []) s)
| step_work s t v :
    phase s = Serving [] (QueueStatus.Block v) false → works (self s) t (Ok false) →
    server_step s (mkSys (ipc s) t Polling (waking s) (posted s) (served s))
| step_work_close s t v t' e :
    phase s = Serving [] (QueueStatus.Block v) false → works (self s) t (Ok true) →
    finishes t t' e → e ≠ Diverge →
    server_step s (finished t' e [] s)
| step_work_panic s t e v :
    phase s = Serving [] (QueueStatus.Block v) false → works (self s) t e → (∀ a, e ≠ Ok a) → e ≠ Diverge →
    server_step s (exit_with Panic t [] s).

(** Someone who has sent wakes the thread. *)
Definition wake_up (s : Sys) : Sys :=
  mkSys (ipc_set_woken true (ipc s)) (self s) (phase s) (waking s - 1) (posted s) (served s).

(** A step of those that hold a handle.  A handle in use, by a sender that waits, is not
    dropped. *)
Inductive client_step : Sys → Sys → Prop :=
| step_post s q i :
    0 < sys_senders s → ipc_send (q, None) (ipc s) = (i, Ok ()) →
    client_step s (mkSys i (self s) (phase s) (S (waking s)) (posted s ++ [(q, None)]) (served s))
| step_submit s q i i' id :
    0 < sys_senders s → ipc_new_response (ipc s) = (i, Ok id) → ipc_send (q, Some id) i = (i', Ok ()) →
    client_step s (mkSys i' (self s) (phase s) (S (waking s)) (posted s ++ [(q, Some id)]) (served s))
| step_wake s : 0 < waking s → client_step s (wake_up s)
| step_await s id i r :
    Tx_await id (ipc s) = (i, r) → r ≠ Diverge →
    client_step s (mkSys i (self s) (phase s) (waking s) (posted s) (served s))
| step_clone s tx i tx' :
    0 < sys_senders s → Tx_clone tx (ipc s) = (i, Ok tx') →
    client_step s (mkSys i (self s) (phase s) (waking s) (posted s) (served s))
| step_drop s n :
    sys_senders s = S n → (n = 0 → ∀ id, ¬ pending s id) →
    client_step s (mkSys (ipc_set_requests (chan_drop_sender (Ipc.requests (ipc s))) (ipc s))
                     (self s) (phase s) (waking s) (posted s) (served s)).

(** An event that the thread polls for, of a socket, or the end of its sleep: it goes to what
    it does after a drain, or drains its queue first. *)
Inductive outside_step : Sys → Sys → Prop :=
| step_event s v : phase s = Polling → outside_step s (at_phase (Serving [] (QueueStatus.Block v) false) s)
| step_event_drain s : phase s = Polling → outside_step s (at_phase (Collecting []) s).

Definition sys_step (s s' : Sys) : Prop := server_step s s' ∨ client_step s s' ∨ outside_step s s'.

(** What happens when no more requests are made. *)
Definition own_step (s s' : Sys) : Prop := server_step s s' ∨ (0 < waking s ∧ s' = wake_up s).

(** A thread just spawned, with its handle; it polls or sleeps, or waits on its queue, or
    never looks at it. *)
Definition sys_new (t : T) : Sys :=
  mkSys (snd (match chan_bound with Some size => Thread_spawn_sync [] size | None => Thread_spawn [] end)) t
    (if takes_requests then if get_waits then Collecting [] else Polling
     else Serving [] (QueueStatus.Block []) false)
    0 [] [].

Definition sys_reachable (t : T) (s : Sys) : Prop := rtc sys_step (sys_new t) s.
End server.

Arguments phase_of_thread T Q : clear implicits.
Arguments Sys T Q R : clear implicits.
