(* ===== verification/ServerTheorems.v ===== *)
(** The properties of the threads of [Server], for every type that is run as one: requests
    are handled in the order they were sent, none is lost and each response goes to the
    sender that waits for it; a thread that polls is woken for every request; and a
    thread that takes requests with the loop that waits answers nobody before it has a
    full batch. *)

From S2P Require Import Prelude Error Util State Queue Thread Server.

Section server.
Context {T Q R : Type} `{!Threadable T Q R}.
Implicit Types (s : Sys T Q R) (t : T).
Local Abbreviation req := (Q * option nat)%type.

(** * The invariant *)

Definition alive s : Prop := match phase s with Exited _ => False | _ => True end.

(** What was taken off the queue and is still to be handled. *)
Definition taken s : list req :=
  match phase s with Collecting reqs | Serving reqs _ _ => reqs | _ => [] end.
Definition served_reqs s : list req := (served s).*1.
Definition unserved s : list req := taken s ++ sys_queue s.

(** Who waits for a response. *)
Definition waiters (reqs : list req) : list nat := omap snd reqs.

Definition answered (rs : list (Chan R)) (id : nat) : Prop :=
  ∃ c, rs !! id = Some c ∧ Chan.senders c = 0.

(** What there is for a sender is the response its request was given. *)
Definition replies_served (rs : list (Chan R)) (served : list (req * option R)) : Prop :=
  ∀ id c r, rs !! id = Some c → r ∈ Chan.queue c → ∃ q, ((q, Some id), Some r) ∈ served.

(** The thread found its queue empty, and is going to wait or does. *)
Definition resting s : Prop :=
  match phase s with Polling | Serving _ (QueueStatus.Block _) _ => True | _ => False end.

Record sys_inv s : Prop := {
  inv_bound : Chan.bound (Ipc.requests (ipc s)) = chan_bound;
  inv_ids : waiters (posted s) = seq 0 (length (Ipc.responses (ipc s)));
  inv_order : alive s → posted s = served_reqs s ++ unserved s;
  inv_receiver : Chan.receiver (Ipc.requests (ipc s)) = true ↔ alive s;
  inv_waiting id : alive s → id ∈ waiters (unserved s) → Ipc.responses (ipc s) !! id = Some channel;
  inv_answered id : id ∈ waiters (served_reqs s) → answered (Ipc.responses (ipc s)) id;
  inv_replied : replies_served (Ipc.responses (ipc s)) (served s);
  inv_exited id : ¬ alive s → id < length (Ipc.responses (ipc s)) → answered (Ipc.responses (ipc s)) id;
  inv_senders id : alive s → id ∈ waiters (unserved s) → 0 < sys_senders s;
  inv_woken : resting s → sys_queue s ≠ [] → 0 < waking s ∨ Ipc.woken (ipc s) = true;
}.

(** ** Responses *)

Lemma answered_not_pending s id : answered (Ipc.responses (ipc s)) id → ¬ pending s id.
Proof. intros (c & E & H0) (c' & E' & _ & H1). rewrite E in E'. injection E' as <-. congruence. Qed.

Lemma waiters_app (xs ys : list req) : waiters (xs ++ ys) = waiters xs ++ waiters ys.
Proof. apply omap_app. Qed.

Lemma answered_lt rs id : answered rs id → id < length rs.
Proof. intros (c & E & _). by apply lookup_lt_Some in E. Qed.

Lemma chan_send_senders (r : R) c : Chan.senders (fst (chan_send r c)) = Chan.senders c.
Proof. unfold chan_send. cbv beta. destruct (negb _); [reflexivity|]. destruct (chan_full c); reflexivity. Qed.

Lemma length_respond to resp rs : length (respond (R := R) to resp rs) = length rs.
Proof. destruct to, resp; [apply length_alter|done..]. Qed.

Lemma respond_other to resp rs id : to ≠ Some id → respond (R := R) to resp rs !! id = rs !! id.
Proof. destruct to as [j|], resp; intros H; [|done..]. apply list_lookup_alter_ne. congruence. Qed.

Lemma respond_answers id resp rs :
  is_Some resp → rs !! id = Some channel → answered (respond (Some id) resp rs) id.
Proof. intros [r ->] E. eexists. split; [cbn; by rewrite list_lookup_alter_eq, E|done]. Qed.

Lemma respond_keeps to resp rs id : answered rs id → answered (respond to resp rs) id.
Proof.
  intros (c & E & H0). destruct (decide (to = Some id)) as [->|Hne].
  - destruct resp as [r|]; [|by exists c]. eexists. split; [cbn; by rewrite list_lookup_alter_eq, E|].
    cbn. rewrite chan_send_senders. lia.
  - exists c. by rewrite respond_other.
Qed.

Lemma length_hang_up (reqs : list req) rs : length (hang_up (R := R) reqs rs) = length rs.
Proof. induction reqs as [|[q [id|]] reqs IH]; cbn; [done| |done]. by rewrite length_alter. Qed.

Lemma drop_sender_keeps id j (rs : list (Chan R)) :
  answered rs id → answered (alter chan_drop_sender j rs) id.
Proof.
  intros (c & E & H0). destruct (decide (id = j)) as [->|Hne].
  - eexists. split; [by rewrite list_lookup_alter_eq, E|]. cbn. lia.
  - exists c. by rewrite list_lookup_alter_ne.
Qed.

Lemma hang_up_keeps (reqs : list req) rs id : answered rs id → answered (hang_up reqs rs) id.
Proof.
  intros H. induction reqs as [|[q [j|]] reqs IH]; cbn; [done| |done]. by apply drop_sender_keeps.
Qed.

Lemma hang_up_answers (reqs : list req) rs id :
  id ∈ waiters reqs → rs !! id = Some channel → answered (hang_up reqs rs) id.
Proof.
  intros Hin E. induction reqs as [|[q [j|]] reqs IH]; [by apply not_elem_of_nil in Hin| |by apply IH].
  cbn [hang_up foldr snd]. fold (hang_up reqs rs).
  destruct (decide (id ∈ waiters reqs)) as [H|H]; [by apply drop_sender_keeps, IH|].
  cbn in Hin. apply elem_of_cons in Hin as [->|Hin]; [|done]. clear IH.
  assert (∃ c, hang_up reqs rs !! j = Some c ∧ Chan.senders c ≤ 1) as (c & Ec & Hc).
  { clear -E. induction reqs as [|[q [i|]] reqs IH]; [by exists channel| |done].
    destruct IH as (c & Ec & Hc). cbn [hang_up foldr snd]. fold (hang_up reqs rs).
    destruct (decide (j = i)) as [<-|Hne].
    - eexists. split; [by rewrite list_lookup_alter_eq, Ec|]. cbn. lia.
    - exists c. by rewrite list_lookup_alter_ne. }
  eexists. split; [by rewrite list_lookup_alter_eq, Ec|]. cbn. lia.
Qed.

Lemma replies_frame (rs rs' : list (Chan R)) l :
  (∀ id c', rs' !! id = Some c' → Chan.queue c' = [] ∨ ∃ c, rs !! id = Some c ∧ Chan.queue c' ⊆ Chan.queue c) →
  replies_served rs l → replies_served rs' l.
Proof.
  intros Hf Hl id c' r E Hr. destruct (Hf id c' E) as [H|(c & Ec & Hsub)].
  - rewrite H in Hr. by apply not_elem_of_nil in Hr.
  - apply (Hl id c r Ec). by apply Hsub.
Qed.

Lemma alter_queue (f : Chan R → Chan R) j (rs : list (Chan R)) id c' :
  (∀ c, Chan.queue (f c) = Chan.queue c) → alter f j rs !! id = Some c' →
  ∃ c, rs !! id = Some c ∧ Chan.queue c' = Chan.queue c.
Proof.
  intros Hf E. destruct (decide (id = j)) as [->|Hne].
  - rewrite list_lookup_alter_eq in E. destruct (rs !! j) as [c|]; [|done]. injection E as <-. by exists c.
  - rewrite list_lookup_alter_ne in E by done. by exists c'.
Qed.

Lemma hang_up_replies (reqs : list req) (rs : list (Chan R)) l :
  replies_served rs l → replies_served (hang_up reqs rs) l.
Proof.
  intros Hl. induction reqs as [|[q [j|]] reqs IH]; [done| |done].
  eapply replies_frame; [|exact IH]. intros id c' E. right.
  apply alter_queue in E as (c & E & Hq); [|done]. exists c. by rewrite Hq.
Qed.

(** ** The steps of the thread *)

Lemma sys_new_inv t : sys_inv (sys_new t).
Proof.
  unfold sys_new. destruct chan_bound eqn:Eb, takes_requests, get_waits; (constructor; try done; unfold unserved, taken, sys_queue; cbn; try lia;
    try (by intros ? _ ?%not_elem_of_nil); by intros ? ?%not_elem_of_nil).
Qed.

Lemma every_waiter s id :
  sys_inv s → alive s → id < length (Ipc.responses (ipc s)) →
  id ∈ waiters (served_reqs s) ∨ id ∈ waiters (unserved s).
Proof.
  intros HI Ha Hlt. rewrite <- elem_of_app, <- waiters_app, <- (inv_order s HI Ha), (inv_ids s HI), elem_of_seq.
  lia.
Qed.

Lemma hang_up_all s :
  sys_inv s → alive s → ∀ id, id < length (Ipc.responses (ipc s)) →
  answered (hang_up (unserved s) (Ipc.responses (ipc s))) id.
Proof.
  intros HI Ha id Hlt. destruct (every_waiter s id HI Ha Hlt) as [H|H].
  - by apply hang_up_keeps, (inv_answered s HI).
  - apply hang_up_answers; [done|]. by apply (inv_waiting s HI).
Qed.

Lemma exit_inv s joined t : sys_inv s → alive s → sys_inv (exit_with joined t (taken s) s).
Proof.
  intros HI Ha. pose proof (hang_up_all s HI Ha) as Hall.
  constructor; cbn -[hang_up]; rewrite ?length_hang_up; fold (unserved s).
  - apply (inv_bound s HI).
  - apply (inv_ids s HI).
  - done.
  - done.
  - done.
  - intros id Hin. apply hang_up_keeps. by apply (inv_answered s HI).
  - apply hang_up_replies, (inv_replied s HI).
  - intros id _ Hlt. by apply Hall.
  - done.
  - done.
Qed.

Lemma finished_inv t r s : sys_inv s → alive s → sys_inv (finished t r (taken s) s).
Proof. apply exit_inv. Qed.

(** A step that moves requests from the queue to those taken, or changes only where the
    thread is. *)
Lemma move_inv s q p :
  sys_inv s → alive s →
  let s' := at_ipc (ipc_set_requests (chan_set_queue q (Ipc.requests (ipc s))) (ipc s)) p s in
  alive s' → unserved s' = unserved s → (resting s' → q = []) → sys_inv s'.
Proof.
  intros HI Ha s' Ha' Hu Hr. constructor.
  - apply (inv_bound s HI).
  - apply (inv_ids s HI).
  - intros _. rewrite Hu. by apply (inv_order s HI).
  - split; [done|]. intros _. by apply (inv_receiver s HI).
  - intros id _. rewrite Hu. by apply (inv_waiting s HI).
  - apply (inv_answered s HI).
  - apply (inv_replied s HI).
  - intros id []. done.
  - intros id _. rewrite Hu. by apply (inv_senders s HI).
  - intros Hs Hq. destruct Hq. by apply Hr.
Qed.

Lemma take_inv s s' reqs :
  sys_inv s → phase s = Collecting reqs → take_request reqs s = Some s' → sys_inv s'.
Proof.
  intros HI Hp. assert (alive s) as Ha by (unfold alive; by rewrite Hp).
  unfold take_request, chan_try_recv.
  assert (∀ i p, i = chan_set_queue (Chan.queue i) (Ipc.requests (ipc s)) →
            alive (at_ipc (ipc_set_requests i (ipc s)) p s) →
            unserved (at_ipc (ipc_set_requests i (ipc s)) p s) = unserved s →
            (resting (at_ipc (ipc_set_requests i (ipc s)) p s) → Chan.queue i = []) →
            sys_inv (at_ipc (ipc_set_requests i (ipc s)) p s)) as Hmove.
  { intros i p ->. by apply move_inv. }
  assert (∀ q, Chan.queue (Ipc.requests (ipc s)) = q → unserved s = reqs ++ q) as Hu.
  { intros q <-. unfold unserved, taken. by rewrite Hp. }
  assert (Ipc.requests (ipc s) = chan_set_queue (Chan.queue (Ipc.requests (ipc s))) (Ipc.requests (ipc s))) as Ec.
  { by destruct (Ipc.requests (ipc s)). }
  destruct (Chan.queue (Ipc.requests (ipc s))) as [|r q] eqn:Eq.
  - rewrite (Hu [] eq_refl) in Hmove.
    destruct (_ =? 0)%nat; [|destruct get_waits; [done|]]; intros [= <-];
      apply Hmove; rewrite ?Eq; try done; unfold unserved, taken, sys_queue; cbn; by rewrite Eq.
  - rewrite (Hu _ eq_refl) in Hmove.
    destruct (_ <? _)%nat; intros [= <-]; apply Hmove; try done;
      unfold unserved, taken, sys_queue; cbn; by rewrite <- app_assoc.
Qed.

Lemma serve_inv s r reqs status closed t resp c :
  sys_inv s → phase s = Serving (r :: reqs) status closed →
  (is_Some resp ↔ is_Some (snd r)) →
  sys_inv (responded s r reqs status closed t resp c).
Proof.
  intros HI Hp Hr. assert (alive s) as Ha by (unfold alive; by rewrite Hp).
  assert (unserved s = r :: reqs ++ sys_queue s) as Hu by (unfold unserved, taken; by rewrite Hp).
  pose proof (inv_order s HI Ha) as Ho. pose proof (inv_waiting s HI) as Hw. rewrite Hu in Ho, Hw.
  assert (NoDup (waiters (posted s))) as Hd by (rewrite (inv_ids s HI); apply NoDup_seq).
  rewrite Ho, waiters_app in Hd. apply NoDup_app in Hd as (_ & Hsep & Hd).
  assert (∀ id, id ∈ waiters (reqs ++ sys_queue s) → snd r ≠ Some id) as Hne.
  { intros id Hin E. unfold waiters in Hd. cbn [omap list_omap] in Hd. rewrite E in Hd.
    by apply NoDup_cons in Hd as [Hd _]. }
  constructor; cbn -[respond]; rewrite ?length_respond.
  - apply (inv_bound s HI).
  - apply (inv_ids s HI).
  - intros _. rewrite Ho. unfold served_reqs. cbn [served]. by rewrite fmap_app, <- app_assoc.
  - split; [done|]. intros _. by apply (inv_receiver s HI).
  - intros id _ Hin. rewrite respond_other by by apply Hne. apply Hw; [done|].
    unfold waiters. cbn [omap list_omap]. destruct (snd r); [by right|done].
  - intros id. unfold served_reqs. cbn [served]. rewrite fmap_app, waiters_app. intros [H|H]%elem_of_app; [by apply respond_keeps, (inv_answered s HI)|].
    cbn in H. destruct (snd r) as [j|] eqn:Er; [|by apply not_elem_of_nil in H].
    apply list_elem_of_singleton in H as ->. apply respond_answers; [by apply Hr|].
    apply Hw; [done|]. unfold waiters. cbn [omap list_omap]. rewrite Er. by left.
  - intros id ch r' E Hr'. destruct (decide (snd r = Some id)) as [Er|Er].
    + assert (Ipc.responses (ipc s) !! id = Some channel) as Ech.
      { apply Hw; [done|]. unfold waiters. cbn [omap list_omap]. rewrite Er. by left. }
      destruct r as [q to]. cbn [snd] in *. subst to. destruct (proj2 Hr) as [r0 ->]; [done|].
      cbn in E. rewrite list_lookup_alter_eq, Ech in E. injection E as <-. cbn in Hr'.
      apply list_elem_of_singleton in Hr' as ->. exists q. apply elem_of_app. right. by left.
    + rewrite respond_other in E by done. destruct (inv_replied s HI id ch r' E Hr') as [q Hq].
      exists q. apply elem_of_app. by left.
  - intros id []. done.
  - intros id _ Hin. apply (inv_senders s HI id Ha). rewrite Hu. unfold waiters.
    cbn [omap list_omap]. destruct (snd r); [by right|done].
  - intros Hrest Hq. apply (inv_woken s HI); [|done]. unfold resting. by rewrite Hp.
Qed.

(** The thread goes on in another place, with its queue as it is. *)
Lemma phase_inv s p w :
  sys_inv s → alive s → alive (at_phase p s) → unserved (at_phase p s) = unserved s →
  (resting (at_phase p s) → sys_queue s ≠ [] → 0 < waking s ∨ w = true) →
  sys_inv (at_ipc (ipc_set_woken w (ipc s)) p s).
Proof.
  intros HI Ha Ha' Hu Hr. constructor; cbn.
  - apply (inv_bound s HI).
  - apply (inv_ids s HI).
  - intros _. etrans; [apply (inv_order s HI Ha)|]. by rewrite <- Hu.
  - split; [done|]. intros _. by apply (inv_receiver s HI).
  - intros id _ Hin. apply (inv_waiting s HI); [done|]. by rewrite <- Hu.
  - apply (inv_answered s HI).
  - apply (inv_replied s HI).
  - intros id []. done.
  - intros id _ Hin. apply (inv_senders s HI id Ha). by rewrite <- Hu.
  - done.
Qed.

Lemma work_inv s t : sys_inv s → sys_inv (mkSys (ipc s) t (phase s) (waking s) (posted s) (served s)).
Proof. by intros []; constructor. Qed.

Lemma served_inv s r reqs status closed t resp c :
  sys_inv s → phase s = Serving (r :: reqs) status closed →
  handles (fst r) (bool_decide (is_Some (snd r))) (self s) t (Ok (resp, c)) →
  sys_inv (responded s r reqs status closed t resp c).
Proof.
  intros HI Hp Hh. apply serve_inv; [done..|]. rewrite (handles_replies _ _ _ _ _ _ Hh).
  by rewrite bool_decide_eq_true.
Qed.

Lemma server_step_inv s s' : sys_inv s → server_step s s' → sys_inv s'.
Proof.
  intros HI Hs. destruct Hs as
    [s Hp Hw|s s' reqs Hp Hk|s r reqs st cl t resp c Hp Hh Hc|s r reqs st cl t resp c t' e Hp Hh Hc Hfin Hd
    |s r reqs st cl t e Hp Hh He Hd|s st cl t e Hp Hor Hfin Hd|s v Hp|s t v Hp Hk|s t v t' e Hp Hk Hfin Hd
    |s t e v Hp Hk He Hd].
  - apply phase_inv; [done| |done| |done]; unfold alive, unserved, taken; by rewrite Hp.
  - by eapply take_inv.
  - by eapply served_inv.
  - by apply (finished_inv t' e (responded s r reqs st cl t resp c)); [eapply served_inv|].
  - replace (r :: reqs) with (taken s) by (unfold taken; by rewrite Hp).
    apply exit_inv; [done|]. unfold alive. by rewrite Hp.
  - change [] with (@nil req). replace (@nil req) with (taken s) by (unfold taken; by rewrite Hp).
    apply finished_inv; [done|]. unfold alive. by rewrite Hp.
  - destruct s as [i t p w po se]. cbn in Hp. subst p. destruct i as [c rs b].
    apply (phase_inv (mkSys (Ipc.mk c rs b) t (Serving [] (QueueStatus.Ok v) false) w po se) (Collecting []) b);
      done.
  - apply (work_inv (mkSys (ipc s) (self s) Polling (waking s) (posted s) (served s)) t).
    destruct s as [i t0 p w po se]. cbn in Hp. subst p. destruct i as [c rs b].
    apply (phase_inv (mkSys (Ipc.mk c rs b) t0 (Serving [] (QueueStatus.Block v) false) w po se) Polling b);
      [done..|]. by apply (inv_woken _ HI).
  - replace (@nil req) with (taken s) by (unfold taken; by rewrite Hp).
    apply finished_inv; [done|]. unfold alive. by rewrite Hp.
  - replace (@nil req) with (taken s) by (unfold taken; by rewrite Hp).
    apply exit_inv; [done|]. unfold alive. by rewrite Hp.
Qed.

(** ** The steps of the others *)

Lemma send_ok (i i' : Ipc Q R) r :
  ipc_send r i = (i', Ok ()) →
  Chan.receiver (Ipc.requests i) = true ∧
  i' = ipc_set_requests (chan_set_queue (Chan.queue (Ipc.requests i) ++ [r]) (Ipc.requests i)) i.
Proof.
  unfold ipc_send, chan_send.
  destruct (Chan.receiver (Ipc.requests i)); cbn; [|done]. destruct (chan_full _); [done|]. by intros [= <-].
Qed.

Lemma post_inv s q id rs i :
  sys_inv s → ipc_send (q, id) (ipc_set_responses (Ipc.responses (ipc s) ++ rs) (ipc s)) = (i, Ok ()) →
  (id = None ∧ rs = []) ∨ (id = Some (length (Ipc.responses (ipc s))) ∧ rs = [channel] ∧ 0 < sys_senders s) →
  sys_inv (mkSys i (self s) (phase s) (S (waking s)) (posted s ++ [(q, id)]) (served s)).
Proof.
  intros HI Hs Hid. apply send_ok in Hs as [Hr ->].
  assert (alive s) as Ha by (apply (inv_receiver s HI), Hr).
  assert (∀ j c, Ipc.responses (ipc s) !! j = Some c → (Ipc.responses (ipc s) ++ rs) !! j = Some c) as Hkeep.
  { intros j c E. by apply lookup_app_l_Some. }
  constructor; cbn.
  - apply (inv_bound s HI).
  - rewrite waiters_app, (inv_ids s HI), length_app.
    destruct Hid as [[-> ->]|(-> & -> & _)]; cbn [waiters omap list_omap snd length];
      [by rewrite app_nil_r, Nat.add_0_r|]. by rewrite seq_app.
  - intros _. rewrite (inv_order s HI Ha). unfold unserved, sys_queue. cbn. by rewrite !app_assoc.
  - split; [done|]. intros _. exact Hr.
  - intros j _. unfold unserved, sys_queue. cbn. rewrite app_assoc, waiters_app.
    intros [H|H]%elem_of_app; [by apply Hkeep, (inv_waiting s HI)|].
    destruct Hid as [[-> ->]|(-> & -> & _)]; cbn in H; [by apply not_elem_of_nil in H|].
    apply list_elem_of_singleton in H as ->. by rewrite lookup_app_r, Nat.sub_diag.
  - intros j Hj. destruct (inv_answered s HI j Hj) as (c & E & H0). exists c. auto.
  - eapply replies_frame; [|exact (inv_replied s HI)]. intros j c' E.
    apply lookup_app_Some in E as [E|[_ E]]; [right; by exists c'|left].
    destruct Hid as [[-> ->]|(-> & -> & _)]; [done|]. by apply list_elem_of_lookup_2, list_elem_of_singleton in E as ->.
  - intros j []. done.
  - intros j _. destruct Hid as [[-> ->]|(_ & _ & H0)]; [|done].
    unfold unserved, sys_queue. cbn. rewrite app_assoc, waiters_app, app_nil_r. by apply (inv_senders s HI j).
  - intros _ _. left. lia.
Qed.

Lemma await_inv s id i r :
  sys_inv s → Tx_await id (ipc s) = (i, r) → r ≠ Diverge →
  sys_inv (mkSys i (self s) (phase s) (waking s) (posted s) (served s)).
Proof.
  intros HI. unfold Tx_await. destruct (Ipc.responses (ipc s) !! id) as [c|] eqn:Ec.
  2: { intros [= <- _] _. by destruct HI; constructor. }
  destruct (chan_recv c) as [c' o] eqn:Er. intros [= <- <-] Hd.
  assert (c ≠ channel) as Hc by (intros ->; injection Er as <- <-; done).
  assert (Chan.senders c' = Chan.senders c) as Hs.
  { unfold chan_recv, chan_try_recv in Er. destruct (Chan.queue c); [|by injection Er as <- _].
    destruct (_ =? 0)%nat; by injection Er as <- _. }
  assert (Chan.queue c' ⊆ Chan.queue c) as Hq.
  { unfold chan_recv, chan_try_recv in Er. destruct (Chan.queue c) as [|a q] eqn:Eq.
    - destruct (_ =? 0)%nat; injection Er as <- _; by rewrite Eq.
    - injection Er as <- _. cbn. intros x Hx. by right. }
  assert (∀ j, answered (Ipc.responses (ipc s)) j → answered (<[id:=c']> (Ipc.responses (ipc s))) j) as Ha.
  { intros j (cj & Ej & H0). destruct (decide (id = j)) as [<-|Hne].
    - exists c'. rewrite list_lookup_insert_eq by by apply lookup_lt_Some in Ec. split; [done|congruence].
    - exists cj. by rewrite list_lookup_insert_ne. }
  constructor; cbn; rewrite ?length_insert.
  1-4: apply HI.
  - intros j Hal Hin. pose proof (inv_waiting s HI j Hal Hin) as Ej.
    rewrite list_lookup_insert_ne; [done|]. intros ->. congruence.
  - intros j Hin. by apply Ha, (inv_answered s HI).
  - eapply replies_frame; [|exact (inv_replied s HI)]. intros j cj Ej. right.
    destruct (decide (id = j)) as [<-|Hne].
    + rewrite list_lookup_insert_eq in Ej by by apply lookup_lt_Some in Ec. injection Ej as <-. by exists c.
    + rewrite list_lookup_insert_ne in Ej by done. by exists cj.
  - intros j Hal Hlt. by apply Ha, (inv_exited s HI).
  - apply (inv_senders s HI).
  - apply (inv_woken s HI).
Qed.

Lemma senders_inv s n :
  sys_inv s → (n = 0 → alive s → waiters (unserved s) = []) →
  sys_inv (mkSys (ipc_set_requests (chan_set_senders n (Ipc.requests (ipc s))) (ipc s))
             (self s) (phase s) (waking s) (posted s) (served s)).
Proof.
  intros HI Hn. constructor; try apply HI. cbn. intros id Ha Hin.
  destruct n; [|lia]. change (id ∈ waiters (unserved s)) in Hin. rewrite Hn in Hin by done.
  by apply not_elem_of_nil in Hin.
Qed.

Lemma client_step_inv s s' : sys_inv s → client_step s s' → sys_inv s'.
Proof.
  intros HI Hs. destruct Hs as
    [s q i H0 Hs|s q i i' id H0 Hi Hs|s H0|s id i r Ha Hd|s tx i tx' H0 Hs|s n Hn Hno].
  - apply (post_inv s q None []); [done| |by left]. rewrite app_nil_r.
    by replace (ipc_set_responses _ _) with (ipc s) by by destruct (ipc s).
  - injection Hi as <- <-. apply (post_inv s q _ [channel]); [done|done|by right].
  - constructor; try apply HI. intros _ _. by right.
  - by eapply await_inv.
  - injection Hs as <- _. apply senders_inv; [done|lia].
  - apply senders_inv; [done|]. intros E Ha. unfold sys_senders in Hn. rewrite Hn in E.
    destruct (waiters (unserved s)) as [|id ids] eqn:Ew; [done|]. exfalso.
    apply (Hno ltac:(lia) id). exists channel. split; [|done]. apply (inv_waiting s HI); [done|].
    rewrite Ew. by left.
Qed.

Lemma outside_step_inv s s' : sys_inv s → outside_step s s' → sys_inv s'.
Proof.
  intros HI Hs. destruct Hs as [s v Hp|s Hp];
    (destruct s as [i t p w po se]; cbn in Hp; subst p; destruct i as [c rs b]).
  - apply (phase_inv (mkSys (Ipc.mk c rs b) t Polling w po se) (Serving [] (QueueStatus.Block v) false) b);
      [done..|]. by apply (inv_woken _ HI).
  - by apply (phase_inv (mkSys (Ipc.mk c rs b) t Polling w po se) (Collecting []) b).
Qed.

Lemma sys_reachable_inv t s : sys_reachable t s → sys_inv s.
Proof.
  intros H. pose proof (sys_new_inv t) as HI. induction H as [|s s1 s2 Hs _ IH]; [done|].
  apply IH. destruct Hs as [Hs|[Hs|Hs]];
    [by eapply server_step_inv|by eapply client_step_inv|by eapply outside_step_inv].
Qed.

(** ** What the thread keeps *)

(** [I] holds of the thread while it runs, and of how many requests it has handled, and [E]
    of how it ends, if every handler keeps [I] or fails with [E]. *)
Section kept.
Context (I : nat → T → Prop) (E : nat → outcome unit T → T → Prop).
Hypothesis handles_keep : ∀ n q w t t' r, I n t → handles q w t t' r → r ≠ Diverge →
  match r with Ok _ => I (S n) t' | _ => E n Panic t' end.
Hypothesis works_keep : ∀ n t t' r, I n t → works t t' r → r ≠ Diverge →
  match r with Ok _ => I n t' | _ => E n Panic t' end.
Hypothesis finish_keeps : ∀ n t t' r, I n t → finishes t t' r → r ≠ Diverge →
  E n (match r with Ok _ => Ok t' | _ => Panic end) t'.

Definition kept s : Prop :=
  match phase s with
  | Exited r => E (length (served s)) r (self s)
  | _ => I (length (served s)) (self s)
  end.

Lemma finished_kept s t t' r l :
  I (length (served s)) t → finishes t t' r → r ≠ Diverge → kept (finished t' r l s).
Proof. intros HI Hf Hd. unfold kept. cbn. by eapply finish_keeps. Qed.

Lemma responded_kept s r reqs st cl t resp c :
  I (length (served s)) (self s) →
  handles (fst r) (bool_decide (is_Some (snd r))) (self s) t (Ok (resp, c)) →
  I (length (served (responded s r reqs st cl t resp c))) t.
Proof using handles_keep.
  intros HI Hh. cbn [served responded]. rewrite length_app. cbn [length]. rewrite Nat.add_1_r.
  by apply (handles_keep _ _ _ _ _ _ HI Hh).
Qed.

Lemma server_step_kept s s' : kept s → server_step s s' → kept s'.
Proof using handles_keep works_keep finish_keeps.
  intros HI Hs. unfold kept in HI. destruct Hs as
    [s Hp Hw|s s' reqs Hp Hk|s r reqs st cl t resp c Hp Hh Hc|s r reqs st cl t resp c t' e Hp Hh Hc Hfin Hd
    |s r reqs st cl t e Hp Hh He Hd|s st cl t e Hp Hor Hfin Hd|s v Hp|s t v Hp Hk|s t v t' e Hp Hk Hfin Hd
    |s t e v Hp Hk He Hd]; rewrite Hp in HI; try done.
  - unfold take_request in Hk. destruct (chan_try_recv _) as [c [r| |]];
      [destruct (_ <? _)%nat|destruct get_waits; [done|]|]; injection Hk as <-; done.
  - by apply responded_kept.
  - eapply finished_kept; [by apply responded_kept|done..].
  - pose proof (handles_keep _ _ _ _ _ _ HI Hh Hd) as HI'. unfold kept. cbn. destruct e; [by destruct (He a)|done..].
  - by eapply finished_kept.
  - by apply (works_keep _ _ _ _ HI Hk).
  - eapply finished_kept; [|done..]. by apply (works_keep _ _ _ _ HI Hk).
  - pose proof (works_keep _ _ _ _ HI Hk Hd) as HI'. unfold kept. cbn. destruct e; [by destruct (He a)|done..].
Qed.

Lemma sys_reachable_kept t s : I 0 t → sys_reachable t s → kept s.
Proof using handles_keep works_keep finish_keeps.
  intros HI Hr. unfold sys_reachable in Hr.
  apply rtc_ind_r with (P := λ s, kept s) in Hr; [done|unfold kept, sys_new; by destruct takes_requests, get_waits|].
  intros s1 s2 _ [Hs|[Hs|Hs]] IH; [by eapply server_step_kept|by destruct Hs|].
  destruct Hs as [s1 v Hp|s1 Hp]; unfold kept in *; by rewrite Hp in IH.
Qed.
End kept.

(** * Order, and to whom the responses go *)

(** C18: in every state that the interleavings of a thread with its senders reach, the requests
    were handled in the order they were sent, those still to be handled follow, and
    exactly their senders wait; a sender that is given a response is given the one to its
    own request; and when the thread has ended nobody waits.  This is so of any type with
    the interface [Threadable], and all seven that implement the trait are instances: the
    cluster, the shards (once they have their miot thread, which is the first request they
    take), the miot, the flusher, the listener, the ticker and the handshake. *)
Theorem requests_are_served_in_order t s :
  sys_reachable t s →
  (alive s → posted s = served_reqs s ++ unserved s ∧ ∀ id, pending s id ↔ id ∈ waiters (unserved s)) ∧
  (¬ alive s → ∀ id, ¬ pending s id) ∧
  (∀ id i r, Tx_await id (ipc s) = (i, Ok r) → ∃ q, ((q, Some id), Some r) ∈ served s).
Proof.
  intros HI%sys_reachable_inv. split_and!.
  - intros Ha. split; [by apply (inv_order s HI)|]. intros id. split.
    + intros Hp. assert (id < length (Ipc.responses (ipc s))) as Hlt.
      { destruct Hp as (c & E & _). by apply lookup_lt_Some in E. }
      destruct (every_waiter s id HI Ha Hlt) as [H|H]; [|done]. exfalso.
      by apply (answered_not_pending s id (inv_answered s HI id H)).
    + intros Hin. exists channel. split; [|done]. by apply (inv_waiting s HI).
  - intros Ha id Hp. destruct Hp as (c & E & Hp). pose proof (lookup_lt_Some _ _ _ E) as Hlt.
    apply (answered_not_pending s id (inv_exited s HI id Ha Hlt)). by exists c.
  - intros id i r. unfold Tx_await. destruct (Ipc.responses (ipc s) !! id) as [c|] eqn:Ec; [|done].
    unfold chan_recv, chan_try_recv. destruct (Chan.queue c) as [|a q] eqn:Eq; cbn; [by destruct (_ =? 0)%nat|].
    intros [= _ ->]. apply (inv_replied s HI id c r Ec). rewrite Eq. by left.
Qed.

(** * Coming to rest *)

(** What is left to do without further requests. *)
Definition phase_weight (p : phase_of_thread T Q) : nat :=
  match p with
  | Polling | Exited _ => 0
  | Collecting reqs => 2 + length reqs
  | Serving reqs (QueueStatus.Ok _) _ => 3 + length reqs
  | Serving reqs _ _ => 1 + length reqs
  end.
Definition to_do s : nat :=
  5 * length (sys_queue s) + 4 * waking s + (if Ipc.woken (ipc s) then 3 else 0) + phase_weight (phase s).

Lemma exit_to_do s joined t l : 0 < phase_weight (phase s) → to_do (exit_with joined t l s) < to_do s.
Proof. unfold to_do, sys_queue. cbn. destruct (Ipc.woken _); lia. Qed.

Lemma finished_to_do s t r l : 0 < phase_weight (phase s) → to_do (finished t r l s) < to_do s.
Proof. apply exit_to_do. Qed.

Lemma take_to_do s s' reqs : phase s = Collecting reqs → take_request reqs s = Some s' → to_do s' < to_do s.
Proof.
  intros Hp. unfold to_do, take_request, chan_try_recv, sys_queue. rewrite Hp.
  destruct (Chan.queue (Ipc.requests (ipc s))) as [|r q] eqn:Eq.
  - destruct (_ =? 0)%nat; [|destruct get_waits; [done|]]; intros [= <-]; cbn; rewrite Eq; cbn;
      destruct (Ipc.woken _); lia.
  - destruct (_ <? _)%nat; intros [= <-]; cbn; rewrite length_app; cbn; destruct (Ipc.woken _); lia.
Qed.

Lemma responded_to_do s r reqs st cl t resp c :
  phase s = Serving (r :: reqs) st cl → to_do (responded s r reqs st cl t resp c) < to_do s.
Proof. intros Hp. unfold to_do, sys_queue. cbn. rewrite Hp. cbn. destruct st; lia. Qed.

Lemma own_step_to_do s s' : own_step s s' → to_do s' < to_do s.
Proof.
  intros [Hs|[Hw ->]].
  - destruct Hs as
      [s Hp Hw|s s' reqs Hp Hk|s r reqs st cl t resp c Hp Hh Hc|s r reqs st cl t resp c t' e Hp Hh Hc Hfin Hd
      |s r reqs st cl t e Hp Hh He Hd|s st cl t e Hp Hor Hfin Hd|s v Hp|s t v Hp Hk|s t v t' e Hp Hk Hfin Hd
      |s t e v Hp Hk He Hd].
    + unfold to_do, sys_queue. cbn. rewrite Hp, Hw. cbn. lia.
    + by eapply take_to_do.
    + by apply responded_to_do.
    + etrans; [|by eapply (responded_to_do s)]. apply finished_to_do. cbn. destruct st; lia.
    + apply exit_to_do. rewrite Hp. cbn. destruct st; lia.
    + apply finished_to_do. rewrite Hp. cbn. destruct st; lia.
    + unfold to_do, sys_queue. cbn. rewrite Hp. cbn. lia.
    + unfold to_do, sys_queue. cbn. rewrite Hp. cbn. lia.
    + apply finished_to_do. rewrite Hp. cbn. lia.
    + apply exit_to_do. rewrite Hp. cbn. lia.
  - unfold to_do, sys_queue. cbn. destruct (Ipc.woken _); lia.
Qed.

Lemma own_step_acc s : Acc (λ a b, own_step b a) s.
Proof.
  induction (Wf_nat.well_founded_ltof _ to_do s) as [s _ IH]. constructor. intros s' Hs.
  by apply IH, own_step_to_do.
Qed.

Lemma own_reachable t s s' : sys_reachable t s → rtc own_step s s' → sys_reachable t s'.
Proof.
  intros Hr H. induction H as [|s s1 s2 Hs _ IH]; [done|]. apply IH. eapply rtc_r; [exact Hr|].
  destruct Hs as [Hs|[Hw ->]]; [by left|right; left]. by constructor.
Qed.

(** A thread that cannot go on waits to be woken, and has nothing to do. *)
Lemma at_rest t s :
  get_waits = false → handles_ends → sys_reachable t s → (∀ s', ¬ own_step s s') → alive s →
  phase s = Polling ∧ sys_queue s = [].
Proof.
  intros Hg (Hh & Hk & Hf) Hr Hstuck Ha. pose proof (sys_reachable_inv _ _ Hr) as HI.
  assert (∀ s', ¬ server_step s s') as Hno by (intros s' H; apply (Hstuck s'); by left).
  assert (∀ A (e : Result A), e ≠ Diverge → (∃ a, e = Ok a) ∨ ∀ a, e ≠ Ok a) as Hcase.
  { intros A [a|x| |] He; [left; by exists a|by right..|done]. }
  destruct (phase s) as [|reqs|[|r reqs] st cl|j] eqn:Hp.
  - split; [done|]. destruct (sys_queue s) as [|r q] eqn:Eq; [done|exfalso].
    destruct (inv_woken s HI) as [Hw|Hw].
    + unfold resting. by rewrite Hp.
    + by rewrite Eq.
    + apply (Hstuck (wake_up s)). by right.
    + eapply Hno, step_poll; [done|done].
  - exfalso. destruct (take_request reqs s) as [s'|] eqn:E; [by eapply Hno, step_take|].
    unfold take_request in E. rewrite Hg in E.
    destruct (chan_try_recv _) as [c [r| |]]; [destruct (_ <? _)%nat|..]; done.
  - exfalso. destruct cl; [destruct (Hf (self s)) as (t' & e & He & Hd); by eapply Hno, step_close; [|left|..]|].
    destruct st as [v|v|v].
    + by eapply Hno, step_again.
    + destruct (Hk (self s)) as (t' & e & He & Hd). destruct (Hcase _ e Hd) as [[[] ->]|Hne].
      * destruct (Hf t') as (t2 & e2 & He2 & Hd2). by eapply Hno, step_work_close.
      * by eapply Hno, step_work.
      * by eapply Hno, step_work_panic.
    + destruct (Hf (self s)) as (t' & e & He & Hd). eapply Hno, step_close; [done| |done..]. right. by exists v.
  - exfalso. destruct (Hh (fst r) (bool_decide (is_Some (snd r))) (self s)) as (t' & e & He & Hd).
    destruct (Hcase _ e Hd) as [[[resp c] ->]|Hne].
    + destruct (close_breaks && c) eqn:Hc; [|by eapply Hno, step_serve].
      destruct (Hf t') as (t2 & e2 & He2 & Hd2). by eapply Hno, step_serve_close.
    + eapply Hno, step_serve_panic; [done|exact He|done|done].
  - unfold alive in Ha. by rewrite Hp in Ha.
Qed.

(** C21: a thread that polls and whose handlers end comes to rest, whatever the others did, in
    every run in which they make no more requests and no event of a socket wakes it; and when it has, every sender has its
    response or knows that there is none: no wake-up is lost and nobody waits. *)
Theorem every_request_is_answered t s :
  get_waits = false → handles_ends → sys_reachable t s →
  Acc (λ a b, own_step b a) s ∧
  ∀ s', rtc own_step s s' → (∀ s'', ¬ own_step s' s'') →
    (∀ id, ¬ pending s' id) ∧ (alive s' → posted s' = served_reqs s').
Proof.
  intros Hg He Hr. split; [apply own_step_acc|]. intros s' Hs Hstuck.
  assert (sys_reachable t s') as Hr' by by eapply own_reachable.
  destruct (requests_are_served_in_order t s' Hr') as (Hal & Hdead & _).
  assert (alive s' ∨ ¬ alive s') as [Ha|Ha] by (unfold alive; destruct (phase s'); auto).
  - destruct (Hal Ha) as [Ho Hp]. destruct (at_rest t s' Hg He Hr' Hstuck Ha) as [Hphase Hq].
    assert (unserved s' = []) as Hu by (unfold unserved, taken; by rewrite Hphase, Hq).
    rewrite Hu, app_nil_r in Ho. split; [|done]. intros id. rewrite Hp, Hu. apply not_elem_of_nil.
  - split; [by apply Hdead|done].
Qed.

(** * Waiting for a full batch *)

Definition fills_up s : Prop :=
  length (posted s) ≤ batch_max →
  (served s = [] ∧ ∃ reqs, phase s = Collecting reqs) ∨ (sys_senders s = 0 ∧ waiters (posted s) = []).

Lemma fills_up_server s s' :
  get_waits = true → sys_inv s → fills_up s → server_step s s' → fills_up s'.
Proof.
  intros Hg HI Hf Hs. unfold fills_up in *.
  assert (posted s' = posted s ∧ sys_senders s' = sys_senders s) as [Ep Es].
  { destruct Hs as [|s s' reqs Hp Hk| | | | | | | |]; try done.
    unfold take_request, chan_try_recv in Hk. destruct (Chan.queue _);
      [destruct (_ =? 0)%nat; [|destruct get_waits; [done|]]|destruct (_ <? _)%nat]; by injection Hk as <-. }
  rewrite Ep, Es. intros Hle. destruct (Hf Hle) as [[Hse [reqs Hp]]|]; [|by right].
  assert (alive s) as Ha by (unfold alive; by rewrite Hp).
  pose proof (inv_order s HI Ha) as Ho. unfold served_reqs, unserved, taken in Ho. rewrite Hse, Hp in Ho. cbn in Ho.
  destruct Hs; try congruence. rewrite Hp in H. injection H as <-.
  unfold take_request, chan_try_recv in H0. destruct (Chan.queue _) as [|r q] eqn:Eq.
  - destruct (Nat.eqb_spec (Chan.senders (Ipc.requests (ipc s))) 0) as [E0|_]; [|by rewrite Hg in H0].
    right. split; [done|]. destruct (waiters (posted s)) as [|id ids] eqn:Ew; [done|exfalso].
    assert (0 < sys_senders s); [|unfold sys_senders in *; lia]. apply (inv_senders s HI id Ha).
    unfold unserved, taken. rewrite Hp, <- Ho, Ew. by left.
  - assert (length reqs < batch_max) as Hlt.
    { rewrite Ho in Hle. unfold sys_queue in Hle. rewrite Eq, length_app in Hle. cbn in Hle. lia. }
    rewrite (proj2 (Nat.ltb_lt _ _)) in H0 by done. injection H0 as <-. left. split; [done|]. by eexists.
Qed.

Lemma fills_up_client s s' : sys_inv s → fills_up s → client_step s s' → fills_up s'.
Proof.
  intros HI Hf Hs. unfold fills_up in *.
  destruct Hs as [s q i H0 Hs|s q i i' id H0 Hi Hs|s H0|s id i r Ha Hd|s tx i tx' H0 Hs|s n Hn Hno]; cbn.
  - rewrite length_app. cbn. intros Hle. destruct (Hf ltac:(lia)) as [H|[H _]]; [by left|lia].
  - rewrite length_app. cbn. intros Hle. destruct (Hf ltac:(lia)) as [H|[H _]]; [by left|lia].
  - done.
  - intros Hle. destruct (Hf Hle) as [H|[H Hw]]; [by left|right]. split; [|done].
    unfold Tx_await in Ha. destruct (_ !! id); [|by injection Ha as <- _].
    destruct (chan_recv _). injection Ha as <- _. exact H.
  - intros Hle. destruct (Hf Hle) as [H|[H Hw]]; [by left|lia].
  - intros Hle. destruct (Hf Hle) as [H|[H Hw]]; [by left|lia].
Qed.

Lemma fills_up_reachable t s : takes_requests = true → get_waits = true → sys_reachable t s → fills_up s.
Proof.
  intros Hq Hg Hr. unfold sys_reachable in Hr. apply rtc_ind_r with (P := λ s, fills_up s) in Hr; [done| |].
  - left. split; [done|]. exists []. unfold sys_new. by rewrite Hq, Hg.
  - intros s1 s2 H1 H12 IH. apply sys_reachable_inv in H1.
    destruct H12 as [H12|[H12|H12]]; [by eapply fills_up_server|by eapply fills_up_client|].
    destruct H12 as [s0 v Hp|s0 Hp]; intros Hle; destruct (IH Hle) as [[_ [reqs E]]|H]; try (by right); congruence.
Qed.

(** Requests are not taken back. *)
Lemma posted_grows s s' : sys_step s s' → ∃ l, posted s' = posted s ++ l.
Proof.
  assert (server_step s s' → posted s' = posted s) as Hsrv.
  { intros Hs. destruct Hs as [|s s' reqs Hp Hk| | | | | | | |]; try done.
    unfold take_request in Hk. destruct (chan_try_recv _) as [c [r| |]];
      [destruct (_ <? _)%nat|destruct get_waits; [done|]|]; by injection Hk as <-. }
  intros [Hs|[Hs|Hs]].
  - exists []. rewrite app_nil_r. by apply Hsrv.
  - destruct Hs; cbn; first [by eexists|exists []; by rewrite app_nil_r].
  - exists []. rewrite app_nil_r. by destruct Hs.
Qed.

Lemma posted_prefix s s' : rtc sys_step s s' → posted s `prefix_of` posted s'.
Proof.
  induction 1 as [|s1 s2 s3 [l Hl]%posted_grows _ IH]; [done|]. etrans; [|exact IH]. by exists l.
Qed.

(** The state after a request to a running thread that has no waker. *)
Definition submitted (q : Q) s : Sys T Q R :=
  mkSys (fst (Tx_submit (Err ()) (Tx.N false) q (ipc s))) (self s) (phase s) (S (waking s))
    (posted s ++ [(q, Some (length (Ipc.responses (ipc s))))]) (served s).

Lemma submit_eq wake q s :
  chan_bound = None → sys_inv s → alive s →
  Tx_submit wake (Tx.N false) q (ipc s) = (ipc (submitted q s), Ok (length (Ipc.responses (ipc s)))) ∧
  ipc_send (q, Some (length (Ipc.responses (ipc s))))
    (ipc_set_responses (Ipc.responses (ipc s) ++ [channel]) (ipc s)) = (ipc (submitted q s), Ok ()).
Proof.
  intros Hn HI Ha. pose proof (inv_bound s HI) as Hb. pose proof (proj2 (inv_receiver s HI) Ha) as Hr.
  rewrite Hn in Hb. destruct s as [[[cq cb cs cr] rs w] t p wk po se]. cbn in Hb, Hr. subst cb cr. by split.
Qed.

Lemma submitted_step q s :
  chan_bound = None → sys_inv s → alive s → 0 < sys_senders s → sys_step s (submitted q s).
Proof.
  intros Hn HI Ha H0. right. left. destruct (submit_eq (Ok ()) q s Hn HI Ha) as [_ Hs].
  by eapply (step_submit s q _ _ _ H0 eq_refl).
Qed.

(** A thread that takes its requests with the loop that waits has handled none as long as no
    more than [batch_max] were sent; each sender that waits goes on waiting, and once the
    queue is empty the thread itself cannot go on: neither side moves any more. *)
Theorem waiting_for_a_full_batch t s :
  takes_requests = true → get_waits = true → sys_reachable t s →
  length (posted s) ≤ batch_max → waiters (posted s) ≠ [] →
  served s = [] ∧ (∀ id, id ∈ waiters (posted s) → pending s id ∧ snd (Tx_await id (ipc s)) = Diverge) ∧
  (sys_queue s = [] → ∀ s', ¬ server_step s s').
Proof.
  intros Ht Hg Hr Hle Hne. pose proof (sys_reachable_inv _ _ Hr) as HI.
  destruct (fills_up_reachable t s Ht Hg Hr Hle) as [[Hse [reqs Hp]]|[_ E]]; [|done].
  assert (alive s) as Ha by (unfold alive; by rewrite Hp).
  pose proof (inv_order s HI Ha) as Ho. unfold served_reqs in Ho. rewrite Hse in Ho. cbn in Ho.
  split; [done|]. split.
  - intros id Hin. rewrite Ho in Hin. pose proof (inv_waiting s HI id Ha Hin) as E.
    split; [by exists channel|]. unfold Tx_await. by rewrite E.
  - intros Hq s' Hs. destruct Hs; try congruence.
    unfold take_request, chan_try_recv in H0. unfold sys_queue in Hq. rewrite Hq, Hg in H0.
    destruct (waiters (posted s)) as [|id ids] eqn:Ew; [done|].
    assert (0 < sys_senders s) as Hpos. { apply (inv_senders s HI id Ha). rewrite <- Ho, Ew. by left. }
    unfold sys_senders in Hpos. destruct (Nat.eqb_spec (Chan.senders (Ipc.requests (ipc s))) 0); [lia|done].
Qed.
End server.

(** [run_step tac] takes a step by [tac], on concrete states, and evaluates the state it leads
    to; [serve_by h handled] the one that handles the next request by the function [h]. *)
Lemma rtc_l_eq {A} (Rel : relation A) x y y' z : Rel x y → y = y' → rtc Rel y' z → rtc Rel x z.
Proof. intros H -> Hr. by eapply rtc_l. Qed.
Ltac run_step tac := eapply rtc_l_eq; [tac|vm_compute; reflexivity|].
Ltac serve_by h handled :=
  run_step ltac:(left;
    lazymatch goal with |- server_step ?s _ =>
      let p := eval vm_compute in (phase s) in
      let t := eval vm_compute in (self s) in
      lazymatch p with Serving (?r :: ?reqs) ?st ?cl =>
        let v := eval vm_compute in (h (fst r) (bool_decide (is_Some (snd r))) t) in
        lazymatch v with (?t', Ok (?resp, ?c)) =>
          apply (step_serve s r reqs st cl t' resp c); [vm_compute; reflexivity|handled|done]
        end
      end
    end).
Ltac serve_with h := serve_by h ltac:(vm_compute; reflexivity).
