(* ===== verification/KeepAlive.v ===== *)
(** Model of [src/keep_alive.rs]: how long a connection may be silent.

    An [Instant] is a [Z] of nanoseconds and the clock an argument. *)

From S2P Require Import Prelude Error Util Codec Types V5 ConnectPackets Config.
Local Open Scope Z_scope.

Definition NANOS : Z := 1000000000.

(** src/keep_alive.rs:7-11 [KeepAlive] *)
Module KeepAlive.
Record KeepAlive := mk { interval : option u16; alive_at : Z }.
End KeepAlive.
Abbreviation KeepAlive := KeepAlive.KeepAlive.

(** src/keep_alive.rs:14-23 [KeepAlive::new] *)
Definition KeepAlive_new (now : Z) (pkt : Connect) (config : Config) : KeepAlive :=
  let factor := Config_mqtt_keep_alive_factor config in
  let interval :=
    match Config_mqtt_keep_alive config with
    | Some val => Some (u16_of_f32 (f32_mul (f32_of val) factor))
    | None =>
        if Connect.keep_alive pkt =? 0 then None
        else Some (u16_of_f32 (f32_mul (f32_of (Connect.keep_alive pkt)) factor))
    end in
  KeepAlive.mk interval now.

(** src/keep_alive.rs:25-27 [KeepAlive::keep_alive] *)
Definition KeepAlive_keep_alive (self : KeepAlive) : option u16 := KeepAlive.interval self.

(** src/keep_alive.rs:29-49 [KeepAlive::check_expired] *)
Definition KeepAlive_check_expired (clock : Z) (self : KeepAlive) : Result unit :=
  match KeepAlive.interval self with
  | Some interval =>
      let now := interval * NANOS in
      let inst := KeepAlive.alive_at self + now in
      if inst <? clock then Ok ()
      else err ErrorKind.ProtocolError ReasonCode.KeepAliveTimeout
  | None => Ok ()
  end.

(** src/keep_alive.rs:51-53 [KeepAlive::live] *)
Definition KeepAlive_live (clock : Z) (self : KeepAlive) : KeepAlive :=
  KeepAlive.mk (KeepAlive.interval self) clock.

(** The interval in effect: the factor applied to the broker's own keep-alive or, when
    it has none, to the client's; none when both are zero. *)
Lemma KeepAlive_new_interval now pkt config :
  KeepAlive.interval (KeepAlive_new now pkt config) = None ↔
  Config_mqtt_keep_alive config = None ∧ Connect.keep_alive pkt = 0.
Proof.
  unfold KeepAlive_new. cbn. destruct (Config_mqtt_keep_alive config); [split; [done|by intros []]|].
  destruct (Z.eqb_spec (Connect.keep_alive pkt) 0); split; try done. by intros [].
Qed.

(** Sixty seconds and a half as long again. *)
Example keep_alive_90 : u16_of_f32 (f32_mul (f32_of 60) DEF_MQTT_KEEP_ALIVE_FACTOR) = 90.
Proof. vm_compute. reflexivity. Qed.
