(* ===== verification/Socket.v ===== *)
(** Model of [src/socket.rs]: the two sides of a connection, from its socket to the queue of
    its session and from the queue of its packets to its socket.

    The socket and the queues are given by their answers ([PacketIO], [Queue]), a pair of
    clock readings goes with each access to the socket.  What was read and what a queue
    took are part of what reading gives back.  Left out: the connection's address and its
    registration with the poller. *)

From S2P Require Import Prelude Error Util Codec Types V5 Packets PacketIO Config State Queue KeepAlive.
Local Open Scope Z_scope.

(** src/socket.rs:95-101 [Source] *)
Module Source.
Record Source := mk {
  pr : MQTTRead;
  timeout : option Z;
  session_tx : PktTx;
  packets : list Packet;
}.
End Source.
Abbreviation Source := Source.Source.

(** src/socket.rs:103-109 [Sink] *)
Module Sink.
Record Sink := mk {
  pw : MQTTWrite;
  timeout : option Z;
  miot_rx : PktRx;
  packets : list Packet;
}.
End Sink.
Abbreviation Sink := Sink.Sink.

(** src/socket.rs:86-93 [Socket] *)
Module Socket.
Record Socket := mk { client_id : ClientID; rd : Source; wt : Sink }.
Section setters.
Context (s : Socket).
Definition set_pr (v : MQTTRead) : Socket :=
  mk (client_id s) (Source.mk v (Source.timeout (rd s)) (Source.session_tx (rd s))
                      (Source.packets (rd s))) (wt s).
Definition set_rd_timeout (v : option Z) : Socket :=
  mk (client_id s) (Source.mk (Source.pr (rd s)) v (Source.session_tx (rd s))
                      (Source.packets (rd s))) (wt s).
Definition set_rd_packets (v : list Packet) : Socket :=
  mk (client_id s) (Source.mk (Source.pr (rd s)) (Source.timeout (rd s))
                      (Source.session_tx (rd s)) v) (wt s).
Definition set_pw (v : MQTTWrite) : Socket :=
  mk (client_id s) (rd s) (Sink.mk v (Sink.timeout (wt s)) (Sink.miot_rx (wt s))
                             (Sink.packets (wt s))).
Definition set_wt_timeout (v : option Z) : Socket :=
  mk (client_id s) (rd s) (Sink.mk (Sink.pw (wt s)) v (Sink.miot_rx (wt s))
                             (Sink.packets (wt s))).
Definition set_wt_packets (v : list Packet) : Socket :=
  mk (client_id s) (rd s) (Sink.mk (Sink.pw (wt s)) (Sink.timeout (wt s))
                             (Sink.miot_rx (wt s)) v).
End setters.
End Socket.
Abbreviation Socket := Socket.Socket.

(** * Time limits *)

(** src/socket.rs:112-117 [Socket::read_elapsed] *)
Definition Socket_read_elapsed (now : Z) (self : Socket) : bool :=
  match Source.timeout (Socket.rd self) with
  | Some timeout => now <? timeout
  | None => false
  end.

(** src/socket.rs:119-124 [Socket::write_elapsed] *)
Definition Socket_write_elapsed (now : Z) (self : Socket) : bool :=
  match Sink.timeout (Socket.wt self) with
  | Some timeout => now <? timeout
  | None => false
  end.

(** src/socket.rs:126-133 [Socket::set_read_timeout] *)
Definition Socket_set_read_timeout (now : Z) (retry : bool) (timeout : u32) : M Socket unit :=
  modify (λ self,
    match retry, Source.timeout (Socket.rd self) with
    | true, None => Socket.set_rd_timeout self (Some (now + timeout * NANOS))
    | true, Some _ => self
    | false, _ => Socket.set_rd_timeout self None
    end).

(** src/socket.rs:135-142 [Socket::set_write_timeout] *)
Definition Socket_set_write_timeout (now : Z) (retry : bool) (timeout : u32) : M Socket unit :=
  modify (λ self,
    match retry, Sink.timeout (Socket.wt self) with
    | true, None => Socket.set_wt_timeout self (Some (now + timeout * NANOS))
    | true, Some _ => self
    | false, _ => Socket.set_wt_timeout self None
    end).

(** * Reading *)

(** One access to the socket, with the clock before and after. *)
Record access (A : Type) := mkAccess { answer : A; now : Z; later : Z }.
Arguments mkAccess {A} answer now later.
Arguments answer {A} a.
Arguments now {A} a.
Arguments later {A} a.

(** src/socket.rs:176-211 [Socket::read_packet] *)
Definition Socket_read_packet (conn : access (nat → io_read)) (config : Config)
    : M Socket (QueueStatus Packet) :=
  let timeout := Config_mqtt_read_timeout config in
  self ← get;
  let pr := Source.pr (Socket.rd self) in
  _ ← modify (λ self, Socket.set_pr self MQTTRead.None);
  match MQTTRead_read pr (answer conn) with
  | Ok (pr, _would_block) =>
      match pr with
      | MQTTRead.Init _ _ | MQTTRead.Header _ _ _ | MQTTRead.Remain _ _ _ _ =>
          if negb (Socket_read_elapsed (now conn) self) then
            _ ← Socket_set_read_timeout (later conn) true timeout;
            _ ← modify (λ self, Socket.set_pr self pr);
            mret (QueueStatus.Block [])
          else
            _ ← Socket_set_read_timeout (later conn) false timeout;
            _ ← modify (λ self, Socket.set_pr self pr);
            mret (QueueStatus.Disconnected [])
      | MQTTRead.Fin _ _ _ =>
          _ ← Socket_set_read_timeout (later conn) false timeout;
          pkt ← lift (MQTTRead_parse pr);
          pr ← lift (MQTTRead_reset pr);
          _ ← modify (λ self, Socket.set_pr self pr);
          mret (QueueStatus.Ok [pkt])
      | MQTTRead.None => panic
      end
  | Err e =>
      match kind e with
      | ErrorKind.Disconnected => mret (QueueStatus.Disconnected [])
      | _ => lift (Err e)
      end
  | Panic => panic
  | Diverge => lift Diverge
  end.

(** The status, and what the session's queue took.  The queue's end is a clone, so the
    socket's own count stays. *)
(** src/socket.rs:214-224 [Socket::send_upstream] *)
Definition Socket_send_upstream (chan : nat → send_answer)
    : M Socket (QueueStatus Packet * list Packet) :=
  self ← get;
  let session_tx := Source.session_tx (Socket.rd self) in
  let '(_, (sent, status)) := PktTx_try_sends session_tx chan (Source.packets (Socket.rd self)) in
  let '(remaining, status) := take_values status in
  _ ← modify (λ self, Socket.set_rd_packets self remaining);
  mret (status, sent).

(** A round of reading: the queue before it, the socket, the queue after it. *)
Module ReadRound.
Record ReadRound := mk {
  upstream : nat → send_answer;
  conn : access (nat → io_read);
  after : nat → send_answer;
}.
End ReadRound.
Abbreviation ReadRound := ReadRound.ReadRound.

(** As many rounds as there are packets to read; the status, what was read and what the
    queue took. *)
(** src/socket.rs:152-171 [Socket::read_packets] *)
Fixpoint read_loop (pkt_batch_size : Z) (config : Config) (rounds : list ReadRound)
    (got sent : list Packet) : M Socket (QueueStatus Packet * (list Packet * list Packet)) :=
  match rounds with
  | [] => lift Diverge
  | round :: rounds =>
      '(status, sent1) ← Socket_send_upstream (ReadRound.upstream round);
      let sent := sent ++ sent1 in
      match status with
      | QueueStatus.Block _ | QueueStatus.Disconnected _ => mret (status, (got, sent))
      | QueueStatus.Ok _ =>
          status ← Socket_read_packet (ReadRound.conn round) config;
          let '(pkts, status) := take_values status in
          _ ← modify (λ self, Socket.set_rd_packets self (Source.packets (Socket.rd self) ++ pkts));
          let got := got ++ pkts in
          let send_upstream :=
            '(status, sent2) ← Socket_send_upstream (ReadRound.after round);
            mret (status, (got, sent ++ sent2)) in
          self ← get;
          let n := length (Source.packets (Socket.rd self)) in
          match status with
          | QueueStatus.Ok _ =>
              if Z.of_nat n <? pkt_batch_size
              then read_loop pkt_batch_size config rounds got sent
              else send_upstream
          | QueueStatus.Block _ => send_upstream
          | QueueStatus.Disconnected _ =>
              if (n =? 0)%nat then mret (status, (got, sent)) else send_upstream
          end
      end
  end.

(** src/socket.rs:148-172 [Socket::read_packets] *)
Definition Socket_read_packets (config : Config) (rounds : list ReadRound)
    : M Socket (QueueStatus Packet * (list Packet * list Packet)) :=
  pkt_batch_size ← lift (Config_mqtt_pkt_batch_size config);
  read_loop pkt_batch_size config rounds [] [].

(** * Writing *)

(** src/socket.rs:283-316 [Socket::write_packet] *)
Definition Socket_write_packet (conn : access (bytes → io_write)) (config : Config)
    : M Socket (QueueStatus Packet) :=
  let timeout := Config_mqtt_write_timeout config in
  self ← get;
  let pw := Sink.pw (Socket.wt self) in
  _ ← modify (λ self, Socket.set_pw self MQTTWrite.None);
  match MQTTWrite_write pw (answer conn) with
  | Ok (pw, _would_block) =>
      match pw with
      | MQTTWrite.Init _ _ | MQTTWrite.Remain _ _ _ =>
          if negb (Socket_write_elapsed (now conn) self) then
            _ ← Socket_set_write_timeout (later conn) true timeout;
            _ ← modify (λ self, Socket.set_pw self pw);
            mret (QueueStatus.Block [])
          else
            _ ← Socket_set_write_timeout (later conn) false timeout;
            _ ← modify (λ self, Socket.set_pw self pw);
            mret (QueueStatus.Disconnected [])
      | MQTTWrite.Fin _ _ =>
          _ ← Socket_set_write_timeout (later conn) false timeout;
          _ ← modify (λ self, Socket.set_pw self pw);
          mret (QueueStatus.Ok [])
      | MQTTWrite.None => panic
      end
  | Err e =>
      match kind e with
      | ErrorKind.Disconnected => mret (QueueStatus.Disconnected [])
      | _ => panic
      end
  | Panic => panic
  | Diverge => lift Diverge
  end.

(** The status, the packets left and the local [pw]; a packet that cannot be encoded is
    skipped. *)
(** src/socket.rs:255-274 [Socket::flush_packets] *)
Fixpoint flush_loop (config : Config) (conn : nat → access (bytes → io_write))
    (iter : list Packet) (pw : MQTTWrite) : M Socket (QueueStatus Packet * (list Packet * MQTTWrite)) :=
  res ← Socket_write_packet (conn O) config;
  match res with
  | QueueStatus.Block _ | QueueStatus.Disconnected _ => mret (res, (iter, pw))
  | QueueStatus.Ok _ =>
      match iter with
      | [] => mret (QueueStatus.Ok [], ([], pw))
      | packet :: iter =>
          let conn i := conn (S i) in
          match Packet_encode packet with
          | Ok blob =>
              pw ← lift (MQTTWrite_reset pw (as_ref blob));
              flush_loop config conn iter pw
          | Err _ => flush_loop config conn iter pw
          | Panic => panic
          | Diverge => lift Diverge
          end
      end
  end.

(** src/socket.rs:249-280 [Socket::flush_packets] *)
Definition Socket_flush_packets (config : Config) (conn : nat → access (bytes → io_write))
    : M Socket (QueueStatus Packet) :=
  self ← get;
  let pw := Sink.pw (Socket.wt self) in
  let packets := Sink.packets (Socket.wt self) in
  _ ← modify (λ self, Socket.set_wt_packets (Socket.set_pw self MQTTWrite.None) []);
  '(res, (iter, pw)) ← flush_loop config conn packets pw;
  _ ← modify (λ self, Socket.set_wt_packets self (Sink.packets (Socket.wt self) ++ iter));
  _ ← modify (λ self, Socket.set_pw self pw);
  mret res.

(** A round of writing: the socket, the queue of packets, the socket once more. *)
Module WriteRound.
Record WriteRound := mk {
  conn : nat → access (bytes → io_write);
  queue : nat → recv_answer Packet;
  again : nat → access (bytes → io_write);
}.
End WriteRound.
Abbreviation WriteRound := WriteRound.WriteRound.

(** src/socket.rs:228-246 [Socket::write_packets] *)
Fixpoint Socket_write_packets (config : Config) (rounds : list WriteRound)
    : M Socket (QueueStatus Packet) :=
  match rounds with
  | [] => lift Diverge
  | round :: rounds =>
      status ← Socket_flush_packets config (WriteRound.conn round);
      match status with
      | QueueStatus.Block _ | QueueStatus.Disconnected _ => mret status
      | QueueStatus.Ok _ =>
          self ← get;
          status ← lift (PktRx_try_recvs (Sink.miot_rx (Socket.wt self)) (WriteRound.queue round));
          let '(pkts, status) := take_values status in
          _ ← modify (λ self, Socket.set_wt_packets self (Sink.packets (Socket.wt self) ++ pkts));
          match status with
          | QueueStatus.Ok _ => Socket_write_packets config rounds
          | QueueStatus.Block _ => Socket_flush_packets config (WriteRound.again round)
          | QueueStatus.Disconnected _ => mret status
          end
      end
  end.
