(* ===== verification/Flusher.v ===== *)
(** Model of [src/flush.rs]: the thread that flushes connections that end.

    The sockets and queues answer as in [Socket]; the clock is read with them.  Names and
    log messages are left out. *)

From S2P Require Import Prelude Error Util Codec Types V5 AckPackets Packets PacketIO.
From S2P Require Import Config State Queue Thread Server KeepAlive Socket.
Local Open Scope Z_scope.

(** * Flushing a connection *)

(** A round of the flusher: the queue of packets, the socket, the clock. *)
Module FlushRound.
Record FlushRound := mk {
  queue : nat → recv_answer Packet;
  conn : nat → access (bytes → io_write);
  time : Z;
}.
End FlushRound.
Abbreviation FlushRound := FlushRound.FlushRound.

(** src/flush.rs:242-266 [Flusher::handle_flush_connection] *)
Fixpoint flush_rounds (config : Config) (timeout : Z) (rounds : list FlushRound) : M Socket unit :=
  match rounds with
  | [] => lift Diverge
  | round :: rounds =>
      socket ← get;
      status ← lift (PktRx_try_recvs (Sink.miot_rx (Socket.wt socket)) (FlushRound.queue round));
      let '(pkts, status) := take_values status in
      _ ← modify (λ self, Socket.set_wt_packets self (Sink.packets (Socket.wt self) ++ pkts));
      flushed ← Socket_flush_packets config (FlushRound.conn round);
      let next :=
        match status with
        | QueueStatus.Disconnected _ => mret ()
        | _ => flush_rounds config timeout rounds
        end in
      match flushed with
      | QueueStatus.Ok _ => next
      | QueueStatus.Block _ => if timeout <? FlushRound.time round then mret () else next
      | QueueStatus.Disconnected _ => mret ()
      end
  end.

(** The reason code for the connection's end. *)
(** src/flush.rs:269-272 [Flusher::handle_flush_connection] *)
Definition disconnect_code (conn_err : option Error) : Result DisconnReasonCode :=
  match conn_err with
  | Some e => unwrap (DisconnReasonCode_try_from (ReasonCode_as_u8 (Error_code e)))
  | None => Ok DisconnReasonCode.NormalDisconnect
  end.

(** [now] is the clock at the start; the result of sending is not looked at. *)
(** src/flush.rs:223-276 [Flusher::handle_flush_connection] *)
Definition Flusher_handle_flush_connection (config : Config) (now : Z) (conn_err : option Error)
    (rounds : list FlushRound) (last : list ((bytes → io_write) * Z)) : M Socket unit :=
  max_size ← lift (Config_mqtt_max_packet_size config);
  let timeout := now + Config_mqtt_flush_timeout config * NANOS in
  _ ← flush_rounds config timeout rounds;
  code ← lift (disconnect_code conn_err);
  lift (match send_disconnect code timeout max_size last with
        | Ok _ | Err _ => Ok ()
        | Panic => Panic
        | Diverge => Diverge
        end).

(** * The thread and its handles *)

(** src/flush.rs:131-134 [Request] *)
Module FlusherRequest.
Inductive FlusherRequest := FlushConnection (socket : Socket) (err : option Error) | Close.
End FlusherRequest.
Abbreviation FlusherRequest := FlusherRequest.FlusherRequest.

(** The response is always [Response::Ok]. *)
(** src/flush.rs:136-138 [Response] *)
Definition FlusherResponse : Type := Result unit.
Definition flusher_ipc : Type := Ipc FlusherRequest FlusherResponse.

(** src/flush.rs:22-32 [Inner] *)
Module FlusherInner.
Inductive FlusherInner := Init | Handle (thrd : Thread) | Tx (tx : Tx) | Main | Close.
End FlusherInner.
Abbreviation FlusherInner := FlusherInner.FlusherInner.

(** src/flush.rs:14-20 [Flusher] *)
Module Flusher.
Record Flusher := mk { config : Config; inner : FlusherInner }.
End Flusher.
Abbreviation Flusher := Flusher.Flusher.

(** src/flush.rs:43-53 [Flusher::default] *)
Definition Flusher_default (num_cpus : nat) : Result Flusher :=
  config ← Config_default num_cpus; Ok (Flusher.mk config FlusherInner.Init).

(** src/flush.rs:74-84 [Flusher::from_config] *)
Definition Flusher_from_config (config : Config) : Result Flusher :=
  Ok (Flusher.mk config FlusherInner.Init).

(** src/flush.rs:57-68 [Flusher::drop] *)
Definition Flusher_drop (self : Flusher) : Result unit :=
  match Flusher.inner self with FlusherInner.Handle thrd => Thread_drop thrd | _ => Ok () end.

(** The handle, and the thread with what it shares with its handles. *)
(** src/flush.rs:86-109 [Flusher::spawn] *)
Definition Flusher_spawn (self : Flusher) : Result (Flusher * (Flusher * flusher_ipc)) :=
  match Flusher.inner self with
  | FlusherInner.Handle _ | FlusherInner.Main => err_desc ErrorKind.InvalidInput
  | _ =>
      let flush := Flusher.mk (Flusher.config self) FlusherInner.Main in
      let '(thrd, ipc) := Thread_spawn [] in
      Ok (Flusher.mk (Flusher.config self) (FlusherInner.Handle thrd), (flush, ipc))
  end.

(** src/flush.rs:111-128 [Flusher::to_tx] *)
Definition Flusher_to_tx (self : Flusher) : M flusher_ipc Flusher :=
  inner ← match Flusher.inner self with
          | FlusherInner.Handle thrd => tx ← Thread_to_tx thrd; mret (FlusherInner.Tx tx)
          | FlusherInner.Tx tx => tx ← Tx_clone tx; mret (FlusherInner.Tx tx)
          | _ => panic
          end;
  mret (Flusher.mk (Flusher.config self) inner).

Section calls.
Context (wake_result : outcome unit unit) (meanwhile : flusher_ipc → flusher_ipc).

(** Only a handle flushes connections, not the copies made by [to_tx]. *)
(** src/flush.rs:147-157 [Flusher::flush_connection] *)
Definition Flusher_flush_connection (socket : Socket) (err : option Error) (self : Flusher)
    : M flusher_ipc unit :=
  match Flusher.inner self with
  | FlusherInner.Handle thrd =>
      response ← Thread_request wake_result meanwhile thrd (FlusherRequest.FlushConnection socket err);
      lift response
  | _ => panic
  end.

(** src/flush.rs:159-170 [Flusher::close_wait] *)
Definition Flusher_close_wait (joined : option (outcome unit Flusher)) (self : Flusher)
    : M flusher_ipc Flusher :=
  match Flusher.inner self with
  | FlusherInner.Handle thrd =>
      _ ← ignored (Thread_request wake_result meanwhile thrd FlusherRequest.Close);
      '(_, flusher) ← Thread_close_wait joined thrd;
      mret flusher
  | _ => panic
  end.
End calls.

(** src/flush.rs:278-291 [Flusher::handle_close] *)
Definition Flusher_handle_close : M Flusher unit := λ self,
  let set inner := Flusher.mk (Flusher.config self) inner in
  match Flusher.inner self with
  | FlusherInner.Main => (set FlusherInner.Close, Ok ())
  | FlusherInner.Close => (set FlusherInner.Init, Ok ())
  | _ => (set FlusherInner.Init, Panic)
  end.

(** What the clock, the queue and the socket of a connection to flush answer. *)
Module FlushEnv.
Record FlushEnv := mk {
  now : Z;
  rounds : list FlushRound;
  last : list ((bytes → io_write) * Z);
}.
End FlushEnv.
Abbreviation FlushEnv := FlushEnv.FlushEnv.

(** The socket is dropped when it is flushed. *)
(** src/flush.rs:189-204 [Flusher::main_loop] *)
Definition Flusher_handle_request (env : FlushEnv) (req : FlusherRequest) (waits : bool)
    : M Flusher (option FlusherResponse * bool) :=
  match req, waits with
  | FlusherRequest.FlushConnection socket err, true =>
      config ← gets Flusher.config;
      _ ← lift (snd (Flusher_handle_flush_connection config (FlushEnv.now env) err (FlushEnv.rounds env)
                       (FlushEnv.last env) socket));
      mret (Some (Ok ()), false)
  | FlusherRequest.Close, true => _ ← Flusher_handle_close; mret (Some (Ok ()), true)
  | _, false => panic
  end.

(** src/flush.rs:211-215 [Flusher::main_loop] *)
Definition Flusher_finish : M Flusher unit := λ self,
  match Flusher.inner self with
  | FlusherInner.Main => Flusher_handle_close self
  | FlusherInner.Close => (self, Ok ())
  | _ => (self, Panic)
  end.

(** src/flush.rs:177-219 [Flusher::main_loop] *)
#[export] Program Instance Flusher_thread : Threadable Flusher FlusherRequest FlusherResponse := {|
  chan_bound := None;
  takes_requests := true;
  get_waits := true;
  batch_max := CONTROL_CHAN_SIZE;
  close_breaks := true;
  handles q w t t' r := ∃ env, Flusher_handle_request env q w t = (t', r);
  works t t' r := t' = t ∧ r = Ok false;
  finishes t t' r := Flusher_finish t = (t', r);
|}.
Next Obligation.
  intros q w t t' r c [env H]. unfold Flusher_handle_request in H.
  destruct q, w; try done; apply M_bind_inv in H as (? & ? & _ & H); [|by injection H as _ <- _].
  apply M_bind_inv in H as (? & ? & _ & H). by injection H as _ <- _.
Qed.
