(* ===== verification/Listener.v ===== *)
(** Model of [src/listener.rs]: the thread that accepts connections and starts a handshake
    for each.

    The operating system answers whether the port can be bound, the calls to the poller
    succeed, and what [accept] gives; a connection is known by its address.  Of the
    cluster the listener has a copy of its handle.  Names and log messages are left out. *)

From S2P Require Import Prelude Error Util Config State Queue Thread Server.
Local Open Scope Z_scope.

(** src/listener.rs:149-151 [Request] *)
Module ListenerRequest.
Inductive ListenerRequest := Close.
End ListenerRequest.
Abbreviation ListenerRequest := ListenerRequest.ListenerRequest.

(** src/listener.rs:153-155 [Response] *)
Definition ListenerResponse : Type := Result unit.
Definition listener_ipc : Type := Ipc ListenerRequest ListenerResponse.

(** The handshakes that were started are kept with the connection they serve. *)
(** src/listener.rs:36-47 [RunLoop] *)
Module ListenerLoop.
Record ListenerLoop := mk { cluster : Tx; handshakes : list bytes }.
End ListenerLoop.
Abbreviation ListenerLoop := ListenerLoop.ListenerLoop.

(** src/listener.rs:26-34 [Inner] *)
Module ListenerInner.
Inductive ListenerInner := Init | Handle (thrd : Thread) | Main (run_loop : ListenerLoop) | Close.
End ListenerInner.
Abbreviation ListenerInner := ListenerInner.ListenerInner.

(** src/listener.rs:16-24 [Listener] *)
Module Listener.
Record Listener := mk { port : u16; config : Config; inner : ListenerInner }.
End Listener.
Abbreviation Listener := Listener.Listener.

(** src/listener.rs:52-63 [Listener::default] *)
Definition Listener_default (num_cpus : nat) : Result Listener :=
  config ← Config_default num_cpus;
  port ← (match Config.port config with Some port => Ok port | None => Panic end : Result u16);
  Ok (Listener.mk port config ListenerInner.Init).

(** src/listener.rs:67-77 [Listener::drop] *)
Definition Listener_drop (self : Listener) : Result unit :=
  match Listener.inner self with ListenerInner.Handle thrd => Thread_drop thrd | _ => Ok () end.

(** src/listener.rs:89-101 [Listener::from_config] *)
Definition Listener_from_config (num_cpus : nat) (config : Config) : Result Listener :=
  def ← Listener_default num_cpus;
  Ok (Listener.mk (default (Listener.port def) (Config.port config)) config ListenerInner.Init).

(** What the operating system says to the calls of [spawn], in their order. *)
Module SpawnEnv.
Record SpawnEnv := mk { bind : bool; poll : bool; register : bool; waker : bool }.
End SpawnEnv.
Abbreviation SpawnEnv := SpawnEnv.SpawnEnv.

(** The handle, and the thread with what it shares with its handles. *)
(** src/listener.rs:103-146 [Listener::spawn] *)
Definition Listener_spawn (env : SpawnEnv) (cluster : Tx) (self : Listener)
    : Result (Listener * (Listener * listener_ipc)) :=
  match Listener.inner self with
  | ListenerInner.Handle _ | ListenerInner.Main _ => err_desc ErrorKind.InvalidInput
  | _ =>
      _ ← io_call (SpawnEnv.bind env);
      _ ← io_call (SpawnEnv.poll env);
      _ ← io_call (SpawnEnv.register env);
      _ ← io_call (SpawnEnv.waker env);
      let listener := Listener.mk (Listener.port self) (Listener.config self)
                        (ListenerInner.Main (ListenerLoop.mk cluster [])) in
      let '(thrd, ipc) := Thread_spawn [] in
      thrd ← Thread_set_waker thrd;
      Ok (Listener.mk (Listener.port self) (Listener.config self) (ListenerInner.Handle thrd), (listener, ipc))
  end.

(** src/listener.rs:159-170 [Listener::close_wait] *)
Definition Listener_close_wait (wake_result : outcome unit unit) (meanwhile : listener_ipc → listener_ipc)
    (joined : option (outcome unit Listener)) (self : Listener) : M listener_ipc Listener :=
  match Listener.inner self with
  | ListenerInner.Handle thrd =>
      _ ← ignored (Thread_request wake_result meanwhile thrd ListenerRequest.Close);
      '(_, listener) ← Thread_close_wait joined thrd;
      mret listener
  | _ => panic
  end.

Definition set_listener_inner (inner : ListenerInner) : M Listener unit :=
  modify (λ self, Listener.mk (Listener.port self) (Listener.config self) inner).

(** src/listener.rs:299-313 [Listener::handle_close] *)
Definition Listener_handle_close : M Listener unit :=
  inner ← gets Listener.inner;
  _ ← set_listener_inner ListenerInner.Init;
  match inner with
  | ListenerInner.Main _ => set_listener_inner ListenerInner.Close
  | ListenerInner.Close => mret ()
  | _ => panic
  end.

(** src/listener.rs:250-258 [Listener::drain_control_chan] *)
Definition Listener_handle_request (req : ListenerRequest) (waits : bool)
    : M Listener (option ListenerResponse * bool) :=
  match req, waits with
  | ListenerRequest.Close, true => _ ← Listener_handle_close; mret (Some (Ok ()), true)
  | _, false => panic
  end.

(** ** Accepting *)

Inductive accept_answer := Accept (addr : bytes) | WouldBlock | AcceptError.

(** The thread of the handshake is dropped at once, while it runs. *)
(** src/listener.rs:265-295 [Listener::accept_conn] *)
Definition Listener_accept_conn (answer : accept_answer) : M Listener (QueueStatus unit) :=
  inner ← gets Listener.inner;
  run_loop ← lift (match inner with ListenerInner.Main run_loop => Ok run_loop | _ => Panic end);
  match answer with
  | Accept addr =>
      _ ← set_listener_inner (ListenerInner.Main
            (ListenerLoop.mk (ListenerLoop.cluster run_loop) (ListenerLoop.handshakes run_loop ++ [addr])));
      let '(thrd, _) := Thread_spawn_sync (Q := unit) (R := unit) addr 1 in
      _ ← lift (Thread_drop thrd);
      mret (QueueStatus.Ok [])
  | WouldBlock => mret (QueueStatus.Block [])
  | AcceptError => mret (QueueStatus.Disconnected [])
  end.

(** [true] when the thread is to exit. *)
(** src/listener.rs:225-231 [Listener::mio_events] *)
Fixpoint accept_all (answers : list accept_answer) : M Listener bool :=
  match answers with
  | [] => lift Diverge
  | answer :: answers =>
      status ← Listener_accept_conn answer;
      match status with
      | QueueStatus.Ok _ => accept_all answers
      | QueueStatus.Block _ => mret false
      | QueueStatus.Disconnected _ => mret true
      end
  end.

(** The events a poll gives, with what the queue or the socket answers then. *)
Inductive listener_event :=
| WakeEvent (drains : list (nat → recv_answer (ListenerRequest * bool)))
| ServerEvent (accepts : list accept_answer)
| OtherEvent.

(** src/listener.rs:204-239 [Listener::mio_events] *)
Fixpoint Listener_mio_events (events : list listener_event) : M Listener bool :=
  match events with
  | [] => mret false
  | event :: events =>
      exit ← match event with
             | WakeEvent drains => drain_until_empty Listener_handle_request drains
             | ServerEvent accepts => accept_all accepts
             | OtherEvent => panic
             end;
      if exit : bool then mret true else Listener_mio_events events
  end.

(** src/listener.rs:191-195 [Listener::main_loop] *)
Definition Listener_finish : M Listener unit :=
  inner ← gets Listener.inner;
  match inner with
  | ListenerInner.Main _ => Listener_handle_close
  | ListenerInner.Close => mret ()
  | _ => panic
  end.

(** The events of each poll, or its failure. *)
(** src/listener.rs:177-199 [Listener::main_loop] *)
Fixpoint Listener_main_loop (polls : list (option (list listener_event))) : M Listener unit :=
  match polls with
  | [] => lift Diverge
  | None :: _ => panic
  | Some events :: polls =>
      exit ← Listener_mio_events events;
      if exit : bool then Listener_finish else Listener_main_loop polls
  end.

(** What comes with an event is a connection to accept, or nothing. *)
(** src/listener.rs:177-199 [Listener::main_loop] *)
#[export] Program Instance Listener_thread : Threadable Listener ListenerRequest ListenerResponse := {|
  chan_bound := None;
  takes_requests := true;
  get_waits := false;
  batch_max := CONTROL_CHAN_SIZE;
  close_breaks := false;
  handles q w t t' r := Listener_handle_request q w t = (t', r);
  works t t' r := (t' = t ∧ r = Ok false) ∨ ∃ answers, accept_all answers t = (t', r);
  finishes t t' r := Listener_finish t = (t', r);
|}.
Next Obligation.
  intros q w t t' r c H. unfold Listener_handle_request in H. destruct q, w; try done.
  apply M_bind_inv in H as (? & ? & _ & H). by injection H as _ <- _.
Qed.
