(* ===== verification/Ticker.v ===== *)
(** Model of [src/ticker.rs]: the thread that wakes the others at intervals, and what it
    does until it is told to close.

    In each round the queue gives an answer; the wakers of the cluster and of the shards,
    of which the ticker has copies, answer too.  The clock is read when the ticker is
    born and when it ends.  Names and log messages are left out. *)

From S2P Require Import Prelude Error Util Config State Queue Thread Server.
Local Open Scope Z_scope.

(** src/ticker.rs:131-133 [Request] *)
Module TickerRequest.
Inductive TickerRequest := Close.
End TickerRequest.
Abbreviation TickerRequest := TickerRequest.TickerRequest.

(** src/ticker.rs:135-137 [Response] *)
Definition TickerResponse : Type := Result unit.
Definition ticker_ipc : Type := Ipc TickerRequest TickerResponse.

(** The wake-ups are kept in order: the cluster's, and those of the shards. *)
(** src/ticker.rs:30-43 [RunLoop] *)
Module TickerLoop.
Record TickerLoop := mk {
  born : Z;
  ticker_count : u64;
  shards : list u32;
  wakes : list (option u32);
}.
End TickerLoop.
Abbreviation TickerLoop := TickerLoop.TickerLoop.

(** src/ticker.rs:45-52 [FinState] *)
Module TickerFin.
Record TickerFin := mk { born : Z; ticker_count : u64; dead : Z }.
End TickerFin.
Abbreviation TickerFin := TickerFin.TickerFin.

(** src/ticker.rs:20-28 [Inner] *)
Module TickerInner.
Inductive TickerInner := Init | Handle (thrd : Thread) | Main (run_loop : TickerLoop) | Close (fin : TickerFin).
End TickerInner.
Abbreviation TickerInner := TickerInner.TickerInner.

(** src/ticker.rs:13-18 [Ticker] *)
Module Ticker.
Record Ticker := mk { config : Config; inner : TickerInner }.
End Ticker.
Abbreviation Ticker := Ticker.Ticker.

(** src/ticker.rs:55-65 [Ticker::default] *)
Definition Ticker_default (num_cpus : nat) : Result Ticker :=
  config ← Config_default num_cpus; Ok (Ticker.mk config TickerInner.Init).

(** src/ticker.rs:87-97 [Ticker::from_config] *)
Definition Ticker_from_config (config : Config) : Result Ticker := Ok (Ticker.mk config TickerInner.Init).

(** src/ticker.rs:69-77 [Ticker::drop] *)
Definition Ticker_drop (self : Ticker) : Result unit :=
  match Ticker.inner self with TickerInner.Handle thrd => Thread_drop thrd | _ => Ok () end.

(** The handle, and the thread with what it shares with its handles. *)
(** src/ticker.rs:99-128 [Ticker::spawn] *)
Definition Ticker_spawn (now : Z) (shards : list u32) (self : Ticker) : Result (Ticker * (Ticker * ticker_ipc)) :=
  match Ticker.inner self with
  | TickerInner.Handle _ | TickerInner.Main _ => err_desc ErrorKind.InvalidInput
  | _ =>
      let ticker := Ticker.mk (Ticker.config self) (TickerInner.Main (TickerLoop.mk now 0 shards [])) in
      let '(thrd, ipc) := Thread_spawn [] in
      Ok (Ticker.mk (Ticker.config self) (TickerInner.Handle thrd), (ticker, ipc))
  end.

(** src/ticker.rs:141-150 [Ticker::close_wait] *)
Definition Ticker_close_wait (wake_result : outcome unit unit) (meanwhile : ticker_ipc → ticker_ipc)
    (joined : option (outcome unit Ticker)) (self : Ticker) : M ticker_ipc Ticker :=
  match Ticker.inner self with
  | TickerInner.Handle thrd =>
      _ ← ignored (Thread_request wake_result meanwhile thrd TickerRequest.Close);
      '(_, ticker) ← Thread_close_wait joined thrd;
      mret ticker
  | _ => panic
  end.

(** What the queue answers in a round, and whether the wakers of the cluster and of the
    shards, in their order, do their work. *)
Module TickerRound.
Record TickerRound := mk {
  rx : recv_answer (TickerRequest * bool);
  cluster_wakes : bool;
  shard_wakes : nat → bool;
}.
End TickerRound.
Abbreviation TickerRound := TickerRound.TickerRound.

Definition set_ticker_inner (inner : TickerInner) : M Ticker unit :=
  modify (λ self, Ticker.mk (Ticker.config self) inner).

Definition as_ticker_loop : M Ticker TickerLoop := λ self,
  match Ticker.inner self with TickerInner.Main run_loop => (self, Ok run_loop) | _ => (self, Panic) end.

(** A wake-up that fails panics. *)
Definition tick (id : option u32) (ok : bool) : M Ticker unit :=
  if ok then
    run_loop ← as_ticker_loop;
    set_ticker_inner (TickerInner.Main
      (TickerLoop.mk (TickerLoop.born run_loop) (TickerLoop.ticker_count run_loop) (TickerLoop.shards run_loop)
         (TickerLoop.wakes run_loop ++ [id])))
  else panic.

(** src/ticker.rs:181-181 [Ticker::main_loop] *)
Fixpoint wake_shards (oks : nat → bool) (shards : list u32) : M Ticker unit :=
  match shards with
  | [] => mret ()
  | id :: shards => _ ← tick (Some id) (oks 0%nat); wake_shards (λ i, oks (S i)) shards
  end.

(** The addition is the checked one. *)
(** src/ticker.rs:178-178 [Ticker::main_loop] *)
Definition ticker_incr (count : u64) : Result u64 := if count + 1 <? 2 ^ 64 then Ok (count + 1) else Panic.

(** What is done when the queue is empty. *)
(** src/ticker.rs:173-181 [Ticker::main_loop] *)
Definition Ticker_tick (cluster_wakes : bool) (shard_wakes : nat → bool) : M Ticker unit :=
  run_loop ← as_ticker_loop;
  count ← lift (ticker_incr (TickerLoop.ticker_count run_loop));
  _ ← set_ticker_inner (TickerInner.Main
        (TickerLoop.mk (TickerLoop.born run_loop) count
           (TickerLoop.shards run_loop) (TickerLoop.wakes run_loop)));
  _ ← tick None cluster_wakes;
  wake_shards shard_wakes (TickerLoop.shards run_loop).

(** A request, with whether its sender waits; any request ends the loop. *)
(** src/ticker.rs:162-169 [Ticker::main_loop] *)
Definition Ticker_handle_request (req : TickerRequest) (waits : bool)
    : M Ticker (option TickerResponse * bool) :=
  match req, waits with
  | TickerRequest.Close, true => mret (Some (Ok ()), true)
  | _, false => panic
  end.

(** One round: [true] when the loop is left, with the response if there was a request.  The
    loop over the queue goes round at most once: nothing but an empty queue lets it go
    on. *)
(** src/ticker.rs:158-182 [Ticker::main_loop] *)
Definition Ticker_round (round : TickerRound) : M Ticker bool :=
  match TickerRound.rx round with
  | Received (req, waits) => '(_, exit) ← Ticker_handle_request req waits; mret exit
  | SendersGone => mret true
  | Empty => _ ← Ticker_tick (TickerRound.cluster_wakes round) (TickerRound.shard_wakes round); mret false
  end.

(** src/ticker.rs:184-191 [Ticker::main_loop] *)
Definition Ticker_finish (now : Z) : M Ticker unit :=
  inner ← gets Ticker.inner;
  _ ← set_ticker_inner TickerInner.Init;
  run_loop ← lift (match inner with TickerInner.Main run_loop => Ok run_loop | _ => Panic end);
  set_ticker_inner (TickerInner.Close
    (TickerFin.mk (TickerLoop.born run_loop) (TickerLoop.ticker_count run_loop) now)).

(** src/ticker.rs:157-194 [Ticker::main_loop] *)
Fixpoint Ticker_main_loop (rounds : list TickerRound) (dead : Z) : M Ticker unit :=
  match rounds with
  | [] => lift Diverge
  | round :: rounds =>
      exit ← Ticker_round round;
      if exit : bool then Ticker_finish dead else Ticker_main_loop rounds dead
  end.

(** It sleeps where others poll, and takes requests one at a time. *)
(** src/ticker.rs:153-195 [Ticker::main_loop] *)
#[export] Program Instance Ticker_thread : Threadable Ticker TickerRequest TickerResponse := {|
  chan_bound := None;
  takes_requests := true;
  get_waits := false;
  batch_max := 0;
  close_breaks := true;
  handles q w t t' r := Ticker_handle_request q w t = (t', r);
  works t t' r := ∃ cluster_wakes shard_wakes,
    (_ ← Ticker_tick cluster_wakes shard_wakes; mret false) t = (t', r);
  finishes t t' r := ∃ dead, Ticker_finish dead t = (t', r);
|}.
Next Obligation. intros [] [] t t' r c H; [by injection H as _ <- _|done]. Qed.
