(* ===== verification/ServiceTheorems.v ===== *)
(** The properties of the threads of [Flusher], [Listener] and [Ticker], as threads that are
    served by [Server]. *)

From S2P Require Import Prelude Error Util Config State Queue Thread Server ServerTheorems.
From S2P Require Import Flusher Listener Ticker.
Local Open Scope Z_scope.

(** * The flusher *)

(** The flusher answers nobody, and closing it never returns, until more requests than fit
    in a batch, 1025 of them, are waiting. *)
Theorem flusher_never_answers config s :
  sys_reachable (Flusher.mk config FlusherInner.Main) s →
  (length (posted s) ≤ CONTROL_CHAN_SIZE)%nat → waiters (posted s) ≠ [] →
  served s = [] ∧
  (∀ id, id ∈ waiters (posted s) → pending s id ∧ snd (Tx_await id (ipc s)) = Diverge) ∧
  (sys_queue s = [] → ∀ s', ¬ server_step s s').
Proof. intros Hr. exact (waiting_for_a_full_batch _ s eq_refl eq_refl Hr). Qed.

(** C24: to wait for the flusher to close is to wait for ever, as long as no more requests are
    made of it than fit in a batch: whatever its thread and all others do between the
    request to close and the look at the response. *)
Theorem closing_the_flusher_never_returns config s thrd wake joined s' :
  sys_reachable (Flusher.mk config FlusherInner.Main) s → (0 < sys_senders s)%nat →
  Thread.tx thrd = Some (Tx.N false) →
  rtc sys_step (submitted FlusherRequest.Close s) s' → (length (posted s') ≤ CONTROL_CHAN_SIZE)%nat →
  snd (Flusher_close_wait wake (λ _, ipc s') joined (Flusher.mk config (FlusherInner.Handle thrd)) (ipc s)) = Diverge.
Proof.
  intros Hr H0 Htx Hs Hle.
  assert (get_waits (T := Flusher) (Q := FlusherRequest) (R := FlusherResponse) = true) as Hg by reflexivity.
  assert (takes_requests (T := Flusher) (Q := FlusherRequest) (R := FlusherResponse) = true) as Ht by reflexivity.
  assert (chan_bound (T := Flusher) (Q := FlusherRequest) (R := FlusherResponse) = None) as Hn by reflexivity.
  pose proof (sys_reachable_inv _ _ Hr) as HI.
  pose proof (posted_prefix _ _ Hs) as [l Hl].
  assert (posted s' = posted s ++ [(FlusherRequest.Close, Some (length (Ipc.responses (ipc s))))] ++ l) as Hp.
  { rewrite Hl. unfold submitted. cbn [posted]. by rewrite <- app_assoc. }
  assert (alive s) as Ha.
  { destruct (fills_up_reachable _ s Ht Hg Hr) as [[_ [reqs E]]|[E _]].
    - change (length (posted s) ≤ CONTROL_CHAN_SIZE)%nat. rewrite Hp, length_app in Hle. lia.
    - unfold alive. by rewrite E.
    - lia. }
  destruct (submit_eq wake FlusherRequest.Close s Hn HI Ha) as [Hsub _].
  assert (sys_reachable (Flusher.mk config FlusherInner.Main) s') as Hr'.
  { unfold sys_reachable in *. etrans; [exact Hr|]. eapply rtc_l; [by apply submitted_step|exact Hs]. }
  assert (length (Ipc.responses (ipc s)) ∈ waiters (posted s')) as Hin.
  { rewrite Hp, waiters_app. apply elem_of_app. right. by left. }
  destruct (waiting_for_a_full_batch _ s' Ht Hg Hr' Hle) as (_ & Hw & _).
  { intros E. rewrite E in Hin. by apply not_elem_of_nil in Hin. }
  destruct (Hw _ Hin) as [_ Hd].
  unfold Flusher_close_wait. cbn [Flusher.inner]. unfold mbind at 1, M_bind at 1, ignored.
  unfold Thread_request, thread_tx. rewrite Htx, lift_bind_Ok. unfold Tx_request.
  erewrite M_bind_Ok by exact Hsub. erewrite M_bind_Ok by done.
  destruct (Tx_await _ (ipc s')) as [i r]. cbn [snd] in Hd. by subst r.
Qed.

(** A copy of a flusher's handle does not flush connections. *)
Lemma copies_do_not_flush wake meanwhile self copy i i' socket e :
  Flusher_to_tx self i = (i', Ok copy) →
  Flusher_flush_connection wake meanwhile socket e copy i' = (i', Panic).
Proof.
  unfold Flusher_to_tx. intros (i1 & inner & H & Hc)%M_bind_inv. injection Hc as <- <-.
  unfold Flusher_flush_connection. cbn [Flusher.inner].
  destruct (Flusher.inner self) as [|thrd|tx| |]; try done.
  - apply M_bind_inv in H as (i2 & tx & _ & H). by injection H as _ <-.
  - apply M_bind_inv in H as (i2 & tx' & _ & H). by injection H as _ <-.
Qed.

(** * The listener *)

Definition started (self : Listener) : list bytes :=
  match Listener.inner self with ListenerInner.Main r => ListenerLoop.handshakes r | _ => [] end.

Lemma Thread_drop_running name size : Thread_drop (fst (Thread_spawn_sync (Q := unit) (R := unit) name size)) = Panic.
Proof. done. Qed.

Lemma accept_conn_eq a self :
  Listener_accept_conn a self =
  match Listener.inner self, a with
  | ListenerInner.Main run, Accept addr =>
      (Listener.mk (Listener.port self) (Listener.config self)
         (ListenerInner.Main (ListenerLoop.mk (ListenerLoop.cluster run) (ListenerLoop.handshakes run ++ [addr]))),
       Panic)
  | ListenerInner.Main _, WouldBlock => (self, Ok (QueueStatus.Block []))
  | ListenerInner.Main _, AcceptError => (self, Ok (QueueStatus.Disconnected []))
  | _, _ => (self, Panic)
  end.
Proof. by destruct self as [p c []], a. Qed.

Lemma accept_all_started answers self self' r :
  started self = [] → accept_all answers self = (self', r) → r ≠ Diverge →
  match r with Ok _ => started self' = [] | _ => (length (started self') ≤ 1)%nat end.
Proof.
  intros H0 E Hd. destruct answers as [|a answers]; [by injection E as _ <-|].
  cbn [accept_all] in E. unfold mbind, M_bind in E. rewrite accept_conn_eq in E. unfold started in *.
  destruct (Listener.inner self) as [|thrd|run| ] eqn:Ei; destruct a as [addr| |];
    injection E as <- <-; cbn; rewrite ?Ei, ?H0; cbn; done || lia.
Qed.

(** C23: in every interleaving of the listener with those that talk to it and with the sockets it
    polls, it accepts at most one connection: it starts the handshake and ends by a panic,
    since it drops the handle of the handshake's thread. *)
Theorem listener_accepts_one_connection port config cluster s :
  sys_reachable (Listener.mk port config (ListenerInner.Main (ListenerLoop.mk cluster []))) s →
  (length (started (self s)) ≤ 1)%nat ∧ (started (self s) ≠ [] → phase s = Exited Panic).
Proof.
  intros Hr.
  apply (sys_reachable_kept (λ _ t, started t = [])
    (λ _ j t, match j with Ok _ => started t = [] | _ => j = Panic ∧ (length (started t) ≤ 1)%nat end)) in Hr.
  - unfold kept in Hr. destruct (phase s) as [| | |[t| | |]]; try (rewrite Hr; split; [cbn; lia|done]).
    1-3: by destruct Hr as [E Hl]; split.
  - intros _ q w t t' r H0 E Hd. destruct q, w; cbn in E.
    + destruct t as [p c []]; injection E as <- <-; done || (split; [done|cbn; lia]).
    + injection E as <- <-. rewrite H0. split; [done|cbn; lia].
  - intros _ t t' r H0 [[-> ->]|[answers E]] Hd; [done|].
    pose proof (accept_all_started answers t t' r H0 E Hd) as H. by destruct r.
  - intros _ t t' r H0 E Hd. destruct t as [p c []]; cbn in E; injection E as <- <-;
      (split; [done|cbn in *; rewrite ?H0; cbn; lia]) || done.
  - done.
Qed.

Lemma Listener_handles_ends : handles_ends (T := Listener).
Proof.
  split_and!.
  - intros q w t. destruct (Listener_handle_request q w t) as [t' r] eqn:E. exists t', r. split; [exact E|].
    intros ->. by destruct q, w, t as [p c []].
  - intros t. exists t, (Ok false). split; [by left|done].
  - intros t. destruct (Listener_finish t) as [t' r] eqn:E. exists t', r. split; [exact E|].
    intros ->. by destruct t as [p c []].
Qed.

(** * The ticker *)

Definition running_ticker (config : Config) (born : Z) (n : u64) (shards : list u32) (wakes : list (option u32))
    : Ticker :=
  Ticker.mk config (TickerInner.Main (TickerLoop.mk born n shards wakes)).

(** Nothing was requested, and the wakers do their work. *)
Definition quiet_round (shards : list u32) (round : TickerRound) : Prop :=
  TickerRound.rx round = Empty ∧ TickerRound.cluster_wakes round = true ∧
  ∀ i, (i < length shards)%nat → TickerRound.shard_wakes round i = true.

Definition all_wakes (shards : list u32) : list (option u32) := None :: (Some <$> shards).

Lemma wake_shards_eq config born n all shards : ∀ oks wakes,
  (∀ i, (i < length shards)%nat → oks i = true) →
  wake_shards oks shards (running_ticker config born n all wakes)
  = (running_ticker config born n all (wakes ++ (Some <$> shards)), Ok ()).
Proof.
  induction shards as [|id shards IH]; intros oks wakes Hok; [by rewrite app_nil_r|].
  cbn [wake_shards fmap list_fmap]. erewrite M_bind_Ok.
  2: { unfold tick. by rewrite (Hok 0%nat) by (cbn; lia). }
  cbn [TickerLoop.born TickerLoop.ticker_count TickerLoop.shards TickerLoop.wakes].
  etrans; [apply (IH _ (wakes ++ [Some id]))|by rewrite <- app_assoc].
  intros i Hi. apply Hok. cbn. lia.
Qed.

Lemma Ticker_round_eq config born n shards wakes round :
  n + 1 < 2 ^ 64 → quiet_round shards round →
  Ticker_round round (running_ticker config born n shards wakes)
  = (running_ticker config born (n + 1) shards (wakes ++ all_wakes shards), Ok false).
Proof.
  intros Hn (Erx & Ec & Es). unfold Ticker_round. rewrite Erx, Ec.
  erewrite M_bind_Ok; [done|]. unfold Ticker_tick.
  erewrite M_bind_Ok by done. cbv beta.
  erewrite M_bind_Ok by (unfold ticker_incr; cbn [TickerLoop.ticker_count]; by rewrite (proj2 (Z.ltb_lt _ _))).
  cbn [TickerLoop.born TickerLoop.ticker_count TickerLoop.shards TickerLoop.wakes].
  erewrite M_bind_Ok by done. erewrite M_bind_Ok by done.
  etrans; [by apply wake_shards_eq|]. unfold all_wakes. by rewrite <- app_assoc.
Qed.

(** In every round in which nothing is requested the ticker counts, and wakes the cluster and
    then each of its shards, in order; the first request to close, or the loss of its
    senders, ends it with the number of those rounds. *)
Theorem ticker_wakes_all_until_closed config born n shards wakes rounds rest last dead :
  n + Z.of_nat (length rounds) < 2 ^ 64 → Forall (quiet_round shards) rounds →
  let count := n + Z.of_nat (length rounds) in
  Ticker_main_loop (rounds ++ rest) dead (running_ticker config born n shards wakes)
    = Ticker_main_loop rest dead
        (running_ticker config born count shards (wakes ++ mjoin (replicate (length rounds) (all_wakes shards)))) ∧
  (TickerRound.rx last = Received (TickerRequest.Close, true) ∨ TickerRound.rx last = SendersGone →
   Ticker_main_loop (rounds ++ [last]) dead (running_ticker config born n shards wakes)
     = (Ticker.mk config (TickerInner.Close (TickerFin.mk born count dead)), Ok ())).
Proof.
  intros Hn Hq count.
  assert (∀ rest, Ticker_main_loop (rounds ++ rest) dead (running_ticker config born n shards wakes)
    = Ticker_main_loop rest dead
        (running_ticker config born count shards (wakes ++ mjoin (replicate (length rounds) (all_wakes shards))))) as H.
  { clear rest. intros rest. subst count. revert n wakes Hn.
    induction Hq as [|round rounds Hr _ IH]; intros n wakes Hn.
    { cbn [app length replicate mjoin list_join]. by rewrite Z.add_0_r, app_nil_r. }
    cbn [length] in Hn. cbn [app Ticker_main_loop].
    erewrite M_bind_Ok by (apply Ticker_round_eq; [lia|done]). cbv beta iota.
    rewrite IH by lia. cbn [length replicate mjoin list_join].
    rewrite <- app_assoc. do 2 f_equal. lia. }
  split; [apply H|]. intros Hl. rewrite H. cbn [Ticker_main_loop].
  erewrite M_bind_Ok; [|unfold Ticker_round; by destruct Hl as [->| ->]]. done.
Qed.

(** * Instances *)

Definition ex_service_config : Config :=
  Config.mk [0x6d] None (Some 4) (Some 1883) None None None None None None None None None None None None None None.
Definition ex_flusher_sys : Sys Flusher FlusherRequest FlusherResponse :=
  sys_new (Flusher.mk ex_service_config FlusherInner.Main).
Definition ex_listener : Listener :=
  Listener.mk 1883 ex_service_config (ListenerInner.Main (ListenerLoop.mk (Tx.N true) [])).

Lemma closing_the_flusher_never_returns_witness :
  let s := ex_flusher_sys in
  let s' := submitted FlusherRequest.Close s in
  snd (Flusher_close_wait (Ok ()) (λ _, ipc s') None
         (Flusher.mk ex_service_config (FlusherInner.Handle (Thread.mk [] true (Some (Tx.N false))))) (ipc s)) = Diverge.
Proof.
  intros s s'. apply (closing_the_flusher_never_returns ex_service_config s _ (Ok ()) None s').
  - constructor.
  - cbn. lia.
  - done.
  - constructor.
  - vm_compute. lia.
Defined.

(** A flusher that was asked to close, and has taken the request. *)
Lemma flusher_never_answers_witness :
  ∃ s, sys_reachable (Flusher.mk ex_service_config FlusherInner.Main) s ∧
    posted s = [(FlusherRequest.Close, Some 0%nat)] ∧ pending s 0 ∧ ∀ s', ¬ server_step s s'.
Proof.
  eexists. match goal with |- ?A ∧ _ => assert A as Hr end.
  { eapply rtc_l; [right; left; eapply step_submit; [|reflexivity..]; cbn; lia|].
    eapply rtc_l; [left; eapply step_take; reflexivity|]. constructor. }
  split; [exact Hr|]. split; [reflexivity|].
  edestruct (flusher_never_answers ex_service_config _ Hr) as (_ & Hp & Hs); [vm_compute; lia|done|].
  split; [apply Hp; by left|]. by apply Hs.
Defined.

(** A listener that accepts a connection. *)
Lemma listener_accepts_one_connection_witness :
  ∃ s, sys_reachable ex_listener s ∧ started (self s) = [[0x7f]] ∧ phase s = Exited Panic.
Proof.
  eexists. match goal with |- ?A ∧ _ => assert A as Hr end.
  { eapply rtc_l; [right; right; by apply (step_event _ [])|].
    eapply rtc_l; [left; eapply (step_work_panic _ _ Panic)|constructor]; [reflexivity|..|done|done].
    right. exists [Accept [0x7f]]. reflexivity. }
  split; [exact Hr|]. split; [reflexivity|].
  by apply (listener_accepts_one_connection 1883 ex_service_config (Tx.N true) _ Hr).
Defined.

(** A listener that is asked to close, before and after it answered. *)
Definition ex_asked : Sys Listener ListenerRequest ListenerResponse :=
  mkSys (Ipc.mk (Chan.mk [(ListenerRequest.Close, Some 0%nat)] None 1 true) [channel] false)
    ex_listener Polling 1 [(ListenerRequest.Close, Some 0%nat)] [].

Lemma ex_asked_reachable : sys_reachable ex_listener ex_asked.
Proof.
  eapply rtc_l; [right; left; eapply (step_submit _ ListenerRequest.Close); [|reflexivity..]; cbn; lia|].
  constructor.
Qed.

Lemma requests_are_served_in_order_witness :
  sys_reachable ex_listener ex_asked ∧ pending ex_asked 0 ∧
  posted ex_asked = served_reqs ex_asked ++ unserved ex_asked.
Proof.
  split; [exact ex_asked_reachable|].
  destruct (requests_are_served_in_order ex_listener ex_asked ex_asked_reachable) as (Ha & _).
  destruct (Ha I) as [Ho Hp]. split; [apply Hp; by left|exact Ho].
Defined.

Lemma every_request_is_answered_witness :
  sys_reachable ex_listener ex_asked ∧ pending ex_asked 0 ∧
  ∀ s', rtc own_step ex_asked s' → (∀ s'', ¬ own_step s' s'') → ¬ pending s' 0.
Proof.
  split; [exact ex_asked_reachable|]. split; [by exists channel|]. intros s' Hs Hno.
  assert (get_waits (T := Listener) (Q := ListenerRequest) (R := ListenerResponse) = false) as Hg by reflexivity.
  destruct (every_request_is_answered ex_listener ex_asked Hg Listener_handles_ends ex_asked_reachable) as [_ H].
  by apply (H s' Hs Hno).
Defined.

Lemma ticker_wakes_all_until_closed_witness :
  Ticker_main_loop [TickerRound.mk Empty true (λ _, true); TickerRound.mk SendersGone true (λ _, true)] 9
    (running_ticker ex_service_config 5 0 [0; 1] [])
  = (Ticker.mk ex_service_config (TickerInner.Close (TickerFin.mk 5 1 9)), Ok ()).
Proof.
  apply (ticker_wakes_all_until_closed ex_service_config 5 0 [0; 1] []
    [TickerRound.mk Empty true (λ _, true)] [] (TickerRound.mk SendersGone true (λ _, true)) 9).
  - cbn. lia.
  - by repeat constructor.
  - by right.
Defined.
