(* ===== verification/Session.v ===== *)
(** Model of [src/message.rs] and of the part of [src/session.rs] that needs no shard: the
    messages between sessions, the state of a session, its out-bound back-log and
    in-flight index, its duplicate detection and its topic aliases.

    The queue to the connection's thread is given by its answers ([Queue]); the packets
    it takes are part of what flushing gives back.  The response information of
    [src/rr.rs] is here as well.  Left out: log messages, and the
    address that only they print. *)

From S2P Require Import Prelude Error Util Codec Types V5 PublishPacket SubPackets ConnectPackets.
From S2P Require Import Packets Config Ttrie State Queue KeepAlive.
Local Open Scope Z_scope.

#[export] Instance ClientID_countable : Countable ClientID :=
  inj_countable' client_id_str mkClientID ltac:(by intros []).
#[export] Instance TopicFilter_countable : Countable TopicFilter :=
  inj_countable' topic_filter_str mkTopicFilter ltac:(by intros []).

(** The order of the derived [Ord]s. *)
Definition ClientID_cmp (x y : ClientID) : comparison :=
  str_cmp (client_id_str x) (client_id_str y).
Definition TopicFilter_cmp (x y : TopicFilter) : comparison :=
  str_cmp (topic_filter_str x) (topic_filter_str y).
Definition QoS_min (x y : QoS) : QoS := if u8_from_QoS y <? u8_from_QoS x then y else x.
Definition QoS_max (x y : QoS) : QoS := if u8_from_QoS y <? u8_from_QoS x then x else y.

(** * Messages *)

(** src/message.rs:163-182 [Message] *)
Module Message.
Inductive Message :=
| LocalAck (shard_id : u32) (last_received_ack : u64)
| Packet (client_id : ClientID) (shard_id : u32) (seqno : u64) (packet_id : u16)
    (subscriptions : list Subscription) (packet : Packet)
| ClientAck (packet : Packet).
End Message.
Abbreviation Message := Message.Message.

(** src/message.rs:186-188 [Message::new_client_ack] *)
Definition Message_new_client_ack (packet : Packet) : Message := Message.ClientAck packet.

(** src/message.rs:192-198 [Message::into_packet] *)
Definition Message_into_packet (self : Message) : Result Packet :=
  match self with
  | Message.ClientAck packet => Ok packet
  | Message.Packet _ _ _ _ _ packet => Ok packet
  | Message.LocalAck _ _ => Panic
  end.

(** The client of the first subscription. *)
(** src/message.rs:202-207 [Message::as_client_id] *)
Definition Message_as_client_id (self : Message) : Result ClientID :=
  match self with
  | Message.Packet _ _ _ _ (s :: _) _ => Ok (Subscription.client_id s)
  | _ => Panic
  end.

(** src/message.rs:112-144 [ClientOut] *)
Module ClientOut.
Record ClientOut := mk {
  seqno : u64;
  index : gmap u16 Message;
  next_packet_id : u16;
  back_log : list Message;
}.
End ClientOut.
Abbreviation ClientOut := ClientOut.ClientOut.

(** src/message.rs:83-109 [ClientInp] *)
Module ClientInp.
Record ClientInp := mk {
  seqno : u64;
  unacks : gmap u64 Message;
  timestamp : gmap u32 (u64 * u64);
}.
End ClientInp.
Abbreviation ClientInp := ClientInp.ClientInp.

(** src/message.rs:148-153 [ClientInp::remove_session] *)
Fixpoint seqnos_of_client (client_id : ClientID) (unacks : list (u64 * Message))
    : Result (list u64) :=
  match unacks with
  | [] => Ok []
  | (seqno, msg) :: unacks =>
      id ← Message_as_client_id msg;
      seqnos ← seqnos_of_client client_id unacks;
      Ok (if bool_decide (id = client_id) then seqno :: seqnos else seqnos)
  end.

(** src/message.rs:147-158 [ClientInp::remove_session] *)
Definition ClientInp_remove_session (self : ClientInp) (client_id : ClientID)
    : Result ClientInp :=
  seqnos ← seqnos_of_client client_id (btree_iter Z.compare (ClientInp.unacks self));
  Ok (ClientInp.mk (ClientInp.seqno self)
        (foldl (λ m seqno, delete seqno m) (ClientInp.unacks self) seqnos)
        (ClientInp.timestamp self)).

(** * Sessions *)

(** src/session.rs:130-136 [WillMessage] *)
Module WillMessage.
Record WillMessage := mk {
  retain : bool;
  qos : QoS;
  properties : WillProperties;
  topic : TopicName;
  payload : bytes;
}.
End WillMessage.
Abbreviation WillMessage := WillMessage.WillMessage.

(** src/session.rs:87-125 [Session] *)
Module Session.
Record Session := mk {
  client_id : ClientID;
  client_receive_maximum : u16;
  client_max_packet_size : u32;
  client_topic_alias_max : option u16;
  session_expiry_interval : option u32;
  config : Config;
  miot_tx : PktTx;
  session_rx : PktRx;
  will_message : option WillMessage;
  keep_alive : KeepAlive;
  topic_aliases : gmap u16 TopicName;
  response_info : option bytes;
  qos1 : list u16;
  qos2 : list u16;
  subscriptions : gmap TopicFilter Subscription;
  cout : ClientOut;
}.
Section setters.
Context (s : Session).
Definition set_keep_alive (v : KeepAlive) : Session :=
  mk (client_id s) (client_receive_maximum s) (client_max_packet_size s)
    (client_topic_alias_max s) (session_expiry_interval s) (config s) (miot_tx s)
    (session_rx s) (will_message s) v (topic_aliases s) (response_info s)
    (qos1 s) (qos2 s) (subscriptions s) (cout s).
Definition set_topic_aliases (v : gmap u16 TopicName) : Session :=
  mk (client_id s) (client_receive_maximum s) (client_max_packet_size s)
    (client_topic_alias_max s) (session_expiry_interval s) (config s) (miot_tx s)
    (session_rx s) (will_message s) (keep_alive s) v (response_info s)
    (qos1 s) (qos2 s) (subscriptions s) (cout s).
Definition set_qos (v1 v2 : list u16) : Session :=
  mk (client_id s) (client_receive_maximum s) (client_max_packet_size s)
    (client_topic_alias_max s) (session_expiry_interval s) (config s) (miot_tx s)
    (session_rx s) (will_message s) (keep_alive s) (topic_aliases s) (response_info s)
    v1 v2 (subscriptions s) (cout s).
Definition set_subscriptions (v : gmap TopicFilter Subscription) : Session :=
  mk (client_id s) (client_receive_maximum s) (client_max_packet_size s)
    (client_topic_alias_max s) (session_expiry_interval s) (config s) (miot_tx s)
    (session_rx s) (will_message s) (keep_alive s) (topic_aliases s) (response_info s)
    (qos1 s) (qos2 s) v (cout s).
Definition set_cout (v : ClientOut) : Session :=
  mk (client_id s) (client_receive_maximum s) (client_max_packet_size s)
    (client_topic_alias_max s) (session_expiry_interval s) (config s) (miot_tx s)
    (session_rx s) (will_message s) (keep_alive s) (topic_aliases s) (response_info s)
    (qos1 s) (qos2 s) (subscriptions s) v.
End setters.
End Session.
Abbreviation Session := Session.Session.

(** src/session.rs:76-82 [SessionArgs] *)
Module SessionArgs.
Record SessionArgs := mk {
  client_id : ClientID;
  shard_id : u32;
  miot_tx : PktTx;
  session_rx : PktRx;
}.
End SessionArgs.
Abbreviation SessionArgs := SessionArgs.SessionArgs.

(** [Option::unwrap]. *)
Definition unwrap_some {A} (o : option A) : Result A :=
  match o with Some a => Ok a | None => Panic end.

(** src/session.rs:147-157 [Session::start] *)
Definition start_will (pkt : Connect) : Result (option WillMessage) :=
  '(_clean_start, wflag, qos, retain) ← ConnectFlags_unwrap (Connect.flags pkt);
  if wflag : bool then
    properties ← unwrap_some (ConnectPayload.will_properties (Connect.payload pkt));
    topic ← unwrap_some (ConnectPayload.will_topic (Connect.payload pkt));
    payload ← unwrap_some (ConnectPayload.will_payload (Connect.payload pkt));
    Ok (Some (WillMessage.mk retain qos properties topic payload))
  else Ok None.

(** src/session.rs:139-183 [Session::start] *)
Definition Session_start (now : Z) (args : SessionArgs) (config : Config) (pkt : Connect)
    : Result Session :=
  let cout := ClientOut.mk 1 ∅ 1 [] in
  will_message ← start_will pkt;
  let sei := Config_mqtt_session_expiry_interval config (Connect_session_expiry_interval pkt) in
  Ok (Session.mk (SessionArgs.client_id args) (Connect_receive_maximum pkt)
        (Connect_max_packet_size pkt) (Connect_topic_alias_max pkt) sei config
        (SessionArgs.miot_tx args) (SessionArgs.session_rx args) will_message
        (KeepAlive_new now pkt config) ∅ None [] [] ∅ cout).

(** src/session.rs:185-208 [Session::success_ack] *)
Definition Session_success_ack (self : Session) (pkt : Connect) : Result ConnAck :=
  let config := Session.config self in
  maximum_qos ← unwrap (QoS_try_from (Config_mqtt_maximum_qos config));
  max_packet_size ← Config_mqtt_max_packet_size config;
  let props :=
    ConnAckProperties.mk (Session.session_expiry_interval self)
      (Some (Config_mqtt_receive_maximum config)) (Some maximum_qos)
      (Some (Config_mqtt_retain_available config)) (Some max_packet_size)
      None (Config_mqtt_topic_alias_max config) None
      (Some true) (Some true) None None None None None None [] in
  let props :=
    if (length (client_id_str (ConnectPayload.client_id (Connect.payload pkt))) =? 0)%nat
    then ConnAckProperties.set_assigned_client_identifier
           (Some (client_id_str (Session.client_id self))) props
    else props in
  let props :=
    match KeepAlive_keep_alive (Session.keep_alive self) with
    | Some keep_alive => ConnAckProperties.set_server_keep_alive (Some keep_alive) props
    | None => props
    end in
  Ok (ConnAck_new_success (Some props)).

(** src/session.rs:217-221 [Session::remove_topic_filters] *)
Fixpoint unsubscribe_all (subscriptions : list (TopicFilter * Subscription))
    (topic_filters : Inner Subscription) : Result (Inner Subscription) :=
  match subscriptions with
  | [] => Ok topic_filters
  | (topic_filter, value) :: subscriptions =>
      topic_filters ←
        SubscribedTrie_unsubscribe topic_filters (TopicFilter_iter_topic_path topic_filter) value;
      unsubscribe_all subscriptions topic_filters
  end.
(** src/session.rs:217-221 [Session::remove_topic_filters] *)
Definition Session_remove_topic_filters (self : Session) (topic_filters : Inner Subscription)
    : Result (Inner Subscription) :=
  unsubscribe_all (btree_iter TopicFilter_cmp (Session.subscriptions self)) topic_filters.

(** What a CONNACK may say of response topics; nothing calls it yet. *)
(** src/rr.rs:5-7 [ResponseInfo] *)
Inductive ResponseInfo := ResponseInfo_ClientID.

(** src/rr.rs:9-18 [ResponseInfo::get_response_info] *)
Definition ResponseInfo_get_response_info (self : ResponseInfo) (connect : Connect) : option bytes :=
  properties ← Connect.properties connect;
  info ← ConnectProperties.request_response_info properties;
  if info : bool then
    match self with
    | ResponseInfo_ClientID => Some (client_id_str (ConnectPayload.client_id (Connect.payload connect)))
    end
  else None.

(** ** Out-bound messages *)

(** src/session.rs:618-626 [Session::incr_cout_seqno] *)
Definition Session_incr_cout_seqno : M Session (u64 * u16) := λ self,
  let cout := Session.cout self in
  let '(seqno, packet_id) := (ClientOut.seqno cout, ClientOut.next_packet_id cout) in
  let next := (packet_id + 1) mod 2 ^ 16 in
  let cout :=
    ClientOut.mk (Z.min (seqno + 1) (2 ^ 64 - 1)) (ClientOut.index cout)
      (if next =? 0 then 1 else next) (ClientOut.back_log cout) in
  (Session.set_cout self cout, Ok (seqno, packet_id)).

(** src/message.rs:239-258 [Message::cout_publish] *)
Fixpoint cout_loop (server_qos : QoS) (client_id : ClientID) (shard_id : u32) (publish : Publish)
    (subscriptions : list Subscription) : M Session (list Message) :=
  match subscriptions with
  | [] => mret []
  | subscr :: subscriptions =>
      let retain := Subscription.retain_as_published subscr && Publish.retain publish in
      let qos := QoS_min (QoS_min server_qos (Subscription.qos subscr)) (Publish.qos publish) in
      '(seqno, packet_id) ← Session_incr_cout_seqno;
      let p := Publish_set_packet_id (Publish_set_fixed_header publish retain qos false) packet_id in
      let p := Publish_add_subscription_id p (Subscription.subscription_id subscr) in
      msgs ← cout_loop server_qos client_id shard_id publish subscriptions;
      mret (Message.Packet client_id shard_id seqno packet_id [] (Packet.Publish p) :: msgs)
  end.

(** src/message.rs:218-261 [Message::cout_publish] *)
Definition Message_cout_publish (self : Message) : M Session (list Message) :=
  match self with
  | Message.Packet client_id shard_id _ _ subscriptions (Packet.Publish publish) =>
      config ← gets Session.config;
      server_qos ← lift (unwrap (QoS_try_from (Config_mqtt_maximum_qos config)));
      cout_loop server_qos client_id shard_id publish subscriptions
  | _ => panic
  end.

(** [VecDeque::push_back] on the back-log. *)
(** src/session.rs:419-424 [Session::in_messages] *)
Definition push_back_log (msgs : list Message) : M Session unit :=
  modify (λ self,
    let cout := Session.cout self in
    Session.set_cout self
      (ClientOut.mk (ClientOut.seqno cout) (ClientOut.index cout)
         (ClientOut.next_packet_id cout) (ClientOut.back_log cout ++ msgs))).

(** src/session.rs:416-427 [Session::in_messages] *)
Definition in_message (msg : Message) : M Session unit :=
  match msg with
  | Message.ClientAck _ => push_back_log [msg]
  | Message.Packet _ _ _ _ _ _ => msgs ← Message_cout_publish msg; push_back_log msgs
  | Message.LocalAck _ _ => panic
  end.

(** src/session.rs:415-440 [Session::in_messages] *)
Definition Session_in_messages (msgs : list Message) : M Session (QueueStatus Message) :=
  _ ← for_each msgs in_message;
  m ← gets (λ self, Z.of_nat (length (ClientOut.back_log (Session.cout self))));
  config ← gets Session.config;
  batch ← lift (Config_mqtt_pkt_batch_size config);
  if batch * 2 <? m then mret (QueueStatus.Disconnected []) else mret (QueueStatus.Ok []).

(** [msgs.into_iter().map(|m| m.into_packet()).collect()] *)
(** src/session.rs:450-451 [Session::flush_messages] *)
Fixpoint into_packets (msgs : list Message) : Result (list Packet) :=
  match msgs with
  | [] => Ok []
  | m :: msgs => p ← Message_into_packet m; ps ← into_packets msgs; Ok (p :: ps)
  end.

(** src/session.rs:457-465 [Session::flush_messages] *)
Fixpoint book_inflight (ok_msgs : list Message) (index : gmap u16 Message) : gmap u16 Message :=
  match ok_msgs with
  | [] => index
  | msg :: ok_msgs =>
      book_inflight ok_msgs
        (match msg with
         | Message.Packet _ _ _ packet_id _ _ => <[packet_id := msg]> index
         | _ => index
         end)
  end.

(** The status, and the packets the queue took. *)
(** src/session.rs:442-472 [Session::flush_messages] *)
Definition Session_flush_messages (chan : nat → send_answer)
    : M Session (QueueStatus Packet * list Packet) :=
  self ← get;
  let cout := Session.cout self in
  if Session.client_receive_maximum self <? Z.of_nat (size (ClientOut.index cout))
  then mret (QueueStatus.Block [], [])
  else
    let miot_tx := Session.miot_tx self in
    let msgs := ClientOut.back_log cout in
    pkts ← lift (into_packets msgs);
    let '(_, (sent, status)) := PktTx_try_sends miot_tx chan pkts in
    let '(remaining, status) := take_values status in
    let at_ := (length msgs - length remaining)%nat in
    let ok_msgs := drop at_ msgs in
    let msgs := take at_ msgs in
    _ ← modify (λ self, Session.set_cout self
          (ClientOut.mk (ClientOut.seqno cout) (book_inflight ok_msgs (ClientOut.index cout))
             (ClientOut.next_packet_id cout) msgs));
    mret (status, sent).

(** src/session.rs:474-476 [Session::retry_publish] *)
Definition Session_retry_publish : M Session unit := panic.

(** ** In-bound publish packets *)

(** [Vec<PacketID>::binary_search]. *)
Definition search_id (packet_id : u16) (ids : list u16) : Result (nat + nat) :=
  binary_search_by (λ id, Ok (Z.compare id packet_id)) ids.

(** src/session.rs:481-499 [Session::is_duplicate] *)
Definition Session_is_duplicate (self : Session) (publ : Publish) : Result bool :=
  let ignore_dup := Config_mqtt_ignore_duplicate (Session.config self) in
  let known ids :=
    packet_id ← unwrap_some (Publish.packet_id publ);
    r ← search_id packet_id ids;
    Ok match r with inl _ => true | inr _ => false end in
  match Publish.qos publ with
  | QoS.AtMostOnce => Ok false
  | QoS.AtLeastOnce =>
      if Publish.duplicate publ && ignore_dup then Ok false else known (Session.qos1 self)
  | QoS.ExactlyOnce =>
      if Publish.duplicate publ && ignore_dup then Ok false else known (Session.qos2 self)
  end.

(** Putting an identifier in its place. *)
(** src/session.rs:519-526 [Session::book_qos] *)
Definition book_id (packet_id : u16) (ids : list u16) : Result (list u16 * bool) :=
  r ← search_id packet_id ids;
  match r with
  | inl _off => Ok (ids, false)
  | inr off => ids ← vec_insert ids off packet_id; Ok (ids, true)
  end.

(** src/session.rs:501-527 [Session::book_qos] *)
Definition Session_book_qos (publ : Publish) : M Session bool :=
  self ← get;
  server_qos ← lift (unwrap (QoS_try_from (Config_mqtt_maximum_qos (Session.config self))));
  if u8_from_QoS server_qos <? u8_from_QoS (Publish.qos publ) then
    lift (err ErrorKind.ProtocolError ReasonCode.QoSNotSupported)
  else
    match Publish.qos publ with
    | QoS.AtMostOnce => mret true
    | QoS.AtLeastOnce =>
        packet_id ← lift (unwrap_some (Publish.packet_id publ));
        '(ids, new) ← lift (book_id packet_id (Session.qos1 self));
        _ ← modify (λ self, Session.set_qos self ids (Session.qos2 self));
        mret new
    | QoS.ExactlyOnce =>
        packet_id ← lift (unwrap_some (Publish.packet_id publ));
        '(ids, new) ← lift (book_id packet_id (Session.qos2 self));
        _ ← modify (λ self, Session.set_qos self (Session.qos1 self) ids);
        mret new
    end.

(** src/session.rs:536-543 [Session::unbook_qos] *)
Definition unbook_id (packet_id : u16) (ids : list u16) : Result (list u16 * bool) :=
  r ← search_id packet_id ids;
  match r with
  | inl off => '(_, ids) ← vec_remove ids off; Ok (ids, true)
  | inr _off => Ok (ids, false)
  end.

(** src/session.rs:529-544 [Session::unbook_qos] *)
Definition Session_unbook_qos (publ : Publish) : M Session bool :=
  self ← get;
  match Publish.qos publ with
  | QoS.AtMostOnce => mret true
  | QoS.AtLeastOnce =>
      packet_id ← lift (unwrap_some (Publish.packet_id publ));
      '(ids, found) ← lift (unbook_id packet_id (Session.qos1 self));
      _ ← modify (λ self, Session.set_qos self ids (Session.qos2 self));
      mret found
  | QoS.ExactlyOnce =>
      packet_id ← lift (unwrap_some (Publish.packet_id publ));
      '(ids, found) ← lift (unbook_id packet_id (Session.qos2 self));
      _ ← modify (λ self, Session.set_qos self (Session.qos1 self) ids);
      mret found
  end.

(** src/session.rs:546-595 [Session::publish_topic_name] *)
Definition Session_publish_topic_name (publ : Publish) : M Session TopicName :=
  self ← get;
  let '(topic_name, topic_alias) := (Publish.topic_name publ, Publish_topic_alias publ) in
  let alias_max := Config_mqtt_topic_alias_max (Session.config self) in
  let named := (0 <? length (topic_name_str topic_name))%nat in
  match topic_alias with
  | Some alias =>
      match alias_max with
      | None => lift (err ErrorKind.ProtocolError ReasonCode.TopicAliasInvalid)
      | Some alias_max =>
          if alias_max <? alias then
            lift (err ErrorKind.ProtocolError ReasonCode.TopicAliasInvalid)
          else if named then
            _ ← modify (λ self, Session.set_topic_aliases self
                  (<[alias := topic_name]> (Session.topic_aliases self)));
            mret topic_name
          else
            match Session.topic_aliases self !! alias with
            | Some topic_name => mret topic_name
            | None => lift (err ErrorKind.ProtocolError ReasonCode.TopicAliasInvalid)
            end
      end
  | None =>
      if named then mret topic_name
      else lift (err ErrorKind.ProtocolError ReasonCode.TopicNameInvalid)
  end.
