(* ===== verification/Miot.v ===== *)
(** Model of [src/miot.rs] and [src/handshake.rs]: the thread that moves packets between
    connections and sessions, and the handshake of a new connection.

    The sockets and queues answer as in [Socket]; the clock is read with them.  Whether the
    poller registers a socket and takes it out again, and what comes of posting to the
    shard, is given by a [MiotEnv].  A connection the shard was asked to flush is kept with
    the error as it was posted.  Left out: waiting in the poller, names and log messages. *)

From S2P Require Import Prelude Error Util Codec Types V5 AckPackets ConnectPackets Packets PacketIO.
From S2P Require Import Config State Queue Thread Server KeepAlive Session Socket.
Local Open Scope Z_scope.

(** * The miot thread *)

(** The connections are kept with the token they are registered under. *)
(** src/miot.rs:40-54 [RunLoop] *)
Module MiotLoop.
Record MiotLoop := mk {
  next_token : u64;
  conns : gmap ClientID (u64 * Socket);
  flushes : list (ClientID * Error);
}.
End MiotLoop.
Abbreviation MiotLoop := MiotLoop.MiotLoop.

(** src/miot.rs:56-61 [FinState] *)
Module MiotFin.
Record MiotFin := mk { next_token : u64; client_ids : list ClientID; tokens : list u64 }.
End MiotFin.
Abbreviation MiotFin := MiotFin.MiotFin.

(** src/miot.rs:30-38 [Inner] *)
Module MiotInner.
Inductive MiotInner := Init | Handle (thrd : Thread) | Main (run_loop : MiotLoop) | Close (fin : MiotFin).
End MiotInner.

(** src/miot.rs:20-28 [Miot] *)
Module Miot.
Record Miot := mk { miot_id : u32; config : Config; inner : MiotInner.MiotInner }.
End Miot.
Abbreviation Miot := Miot.Miot.

(** src/miot.rs:92-92 [Miot] *)
Definition FIRST_TOKEN : u64 := 2.

(** src/miot.rs:117-132 [Miot::spawn] *)
Definition Miot_main (miot_id : u32) (config : Config) : Miot :=
  Miot.mk miot_id config (MiotInner.Main (MiotLoop.mk FIRST_TOKEN ∅ [])).

Definition miot_loop : M Miot MiotLoop := λ self,
  match Miot.inner self with
  | MiotInner.Main r => (self, Ok r)
  | _ => (self, Panic)
  end.
Definition set_miot_inner (inner : MiotInner.MiotInner) : M Miot unit :=
  modify (λ self, Miot.mk (Miot.miot_id self) (Miot.config self) inner).

(** src/miot.rs:168-175 [AddConnectionArgs] *)
Module AddConnectionArgs.
Record AddConnectionArgs := mk {
  client_id : ClientID;
  upstream : PktTx;
  downstream : PktRx;
  client_max_packet_size : u32;
}.
End AddConnectionArgs.
Abbreviation AddConnectionArgs := AddConnectionArgs.AddConnectionArgs.

(** What the sockets and queues of the connections answer, when they are read and when they
    are written; whether the poller registers a new connection, and takes one out; what
    comes of posting a connection to the shard; and whether the program was compiled to
    check additions, as it is for debugging. *)
Module MiotEnv.
Record MiotEnv := mk {
  reads : ClientID → list ReadRound;
  writes : ClientID → list WriteRound;
  registers : bool;
  deregisters : ClientID → bool;
  posts : ClientID → Result unit;
  overflow_checks : bool;
}.
End MiotEnv.
Abbreviation MiotEnv := MiotEnv.MiotEnv.

(** [next_token.0 + 1] of a 64-bit [usize]: checked, or wrapping around. *)
(** src/miot.rs:394-394 [Miot::handle_add_connection] *)
Definition token_incr (overflow_checks : bool) (token : u64) : Result u64 :=
  if token + 1 <? 2 ^ 64 then Ok (token + 1) else if overflow_checks then Panic else Ok 0.

(** src/miot.rs:389-427 [Miot::handle_add_connection] *)
Definition Miot_handle_add_connection (env : MiotEnv) (args : AddConnectionArgs) : M Miot unit :=
  r ← miot_loop;
  let token := MiotLoop.next_token r in
  next_token ← lift (token_incr (MiotEnv.overflow_checks env) token);
  _ ← set_miot_inner (MiotInner.Main (MiotLoop.mk next_token (MiotLoop.conns r) (MiotLoop.flushes r)));
  _ ← lift (allow_panic (io_call (MiotEnv.registers env)));
  config ← gets Miot.config;
  max_packet_size ← lift (Config_mqtt_max_packet_size config);
  let rd := Source.mk (MQTTRead_new max_packet_size) None (AddConnectionArgs.upstream args) [] in
  let wt := Sink.mk (MQTTWrite_new [] (AddConnectionArgs.client_max_packet_size args)) None
              (AddConnectionArgs.downstream args) [] in
  let client_id := AddConnectionArgs.client_id args in
  set_miot_inner (MiotInner.Main
    (MiotLoop.mk next_token (<[client_id := (token, Socket.mk client_id rd wt)]> (MiotLoop.conns r))
       (MiotLoop.flushes r))).

(** src/miot.rs:429-449 [Miot::handle_remove_connection] *)
Definition Miot_handle_remove_connection (env : MiotEnv) (client_id : ClientID) : M Miot (option Socket) :=
  r ← miot_loop;
  match MiotLoop.conns r !! client_id with
  | Some (_, socket) =>
      _ ← set_miot_inner (MiotInner.Main
            (MiotLoop.mk (MiotLoop.next_token r) (delete client_id (MiotLoop.conns r)) (MiotLoop.flushes r)));
      _ ← lift (allow_panic (io_call (MiotEnv.deregisters env client_id)));
      mret (Some socket)
  | None => mret None
  end.

(** src/miot.rs:451-482 [Miot::handle_close] *)
Definition Miot_handle_close : M Miot unit :=
  r ← miot_loop;
  let conns := btree_iter ClientID_cmp (MiotLoop.conns r) in
  set_miot_inner (MiotInner.Close
    (MiotFin.mk (MiotLoop.next_token r) ((λ e, Socket.client_id e.2.2) <$> conns) ((λ e, e.2.1) <$> conns))).

(** [shard.flush_connection(socket, err)], a request posted to the shard, for a connection
    that failed and is still there. *)
(** src/miot.rs:348-351 [Miot::socket_to_session] *)
Definition flush_one (env : MiotEnv) (e : ClientID * Error) : M Miot unit :=
  removed ← Miot_handle_remove_connection env (fst e);
  match removed with
  | Some _ =>
      _ ← lift (allow_panic (MiotEnv.posts env (fst e)));
      r ← miot_loop;
      set_miot_inner (MiotInner.Main
        (MiotLoop.mk (MiotLoop.next_token r) (MiotLoop.conns r) (MiotLoop.flushes r ++ [e])))
  | None => mret ()
  end.

(** src/miot.rs:347-352 [Miot::socket_to_session] *)
Definition flush_failed (env : MiotEnv) (failed : list (ClientID * Error)) : M Miot unit :=
  for_each failed (flush_one env).

(** What reading a connection says of it. *)
(** src/miot.rs:329-344 [Miot::socket_to_session] *)
Definition read_failure {A} (r : Result (QueueStatus Packet * A)) : Result (option Error) :=
  match r with
  | Ok (QueueStatus.Ok _, _) | Ok (QueueStatus.Block _, _) => Ok None
  | Ok (QueueStatus.Disconnected _, _) => Ok (Some (mkError ErrorKind.Disconnected None))
  | Err e =>
      match kind e with
      | ErrorKind.ProtocolError | ErrorKind.MalformedPacket => Ok (Some e)
      | _ => Panic
      end
  | Panic => Panic
  | Diverge => Diverge
  end.

(** The connections, changed in place. *)
(** src/miot.rs:327-345 [Miot::socket_to_session] *)
Fixpoint each_connection (f : ClientID → Socket → Socket * Result (option Error))
    (clients : list (ClientID * (u64 * Socket))) (conns : gmap ClientID (u64 * Socket))
    : gmap ClientID (u64 * Socket) * Result (list (ClientID * Error)) :=
  match clients with
  | [] => (conns, Ok [])
  | (client_id, (token, socket)) :: clients =>
      let '(socket, r) := f client_id socket in
      let conns := <[client_id := (token, socket)]> conns in
      match r with
      | Ok failed =>
          let '(conns, rest) := each_connection f clients conns in
          (conns, rest ← rest;
                  Ok match failed with Some e => (client_id, e) :: rest | None => rest end)
      | Err e => (conns, Err e)
      | Panic => (conns, Panic)
      | Diverge => (conns, Diverge)
      end
  end.

(** src/miot.rs:327-352 [Miot::socket_to_session] *)
Definition move_packets (env : MiotEnv) (f : ClientID → Socket → Socket * Result (option Error))
    : M Miot unit :=
  r ← miot_loop;
  let '(conns, failed) := each_connection f (btree_iter ClientID_cmp (MiotLoop.conns r)) (MiotLoop.conns r) in
  _ ← set_miot_inner (MiotInner.Main (MiotLoop.mk (MiotLoop.next_token r) conns (MiotLoop.flushes r)));
  failed ← lift failed;
  flush_failed env failed.

(** src/miot.rs:319-353 [Miot::socket_to_session] *)
Definition Miot_socket_to_session (env : MiotEnv) : M Miot unit :=
  config ← gets Miot.config;
  move_packets env (λ client_id socket,
    let '(socket, r) := Socket_read_packets config (MiotEnv.reads env client_id) socket in
    (socket, read_failure r)).

(** src/miot.rs:355-385 [Miot::session_to_socket] *)
Definition Miot_session_to_socket (env : MiotEnv) : M Miot unit :=
  config ← gets Miot.config;
  move_packets env (λ client_id socket,
    let '(socket, r) := Socket_write_packets config (MiotEnv.writes env client_id) socket in
    (socket, match r with
             | Ok (QueueStatus.Disconnected _) => Ok (Some (mkError ErrorKind.Disconnected None))
             | Ok _ => Ok None
             | Err e => Err e
             | Panic => Panic
             | Diverge => Diverge
             end)).

(** src/miot.rs:157-161 [Request] *)
Inductive miot_request :=
| AddConnectionReq (args : AddConnectionArgs)
| RemoveConnectionReq (client_id : ClientID)
| CloseReq.

(** src/miot.rs:163-166 [Response] *)
Module MiotResponse.
Inductive MiotResponse := Ok | Removed (socket : Socket).
End MiotResponse.
Abbreviation MiotResponse := MiotResponse.MiotResponse.
Definition miot_ipc : Type := Ipc miot_request (Result MiotResponse).

(** A request, with whether its sender waits. *)
(** src/miot.rs:296-310 [Miot::drain_control_chan] *)
Definition Miot_handle_request (env : MiotEnv) (req : miot_request) (waits : bool)
    : M Miot (option (Result MiotResponse) * bool) :=
  match req, waits with
  | AddConnectionReq args, true =>
      _ ← Miot_handle_add_connection env args;
      mret (Some (Ok MiotResponse.Ok), false)
  | RemoveConnectionReq client_id, true =>
      removed ← Miot_handle_remove_connection env client_id;
      mret (Some (Ok match removed with
                     | Some socket => MiotResponse.Removed socket
                     | None => MiotResponse.Ok
                     end), false)
  | CloseReq, true => _ ← Miot_handle_close; mret (Some (Ok MiotResponse.Ok), true)
  | _, false => panic
  end.

(** src/miot.rs:286-315 [Miot::drain_control_chan] *)
Definition Miot_drain_control_chan (env : MiotEnv) (rx : nat → recv_answer (miot_request * bool))
    : M Miot (list (option (Result MiotResponse)) * (QueueStatus (miot_request * bool) * bool)) :=
  drain_control_chan (Miot_handle_request env) rx.

(** src/miot.rs:277-280 [Miot::mio_events] *)
Definition Miot_work (env : MiotEnv) : M Miot bool :=
  inner ← gets Miot.inner;
  match inner with
  | MiotInner.Close _ => mret false
  | _ =>
      _ ← Miot_socket_to_session env;
      _ ← Miot_session_to_socket env;
      mret false
  end.

(** src/miot.rs:259-283 [Miot::mio_events] *)
Definition Miot_mio_events (drains : list (nat → recv_answer (miot_request * bool))) (env : MiotEnv)
    : M Miot bool :=
  exit ← drain_until_empty (Miot_handle_request env) drains;
  if exit : bool then mret true else Miot_work env.

(** src/miot.rs:245-249 [Miot::main_loop] *)
Definition Miot_finish : M Miot unit :=
  inner ← gets Miot.inner;
  match inner with
  | MiotInner.Main _ => Miot_handle_close
  | MiotInner.Close _ => mret ()
  | _ => panic
  end.

(** The answers meanwhile, or that polling failed, each time the thread polls. *)
(** src/miot.rs:231-253 [Miot::main_loop] *)
Fixpoint Miot_main_loop (polls : list (option (list (nat → recv_answer (miot_request * bool)) * MiotEnv)))
    : M Miot unit :=
  match polls with
  | [] => lift Diverge
  | None :: _ => panic
  | Some (drains, env) :: polls =>
      exit ← Miot_mio_events drains env;
      if exit : bool then Miot_finish else Miot_main_loop polls
  end.

(** src/miot.rs:231-253 [Miot::main_loop] *)
#[export] Program Instance Miot_thread : Threadable Miot miot_request (Result MiotResponse) := {|
  chan_bound := None;
  takes_requests := true;
  get_waits := false;
  batch_max := CONTROL_CHAN_SIZE;
  close_breaks := false;
  handles q w t t' r := ∃ env, Miot_handle_request env q w t = (t', r);
  works t t' r := ∃ env, Miot_work env t = (t', r);
  finishes t t' r := Miot_finish t = (t', r);
|}.
Next Obligation.
  intros q w t t' r c [env H]. unfold Miot_handle_request in H.
  destruct q, w; try done; apply M_bind_inv in H as (? & ? & _ & H); by injection H as _ <- _.
Qed.

(** ** Handles *)

(** src/miot.rs:64-75 [Miot::default] *)
Definition Miot_default (num_cpus : nat) : Result Miot :=
  config ← Config_default num_cpus; Ok (Miot.mk 0 config MiotInner.Init).

(** src/miot.rs:96-107 [Miot::from_config] *)
Definition Miot_from_config (config : Config) (miot_id : u32) : Result Miot :=
  Ok (Miot.mk miot_id config MiotInner.Init).

(** src/miot.rs:79-87 [Miot::drop] *)
Definition Miot_drop (self : Miot) : Result unit :=
  match Miot.inner self with MiotInner.Handle thrd => Thread_drop thrd | _ => Ok () end.

(** Whether the poller and its waker are made; the handle, and the thread with what it
    shares with its handles. *)
(** src/miot.rs:109-147 [Miot::spawn] *)
Definition Miot_spawn (poll waker : bool) (self : Miot) : Result (Miot * (Miot * miot_ipc)) :=
  match Miot.inner self with
  | MiotInner.Handle _ | MiotInner.Main _ => err_desc ErrorKind.InvalidInput
  | _ =>
      _ ← io_call poll;
      _ ← io_call waker;
      let miot := Miot_main (Miot.miot_id self) (Miot.config self) in
      let '(thrd, ipc) := Thread_spawn [] in
      thrd ← Thread_set_waker thrd;
      Ok (Miot.mk (Miot.miot_id self) (Miot.config self) (MiotInner.Handle thrd), (miot, ipc))
  end.

(** src/miot.rs:149-154 [Miot::to_waker] *)
Definition Miot_to_waker (self : Miot) : Result unit :=
  match Miot.inner self with MiotInner.Handle _ => Ok () | _ => Panic end.

Section handle.
Context (wake_result : outcome unit unit) (meanwhile : miot_ipc → miot_ipc).

(** src/miot.rs:179-184 [Miot::wake] *)
Definition Miot_wake (self : Miot) : M miot_ipc unit :=
  match Miot.inner self with
  | MiotInner.Handle _ =>
      _ ← lift (allow_panic (err_try ErrorKind.IOError wake_result));
      modify (ipc_set_woken true)
  | _ => panic
  end.

Definition Miot_request (self : Miot) (req : miot_request) : M miot_ipc MiotResponse :=
  match Miot.inner self with
  | MiotInner.Handle thrd => response ← Thread_request wake_result meanwhile thrd req; lift response
  | _ => panic
  end.

(** src/miot.rs:186-197 [Miot::add_connection] *)
Definition Miot_add_connection (args : AddConnectionArgs) (self : Miot) : M miot_ipc unit :=
  response ← Miot_request self (AddConnectionReq args);
  match response with MiotResponse.Ok => mret () | MiotResponse.Removed _ => panic end.

(** src/miot.rs:199-210 [Miot::remove_connection] *)
Definition Miot_remove_connection (id : ClientID) (self : Miot) : M miot_ipc (option Socket) :=
  response ← Miot_request self (RemoveConnectionReq id);
  mret match response with MiotResponse.Removed socket => Some socket | MiotResponse.Ok => None end.

(** [thrd.request(req).ok().map(|x| x.ok()).flatten()] must give [Response::Ok]. *)
(** src/miot.rs:212-224 [Miot::close_wait] *)
Definition Miot_close_wait (joined : option (outcome unit Miot)) (self : Miot) : M miot_ipc Miot :=
  match Miot.inner self with
  | MiotInner.Handle thrd => λ ipc,
      let '(ipc, response) := Thread_request wake_result meanwhile thrd CloseReq ipc in
      match response with
      | Ok (Ok MiotResponse.Ok) => ('(_, miot) ← Thread_close_wait joined thrd; mret miot) ipc
      | Diverge => (ipc, Diverge)
      | _ => (ipc, Panic)
      end
  | _ => panic
  end.
End handle.

(** * The handshake *)

(** What a handshake comes to: the session is added, or the client is told no. *)
Inductive handshake_outcome := Accepted (pkt : Connect) | Refused (code : ReasonCode).

(** A round: the socket, and the clock after it. *)
(** src/handshake.rs:42-88 [Handshake::main_loop] *)
Fixpoint handshake_loop (timeout : Z) (packetr : MQTTRead) (rounds : list ((nat → io_read) * Z))
    : Result handshake_outcome :=
  match rounds with
  | [] => Diverge
  | (conn, now) :: rounds =>
      match MQTTRead_read packetr conn with
      | Err e =>
          match kind e with
          | ErrorKind.MalformedPacket | ErrorKind.ProtocolError => Ok (Refused (Error_code e))
          | _ => Panic
          end
      | Ok (packetr, _would_block) =>
          match packetr with
          | MQTTRead.Init _ _ | MQTTRead.Header _ _ _ | MQTTRead.Remain _ _ _ _ =>
              if now <? timeout then handshake_loop timeout packetr rounds
              else Ok (Refused ReasonCode.UnspecifiedError)
          | MQTTRead.Fin _ _ _ =>
              match MQTTRead_parse packetr with
              | Ok (Packet.Connect val) => Ok (Accepted val)
              | Ok _ => Ok (Refused ReasonCode.ProtocolError)
              | Err e =>
                  match kind e with
                  | ErrorKind.MalformedPacket | ErrorKind.ProtocolError => Ok (Refused (Error_code e))
                  | _ => Panic
                  end
              | Panic => Panic
              | Diverge => Diverge
              end
          | MQTTRead.None => Ok (Refused ReasonCode.UnspecifiedError)
          end
      | Panic => Panic
      | Diverge => Diverge
      end
  end.

(** The connection is known by its address, and is there until the thread takes it. *)
(** src/handshake.rs:15-21 [Handshake] *)
Module Handshake.
Record Handshake := mk { conn : option bytes; config : Config; cluster : Tx }.
End Handshake.
Abbreviation Handshake := Handshake.Handshake.

(** The CONNECT packet for the cluster, when there is one; otherwise a CONNACK is sent,
    whatever comes of it. *)
(** src/handshake.rs:27-107 [Handshake::main_loop] *)
Definition Handshake_main_loop (config : Config) (now : Z) (rounds : list ((nat → io_read) * Z))
    (last : list ((bytes → io_write) * Z)) : Result (option Connect) :=
  max_size ← Config_mqtt_max_packet_size config;
  let timeout := now + Config_connect_timeout config * NANOS in
  outcome ← handshake_loop timeout (MQTTRead_new max_size) rounds;
  match outcome with
  | Accepted pkt => Ok (Some pkt)
  | Refused code =>
      code ← unwrap (ConnackReasonCode_try_from (ReasonCode_as_u8 code));
      match send_connack code timeout max_size last with
      | Ok _ | Err _ => Ok None
      | Panic => Panic
      | Diverge => Diverge
      end
  end.

(** The thread: its queue, in which there is a place for one request, is never looked at.  What
    comes of the request to the cluster is not either, but it is waited for. *)
(** src/handshake.rs:23-108 [Handshake::main_loop] *)
Definition Handshake_thread_loop (now : Z) (rounds : list ((nat → io_read) * Z))
    (last : list ((bytes → io_write) * Z)) (add_connection : Result unit) : M Handshake unit :=
  self ← get;
  _ ← modify (λ self, Handshake.mk None (Handshake.config self) (Handshake.cluster self));
  _ ← lift (unwrap_some (Handshake.conn self));
  pkt_connect ← lift (Handshake_main_loop (Handshake.config self) now rounds last);
  match pkt_connect with
  | Some _ => ignored (lift add_connection)
  | None => mret ()
  end.

(** src/handshake.rs:23-108 [Handshake::main_loop] *)
#[export] Program Instance Handshake_thread : Threadable Handshake unit unit := {|
  chan_bound := Some 1%nat;
  takes_requests := false;
  get_waits := false;
  batch_max := 0;
  close_breaks := false;
  handles q w t t' r := False;
  works t t' r := ∃ now rounds last add_connection,
    (_ ← Handshake_thread_loop now rounds last add_connection; mret true) t = (t', r);
  finishes t t' r := t' = t ∧ r = Ok ();
|}.
Next Obligation. done. Qed.
