(* ===== verification/Shard.v ===== *)
(** Model of [src/shard.rs] and of the part of [src/session.rs] that works on a shard:
    routing of published packets to the sessions that subscribe to them, over the
    shards' message queues, and the sessions a shard hosts.

    A shard's thread owns its state; what other threads share with it is reached over
    queues, given by their answers in an [Env], or through the trie of subscriptions,
    which the shard here has to itself (interleavings are the matter of [Ttrie] and
    [Spinlock]).  Requests to the cluster and to the flusher are kept in the state as
    they are made.  Of the miot thread the state has the clients whose connection the
    shard gave it and did not take back.  Left out: the poller, names and log messages. *)

From S2P Require Import Prelude Error Util Codec Types V5 AckPackets PublishPacket SubPackets.
From S2P Require Import ConnectPackets Packets Config Ttrie Timer Retained State Queue Thread KeepAlive Session.
From S2P Require Import Flusher Miot.
Local Open Scope Z_scope.

(** * The state of a shard *)

(** The miot thread as it ended, and the clients whose sessions the shard had when it was
    closed; nothing else is left of them. *)
(** src/shard.rs:98-101 [FinState] *)
Module FinState.
Record FinState := mk { miot : Miot; sessions : gset ClientID }.
End FinState.
Abbreviation FinState := FinState.FinState.

(** src/shard.rs:51-96 [RunLoop] *)
Module RunLoop.
Record RunLoop := mk {
  cluster : list retain_op;
  cluster_open : bool;
  flusher : Flusher;
  flushes : list (ClientID * Error);
  miot : gset ClientID;
  sessions : gmap ClientID Session;
  ack_timestamp : gmap u32 u64;
  shard_back_log : gmap u32 (list Message);
  cinp : ClientInp;
  shard_queues : gmap u32 MsgTx;
  topic_filters : Inner Subscription;
}.
Section setters.
Context (r : RunLoop).
Definition post_cluster (v : retain_op) : RunLoop :=
  mk (cluster r ++ [v]) (cluster_open r) (flusher r) (flushes r) (miot r) (sessions r) (ack_timestamp r)
    (shard_back_log r) (cinp r) (shard_queues r) (topic_filters r).
Definition post_flush (v : ClientID * Error) : RunLoop :=
  mk (cluster r) (cluster_open r) (flusher r) (flushes r ++ [v]) (miot r) (sessions r) (ack_timestamp r)
    (shard_back_log r) (cinp r) (shard_queues r) (topic_filters r).
Definition set_miot (v : gset ClientID) : RunLoop :=
  mk (cluster r) (cluster_open r) (flusher r) (flushes r) v (sessions r) (ack_timestamp r)
    (shard_back_log r) (cinp r) (shard_queues r) (topic_filters r).
Definition set_sessions (v : gmap ClientID Session) : RunLoop :=
  mk (cluster r) (cluster_open r) (flusher r) (flushes r) (miot r) v (ack_timestamp r)
    (shard_back_log r) (cinp r) (shard_queues r) (topic_filters r).
Definition set_ack_timestamp (v : gmap u32 u64) : RunLoop :=
  mk (cluster r) (cluster_open r) (flusher r) (flushes r) (miot r) (sessions r) v
    (shard_back_log r) (cinp r) (shard_queues r) (topic_filters r).
Definition set_back_log (v : gmap u32 (list Message)) : RunLoop :=
  mk (cluster r) (cluster_open r) (flusher r) (flushes r) (miot r) (sessions r) (ack_timestamp r)
    v (cinp r) (shard_queues r) (topic_filters r).
Definition set_cinp (v : ClientInp) : RunLoop :=
  mk (cluster r) (cluster_open r) (flusher r) (flushes r) (miot r) (sessions r) (ack_timestamp r)
    (shard_back_log r) v (shard_queues r) (topic_filters r).
Definition set_shard_queues (v : gmap u32 MsgTx) : RunLoop :=
  mk (cluster r) (cluster_open r) (flusher r) (flushes r) (miot r) (sessions r) (ack_timestamp r)
    (shard_back_log r) (cinp r) v (topic_filters r).
Definition set_topic_filters (v : Inner Subscription) : RunLoop :=
  mk (cluster r) (cluster_open r) (flusher r) (flushes r) (miot r) (sessions r) (ack_timestamp r)
    (shard_back_log r) (cinp r) (shard_queues r) v.
End setters.
End RunLoop.
Abbreviation RunLoop := RunLoop.RunLoop.

(** src/shard.rs:31-43 [Inner] *)
Module ShardInner.
Inductive ShardInner :=
| Init | Handle (thrd : Thread) (msg_tx : MsgTx) | Tx (tx : Tx) | MsgTx (tx : MsgTx) | Main (run_loop : RunLoop) | Close (fin : FinState).
End ShardInner.
Abbreviation ShardInner := ShardInner.ShardInner.

(** src/shard.rs:19-29 [Shard] *)
Module Shard.
Record Shard := mk { shard_id : u32; config : Config; inner : ShardInner }.
End Shard.
Abbreviation Shard := Shard.Shard.

(** [mem::replace(&mut self.inner, inner)]. *)
(** src/shard.rs:510-512 [Shard::route_packets] *)
Definition replace_inner (inner : ShardInner) : M Shard ShardInner := λ self,
  (Shard.mk (Shard.shard_id self) (Shard.config self) inner, Ok (Shard.inner self)).

(** The match on [self.inner] that every method makes: any state but [Main] is
    [unreachable!()]. *)
(** src/shard.rs:1062-1067 [Shard::as_topic_filters] *)
Definition as_main : M Shard RunLoop := λ self,
  match Shard.inner self with
  | ShardInner.Main run_loop => (self, Ok run_loop)
  | _ => (self, Panic)
  end.
Definition set_main (f : RunLoop → RunLoop) : M Shard unit := λ self,
  match Shard.inner self with
  | ShardInner.Main run_loop =>
      (Shard.mk (Shard.shard_id self) (Shard.config self) (ShardInner.Main (f run_loop)), Ok ())
  | _ => (self, Panic)
  end.

(** src/shard.rs:184-214 [Shard::spawn] *)
Definition Shard_main (shard_id : u32) (config : Config) (flusher : Flusher)
    (topic_filters : Inner Subscription) : Shard :=
  let cinp := ClientInp.mk 1 ∅ ∅ in
  Shard.mk shard_id config
    (ShardInner.Main (RunLoop.mk [] true flusher [] ∅ ∅ ∅ ∅ cinp ∅ topic_filters)).

(** * Publishing *)

(** src/shard.rs:950-959 [Shard::incr_cinp_seqno] *)
Definition Shard_incr_cinp_seqno : M Shard u64 :=
  run_loop ← as_main;
  let cinp := RunLoop.cinp run_loop in
  let seqno := ClientInp.seqno cinp in
  _ ← set_main (λ r, RunLoop.set_cinp r
        (ClientInp.mk (Z.min (seqno + 1) (2 ^ 64 - 1)) (ClientInp.unacks cinp)
           (ClientInp.timestamp cinp)));
  mret seqno.

(** src/shard.rs:961-973 [Shard::book_local_ack] *)
Definition Shard_book_local_ack (shard_id : u32) (last_received : u64) : M Shard unit :=
  run_loop ← as_main;
  let cinp := RunLoop.cinp run_loop in
  match ClientInp.timestamp cinp !! shard_id with
  | Some (last_routed, _) =>
      set_main (λ r, RunLoop.set_cinp r
        (ClientInp.mk (ClientInp.seqno cinp) (ClientInp.unacks cinp)
           (<[shard_id := (last_routed, last_received)]> (ClientInp.timestamp cinp))))
  | None => panic
  end.

(** src/shard.rs:975-988 [Shard::insert_unacks] *)
Definition Shard_insert_unacks (shard_id : u32) (seqno : u64) (msg : Message) : M Shard unit :=
  run_loop ← as_main;
  let cinp := RunLoop.cinp run_loop in
  let stamp :=
    match ClientInp.timestamp cinp !! shard_id with
    | Some (_, last_received) => (seqno, last_received)
    | None => (seqno, 0)
    end in
  set_main (λ r, RunLoop.set_cinp r
    (ClientInp.mk (ClientInp.seqno cinp) (<[seqno := msg]> (ClientInp.unacks cinp))
       (<[shard_id := stamp]> (ClientInp.timestamp cinp)))).

(** The least acknowledged sequence number. *)
(** src/shard.rs:996-999 [Shard::remove_unacks] *)
Definition least_received (timestamp : gmap u32 (u64 * u64)) : u64 :=
  foldl (λ m e, Z.min m (snd (snd e))) (2 ^ 64 - 1) (btree_iter Z.compare timestamp).

(** The messages of a list of sequence numbers, taken out one by one. *)
(** src/shard.rs:1017-1019 [Shard::remove_unacks] *)
Fixpoint take_unacks (seqnos : list u64) (unacks : gmap u64 Message)
    : Result (list Message * gmap u64 Message) :=
  match seqnos with
  | [] => Ok ([], unacks)
  | seqno :: seqnos =>
      match unacks !! seqno with
      | Some msg =>
          '(msgs, unacks) ← take_unacks seqnos (delete seqno unacks);
          Ok (msg :: msgs, unacks)
      | None => Panic
      end
  end.

(** src/shard.rs:990-1024 [Shard::remove_unacks] *)
Definition Shard_remove_unacks : M Shard (list Message) :=
  run_loop ← as_main;
  let cinp := RunLoop.cinp run_loop in
  let last_received_ack := least_received (ClientInp.timestamp cinp) in
  if last_received_ack =? 2 ^ 64 - 1 then mret []
  else
    let acked_seqnos :=
      filter (λ seqno, seqno < last_received_ack)
        (map fst (btree_iter Z.compare (ClientInp.unacks cinp))) in
    '(msgs, unacks) ← lift (take_unacks acked_seqnos (ClientInp.unacks cinp));
    _ ← set_main (λ r, RunLoop.set_cinp r
          (ClientInp.mk (ClientInp.seqno cinp) unacks (ClientInp.timestamp cinp)));
    mret msgs.

(** src/shard.rs:1026-1033 [Shard::remove_session] *)
Definition Shard_remove_session (client_id : ClientID) : M Shard unit :=
  run_loop ← as_main;
  cinp ← lift (ClientInp_remove_session (RunLoop.cinp run_loop) client_id);
  set_main (λ r, RunLoop.set_cinp r cinp).

(** [match map.get_mut(&key) { Some(values) => values.push(v), None => insert [v] }]. *)
(** src/shard.rs:879-884 [Shard::match_subscribers] *)
Definition push_at `{Countable K} {A} (key : K) (v : A) (m : gmap K (list A)) : gmap K (list A) :=
  match m !! key with
  | Some vs => <[key := vs ++ [v]]> m
  | None => <[key := [v]]> m
  end.

(** The offsets of the no-local subscriptions, and their removal, the last one first. *)
(** src/shard.rs:890-894 [Shard::match_subscribers] *)
Fixpoint no_local_offs (i : nat) (subscrs : list Subscription) : list nat :=
  match subscrs with
  | [] => []
  | s :: subscrs =>
      if Subscription.no_local s then i :: no_local_offs (S i) subscrs
      else no_local_offs (S i) subscrs
  end.
(** src/shard.rs:896-898 [Shard::match_subscribers] *)
Fixpoint remove_offs (offs : list nat) (subscrs : list Subscription)
    : Result (list Subscription) :=
  match offs with
  | [] => Ok subscrs
  | off :: offs =>
      '(_, subscrs) ← vec_remove subscrs off;
      remove_offs offs subscrs
  end.

(** src/shard.rs:870-904 [Shard::match_subscribers] *)
Definition Shard_match_subscribers (sess : ClientID) (topic_name : TopicName)
    : M Shard (gmap ClientID (list Subscription)) :=
  run_loop ← as_main;
  '(trie, matches) ← lift (SubscribedTrie_match_topic_name (RunLoop.topic_filters run_loop)
                             (TopicName_iter_topic_path topic_name));
  _ ← set_main (λ r, RunLoop.set_topic_filters r trie);
  let subscrs :=
    foldl (λ m s, push_at (Subscription.client_id s) s m) ∅ matches in
  match subscrs !! sess with
  | Some ss =>
      ss ← lift (remove_offs (reverse (no_local_offs 0 ss)) ss);
      mret (<[sess := ss]> subscrs)
  | None => mret subscrs
  end.

(** src/shard.rs:906-945 [Shard::route_to_client] *)
Definition Shard_route_to_client (sess : ClientID) (subscrs : list Subscription) (publ : Publish)
    : M Shard unit :=
  self ← get;
  target_shard_id ← lift match subscrs with s :: _ => Ok (Subscription.shard_id s) | [] => Panic end;
  server_qos ← lift (unwrap (QoS_try_from (Config_mqtt_maximum_qos (Shard.config self))));
  seqno ← Shard_incr_cinp_seqno;
  let msg :=
    Message.Packet sess (Shard.shard_id self) seqno 0 subscrs (Packet.Publish publ) in
  _ ← match QoS_min server_qos (Publish.qos publ) with
      | QoS.AtMostOnce => mret ()
      | QoS.AtLeastOnce => Shard_insert_unacks target_shard_id seqno msg
      | QoS.ExactlyOnce => panic
      end;
  set_main (λ r, RunLoop.set_back_log r (push_at target_shard_id msg (RunLoop.shard_back_log r))).

(** [cluster.set_retain_topic] and [cluster.reset_retain_topic]: a request posted. *)
(** src/cluster.rs:333-355 [Cluster::set_retain_topic] *)
Definition post_to_cluster (op : retain_op) : M Shard unit :=
  run_loop ← as_main;
  if RunLoop.cluster_open run_loop then set_main (λ r, RunLoop.post_cluster r op)
  else lift (err_desc ErrorKind.IPCFail).

(** src/session.rs:597-614 [Session::book_retain] *)
Definition Session_book_retain (publ : Publish) : M (Session * Shard) unit :=
  self ← on_fst get;
  if Publish.retain publ then
    if negb (Config_mqtt_retain_available (Session.config self)) then
      lift (err ErrorKind.ProtocolError ReasonCode.RetainNotSupported)
    else
      let empty := match Publish.payload publ with
                   | Some x => (length x =? 0)%nat
                   | None => true
                   end in
      if empty then on_snd (post_to_cluster (ResetRetain (Publish.topic_name publ)))
      else on_snd (post_to_cluster (SetRetain publ))
  else mret ().

(** The loop over the subscribers, in the order of their clients. *)
(** src/session.rs:332-341 [Session::do_publish] *)
Definition route_subscribers (sess : ClientID) (publ : Publish)
    (subscrs : gmap ClientID (list Subscription)) : M Shard unit :=
  for_each (btree_iter ClientID_cmp subscrs)
    (λ e, match snd e with
          | [] => mret ()
          | ss => Shard_route_to_client sess ss publ
          end).

(** src/session.rs:319-346 [Session::do_publish] *)
Definition Session_do_publish (publ : Publish) : M (Session * Shard) (list Message) :=
  self ← on_fst get;
  dup ← lift (Session_is_duplicate self publ);
  if dup : bool then mret []
  else
    _ ← Session_book_retain publ;
    _ ← on_fst (Session_book_qos publ);
    topic_name ← on_fst (Session_publish_topic_name publ);
    subscrs ← on_snd (Shard_match_subscribers (Session.client_id self) topic_name);
    _ ← on_snd (route_subscribers (Session.client_id self) publ subscrs);
    mret [].

(** * Subscribing *)

(** src/session.rs:376-380 [Session::do_subscribe] *)
Definition granted_qos (server_qos qos : QoS) : SubAckReasonCode :=
  match QoS_max server_qos qos with
  | QoS.AtMostOnce => SubAckReasonCode.QoS0
  | QoS.AtLeastOnce => SubAckReasonCode.QoS1
  | QoS.ExactlyOnce => SubAckReasonCode.QoS2
  end.

(** src/session.rs:356-382 [Session::do_subscribe] *)
Definition subscribe_filter (subscription_id : option u32) (filter : SubscribeFilter)
    : M (Session * Shard) SubAckReasonCode :=
  '(self, shard) ← get;
  '(rfr, retain_as_published, no_local, qos) ←
    lift (SubscriptionOpt_unwrap (SubscribeFilter.opt filter));
  let topic_filter := SubscribeFilter.topic_filter filter in
  let subscription :=
    Subscription.mk topic_filter (Session.client_id self) (Shard.shard_id shard)
      subscription_id qos no_local retain_as_published rfr in
  run_loop ← on_snd as_main;
  trie ← lift (SubscribedTrie_subscribe (RunLoop.topic_filters run_loop)
                 (TopicFilter_iter_topic_path topic_filter) subscription);
  _ ← on_snd (set_main (λ r, RunLoop.set_topic_filters r trie));
  _ ← on_fst (modify (λ self, Session.set_subscriptions self
        (<[topic_filter := subscription]> (Session.subscriptions self))));
  server_qos ← lift (unwrap (QoS_try_from (Config_mqtt_maximum_qos (Session.config self))));
  mret (granted_qos server_qos qos).

(** src/session.rs:349-406 [Session::do_subscribe] *)
Definition Session_do_subscribe (sub : Subscribe) : M (Session * Shard) (list Message) :=
  let subscription_id :=
    match Subscribe.properties sub with
    | Some props => varu32 <$> SubscribeProperties.subscription_id props
    | None => None
    end in
  return_codes ← for_collect (Subscribe.filters sub)
    (λ filter, rc ← subscribe_filter subscription_id filter; mret [rc]);
  let sub_ack := SubAck.mk (Subscribe.packet_id sub) None return_codes in
  mret [Message.ClientAck (Packet.SubAck sub_ack)].

(** * In-coming packets *)

(** src/session.rs:274-317 [Session::handle_packet] *)
Definition Session_handle_packet (pkt : Packet) : M (Session * Shard) (list Message) :=
  match pkt with
  | Packet.PingReq => mret [Message_new_client_ack Packet.PingReq]
  | Packet.Publish publish => Session_do_publish publish
  | Packet.Subscribe sub => Session_do_subscribe sub
  | Packet.UnSubscribe _ => panic
  | Packet.PubAck _ => panic
  | Packet.PubRec _ => panic
  | Packet.PubRel _ => panic
  | Packet.PubComp _ => panic
  | Packet.Disconnect _ => lift (err ErrorKind.Disconnected ReasonCode.Success)
  | Packet.Auth _ => panic
  | Packet.Connect _ | Packet.ConnAck _ | Packet.SubAck _ | Packet.UnsubAck _ | Packet.PingResp =>
      lift (err ErrorKind.ProtocolError ReasonCode.ProtocolError)
  end.

(** The status of the session's queue to its connection, and what it took. *)
(** src/session.rs:257-269 [Session::handle_packets] *)
Definition Session_handle_packets (tx : nat → send_answer) (pkts : list Packet)
    : M (Session * Shard) (QueueStatus Packet * list Packet) :=
  msgs ← for_collect pkts Session_handle_packet;
  status ← on_fst (Session_in_messages msgs);
  match status with
  | QueueStatus.Disconnected _ => mret (QueueStatus.Disconnected [], [])
  | _ => on_fst (Session_flush_messages tx)
  end.

(** src/session.rs:230-255 [Session::route_packets] *)
Definition Session_route_packets (clock : Z) (rx : nat → recv_answer Packet)
    (tx : nat → send_answer) : M (Session * Shard) (QueueStatus Packet * list Packet) :=
  self ← on_fst get;
  down_status ← lift (PktRx_try_recvs (Session.session_rx self) rx);
  let '(pkts, down_status) := take_values down_status in
  match pkts with
  | [] =>
      _ ← lift (KeepAlive_check_expired clock (Session.keep_alive self));
      mret (QueueStatus.Ok [], [])
  | _ =>
      _ ← on_fst (modify (λ self, Session.set_keep_alive self
            (KeepAlive_live clock (Session.keep_alive self))));
      '(status, sent) ← Session_handle_packets tx pkts;
      match down_status, status with
      | QueueStatus.Disconnected _, _ => mret (QueueStatus.Disconnected [], sent)
      | _, QueueStatus.Disconnected _ => mret (QueueStatus.Disconnected [], sent)
      | _, _ => mret (QueueStatus.Ok [], sent)
      end
  end.
