(* ===== verification/ShardLoop.v ===== *)
(** Model of the thread of [src/shard.rs]: what a shard does with its sessions each time it
    wakes up - route their packets, exchange messages with the other shards, flush -
    and its control requests.

    What the other threads answer meanwhile is an [Env]: the clock, the answers of every
    queue, and what comes of the requests to the miot thread and to the flusher, which may
    also fail, or never be answered. *)

From S2P Require Import Prelude Error Util Codec Types V5 AckPackets PublishPacket SubPackets.
From S2P Require Import ConnectPackets Packets Config Ttrie Timer Retained State Queue KeepAlive Session.
From S2P Require Import Thread Server Flusher Miot Shard.
Local Open Scope Z_scope.

(** For each client whose connection the shard asks the miot thread to take out: whether it
    had one. *)
Module Env.
Record Env := mk {
  clock : Z;
  session_rx : ClientID → nat → recv_answer Packet;
  miot_tx : ClientID → nat → send_answer;
  shard_tx : u32 → nat → send_answer;
  msg_rx : nat → recv_answer Message;
  miot_remove : ClientID → Result bool;
  miot_add : ClientID → Result unit;
  miot_close : Result Miot;
  flusher_flush : ClientID → Result unit;
}.
End Env.
Abbreviation Env := Env.Env.

Section shard.
Context (env : Env).

(** The connection a request carries is known by its client.  Only a handle of the flusher
    makes the request, and waits for the answer ([Flusher_flush_connection]). *)
(** src/shard.rs:803-835 [Shard::handle_flush_connection] *)
Definition Shard_handle_flush_connection (client_id : ClientID) (e : Error) : M Shard unit :=
  run_loop ← as_main;
  _ ← match RunLoop.sessions run_loop !! client_id with
      | Some session =>
          _ ← set_main (λ r, RunLoop.set_sessions r (delete client_id (RunLoop.sessions r)));
          _ ← Shard_remove_session (Session.client_id session);
          run_loop ← as_main;
          trie ← lift (Session_remove_topic_filters session (RunLoop.topic_filters run_loop));
          set_main (λ r, RunLoop.set_topic_filters r trie)
      | None => mret ()
      end;
  run_loop ← as_main;
  match Flusher.inner (RunLoop.flusher run_loop) with
  | FlusherInner.Handle _ =>
      _ ← set_main (λ r, RunLoop.post_flush r (client_id, e));
      lift (allow_panic (Env.flusher_flush env client_id))
  | _ => panic
  end.

(** [miot.remove_connection(&client_id)], and the connection, if there was one, to the
    flusher. *)
(** src/shard.rs:540-550 [Shard::route_packets] *)
Definition flush_client (client_id : ClientID) (e : Error) : M Shard unit :=
  _ ← as_main;
  removed ← lift (allow_panic (Env.miot_remove env client_id));
  if removed : bool then
    _ ← set_main (λ r, RunLoop.set_miot r (RunLoop.miot r ∖ {[client_id]}));
    Shard_handle_flush_connection client_id e
  else mret ().

(** ** Routing *)

(** What comes of one session: nothing, a failure, or an error that is not expected. *)
(** src/shard.rs:520-533 [Shard::route_packets] *)
Definition route_failure {A} (r : Result (QueueStatus A * list A)) : Result (option Error) :=
  match r with
  | Ok (QueueStatus.Disconnected _, _) => Ok (Some (mkError ErrorKind.Disconnected None))
  | Ok _ => Ok None
  | Err e =>
      match kind e with
      | ErrorKind.Disconnected | ErrorKind.ProtocolError => Ok (Some e)
      | _ => Panic
      end
  | Panic => Panic
  | Diverge => Diverge
  end.

(** The sessions, changed in place while the shard's own state is set aside. *)
(** src/shard.rs:519-534 [Shard::route_packets] *)
Fixpoint route_sessions (clients : list (ClientID * Session))
    : M (gmap ClientID Session * Shard) (list (ClientID * Error)) :=
  match clients with
  | [] => mret []
  | (client_id, session) :: clients =>
      '(sessions, shard) ← get;
      let '((session, shard), r) :=
        Session_route_packets (Env.clock env) (Env.session_rx env client_id)
          (Env.miot_tx env client_id) (session, shard) in
      _ ← modify (λ _, (<[client_id := session]> sessions, shard));
      failed ← lift (route_failure r);
      rest ← route_sessions clients;
      mret match failed with Some e => (client_id, e) :: rest | None => rest end
  end.

(** src/shard.rs:510-551 [Shard::route_packets] *)
Definition Shard_route_packets : M Shard unit :=
  inner ← replace_inner ShardInner.Init;
  run_loop ← lift match inner with ShardInner.Main run_loop => Ok run_loop | _ => Panic end;
  self ← get;
  let '((sessions, self), failed) :=
    route_sessions (btree_iter ClientID_cmp (RunLoop.sessions run_loop))
      (RunLoop.sessions run_loop, self) in
  _ ← modify (λ _, self);
  failed ← lift failed;
  _ ← replace_inner (ShardInner.Main (RunLoop.set_sessions run_loop sessions));
  for_each failed (λ e, flush_client (fst e) (snd e)).

(** ** Messages between shards *)

(** The messages each shard's queue took. *)
(** src/shard.rs:562-576 [Shard::flush_to_shards] *)
Definition flush_to_shard (e : u32 * list Message) : M Shard (list (u32 * list Message)) :=
  let '(shard_id, msgs) := e in
  run_loop ← as_main;
  shard ← lift (unwrap_some (RunLoop.shard_queues run_loop !! shard_id));
  let '(shard, (sent, status)) := MsgTx_try_sends shard (Env.shard_tx env shard_id) msgs in
  let '(remaining, status) := take_values status in
  _ ← set_main (λ r, RunLoop.set_shard_queues r (<[shard_id := shard]> (RunLoop.shard_queues r)));
  _ ← set_main (λ r, RunLoop.set_back_log r (<[shard_id := remaining]> (RunLoop.shard_back_log r)));
  mret [(shard_id, sent)].

(** src/shard.rs:555-577 [Shard::flush_to_shards] *)
Definition Shard_flush_to_shards : M Shard (list (u32 * list Message)) :=
  run_loop ← as_main;
  let back_log := RunLoop.shard_back_log run_loop in
  _ ← set_main (λ r, RunLoop.set_back_log r ∅);
  for_collect (btree_iter Z.compare back_log) flush_to_shard.

(** The message, with the client it is partitioned under. *)
(** src/shard.rs:586-602 [Shard::in_messages] *)
Definition partition_message (msg : Message) : M Shard (list (ClientID * Message)) :=
  match msg with
  | Message.LocalAck shard_id last_received_ack =>
      _ ← Shard_book_local_ack shard_id last_received_ack;
      mret []
  | Message.Packet client_id shard_id seqno _ _ _ =>
      _ ← set_main (λ r, RunLoop.set_ack_timestamp r
            (<[shard_id := seqno]> (RunLoop.ack_timestamp r)));
      mret [(client_id, msg)]
  | Message.ClientAck _ => panic
  end.

(** src/shard.rs:607-615 [Shard::in_messages] *)
Definition book_session_messages (e : ClientID * list Message) : M Shard (list ClientID) :=
  let '(client_id, msgs) := e in
  run_loop ← as_main;
  match RunLoop.sessions run_loop !! client_id with
  | Some session =>
      let '(session, status) := Session_in_messages msgs session in
      _ ← set_main (λ r, RunLoop.set_sessions r (<[client_id := session]> (RunLoop.sessions r)));
      status ← lift status;
      mret match status with QueueStatus.Disconnected _ => [client_id] | _ => [] end
  | None => mret []
  end.

(** src/shard.rs:579-634 [Shard::in_messages] *)
Definition Shard_in_messages (msg_rx : MsgRx) : M Shard (QueueStatus Message) :=
  status ← lift (MsgRx_try_recvs msg_rx (Env.msg_rx env));
  let '(msgs, status) := take_values status in
  parted ← for_collect msgs partition_message;
  let session_msgs := foldl (λ m e, push_at (fst e) (snd e) m) (∅ : gmap ClientID _) parted in
  disconnecteds ← for_collect (btree_iter ClientID_cmp session_msgs) book_session_messages;
  _ ← for_each disconnecteds (λ client_id,
        flush_client client_id (mkError ErrorKind.SlowClient (Some ReasonCode.UnspecifiedError)));
  mret status.

(** ** Flushing and acknowledging *)

(** src/shard.rs:643-645 [Shard::flush_messages] *)
Definition flush_session (client_id : ClientID) : M Shard (list (ClientID * list Packet)) :=
  run_loop ← as_main;
  session ← lift (unwrap_some (RunLoop.sessions run_loop !! client_id));
  let '(session, r) := Session_flush_messages (Env.miot_tx env client_id) session in
  _ ← set_main (λ r, RunLoop.set_sessions r (<[client_id := session]> (RunLoop.sessions r)));
  '(_, sent) ← lift r;
  mret [(client_id, sent)].

(** What each session's queue took. *)
(** src/shard.rs:637-646 [Shard::flush_messages] *)
Definition Shard_flush_messages : M Shard (list (ClientID * list Packet)) :=
  run_loop ← as_main;
  for_collect (map fst (btree_iter ClientID_cmp (RunLoop.sessions run_loop))) flush_session.

(** src/shard.rs:648-665 [Shard::ack_messages] *)
Definition Shard_ack_messages : M Shard unit :=
  run_loop ← as_main;
  let ack_timestamp := RunLoop.ack_timestamp run_loop in
  _ ← set_main (λ r, RunLoop.set_ack_timestamp r ∅);
  for_each (btree_iter Z.compare ack_timestamp) (λ '(shard_id, last_received_ack),
    let msg := Message.LocalAck shard_id last_received_ack in
    set_main (λ r, RunLoop.set_back_log r (push_at shard_id msg (RunLoop.shard_back_log r)))).

(** Acknowledging to the publisher is not implemented. *)
(** src/shard.rs:667-674 [Shard::clear_unacks] *)
Definition Shard_clear_unacks : M Shard unit :=
  msgs ← Shard_remove_unacks;
  for_each msgs (λ _, panic).

(** src/shard.rs:677-686 [Shard::retry_publish] *)
Definition Shard_retry_publish : M Shard unit :=
  run_loop ← as_main;
  for_each (btree_iter ClientID_cmp (RunLoop.sessions run_loop)) (λ e,
    let '(session, r) := Session_retry_publish (snd e) in
    _ ← set_main (λ r, RunLoop.set_sessions r (<[fst e := session]> (RunLoop.sessions r)));
    lift r).

(** One round of the thread after its control requests; [true] when it ends. *)
(** src/shard.rs:414-430 [Shard::main_loop] *)
Definition Shard_round (msg_rx : MsgRx) : M Shard bool :=
  _ ← Shard_route_packets;
  _ ← Shard_flush_to_shards;
  status ← Shard_in_messages msg_rx;
  match status with
  | QueueStatus.Disconnected _ => mret true
  | _ =>
      _ ← Shard_flush_messages;
      _ ← Shard_ack_messages;
      _ ← Shard_clear_unacks;
      _ ← Shard_retry_publish;
      mret false
  end.

(** ** Control requests *)

(** src/shard.rs:690-702 [Shard::handle_set_shard_queues] *)
Definition Shard_handle_set_shard_queues (shard_queues : gmap u32 MsgTx) : M Shard unit :=
  set_main (λ r, RunLoop.set_shard_queues r shard_queues).

(** The session, its CONNACK flushed, and what its queue took. *)
(** src/shard.rs:716-749 [Shard::handle_add_session] *)
Definition start_session (client_id : ClientID) (pkt : Connect)
    : M Shard (Session * (QueueStatus Packet * list Packet)) :=
  self ← get;
  _ ← as_main;
  size ← lift (Config_mqtt_pkt_batch_size (Shard.config self));
  let '(_, session_rx) := pkt_channel (Shard.shard_id self) (Z.to_nat size) in
  let '(miot_tx, _) := pkt_channel (Shard.shard_id self) (Z.to_nat size) in
  let args := SessionArgs.mk client_id (Shard.shard_id self) miot_tx session_rx in
  session ← lift (Session_start (Env.clock env) args (Shard.config self) pkt);
  connack ← lift (Session_success_ack session pkt);
  let '(session, r) :=
    (_ ← Session_in_messages [Message_new_client_ack (Packet.ConnAck connack)];
     Session_flush_messages (Env.miot_tx env client_id)) session in
  r ← lift r;
  mret (session, r).

(** The existing session of the client is dropped, and its connection flushed. *)
(** src/shard.rs:751-778 [Shard::handle_add_session] *)
Definition take_over (client_id : ClientID) : M Shard unit :=
  run_loop ← as_main;
  match RunLoop.sessions run_loop !! client_id with
  | Some session =>
      trie ← lift (Session_remove_topic_filters session (RunLoop.topic_filters run_loop));
      _ ← set_main (λ r, RunLoop.set_topic_filters
                           (RunLoop.set_sessions r (delete client_id (RunLoop.sessions r))) trie);
      flush_client client_id (mkError ErrorKind.SessionTakenOver (Some ReasonCode.SessionTakenOver))
  | None => mret ()
  end.

(** [uuid] is what the client is named when it gave no name. *)
(** src/shard.rs:704-801 [Shard::handle_add_session] *)
Definition Shard_handle_add_session (uuid : bytes) (pkt : Connect) : M Shard (list Packet) :=
  let client_id := ClientID_from_connect uuid (ConnectPayload.client_id (Connect.payload pkt)) in
  '(session, (status, sent)) ← start_session client_id pkt;
  match status with
  | QueueStatus.Disconnected _ | QueueStatus.Block _ => mret sent
  | QueueStatus.Ok _ =>
      _ ← take_over client_id;
      _ ← as_main;
      _ ← lift (allow_panic (Env.miot_add env client_id));
      _ ← set_main (λ r, RunLoop.set_miot r ({[client_id]} ∪ RunLoop.miot r));
      _ ← set_main (λ r, RunLoop.set_sessions r (<[client_id := session]> (RunLoop.sessions r)));
      mret sent
  end.

(** Waiting for the miot thread to close gives the thread as it ended, never an error. *)
(** src/shard.rs:837-865 [Shard::handle_close] *)
Definition Shard_handle_close : M Shard unit :=
  inner ← replace_inner ShardInner.Init;
  run_loop ← lift match inner with ShardInner.Main run_loop => Ok run_loop | _ => Panic end;
  miot ← lift (unwrap (Env.miot_close env));
  _ ← replace_inner (ShardInner.Close (FinState.mk miot (dom (RunLoop.sessions run_loop))));
  mret ().

(** The connections of a request are known by their client; with a session to add comes
    what the client is named when it gave no name. *)
(** src/shard.rs:292-299 [Request] *)
Inductive shard_request :=
| SetMiot
| SetShardQueues (shard_queues : gmap u32 MsgTx)
| AddSession (uuid : bytes) (pkt : Connect)
| FlushConnection (client_id : ClientID) (err : Error)
| SendMessages (msgs : list Message)
| CloseShard.

(** A request, with whether its sender waits.  The response is always [Response::Ok]. *)
(** src/shard.rs:480-500 [Shard::drain_control_chan] *)
Definition Shard_handle_request (req : shard_request) (waits : bool)
    : M Shard (option (Result unit) * bool) :=
  match req, waits with
  | SetShardQueues shard_queues, true =>
      _ ← Shard_handle_set_shard_queues shard_queues; mret (Some (Ok ()), false)
  | AddSession uuid pkt, true => _ ← Shard_handle_add_session uuid pkt; mret (Some (Ok ()), false)
  | FlushConnection client_id e, false => _ ← Shard_handle_flush_connection client_id e; mret (None, false)
  | CloseShard, true => _ ← Shard_handle_close; mret (Some (Ok ()), true)
  | _, _ => panic
  end.

(** src/shard.rs:471-504 [Shard::drain_control_chan] *)
Definition Shard_drain_control_chan (rx : nat → recv_answer (shard_request * bool))
    : M Shard (list (option (Result unit)) * (QueueStatus (shard_request * bool) * bool)) :=
  drain_control_chan Shard_handle_request rx.

(** src/shard.rs:449-466 [Shard::mio_events] *)
Definition Shard_mio_events (drains : list (nat → recv_answer (shard_request * bool))) : M Shard bool :=
  drain_until_empty Shard_handle_request drains.
End shard.

(** ** The thread *)

(** src/shard.rs:436-440 [Shard::main_loop] *)
Definition Shard_finish (env : Env) : M Shard unit :=
  inner ← gets Shard.inner;
  match inner with
  | ShardInner.Main _ => Shard_handle_close env
  | ShardInner.Close _ => mret ()
  | _ => panic
  end.

(** After a round the miot thread is woken; a waker that fails is a panic. *)
(** src/shard.rs:414-434 [Shard::main_loop] *)
Definition Shard_work (env : Env) (msg_rx : MsgRx) (miot_wakes : bool) : M Shard bool :=
  exit ← Shard_round env msg_rx;
  if exit : bool then mret true
  else _ ← lift (allow_panic (io_call miot_wakes)); mret false.

(** What happens each time the thread polls: its requests, and the answers meanwhile. *)
Module ShardPoll.
Record ShardPoll := mk {
  drains : list (nat → recv_answer (shard_request * bool));
  env : Env;
  miot_wakes : bool;
}.
End ShardPoll.
Abbreviation ShardPoll := ShardPoll.ShardPoll.

(** src/shard.rs:402-434 [Shard::main_loop] *)
Fixpoint Shard_polls (msg_rx : MsgRx) (polls : list (option ShardPoll)) : M Shard unit :=
  match polls with
  | [] => lift Diverge
  | None :: _ => panic
  | Some poll :: polls =>
      exit ← Shard_mio_events (ShardPoll.env poll) (ShardPoll.drains poll);
      if exit : bool then Shard_finish (ShardPoll.env poll) else
      exit ← Shard_work (ShardPoll.env poll) msg_rx (ShardPoll.miot_wakes poll);
      if exit : bool then Shard_finish (ShardPoll.env poll) else Shard_polls msg_rx polls
  end.

(** The first request gives the shard its miot thread; whoever made it must be there for the
    response. *)
(** src/shard.rs:382-444 [Shard::main_loop] *)
Definition Shard_main_loop (first : recv_answer (shard_request * bool)) (heard : bool) (msg_rx : MsgRx)
    (polls : list (option ShardPoll)) : M Shard unit :=
  match first with
  | Received (SetMiot, true) =>
      _ ← as_main;
      _ ← lift (if heard then Ok () else Panic);
      Shard_polls msg_rx polls
  | _ => panic
  end.

(** src/shard.rs:382-444 [Shard::main_loop] *)
#[export] Program Instance Shard_thread : Threadable Shard shard_request (Result unit) := {|
  chan_bound := None;
  takes_requests := true;
  get_waits := false;
  batch_max := CONTROL_CHAN_SIZE;
  close_breaks := false;
  handles q w t t' r := ∃ env, Shard_handle_request env q w t = (t', r);
  works t t' r := ∃ env msg_rx miot_wakes, Shard_work env msg_rx miot_wakes t = (t', r);
  finishes t t' r := ∃ env, Shard_finish env t = (t', r);
|}.
Next Obligation.
  intros q w t t' r c [env H]. unfold Shard_handle_request in H.
  destruct q, w; try done; apply M_bind_inv in H as (? & ? & _ & H); by injection H as _ <- _.
Qed.

(** ** Handles *)

Definition shard_ipc : Type := Ipc shard_request (Result unit).

(** src/shard.rs:109-121 [Shard::default] *)
Definition Shard_default (num_cpus : nat) : Result Shard :=
  config ← Config_default num_cpus; Ok (Shard.mk 0 config ShardInner.Init).

(** src/shard.rs:154-167 [Shard::from_config] *)
Definition Shard_from_config (num_cpus : nat) (config : Config) (shard_id : u32) : Result Shard :=
  _ ← Shard_default num_cpus; Ok (Shard.mk shard_id config ShardInner.Init).

(** src/shard.rs:131-141 [Shard::drop] *)
Definition Shard_drop (self : Shard) : Result unit :=
  match Shard.inner self with ShardInner.Handle thrd _ => Thread_drop thrd | _ => Ok () end.

(** The handle, with the receiver of its messages, and the thread with what it shares with
    its handles.  The multiplication is the checked one.  The miot thread is spawned
    after. *)
(** src/shard.rs:169-229 [Shard::spawn] *)
Definition Shard_spawn_thread (num_cpus : nat) (poll waker : bool) (flusher : Flusher)
    (topic_filters : Inner Subscription) (self : Shard) : Result (Shard * MsgRx * (Shard * shard_ipc)) :=
  num_shards ← Config_num_shards num_cpus (Shard.config self);
  match Shard.inner self with
  | ShardInner.Handle _ _ | ShardInner.Main _ => err_desc ErrorKind.InvalidInput
  | _ =>
      _ ← io_call poll;
      _ ← io_call waker;
      batch_size ← Config_mqtt_pkt_batch_size (Shard.config self);
      let size := batch_size * num_shards in
      if 2 ^ 32 <=? size then Panic else
      let '(msg_tx, msg_rx) := msg_channel (Shard.shard_id self) (Z.to_nat size) in
      let shard := Shard_main (Shard.shard_id self) (Shard.config self) flusher topic_filters in
      let '(thrd, ipc) := Thread_spawn [] in
      thrd ← Thread_set_waker thrd;
      Ok (Shard.mk (Shard.shard_id self) (Shard.config self) (ShardInner.Handle thrd msg_tx), msg_rx,
          (shard, ipc))
  end.

(** src/shard.rs:246-267 [Shard::to_tx] *)
Definition Shard_to_tx (self : Shard) : M shard_ipc Shard :=
  inner ← match Shard.inner self with
          | ShardInner.Handle thrd _ => tx ← Thread_to_tx thrd; mret (ShardInner.Tx tx)
          | ShardInner.Tx tx => tx ← Tx_clone tx; mret (ShardInner.Tx tx)
          | _ => panic
          end;
  mret (Shard.mk (Shard.shard_id self) (Shard.config self) inner).

(** src/shard.rs:269-289 [Shard::to_msg_tx] *)
Definition Shard_to_msg_tx (self : Shard) : Result Shard :=
  match Shard.inner self with
  | ShardInner.Handle _ msg_tx =>
      Ok (Shard.mk (Shard.shard_id self) (Shard.config self) (ShardInner.MsgTx msg_tx))
  | _ => Panic
  end.

Section handle.
Context (wake_result : outcome unit unit) (meanwhile : shard_ipc → shard_ipc).

(** src/shard.rs:313-319 [Shard::wake] *)
Definition Shard_wake (self : Shard) : M shard_ipc unit :=
  match Shard.inner self with
  | ShardInner.Handle _ _ | ShardInner.Tx _ =>
      _ ← lift (allow_panic (err_try ErrorKind.IOError wake_result));
      modify (ipc_set_woken true)
  | _ => panic
  end.

(** The response to a request made with a handle. *)
Definition Shard_request_by_handle (req : shard_request) (self : Shard) : M shard_ipc unit :=
  match Shard.inner self with
  | ShardInner.Handle thrd _ => response ← Thread_request wake_result meanwhile thrd req; lift response
  | _ => panic
  end.

(** src/shard.rs:321-331 [Shard::set_shard_queues] *)
Definition Shard_set_shard_queues (shards : gmap u32 MsgTx) : Shard → M shard_ipc unit :=
  Shard_request_by_handle (SetShardQueues shards).

(** src/shard.rs:333-343 [Shard::add_session] *)
Definition Shard_add_session (uuid : bytes) (pkt : Connect) : Shard → M shard_ipc unit :=
  Shard_request_by_handle (AddSession uuid pkt).

(** src/shard.rs:345-354 [Shard::flush_connection] *)
Definition Shard_flush_connection (client_id : ClientID) (e : Error) (self : Shard) : M shard_ipc unit :=
  match Shard.inner self with
  | ShardInner.Tx tx => Tx_post wake_result tx (FlushConnection client_id e)
  | _ => panic
  end.

(** src/shard.rs:356-361 [Shard::send_messages] *)
Definition Shard_send_messages (chan : nat → send_answer) (msgs : list Message)
    : M Shard (list Message * QueueStatus Message) := λ self,
  match Shard.inner self with
  | ShardInner.MsgTx msg_tx =>
      let '(msg_tx, res) := MsgTx_try_sends msg_tx chan msgs in
      (Shard.mk (Shard.shard_id self) (Shard.config self) (ShardInner.MsgTx msg_tx), Ok res)
  | _ => (self, Panic)
  end.

(** [thrd.request(req).ok().map(|x| x.ok()).flatten()] must give [Response::Ok]. *)
(** src/shard.rs:363-375 [Shard::close_wait] *)
Definition Shard_close_wait (joined : option (outcome unit Shard)) (self : Shard) : M shard_ipc Shard :=
  match Shard.inner self with
  | ShardInner.Handle thrd _ => λ ipc,
      let '(ipc, response) := Thread_request wake_result meanwhile thrd CloseShard ipc in
      match response with
      | Ok (Ok _) => ('(_, shard) ← Thread_close_wait joined thrd; mret shard) ipc
      | Diverge => (ipc, Diverge)
      | _ => (ipc, Panic)
      end
  | _ => panic
  end.
End handle.
