(* ===== verification/SessionTheorems.v ===== *)
(** The properties of a session on its own ([Session]): what flushing keeps and drops, the
    publish packets it makes for its subscriptions, duplicate detection and topic
    aliases. *)

From S2P Require Import Prelude Error Util Codec Types V5 Frame AckPackets PublishPacket SubPackets ConnectPackets.
From S2P Require Import Packets PacketTheorems Config Ttrie TtrieFacts State Queue KeepAlive Session.
Local Open Scope Z_scope.

(** * Packet identifiers

    The identifier of the [k]-th message from now. *)
Definition next_id (id : Z) : Z := let n := (id + 1) mod 2 ^ 16 in if n =? 0 then 1 else n.
Definition id_after (id : Z) (k : nat) : Z := (id - 1 + Z.of_nat k) mod 65535 + 1.
Definition is_id (id : Z) : Prop := 1 ≤ id ≤ 65535.

Lemma next_id_after id : is_id id → next_id id = id_after id 1.
Proof.
  unfold is_id, next_id, id_after. intros H. cbn zeta.
  destruct (Z.eq_dec id 65535) as [->|Hne]; [done|]. rewrite !Z.mod_small by lia.
  destruct (Z.eqb_spec (id + 1) 0); lia.
Qed.

Lemma id_after_0 id : is_id id → id_after id 0 = id.
Proof. unfold is_id, id_after. intros H. rewrite Z.mod_small by lia. lia. Qed.

Lemma id_after_is_id id k : is_id (id_after id k).
Proof. unfold is_id, id_after. pose proof (Z.mod_pos_bound (id - 1 + Z.of_nat k) 65535). lia. Qed.

Lemma id_after_S id k : is_id id → id_after (id_after id 1) k = id_after id (S k).
Proof.
  intros H. unfold id_after. f_equal.
  replace ((id - 1 + Z.of_nat 1) mod 65535 + 1 - 1) with ((id - 1 + Z.of_nat 1) mod 65535) by lia.
  rewrite Z.add_mod_idemp_l by lia. f_equal. lia.
Qed.

Lemma id_after_inj id j k : is_id id → Z.of_nat j < 65535 → Z.of_nat k < 65535 →
  id_after id j = id_after id k → j = k.
Proof.
  unfold is_id, id_after. intros H Hj Hk He.
  assert ((id - 1 + Z.of_nat j) mod 65535 = (id - 1 + Z.of_nat k) mod 65535) as E by lia. clear He.
  pose proof (Z.div_mod (id - 1 + Z.of_nat j) 65535 ltac:(lia)).
  pose proof (Z.div_mod (id - 1 + Z.of_nat k) 65535 ltac:(lia)).
  lia.
Qed.

(** The identifier after one is the next, and after the last the first. *)
Lemma id_after_next id k : is_id id →
  id_after id (S k) = if id_after id k =? 65535 then 1 else id_after id k + 1.
Proof.
  unfold is_id, id_after. intros H. rewrite Nat2Z.inj_succ.
  replace (id - 1 + Z.succ (Z.of_nat k)) with (id - 1 + Z.of_nat k + 1) by lia.
  set (n := id - 1 + Z.of_nat k). rewrite <- (Z.add_mod_idemp_l n) by lia.
  pose proof (Z.mod_pos_bound n 65535 ltac:(lia)). destruct (Z.eqb_spec (n mod 65535 + 1) 65535) as [E|E].
  - rewrite E. by vm_compute.
  - rewrite Z.mod_small by lia. lia.
Qed.

Definition seqno_after (seqno : Z) (k : nat) : Z := Z.min (seqno + Z.of_nat k) (2 ^ 64 - 1).

(** * Publish packets for the subscriptions *)

(** The packet a subscription is sent. *)
Definition routed_publish (server_qos : QoS) (s : Subscription) (id : Z) (p : Publish) : Publish :=
  Publish_add_subscription_id
    (Publish_set_packet_id
       (Publish_set_fixed_header p (Subscription.retain_as_published s && Publish.retain p)
          (QoS_min (QoS_min server_qos (Subscription.qos s)) (Publish.qos p)) false) id)
    (Subscription.subscription_id s).

Lemma routed_publish_fields server_qos s id p :
  let q := routed_publish server_qos s id p in
  Publish.qos q = QoS_min (QoS_min server_qos (Subscription.qos s)) (Publish.qos p) ∧
  Publish.retain q = (Subscription.retain_as_published s && Publish.retain p) ∧
  Publish.duplicate q = false ∧ Publish.packet_id q = Some id ∧
  Publish.topic_name q = Publish.topic_name p ∧ Publish.payload q = Publish.payload p.
Proof. unfold routed_publish. by destruct (Subscription.subscription_id s). Qed.

Lemma set_cout_set_cout self c c' : Session.set_cout (Session.set_cout self c) c' = Session.set_cout self c'.
Proof. done. Qed.

(** The counters after [k] messages. *)
Definition cout_after (c : ClientOut) (k : nat) : ClientOut :=
  ClientOut.mk (seqno_after (ClientOut.seqno c) k) (ClientOut.index c)
    (id_after (ClientOut.next_packet_id c) k) (ClientOut.back_log c).

Definition wf_cout (c : ClientOut) : Prop :=
  0 ≤ ClientOut.seqno c < 2 ^ 64 ∧ is_id (ClientOut.next_packet_id c).

Lemma cout_after_0 c : wf_cout c → cout_after c 0 = c.
Proof.
  intros [Hs Hi]. destruct c as [s ix n b]. unfold cout_after. cbn in *.
  rewrite id_after_0 by done. unfold seqno_after. by rewrite Z.min_l, Z.add_0_r by lia.
Qed.

Lemma cout_after_wf c k : wf_cout c → wf_cout (cout_after c k).
Proof.
  intros [Hs Hi]. split; cbn; [unfold seqno_after; lia|apply id_after_is_id].
Qed.

Lemma cout_after_S c k : wf_cout c → cout_after (cout_after c 1) k = cout_after c (S k).
Proof.
  intros [Hs Hi]. unfold cout_after. cbn [ClientOut.seqno ClientOut.index ClientOut.next_packet_id ClientOut.back_log].
  rewrite id_after_S by done. f_equal. unfold seqno_after. lia.
Qed.

Lemma incr_cout_seqno_eq self : wf_cout (Session.cout self) →
  Session_incr_cout_seqno self
  = (Session.set_cout self (cout_after (Session.cout self) 1),
     Ok (ClientOut.seqno (Session.cout self), ClientOut.next_packet_id (Session.cout self))).
Proof.
  intros [_ Hi]. unfold Session_incr_cout_seqno, cout_after. cbn zeta.
  by rewrite <- next_id_after.
Qed.

(** The messages for a list of subscriptions, the first with the current counters. *)
Definition routed_message (server_qos : QoS) (client_id : ClientID) (shard_id : u32) (p : Publish)
    (c : ClientOut) (s : Subscription) : Message :=
  Message.Packet client_id shard_id (ClientOut.seqno c) (ClientOut.next_packet_id c) []
    (Packet.Publish (routed_publish server_qos s (ClientOut.next_packet_id c) p)).

Fixpoint routed_messages (server_qos : QoS) (client_id : ClientID) (shard_id : u32) (p : Publish)
    (c : ClientOut) (subs : list Subscription) : list Message :=
  match subs with
  | [] => []
  | s :: subs =>
      routed_message server_qos client_id shard_id p c s ::
      routed_messages server_qos client_id shard_id p (cout_after c 1) subs
  end.

Lemma cout_loop_eq server_qos client_id shard_id p subs : ∀ self,
  wf_cout (Session.cout self) →
  cout_loop server_qos client_id shard_id p subs self
  = (Session.set_cout self (cout_after (Session.cout self) (length subs)),
     Ok (routed_messages server_qos client_id shard_id p (Session.cout self) subs)).
Proof.
  induction subs as [|s subs IH]; intros self Hw; cbn [cout_loop length].
  { rewrite cout_after_0 by done. by destruct self. }
  rewrite (M_bind_Ok _ _ _ _ _ (incr_cout_seqno_eq self Hw)). cbn zeta.
  erewrite M_bind_Ok; [|apply IH; by apply (cout_after_wf _ 1)].
  rewrite set_cout_set_cout. cbn [Session.cout Session.set_cout]. by rewrite cout_after_S.
Qed.

Lemma cout_publish_eq self server_qos client_id shard_id seqno id subs p :
  wf_cout (Session.cout self) →
  QoS_try_from (Config_mqtt_maximum_qos (Session.config self)) = Ok server_qos →
  Message_cout_publish (Message.Packet client_id shard_id seqno id subs (Packet.Publish p)) self
  = (Session.set_cout self (cout_after (Session.cout self) (length subs)),
     Ok (routed_messages server_qos client_id shard_id p (Session.cout self) subs)).
Proof.
  intros Hw Hq. unfold Message_cout_publish.
  change (gets Session.config ≫= ?f) with (λ s, f (Session.config s) s). cbv beta.
  rewrite Hq. by apply cout_loop_eq.
Qed.

Lemma routed_messages_lookup server_qos client_id shard_id p subs : ∀ c i s,
  wf_cout c → subs !! i = Some s →
  routed_messages server_qos client_id shard_id p c subs !! i
  = Some (routed_message server_qos client_id shard_id p (cout_after c i) s).
Proof.
  induction subs as [|s' subs IH]; intros c [|i] s Hw; try done; cbn.
  - intros [= ->]. by rewrite cout_after_0.
  - intros Hs. rewrite (IH _ _ s) by (done || by apply (cout_after_wf _ 1)). by rewrite cout_after_S.
Qed.

Lemma length_routed_messages server_qos client_id shard_id p subs : ∀ c,
  length (routed_messages server_qos client_id shard_id p c subs) = length subs.
Proof. induction subs as [|s subs IH]; intros c; cbn; [done|]. by rewrite IH. Qed.

(** C27: in a session whose counters are in range ([wf_cout]), a message that carries a PUBLISH
    and subscriptions is turned into one packet per subscription, in their order: with the
    least of the three QoS, the retain flag only where the subscription keeps it, no
    duplicate flag, the subscription's identifier added, and everything else as published.
    The first has the session's next packet identifier and sequence number, and each one the
    number after the one before it: an identifier is never zero, 65535 is followed by 1, and
    fewer than 65535 are all different; the sequence numbers stay at their greatest once they
    reach it.  The session goes on with the numbers after the last.  This is so whatever QoS a
    packet ends up with: at QoS 0 it has, and takes up, an identifier as well. *)
Theorem cout_publish_spec self server_qos client_id shard_id seqno id subs p :
  wf_cout (Session.cout self) →
  QoS_try_from (Config_mqtt_maximum_qos (Session.config self)) = Ok server_qos →
  let c := Session.cout self in
  let packet_id k := id_after (ClientOut.next_packet_id c) k in
  ∃ msgs,
    Message_cout_publish (Message.Packet client_id shard_id seqno id subs (Packet.Publish p)) self
      = (Session.set_cout self
           (ClientOut.mk (seqno_after (ClientOut.seqno c) (length subs)) (ClientOut.index c)
              (packet_id (length subs)) (ClientOut.back_log c)), Ok msgs) ∧
    length msgs = length subs ∧
    (∀ i s, subs !! i = Some s → ∃ q,
       msgs !! i = Some (Message.Packet client_id shard_id (seqno_after (ClientOut.seqno c) i) (packet_id i) []
                           (Packet.Publish q)) ∧
       Publish.qos q = QoS_min (QoS_min server_qos (Subscription.qos s)) (Publish.qos p) ∧
       Publish.retain q = (Subscription.retain_as_published s && Publish.retain p) ∧
       Publish.duplicate q = false ∧ Publish.packet_id q = Some (packet_id i) ∧
       Publish.properties q = Publish.properties (Publish_add_subscription_id p (Subscription.subscription_id s)) ∧
       Publish.topic_name q = Publish.topic_name p ∧ Publish.payload q = Publish.payload p) ∧
    packet_id 0%nat = ClientOut.next_packet_id c ∧
    (∀ k, is_id (packet_id k) ∧ packet_id (S k) = if packet_id k =? 65535 then 1 else packet_id k + 1) ∧
    (∀ j k, Z.of_nat j < 65535 → Z.of_nat k < 65535 → packet_id j = packet_id k → j = k).
Proof.
  intros Hw Hq c packet_id. pose proof (cout_publish_eq self server_qos client_id shard_id seqno id subs p Hw Hq) as E.
  fold c in E. eexists. split; [exact E|]. split; [apply length_routed_messages|]. split; [|split; [|split]].
  - intros i s Hs. pose proof (routed_messages_lookup server_qos client_id shard_id p subs c i s Hw Hs) as Hl.
    eexists. split; [exact Hl|]. pose proof (routed_publish_fields server_qos s (packet_id i) p) as H.
    cbv zeta in H. destruct H as (Hqos & Hret & Hdup & Hid & Hn & Hpl). do 4 (split; [done|]).
    split; [|done]. unfold routed_publish, Publish_add_subscription_id. by destruct (Subscription.subscription_id s).
  - apply id_after_0, Hw.
  - intros k. split; [apply id_after_is_id|]. apply id_after_next, Hw.
  - intros j k. apply id_after_inj, Hw.
Qed.

(** * QoS 0 *)

(** A packet that goes out for a subscription of QoS 0 still has its identifier. *)
Definition seen_by_receiver (p : Publish) (id : Z) (payload : bytes) : Publish :=
  Publish.mk (Publish.retain p) (Publish.qos p) (Publish.duplicate p) (Publish.topic_name p)
    None None (Some ([id; 0] ++ payload)).

Lemma small_id_bytes id : 0 ≤ id < 256 → to_be_bytes 2 id = [0; id].
Proof.
  intros H. unfold to_be_bytes. change (8 * Z.of_nat 1) with 8. change (8 * Z.of_nat 0) with 0.
  rewrite Z.shiftr_0_r, !land_255, Z.shiftr_div_pow2 by lia.
  change (2 ^ 8) with 256. by rewrite Z.div_small, (Z.mod_small id) by lia.
Qed.

(** A routed packet of QoS 0 is misread by its receiver: the packet identifier, which
    such a packet must not have, is written all the same and taken for an empty
    property block and the start of the payload. *)
Theorem routed_qos0_is_misread server_qos s p id payload b :
  QoS_min (QoS_min server_qos (Subscription.qos s)) (Publish.qos p) = QoS.AtMostOnce →
  Subscription.subscription_id s = None → Publish.properties p = None →
  Publish.payload p = Some payload → is_bytes payload →
  valid_TopicName (Publish.topic_name p) → 1 ≤ id < 256 →
  let q := routed_publish server_qos s id p in
  Packet_encode (Packet.Publish q) = Ok b →
  Packet_decode (as_ref b)
  = Ok (Packet.Publish (seen_by_receiver q id payload), length (as_ref b)).
Proof.
  intros Hqos Hs Hp Hd Hb Ht Hid q He.
  assert (q = Publish.mk (Subscription.retain_as_published s && Publish.retain p) QoS.AtMostOnce false
                (Publish.topic_name p) (Some id) None (Some payload)) as Eq.
  { unfold q, routed_publish. rewrite Hs. unfold Publish_set_packet_id, Publish_set_fixed_header. cbn.
    by rewrite Hqos, Hp, Hd. }
  clearbody q. subst q. set (q' := seen_by_receiver _ id payload).
  assert (Packet_encode (Packet.Publish q') = Ok b) as He'.
  { rewrite <- He. unfold Packet_encode, Publish_encode. cbn [q' seen_by_receiver Publish.topic_name
      Publish.packet_id Publish.properties Publish.payload Publish.retain Publish.qos Publish.duplicate].
    cbn [enc_field_opt encode u16_codec]. unfold u16_encode. rewrite small_id_bytes by lia. done. }
  pose proof (Packet_wire (Packet.Publish q') b []) as Hw. rewrite app_nil_r in Hw. apply Hw; [|done].
  split; [done|]. split; [done|]. split; [by split; [intros []|]|]. split; [done|]. split; [|done].
  intros d [= <-]. split; [|done]. constructor; [unfold is_u8; lia|].
  constructor; [unfold is_u8; lia|done].
Qed.

(** * Flushing *)

(** What reaches the back-log: never a [LocalAck]. *)
Definition has_packet (m : Message) : Prop :=
  match m with Message.LocalAck _ _ => False | _ => True end.
Definition packet_of (m : Message) : Packet :=
  match m with
  | Message.ClientAck p => p
  | Message.Packet _ _ _ _ _ p => p
  | Message.LocalAck _ _ => Packet.PingReq
  end.

Lemma into_packets_eq msgs : Forall has_packet msgs → into_packets msgs = Ok (packet_of <$> msgs).
Proof.
  induction 1 as [|m msgs Hm _ IH]; [done|]. cbn [into_packets]. rewrite IH.
  by destruct m.
Qed.

Lemma take_values_eq {T} (s : QueueStatus T) :
  ∃ s', take_values s = (values s, s') ∧ values s' = [].
Proof. destruct s; by eexists. Qed.

(** The state after a flush of which the queue took [k] packets. *)
Definition flushed (self : Session) (k : nat) : Session :=
  let cout := Session.cout self in
  let msgs := ClientOut.back_log cout in
  Session.set_cout self
    (ClientOut.mk (ClientOut.seqno cout) (book_inflight (drop k msgs) (ClientOut.index cout))
       (ClientOut.next_packet_id cout) (take k msgs)).

Lemma flush_messages_eq self chan :
  Z.of_nat (size (ClientOut.index (Session.cout self))) ≤ Session.client_receive_maximum self →
  let msgs := ClientOut.back_log (Session.cout self) in
  Forall has_packet msgs →
  let k := accepts chan (length msgs) in
  ∃ status, values status = [] ∧
    Session_flush_messages chan self = (flushed self k, Ok (status, take k (packet_of <$> msgs))).
Proof.
  intros Hsize msgs Hp k. unfold Session_flush_messages.
  change (get ≫= ?f) with (λ s, f s s). cbv beta zeta. fold msgs.
  rewrite (proj2 (Z.ltb_ge _ _)) by done. rewrite into_packets_eq by done. rewrite lift_bind_Ok.
  destruct (try_sends_spec chan (packet_of <$> msgs)) as (status & E & Hv & _).
  rewrite length_fmap in E, Hv. fold k in E, Hv.
  unfold PktTx_try_sends. rewrite E. cbn [fst snd].
  destruct (take_values_eq status) as (status' & Es & Hs'). rewrite Es, Hv.
  exists status'. split; [done|].
  rewrite length_drop, length_fmap.
  replace (length msgs - (length msgs - k))%nat with k by (pose proof (accepts_le chan (length msgs)); lia).
  done.
Qed.

(** A queue that takes everything leaves the session as it is. *)
Lemma flush_all_sent self chan :
  Z.of_nat (size (ClientOut.index (Session.cout self))) ≤ Session.client_receive_maximum self →
  let msgs := ClientOut.back_log (Session.cout self) in
  Forall has_packet msgs → (∀ i, (i < length msgs)%nat → chan i = Sent) →
  Session_flush_messages chan self = (self, Ok (QueueStatus.Ok [], packet_of <$> msgs)).
Proof.
  intros Hsize msgs Hp Hc. unfold Session_flush_messages, PktTx_try_sends.
  change (get ≫= ?f) with (λ s, f s s). cbv beta zeta. fold msgs.
  rewrite (proj2 (Z.ltb_ge _ _)) by done. rewrite into_packets_eq, lift_bind_Ok by done.
  rewrite try_sends_all by by rewrite length_fmap. cbn [take_values length]. rewrite Nat.sub_0_r, drop_all, firstn_all.
  cbn [book_inflight]. rewrite (M_bind_Ok (modify _) _ _ self ()); [done|].
  unfold modify, msgs. do 2 f_equal. by destruct self as [? ? ? ? ? ? ? ? ? ? ? ? ? ? ? []].
Qed.

(** A packet for the client is queued, unless there is too much to send already. *)
Definition queued (self : Session) (p : Packet) : Session :=
  let cout := Session.cout self in
  Session.set_cout self
    (ClientOut.mk (ClientOut.seqno cout) (ClientOut.index cout) (ClientOut.next_packet_id cout)
       (ClientOut.back_log cout ++ [Message.ClientAck p])).

Lemma in_ack_eq self p batch :
  Config_mqtt_pkt_batch_size (Session.config self) = Ok batch →
  Session_in_messages [Message.ClientAck p] self
  = (queued self p,
     Ok (if batch * 2 <? Z.of_nat (length (ClientOut.back_log (Session.cout (queued self p))))
         then QueueStatus.Disconnected [] else QueueStatus.Ok [])).
Proof.
  intros Hb. unfold Session_in_messages. rewrite (M_bind_Ok _ _ _ (queued self p) ()) by done.
  erewrite (M_bind_Ok (gets _)) by done. erewrite (M_bind_Ok (gets _)) by done.
  cbn [Session.config queued Session.set_cout]. rewrite Hb, lift_bind_Ok. by destruct (_ <? _).
Qed.

Lemma book_inflight_inv msgs : ∀ index id m,
  book_inflight msgs index !! id = Some m →
  index !! id = Some m ∨
  m ∈ msgs ∧ ∃ client shard seqno subs p, m = Message.Packet client shard seqno id subs p.
Proof.
  induction msgs as [|m' msgs IH]; intros index id m; cbn [book_inflight]; [by left|].
  intros [H|[H Hm]]%IH; [|right; split; [by right|done]]. destruct m' as [|? ? ? id' ? ?|]; [by left| |by left].
  apply lookup_insert_Some in H as [[<- <-]|[_ H]]; [right; split; [by left|by do 5 eexists]|by left].
Qed.

Definition is_ack (m : Message) : Prop := match m with Message.ClientAck _ => True | _ => False end.

Lemma book_inflight_acks msgs : ∀ index, Forall is_ack msgs → book_inflight msgs index = index.
Proof.
  induction msgs as [|m msgs IH]; intros index; [done|]. intros [Hm H]%Forall_cons. cbn [book_inflight].
  rewrite IH by done. by destruct m.
Qed.

Lemma book_inflight_mono msgs : ∀ index id,
  is_Some (index !! id) → is_Some (book_inflight msgs index !! id).
Proof.
  induction msgs as [|m' msgs IH]; intros index id H; cbn [book_inflight]; [done|].
  apply IH. destruct m'; [done| |done]. rewrite lookup_insert_is_Some'. by right.
Qed.

Lemma book_inflight_booked msgs index client shard seqno id subs p :
  Message.Packet client shard seqno id subs p ∈ msgs →
  is_Some (book_inflight msgs index !! id).
Proof.
  revert index. induction msgs as [|m' msgs IH]; intros index; [by intros ?%not_elem_of_nil|].
  cbn [book_inflight]. intros [<-|H]%elem_of_cons; [|by apply IH].
  apply book_inflight_mono. by rewrite lookup_insert_eq.
Qed.

Lemma flushed_all self k :
  drop k (ClientOut.back_log (Session.cout self)) = [] → flushed self k = self.
Proof.
  intros H. unfold flushed. rewrite H. cbn [book_inflight].
  rewrite take_ge; [by destruct self as [? ? ? ? ? ? ? ? ? ? ? ? ? ? ? []]|].
  apply (f_equal length) in H. rewrite length_drop in H. cbn in H. lia.
Qed.

(** C30: what a flush does to the back-log.  If more messages are in flight than the client
    takes at once, it does nothing.  Otherwise the messages are offered in order, and those the
    connection's queue takes, which are the first few, stay in the back-log.  Of those it does
    not take the published packets are booked as in flight, under their identifiers, and the
    acknowledgements, CONNACK among them, are dropped: none of them is in the back-log to be
    sent again, and nothing else is booked.  When the queue takes everything nothing changes,
    and the next flush sends it all again.  Of the messages that a back-log has it is only
    supposed that none is a [LocalAck], which [in_messages] does not let in. *)
Theorem flush_keeps_what_was_sent self chan :
  let msgs := ClientOut.back_log (Session.cout self) in
  let index self := ClientOut.index (Session.cout self) in
  Forall has_packet msgs →
  (Session.client_receive_maximum self < Z.of_nat (size (index self)) →
   Session_flush_messages chan self = (self, Ok (QueueStatus.Block [], []))) ∧
  (Z.of_nat (size (index self)) ≤ Session.client_receive_maximum self →
   ∃ self' status sent rest sent_msgs,
    Session_flush_messages chan self = (self', Ok (status, sent)) ∧
    msgs = sent_msgs ++ rest ∧ sent = packet_of <$> sent_msgs ∧ length sent_msgs = accepts chan (length msgs) ∧
    ClientOut.back_log (Session.cout self') = sent_msgs ∧
    (∀ id m, index self' !! id = Some m →
       index self !! id = Some m ∨
       m ∈ rest ∧ ∃ client shard seqno subs p, m = Message.Packet client shard seqno id subs p) ∧
    (∀ client shard seqno id subs p, Message.Packet client shard seqno id subs p ∈ rest →
       is_Some (index self' !! id)) ∧
    (Forall is_ack rest → index self' = index self) ∧
    (rest = [] → self' = self ∧ Session_flush_messages chan self' = (self', Ok (status, sent)))).
Proof.
  intros msgs index Hp. split.
  { intros Hsize. unfold Session_flush_messages. change (get ≫= ?f) with (λ s, f s s). cbv beta zeta.
    by rewrite (proj2 (Z.ltb_lt _ _)) by done. }
  intros Hsize. set (k := accepts chan (length msgs)).
  destruct (flush_messages_eq self chan Hsize Hp) as (status & _ & E). fold msgs k in E.
  exists (flushed self k), status, (take k (packet_of <$> msgs)), (drop k msgs), (take k msgs).
  split; [done|]. split; [by rewrite take_drop|]. split; [by rewrite <- fmap_take|].
  split; [rewrite length_take; unfold k; pose proof (accepts_le chan (length msgs)); lia|].
  split; [done|]. unfold index. cbn [flushed Session.cout Session.set_cout ClientOut.index]. fold msgs.
  split; [apply book_inflight_inv|]. split; [apply book_inflight_booked|]. split; [apply book_inflight_acks|].
  intros Hrest. rewrite (flushed_all self k Hrest) in E |- *. done.
Qed.

(** * Duplicate detection *)

#[export] Instance Zcompare_order : TotalOrder Z.compare.
Proof.
  split.
  - intros x y. apply Z.compare_antisym.
  - intros x y z. rewrite !Z.compare_lt_iff. lia.
  - by intros x y z ->%Z.compare_eq_iff.
Qed.

(** The identifiers of a QoS: sorted, without repetition. *)
Definition wf_ids (ids : list u16) : Prop := StronglySorted (cmp_lt Z.compare) ids.
Definition ids_of (self : Session) (q : QoS) : list u16 :=
  match q with
  | QoS.AtMostOnce => []
  | QoS.AtLeastOnce => Session.qos1 self
  | QoS.ExactlyOnce => Session.qos2 self
  end.
Definition wf_qos (self : Session) : Prop := wf_ids (Session.qos1 self) ∧ wf_ids (Session.qos2 self).

Lemma wf_qos_ids self q : wf_qos self → wf_ids (ids_of self q).
Proof. intros [H1 H2]. destruct q; [constructor|done..]. Qed.

Definition with_ids (self : Session) (q : QoS) (ids : list u16) : Session :=
  match q with
  | QoS.AtMostOnce => self
  | QoS.AtLeastOnce => Session.set_qos self ids (Session.qos2 self)
  | QoS.ExactlyOnce => Session.set_qos self (Session.qos1 self) ids
  end.

Lemma ids_with_ids self q ids q' : q ≠ QoS.AtMostOnce →
  ids_of (with_ids self q ids) q' = if bool_decide (q' = q) then ids else ids_of self q'.
Proof. by destruct q, q'. Qed.

Lemma with_ids_wf self q ids : wf_qos self → wf_ids ids → wf_qos (with_ids self q ids).
Proof. intros [H1 H2] H. by destruct q. Qed.

Lemma ordered_mem_spec id ids : ordered_mem Z.compare id ids = bool_decide (id ∈ ids).
Proof.
  unfold ordered_mem. induction ids as [|x ids IH]; [done|]. cbn [existsb]. rewrite IH.
  destruct (Z.compare_spec x id) as [->|Hlt|Hlt]; cbn.
  - symmetry. apply bool_decide_eq_true_2. by left.
  - apply bool_decide_ext. rewrite elem_of_cons. split; [by right|]. intros [->|?]; [lia|done].
  - apply bool_decide_ext. rewrite elem_of_cons. split; [by right|]. intros [->|?]; [lia|done].
Qed.

Lemma book_id_spec id ids : wf_ids ids →
  book_id id ids = Ok (ordered_add Z.compare id ids, negb (bool_decide (id ∈ ids))).
Proof.
  intros Hw. pose proof (value_search_spec Z.compare id ids Hw) as H.
  rewrite ordered_mem_spec in H. unfold book_id, search_id.
  destruct (binary_search_by _ _) as [[off|off]| | |]; [| |done..]; rewrite bind_Ok_1;
    destruct H as (-> & Ha & H); [by rewrite Ha|]. by rewrite H.
Qed.

Lemma unbook_id_spec id ids : wf_ids ids →
  unbook_id id ids = Ok (ordered_del Z.compare id ids, bool_decide (id ∈ ids)).
Proof.
  intros Hw. pose proof (value_search_spec Z.compare id ids Hw) as H.
  rewrite ordered_mem_spec in H. unfold unbook_id, search_id.
  destruct (binary_search_by _ _) as [[off|off]| | |]; [| |done..]; rewrite bind_Ok_1.
  - destruct H as (-> & _ & x & ->). done.
  - by destruct H as (-> & -> & _).
Qed.

Lemma known_id_spec id ids : wf_ids ids →
  (r ← search_id id ids; Ok (match r with inl _ => true | inr _ => false end))
  = Ok (bool_decide (id ∈ ids)).
Proof.
  intros Hw. pose proof (value_search_spec Z.compare id ids Hw) as H.
  rewrite ordered_mem_spec in H. unfold search_id.
  destruct (binary_search_by _ _) as [[off|off]| | |]; [| |done..]; by destruct H as (-> & _).
Qed.

Lemma wf_ids_add id ids : wf_ids ids → wf_ids (ordered_add Z.compare id ids).
Proof. apply (ordered_add_sorted Z.compare). Qed.

Lemma wf_ids_del id ids : wf_ids ids → wf_ids (ordered_del Z.compare id ids).
Proof. apply (ordered_del_sorted Z.compare). Qed.

Lemma elem_of_ids_add id ids x : wf_ids ids →
  x ∈ ordered_add Z.compare id ids ↔ x = id ∨ x ∈ ids.
Proof.
  intros Hw. rewrite (elem_of_ordered_add Z.compare id ids x Hw). rewrite ordered_mem_spec.
  case_bool_decide; split; [intros [?|[_ [=]]]|intros [->|?]|intros [?|[? _]]|intros [?|?]]; auto.
Qed.

Lemma elem_of_ids_del id ids x : wf_ids ids →
  x ∈ ordered_del Z.compare id ids ↔ x ∈ ids ∧ x ≠ id.
Proof. intros Hw. rewrite (elem_of_ordered_del Z.compare id ids x Hw). by rewrite Z.compare_eq_iff. Qed.

(** The three operations on a session whose identifiers are in order. *)
Section ids.
Context (self : Session) (publ : Publish) (id : u16) (Hw : wf_qos self).
Context (Hid : Publish.packet_id publ = Some id) (Hq : Publish.qos publ ≠ QoS.AtMostOnce).
Abbreviation q := (Publish.qos publ).

Lemma is_duplicate_eq :
  Session_is_duplicate self publ
  = Ok (negb (Publish.duplicate publ && Config_mqtt_ignore_duplicate (Session.config self)) &&
        bool_decide (id ∈ ids_of self q)).
Proof.
  unfold Session_is_duplicate. rewrite Hid. cbn [unwrap_some]. rewrite !bind_Ok_1.
  pose proof (known_id_spec id _ (wf_qos_ids self q Hw)) as H.
  destruct (Publish.qos publ); [done|..]; destruct (_ && _); done || exact H.
Qed.

Lemma book_qos_eq server_qos :
  QoS_try_from (Config_mqtt_maximum_qos (Session.config self)) = Ok server_qos →
  u8_from_QoS q ≤ u8_from_QoS server_qos →
  Session_book_qos publ self
  = (with_ids self q (ordered_add Z.compare id (ids_of self q)),
     Ok (negb (bool_decide (id ∈ ids_of self q)))).
Proof.
  intros Hs Hle. unfold Session_book_qos. change (get ≫= ?f) with (λ s, f s s). cbv beta.
  rewrite Hs. cbn [unwrap]. rewrite lift_bind_Ok, (proj2 (Z.ltb_ge _ _)) by done. rewrite Hid.
  pose proof (book_id_spec id _ (wf_qos_ids self q Hw)) as H. clear Hle.
  destruct (Publish.qos publ); [done|..]; cbn [unwrap_some ids_of] in H |- *;
    rewrite lift_bind_Ok, H; done.
Qed.

Lemma unbook_qos_eq :
  Session_unbook_qos publ self
  = (with_ids self q (ordered_del Z.compare id (ids_of self q)),
     Ok (bool_decide (id ∈ ids_of self q))).
Proof.
  unfold Session_unbook_qos. change (get ≫= ?f) with (λ s, f s s). cbv beta. rewrite Hid.
  pose proof (unbook_id_spec id _ (wf_qos_ids self q Hw)) as H.
  destruct (Publish.qos publ); [done|..]; cbn [unwrap_some ids_of] in H |- *;
    rewrite lift_bind_Ok, H; done.
Qed.
End ids.

(** C10: booking an identifier keeps the lists sorted and adds it to those of its QoS alone; then
    a packet of that QoS and identifier counts as a duplicate, until the identifier is
    unbooked - unless it is marked as redelivered, which by default makes it count as
    new. *)
Theorem duplicates_until_unbooked self publ id server_qos :
  wf_qos self → Publish.packet_id publ = Some id → Publish.qos publ ≠ QoS.AtMostOnce →
  QoS_try_from (Config_mqtt_maximum_qos (Session.config self)) = Ok server_qos →
  u8_from_QoS (Publish.qos publ) ≤ u8_from_QoS server_qos →
  ∃ booked unbooked new,
    Session_book_qos publ self = (booked, Ok new) ∧ wf_qos booked ∧
    (new = true ↔ id ∉ ids_of self (Publish.qos publ)) ∧
    (∀ q x, x ∈ ids_of booked q ↔ x ∈ ids_of self q ∨ (q = Publish.qos publ ∧ x = id)) ∧
    (∀ publ', Publish.packet_id publ' = Some id → Publish.qos publ' = Publish.qos publ →
       Session_is_duplicate booked publ'
       = Ok (negb (Publish.duplicate publ' && Config_mqtt_ignore_duplicate (Session.config self)))) ∧
    Session_unbook_qos publ booked = (unbooked, Ok true) ∧ wf_qos unbooked ∧
    (∀ q x, x ∈ ids_of unbooked q ↔ x ∈ ids_of self q ∧ ¬ (q = Publish.qos publ ∧ x = id)) ∧
    Session_is_duplicate unbooked publ = Ok false.
Proof.
  intros Hw Hid Hq Hs Hle. set (q := Publish.qos publ) in *.
  pose proof (wf_qos_ids self q Hw) as Hi.
  set (added := ordered_add Z.compare id (ids_of self q)).
  assert (wf_ids added) as Ha by by apply wf_ids_add.
  set (booked := with_ids self q added).
  assert (wf_qos booked) as Hb by by apply with_ids_wf.
  assert (ids_of booked q = added) as Hbq by (unfold booked; rewrite ids_with_ids, bool_decide_eq_true_2 by done; done).
  assert (id ∈ added) as Hin by (apply elem_of_ids_add; [done|by left]).
  set (unbooked := with_ids booked q (ordered_del Z.compare id added)).
  assert (wf_qos unbooked) as Hu by (apply with_ids_wf; [done|by apply wf_ids_del]).
  assert (ids_of unbooked q = ordered_del Z.compare id added) as Huq
    by (unfold unbooked; rewrite ids_with_ids, bool_decide_eq_true_2 by done; done).
  exists booked, unbooked, (negb (bool_decide (id ∈ ids_of self q))).
  split; [by eapply book_qos_eq|]. split; [done|].
  split; [by rewrite negb_true_iff, bool_decide_eq_false|].
  split; [|split; [|split; [|split; [done|split]]]].
  - intros q' x. unfold booked. rewrite ids_with_ids by done. case_bool_decide as E; [subst q'|naive_solver].
    unfold added. rewrite elem_of_ids_add by done. naive_solver.
  - intros publ' Hid' Hq'. rewrite (is_duplicate_eq booked publ' id) by (done || congruence).
    rewrite Hq'. fold q. rewrite Hbq, bool_decide_eq_true_2, andb_true_r by done.
    unfold booked. by destruct q.
  - rewrite (unbook_qos_eq booked publ id) by done. fold q. by rewrite Hbq, bool_decide_eq_true_2 by done.
  - intros q' x. unfold unbooked, booked. rewrite !ids_with_ids by done.
    case_bool_decide as E; [subst q'|naive_solver].
    unfold added. rewrite elem_of_ids_del, elem_of_ids_add by done. naive_solver.
  - rewrite (is_duplicate_eq unbooked publ id) by done. fold q.
    rewrite Huq, (bool_decide_eq_false_2 (id ∈ _)); [by rewrite andb_false_r|].
    rewrite elem_of_ids_del by done. by intros [].
Qed.

(** * Topic aliases *)

(** What a client published, the latest first, and the last name it gave an alias that the
    server allows. *)
Definition names_alias (alias_max : u16) (alias : u16) (publ : Publish) : bool :=
  match Publish_topic_alias publ with
  | Some alias' =>
      (alias' =? alias) && (alias <=? alias_max) &&
      negb (length (topic_name_str (Publish.topic_name publ)) =? 0)%nat
  | None => false
  end.
Fixpoint last_name (alias_max : u16) (alias : u16) (history : list Publish) : option TopicName :=
  match history with
  | [] => None
  | publ :: history =>
      if names_alias alias_max alias publ then Some (Publish.topic_name publ)
      else last_name alias_max alias history
  end.

(** The session after those packets, some of which may have failed. *)
Definition after_history (self : Session) (history : list Publish) : Session :=
  foldr (λ publ s, fst (Session_publish_topic_name publ s)) self history.

Section topic_alias.
Context (self : Session).
Abbreviation alias_limit := (Config_mqtt_topic_alias_max (Session.config self)).

Lemma topic_name_state publ s :
  Session.config s = Session.config self →
  Session.config (fst (Session_publish_topic_name publ s)) = Session.config self ∧
  ∀ alias_max alias, alias_limit = Some alias_max →
    Session.topic_aliases (fst (Session_publish_topic_name publ s)) !! alias
    = if names_alias alias_max alias publ then Some (Publish.topic_name publ)
      else Session.topic_aliases s !! alias.
Proof.
  intros Hc. unfold Session_publish_topic_name, names_alias.
  change (get ≫= ?f) with (λ s, f s s). cbv beta zeta. rewrite Hc.
  destruct (length (topic_name_str (Publish.topic_name publ))) as [|len];
    destruct (Publish_topic_alias publ) as [alias'|]; cbn [Nat.ltb Nat.leb Nat.eqb negb].
  - destruct alias_limit as [alias_max|]; [|done]. destruct (alias_max <? alias');
      (split; [by destruct (Session.topic_aliases s !! alias')|]); intros m alias _; rewrite andb_false_r; [done|].
    by destruct (Session.topic_aliases s !! alias').
  - done.
  - destruct alias_limit as [alias_max|] eqn:E; [|done].
    destruct (Z.ltb_spec alias_max alias').
    + split; [done|]. intros m alias [= <-]. destruct (Z.eqb_spec alias' alias) as [->|]; [|done].
      by rewrite (proj2 (Z.leb_gt _ _)).
    + split; [done|]. intros m alias [= <-].
      change (Session.topic_aliases _)
        with (<[alias' := Publish.topic_name publ]> (Session.topic_aliases s)) at 1.
      rewrite andb_true_r.
      destruct (Z.eqb_spec alias' alias) as [->|].
      * rewrite (proj2 (Z.leb_le _ _)) by done. by rewrite lookup_insert_eq.
      * by rewrite lookup_insert_ne.
  - done.
Qed.

Lemma aliases_after history :
  Session.config (after_history self history) = Session.config self ∧
  ∀ alias_max alias, alias_limit = Some alias_max → Session.topic_aliases self = ∅ →
    Session.topic_aliases (after_history self history) !! alias = last_name alias_max alias history.
Proof.
  induction history as [|publ history [IHc IH]]; cbn [after_history foldr last_name].
  - split; [done|]. by intros ? ? _ ->.
  - fold (after_history self history). destruct (topic_name_state publ _ IHc) as [Hc Ha].
    split; [done|]. intros m alias Hm He. rewrite (Ha m) by done. by rewrite (IH m).
Qed.
End topic_alias.

(** C15: a packet without a topic name is published under the last name that a packet of the
    same connection gave its alias, and refused when there is none; an alias over the
    server's maximum is refused, and so is every alias when the server allows none. *)
Theorem topic_alias_resolution self history publ :
  Session.topic_aliases self = ∅ →
  let name := Publish.topic_name publ in
  let alias_max := Config_mqtt_topic_alias_max (Session.config self) in
  snd (Session_publish_topic_name publ (after_history self history))
  = match Publish_topic_alias publ with
    | None =>
        if (length (topic_name_str name) =? 0)%nat
        then err ErrorKind.ProtocolError ReasonCode.TopicNameInvalid
        else Ok name
    | Some alias =>
        let resolved :=
          if (length (topic_name_str name) =? 0)%nat
          then m ← alias_max; last_name m alias history else Some name in
        match alias_max, resolved with
        | Some m, Some t =>
            if m <? alias then err ErrorKind.ProtocolError ReasonCode.TopicAliasInvalid else Ok t
        | _, _ => err ErrorKind.ProtocolError ReasonCode.TopicAliasInvalid
        end
    end.
Proof.
  intros He name alias_max. destruct (aliases_after self history) as [Hc Ha].
  unfold Session_publish_topic_name. change (get ≫= ?f) with (λ s, f s s). cbv beta zeta.
  rewrite Hc. fold alias_max name in Ha |- *.
  destruct (length (topic_name_str name)); cbn [Nat.ltb Nat.leb Nat.eqb];
    (destruct (Publish_topic_alias publ) as [alias|]; [|done]);
    (destruct alias_max as [m|]; [|done]); [|by destruct (m <? alias)].
  rewrite (Ha m) by done. cbn [mbind option_bind].
  destruct (last_name m alias history); by destruct (m <? alias).
Qed.

(** * Instances *)

Definition ex_config : Config :=
  Config.mk [0x6d] None None None None None None None None None None None None None None None (Some 10)
    None.
Definition ex_client : ClientID := mkClientID [0x63].
Definition ex_topic : TopicName := mkTopicName [0x61].
Definition ex_publish (q : QoS) (id : option u16) : Publish :=
  Publish.mk true q false ex_topic id None (Some [1; 2]).
Definition ex_subscription (q : QoS) : Subscription :=
  Subscription.mk (mkTopicFilter [0x61]) ex_client 1 None q false true RetainForwardRule.OnEverySubscribe.
Definition ex_session : Session :=
  Session.mk ex_client 256 1024 None None ex_config (PktTx.mk 1 0) (PktRx.mk 4) None
    (KeepAlive.mk None 0) ∅ None [] [] ∅
    (ClientOut.mk 1 ∅ 1 [Message.ClientAck (Packet.ConnAck (ConnAck_new_success None));
       Message.Packet ex_client 1 1 7 [] (Packet.Publish (ex_publish QoS.AtLeastOnce (Some 7)))]).

Lemma ex_session_wf_cout : wf_cout (Session.cout ex_session).
Proof. unfold wf_cout, is_id. cbn. lia. Qed.

Lemma cout_publish_spec_witness :
  ∃ self' q1 q2,
    Message_cout_publish (Message.Packet ex_client 1 5 0
        [ex_subscription QoS.AtLeastOnce; ex_subscription QoS.AtMostOnce]
        (Packet.Publish (ex_publish QoS.AtLeastOnce (Some 9)))) ex_session
    = (self', Ok [Message.Packet ex_client 1 1 1 [] (Packet.Publish q1);
                  Message.Packet ex_client 1 2 2 [] (Packet.Publish q2)]) ∧
    Publish.qos q1 = QoS.AtLeastOnce ∧ Publish.qos q2 = QoS.AtMostOnce.
Proof.
  destruct (cout_publish_spec ex_session QoS.AtLeastOnce ex_client 1 5 0
    [ex_subscription QoS.AtLeastOnce; ex_subscription QoS.AtMostOnce]
    (ex_publish QoS.AtLeastOnce (Some 9)) ex_session_wf_cout eq_refl) as (msgs & E & _).
  eexists _, _, _. split; [vm_compute; reflexivity|]. split; reflexivity.
Defined.

Lemma routed_qos0_is_misread_witness :
  Packet_decode [0x31; 8; 0; 1; 0x61; 0; 1; 0; 1; 2]
  = Ok (Packet.Publish (Publish.mk true QoS.AtMostOnce false ex_topic None None (Some [1; 0; 1; 2])), 10%nat).
Proof.
  set (q := routed_publish QoS.AtLeastOnce (ex_subscription QoS.AtMostOnce) 1
              (ex_publish QoS.AtLeastOnce None)).
  destruct (Packet_encode (Packet.Publish q)) as [b| | |] eqn:E; [|vm_compute in E; discriminate..].
  pose proof (routed_qos0_is_misread QoS.AtLeastOnce (ex_subscription QoS.AtMostOnce)
    (ex_publish QoS.AtLeastOnce None) 1 [1; 2] b eq_refl eq_refl eq_refl eq_refl) as H.
  vm_compute in E. injection E as <-. apply H; [| |lia|vm_compute; reflexivity].
  - repeat constructor; unfold is_u8; lia.
  - unfold valid_TopicName, valid_str. cbn. repeat split; try (repeat constructor; unfold is_u8; lia); by vm_compute.
Defined.

Lemma flush_keeps_what_was_sent_witness :
  ∃ self' status sent,
    Session_flush_messages (λ _, Sent) ex_session = (self', Ok (status, sent)) ∧
    length sent = 2%nat ∧ self' = ex_session.
Proof.
  destruct (flush_keeps_what_was_sent ex_session (λ _, Sent)) as [_ H]; [by repeat constructor|].
  destruct H as (self' & status & sent & rest & sent_msgs & E & Hm & Hs & _ & Hb & _ & _ & _ & Hr); [by vm_compute|].
  exists self', status, sent. vm_compute in E. injection E as <- <- <-.
  split; [reflexivity|]. by split.
Defined.

Lemma duplicates_until_unbooked_witness :
  Session_is_duplicate (fst (Session_book_qos (ex_publish QoS.AtLeastOnce (Some 9)) ex_session))
    (ex_publish QoS.AtLeastOnce (Some 9)) = Ok true.
Proof.
  destruct (duplicates_until_unbooked ex_session (ex_publish QoS.AtLeastOnce (Some 9)) 9 QoS.AtLeastOnce)
    as (booked & unbooked & new & E & _ & _ & _ & Hd & _); [by split; constructor|done..|].
  rewrite E. by apply Hd.
Defined.

Definition ex_alias_props : PublishProperties :=
  PublishProperties.set_topic_alias (Some 3) PublishProperties_default.
Lemma topic_alias_resolution_witness :
  snd (Session_publish_topic_name
         (Publish.mk false QoS.AtMostOnce false (mkTopicName []) None (Some ex_alias_props) None)
         (after_history ex_session
            [Publish.mk false QoS.AtMostOnce false ex_topic None (Some ex_alias_props) None]))
  = Ok ex_topic.
Proof. rewrite (topic_alias_resolution ex_session [_] _ eq_refl). vm_compute. reflexivity. Defined.
