(* ===== verification/ShardTheorems.v ===== *)
(** The properties of publishing and subscribing on a shard ([Shard], [ShardLoop]): which
    sessions a published packet is routed to and under which numbers, what a
    subscription records and answers, and how acknowledged messages leave. *)

From S2P Require Import Prelude Error Util Codec Types V5 AckPackets PublishPacket SubPackets.
From S2P Require Import ConnectPackets Packets Config Ttrie TtrieFacts Timer Retained State Queue KeepAlive.
From S2P Require Import Session SessionTheorems Thread Flusher Miot Shard ShardLoop.
Local Open Scope Z_scope.

(** * Groups *)

Definition at_key `{Countable K} {A} (k : K) (m : gmap K (list A)) : list A := default [] (m !! k).

Lemma at_key_push `{Countable K} {A} (k k' : K) (v : A) m :
  at_key k (push_at k' v m) = at_key k m ++ (if bool_decide (k' = k) then [v] else []).
Proof.
  unfold at_key, push_at. case_bool_decide as E; [subst k'|].
  - destruct (m !! k); by rewrite lookup_insert_eq.
  - rewrite app_nil_r. destruct (m !! k'); by rewrite lookup_insert_ne.
Qed.

Lemma push_at_key `{Countable K} {A} (k k' : K) (v : A) m :
  push_at k' v m !! k = if bool_decide (k' = k) then Some (at_key k m ++ [v]) else m !! k.
Proof.
  unfold at_key, push_at. case_bool_decide as E; [subst k'|].
  - destruct (m !! k); by rewrite lookup_insert_eq.
  - destruct (m !! k'); by rewrite lookup_insert_ne.
Qed.

Lemma at_key_group `{Countable K} {A B} (key : A → K) (val : A → B) l : ∀ m k,
  at_key k (foldl (λ m x, push_at (key x) (val x) m) m l)
  = at_key k m ++ (val <$> filter (λ x, key x = k) l).
Proof.
  induction l as [|x l IH]; intros m k; cbn [foldl]; [by rewrite app_nil_r|].
  rewrite IH, at_key_push, <- app_assoc, filter_cons. f_equal.
  case_bool_decide; case_decide; done.
Qed.

Lemma remove_offs_app offs offs' l :
  remove_offs (offs ++ offs') l = (l ← remove_offs offs l; remove_offs offs' l).
Proof.
  revert l. induction offs as [|off offs IH]; intros l; cbn [remove_offs app]; [by rewrite bind_Ok_1|].
  destruct (vec_remove l off) as [[x l']| | |]; [|done..]. rewrite !bind_Ok_1. apply IH.
Qed.

(** Taking out the no-local subscriptions, the last one first, leaves the others. *)
Lemma remove_no_local ss : ∀ pre,
  remove_offs (reverse (no_local_offs (length pre) ss)) (pre ++ ss)
  = Ok (pre ++ filter (λ s, Subscription.no_local s = false) ss).
Proof.
  induction ss as [|s ss IH]; intros pre; cbn [no_local_offs]; [cbn; by rewrite app_nil_r|].
  assert (S (length pre) = length (pre ++ [s])) as E by (rewrite length_app; cbn; lia).
  specialize (IH (pre ++ [s])). rewrite <- E, <- !app_assoc in IH. cbn [app] in IH.
  rewrite filter_cons. destruct (Subscription.no_local s) eqn:Hs; [|by rewrite IH].
  rewrite reverse_cons, remove_offs_app, IH, bind_Ok_1. cbn [remove_offs].
  by rewrite vec_remove_middle, bind_Ok_1.
Qed.

(** * Publishing *)

Section publish.
Context (sid : u32) (cfg : Config).

(** A shard that runs. *)
Definition running (r : RunLoop) : Shard := Shard.mk sid cfg (ShardInner.Main r).

(** The subscriptions of a client that want what [sess] publishes. *)
Definition wants (sess c : ClientID) (s : Subscription) : bool :=
  bool_decide (Subscription.client_id s = c) &&
  negb (bool_decide (c = sess) && Subscription.no_local s).

Lemma filter_wants sess c (matches : list Subscription) :
  filter (λ s, wants sess c s = true) matches
  = (if bool_decide (c = sess) then filter (λ s, Subscription.no_local s = false) else id)
      (filter (λ s, Subscription.client_id s = c) matches).
Proof.
  case_bool_decide as E.
  - rewrite list_filter_filter. apply list_filter_iff. intros s. unfold wants.
    rewrite (bool_decide_eq_true_2 _ E). rewrite andb_true_iff, bool_decide_eq_true, negb_true_iff. tauto.
  - apply list_filter_iff. intros s. unfold wants. rewrite (bool_decide_eq_false_2 _ E).
    by rewrite andb_true_r, bool_decide_eq_true.
Qed.

Lemma match_subscribers_eq r m sess topic :
  subscribed_as (RunLoop.topic_filters r) m →
  ∃ t matches subs,
    Shard_match_subscribers sess topic (running r) = (running (RunLoop.set_topic_filters r t), Ok subs) ∧
    SubscribedTrie_match_topic_name (RunLoop.topic_filters r) (TopicName_iter_topic_path topic) = Ok (t, matches) ∧
    subscribed_as t m ∧
    (∀ s, s ∈ matches ↔ ∃ p, root_match true (TopicName_iter_topic_path topic) p = true ∧ s ∈ m p) ∧
    ∀ c, at_key c subs = filter (λ s, wants sess c s = true) matches.
Proof.
  intros Ht. unfold Shard_match_subscribers.
  change (as_main ≫= ?f) with (λ s, (as_main ≫= f) s). cbv beta.
  rewrite (M_bind_Ok as_main _ (running r) (running r) r) by done.
  destruct (TopicName_iter_topic_path topic) as [|k ks] eqn:Ek; [by apply split_slash_not_nil in Ek|].
  rewrite (match_step _ m k ks Ht), lift_bind_Ok. set (t := Inner.mk _ _).
  set (matches := select _ _).
  rewrite (M_bind_Ok (set_main _) _ _ (running (RunLoop.set_topic_filters r t)) ()) by done.
  set (groups := foldl _ _ _).
  assert (∀ c, at_key c groups = filter (λ s, Subscription.client_id s = c) matches) as Hg.
  { intros c. unfold groups. rewrite (at_key_group Subscription.client_id (λ s, s)).
    unfold at_key at 1. rewrite lookup_empty. cbn. apply list_fmap_id. }
  assert (subscribed_as t m) as Ht' by by apply (trie_as_ext _ (RunLoop.topic_filters r) t m m).
  assert (∀ s, s ∈ matches ↔ ∃ p, root_match true (k :: ks) p = true ∧ s ∈ m p) as Hm
    by (intros s; apply (elem_of_selected (sorted_values Subscription_cmp)); [constructor|exact Ht]).
  destruct (groups !! sess) as [ss|] eqn:Es.
  - pose proof (remove_no_local ss []) as Hr. cbn [length app] in Hr. rewrite Hr, lift_bind_Ok.
    exists t, matches, (<[sess := filter (λ s, Subscription.no_local s = false) ss]> groups).
    do 4 (split; [done|]).
    intros c. rewrite filter_wants, <- Hg. unfold at_key. case_bool_decide as E.
    + subst c. by rewrite lookup_insert_eq, Es.
    + by rewrite lookup_insert_ne.
  - exists t, matches, groups. do 4 (split; [done|]).
    intros c. rewrite filter_wants, <- Hg. case_bool_decide as E; [|done].
    subst c. unfold at_key. by rewrite Es.
Qed.

(** ** Routing to the clients *)

Definition sat_next (seqno : Z) : Z := Z.min (seqno + 1) (2 ^ 64 - 1).

(** The messages for the clients, numbered. *)
Definition route_message (sess : ClientID) (publ : Publish) (seqno : u64)
    (ss : list Subscription) : Message :=
  Message.Packet sess sid seqno 0 ss (Packet.Publish publ).
Fixpoint route_messages (sess : ClientID) (publ : Publish) (seqno : u64)
    (groups : list (list Subscription)) : list (u32 * Message) :=
  match groups with
  | [] => []
  | ss :: groups =>
      match ss with
      | [] => route_messages sess publ seqno groups
      | s :: _ =>
          (Subscription.shard_id s, route_message sess publ seqno ss) ::
          route_messages sess publ (sat_next seqno) groups
      end
  end.

(** The state once a message is on its way to a shard. *)
Definition book_routed (acked : bool) (r : RunLoop) (e : u32 * Message) : RunLoop :=
  let cinp := RunLoop.cinp r in
  let seqno := ClientInp.seqno cinp in
  let stamp :=
    match ClientInp.timestamp cinp !! fst e with
    | Some (_, last_received) => (seqno, last_received)
    | None => (seqno, 0)
    end in
  let cinp :=
    if acked
    then ClientInp.mk (sat_next seqno) (<[seqno := snd e]> (ClientInp.unacks cinp))
           (<[fst e := stamp]> (ClientInp.timestamp cinp))
    else ClientInp.mk (sat_next seqno) (ClientInp.unacks cinp) (ClientInp.timestamp cinp) in
  RunLoop.set_back_log (RunLoop.set_cinp r cinp)
    (push_at (fst e) (snd e) (RunLoop.shard_back_log r)).

Lemma route_to_client_eq r sess s ss publ server_qos :
  QoS_try_from (Config_mqtt_maximum_qos cfg) = Ok server_qos →
  QoS_min server_qos (Publish.qos publ) ≠ QoS.ExactlyOnce →
  Shard_route_to_client sess (s :: ss) publ (running r)
  = (running (book_routed (bool_decide (QoS_min server_qos (Publish.qos publ) = QoS.AtLeastOnce)) r
       (Subscription.shard_id s,
        route_message sess publ (ClientInp.seqno (RunLoop.cinp r)) (s :: ss))), Ok ()).
Proof.
  intros Hs Hq. unfold Shard_route_to_client. change (get ≫= ?f) with (λ s, f s s). cbv beta.
  rewrite lift_bind_Ok. cbn [Shard.config running]. rewrite Hs. cbn [unwrap]. rewrite lift_bind_Ok.
  by destruct (QoS_min server_qos (Publish.qos publ)).
Qed.

Lemma route_groups_eq sess publ server_qos gs : ∀ r,
  QoS_try_from (Config_mqtt_maximum_qos cfg) = Ok server_qos →
  QoS_min server_qos (Publish.qos publ) ≠ QoS.ExactlyOnce ∨
    filter (λ e : ClientID * list Subscription, e.2 ≠ []) gs = [] →
  for_each gs (λ e : ClientID * list Subscription, match snd e with [] => mret () | ss => Shard_route_to_client sess ss publ end)
    (running r)
  = (running (foldl (book_routed (bool_decide (QoS_min server_qos (Publish.qos publ) = QoS.AtLeastOnce)))
       r (route_messages sess publ (ClientInp.seqno (RunLoop.cinp r)) gs.*2)), Ok ()).
Proof.
  induction gs as [|[c ss] gs IH]; intros r Hs Hq; [done|]. cbn [for_each snd fmap list_fmap route_messages].
  rewrite filter_cons in Hq. destruct ss as [|s ss]; [rewrite decide_False in Hq by auto; by apply IH|].
  rewrite decide_True in Hq by done. destruct Hq as [Hq|]; [|done].
  rewrite (M_bind_Ok _ _ _ _ _ (route_to_client_eq r sess s ss publ server_qos Hs Hq)).
  rewrite IH by auto. cbn [foldl]. do 5 f_equal. by destruct (bool_decide _).
Qed.

(** A QoS 2 message for the first of them is a panic. *)
Lemma route_groups_panic sess publ server_qos gs r :
  QoS_try_from (Config_mqtt_maximum_qos cfg) = Ok server_qos →
  QoS_min server_qos (Publish.qos publ) = QoS.ExactlyOnce →
  filter (λ e : ClientID * list Subscription, e.2 ≠ []) gs ≠ [] →
  ∃ sh, for_each gs (λ e : ClientID * list Subscription, match snd e with [] => mret () | ss => Shard_route_to_client sess ss publ end)
    (running r) = (sh, Panic).
Proof.
  intros Hs Hq. induction gs as [|[c ss] gs IH]; intros Hne; [done|]. cbn [for_each snd].
  rewrite filter_cons in Hne. destruct ss as [|s ss]; [rewrite decide_False in Hne by auto; by apply IH|].
  eassert (Shard_route_to_client sess (s :: ss) publ (running r) = (_, Panic)) as E.
  { unfold Shard_route_to_client. change (get ≫= ?f) with (λ s, f s s). cbv beta.
    rewrite lift_bind_Ok. cbn [Shard.config running]. rewrite Hs. cbn [unwrap]. rewrite lift_bind_Ok. by rewrite Hq. }
  eexists. by rewrite (M_bind_eq _ _ _ _ _ E).
Qed.

Lemma route_messages_lookup sess publ gs : ∀ seqno i c ss,
  seqno < 2 ^ 64 →
  filter (λ e : ClientID * list Subscription, e.2 ≠ []) gs !! i = Some (c, ss) →
  ∃ s ss', ss = s :: ss' ∧
    route_messages sess publ seqno gs.*2 !! i
    = Some (Subscription.shard_id s, route_message sess publ (seqno_after seqno i) ss).
Proof.
  induction gs as [|[c' ss'] gs IH]; intros seqno i c ss Hq; [done|].
  rewrite filter_cons. cbn [fmap list_fmap route_messages]. destruct ss' as [|s ss'].
  { rewrite decide_False by (cbn; auto). by apply IH. }
  rewrite decide_True by done. destruct i as [|i]; cbn [lookup list_lookup].
  - intros [= <- <-]. exists s, ss'. split; [done|]. unfold seqno_after. by rewrite Z.min_l, Z.add_0_r by lia.
  - intros H. apply (IH (sat_next seqno)) in H as (s1 & ss1 & -> & H); [|unfold sat_next; lia].
    exists s1, ss1. split; [done|]. etrans; [exact H|]. do 2 f_equal.
    unfold route_message. f_equal. unfold seqno_after, sat_next. lia.
Qed.

Lemma length_route_messages sess publ gs : ∀ seqno,
  length (route_messages sess publ seqno gs.*2)
  = length (filter (λ e : ClientID * list Subscription, e.2 ≠ []) gs).
Proof.
  induction gs as [|[c ss] gs IH]; intros seqno; [done|]. rewrite filter_cons.
  cbn [fmap list_fmap route_messages]. destruct ss as [|s ss]; cbn [snd].
  - by rewrite decide_False by auto.
  - rewrite decide_True by done. cbn [length]. by rewrite <- (IH (sat_next seqno)).
Qed.

(** What the messages leave behind. *)
Lemma book_routed_fold acked msgs : ∀ r,
  let r' := foldl (book_routed acked) r msgs in
  (∀ k, at_key k (RunLoop.shard_back_log r')
        = at_key k (RunLoop.shard_back_log r) ++ (filter (λ e, e.1 = k) msgs).*2) ∧
  RunLoop.sessions r' = RunLoop.sessions r ∧ RunLoop.topic_filters r' = RunLoop.topic_filters r ∧
  RunLoop.cluster r' = RunLoop.cluster r.
Proof.
  induction msgs as [|[k' m] msgs IH]; intros r; cbn [foldl].
  - split; [|done]. intros k. by rewrite app_nil_r.
  - destruct (IH (book_routed acked r (k', m))) as (Hb & Hs & Ht & Hc). split; [|done].
    intros k. rewrite Hb. cbn [book_routed RunLoop.shard_back_log RunLoop.set_back_log fst snd].
    rewrite at_key_push, <- app_assoc, filter_cons. cbn [fst]. case_bool_decide; case_decide; done.
Qed.

Lemma book_routed_unacks msgs : ∀ r,
  let q := ClientInp.seqno (RunLoop.cinp r) in
  q + Z.of_nat (length msgs) < 2 ^ 64 →
  let cinp := RunLoop.cinp (foldl (book_routed true) r msgs) in
  ClientInp.seqno cinp = q + Z.of_nat (length msgs) ∧
  (∀ i e, msgs !! i = Some e → ClientInp.unacks cinp !! (q + Z.of_nat i) = Some e.2) ∧
  (∀ q', q' < q → ClientInp.unacks cinp !! q' = ClientInp.unacks (RunLoop.cinp r) !! q').
Proof.
  induction msgs as [|e msgs IH]; intros r q Hq; cbn [foldl length].
  { split; [by rewrite Z.add_0_r|]. done. }
  cbn [length] in Hq. destruct (IH (book_routed true r e)) as (Hs & Hu & Ho).
  all: cbn [book_routed RunLoop.cinp RunLoop.set_back_log RunLoop.set_cinp ClientInp.seqno ClientInp.unacks] in *.
  all: unfold sat_next in *; fold q in Hq |- *; try lia.
  fold q in Hs, Hu, Ho. rewrite Z.min_l in Hs, Hu, Ho by lia. split; [rewrite Hs; lia|]. split.
  - intros [|i] e' He; cbn in He.
    + injection He as <-. rewrite Ho by lia. rewrite Z.add_0_r. apply lookup_insert_eq.
    + apply Hu in He. by replace (q + Z.of_nat (S i)) with (q + 1 + Z.of_nat i) by lia.
  - intros q' Hlt. rewrite Ho by lia. by rewrite lookup_insert_ne by lia.
Qed.

(** The retained message of a publish, if any, goes to the cluster. *)
Definition retain_request (publ : Publish) : list retain_op :=
  if Publish.retain publ then
    match Publish.payload publ with
    | Some (_ :: _) => [SetRetain publ]
    | _ => [ResetRetain (Publish.topic_name publ)]
    end
  else [].

Lemma post_to_cluster_eq r op : RunLoop.cluster_open r = true →
  post_to_cluster op (running r) = (running (RunLoop.post_cluster r op), Ok ()).
Proof.
  intros Ho. unfold post_to_cluster.
  rewrite (M_bind_Ok as_main _ (running r) (running r) r) by done. by rewrite Ho.
Qed.

Lemma book_retain_eq self r publ :
  (Publish.retain publ = true →
   Config_mqtt_retain_available (Session.config self) = true ∧ RunLoop.cluster_open r = true) →
  ∃ r', Session_book_retain publ (self, running r) = ((self, running r'), Ok ()) ∧
    RunLoop.cluster r' = RunLoop.cluster r ++ retain_request publ ∧
    RunLoop.topic_filters r' = RunLoop.topic_filters r ∧ RunLoop.cinp r' = RunLoop.cinp r ∧
    RunLoop.shard_back_log r' = RunLoop.shard_back_log r ∧ RunLoop.sessions r' = RunLoop.sessions r.
Proof.
  intros H. unfold Session_book_retain, retain_request. change (on_fst get ≫= ?f) with (λ s : Session * Shard, f (fst s) (fst s, snd s)).
  cbv beta. cbn [fst snd]. destruct (Publish.retain publ).
  - destruct (H eq_refl) as [-> Ho]. cbn [negb]. unfold on_snd. cbn [fst snd].
    exists (RunLoop.post_cluster r (match Publish.payload publ with
                                    | Some (_ :: _) => SetRetain publ
                                    | _ => ResetRetain (Publish.topic_name publ) end)).
    by destruct (Publish.payload publ) as [[|b bs]|]; cbn [length Nat.eqb snd];
      rewrite post_to_cluster_eq.
  - exists r. by rewrite app_nil_r.
Qed.
End publish.

(** ** Where the shard does not run *)

Lemma on_fst_inv {S T A} (m : M S A) (st st' : S * T) a :
  on_fst m st = (st', Ok a) → snd st' = snd st ∧ m (fst st) = (fst st', Ok a).
Proof. unfold on_fst. destruct (m (fst st)) as [s1 r]. by intros [= <- <-]. Qed.

Lemma on_snd_inv {S T A} (m : M T A) (st st' : S * T) a :
  on_snd m st = (st', Ok a) → fst st' = fst st ∧ m (snd st) = (snd st', Ok a).
Proof. unfold on_snd. destruct (m (snd st)) as [s1 r]. by intros [= <- <-]. Qed.

Definition off (sh : Shard) : Prop := ∀ r, Shard.inner sh ≠ ShardInner.Main r.

Lemma as_main_off sh : off sh → as_main sh = (sh, Panic).
Proof. unfold as_main, off. intros H. destruct (Shard.inner sh) eqn:E; try done. by destruct (H run_loop). Qed.

Lemma as_main_off_inv sh sh' r : off sh → as_main sh ≠ (sh', Ok r).
Proof. intros Hi. by rewrite as_main_off. Qed.

Lemma book_retain_off publ s sh st u : off sh → Session_book_retain publ (s, sh) = (st, Ok u) → snd st = sh.
Proof.
  intros Hi H. unfold Session_book_retain in H.
  change (on_fst get ≫= ?f) with (λ s : Session * Shard, f (fst s) (fst s, snd s)) in H. cbv beta in H.
  destruct (Publish.retain publ); [|by injection H as <-]. destruct (negb _); [done|].
  destruct (match Publish.payload publ with Some x => _ | None => _ end);
    apply on_snd_inv in H as [_ H]; apply M_bind_inv in H as (? & ? & H & _); by apply as_main_off_inv in H.
Qed.

(** A publish that is no duplicate never ends well there. *)
Lemma do_publish_off publ s sh st msgs :
  off sh → Session_is_duplicate s publ ≠ Ok true → Session_do_publish publ (s, sh) ≠ (st, Ok msgs).
Proof.
  intros Hi Hp H. unfold Session_do_publish in H. apply M_bind_inv in H as (st1 & self & E1 & H).
  injection E1 as <- <-. apply M_bind_inv in H as (st2 & dup & E2 & H).
  unfold lift in E2. injection E2 as <- E2. destruct dup; [done|].
  apply M_bind_inv in H as (st3 & [] & E3 & H). apply book_retain_off in E3; [|done].
  apply M_bind_inv in H as (st4 & ? & [E4 _]%on_fst_inv & H).
  apply M_bind_inv in H as (st5 & ? & [E5 _]%on_fst_inv & H).
  apply M_bind_inv in H as (st6 & ? & [_ E6]%on_snd_inv & _).
  rewrite E5, E4, E3 in E6. apply M_bind_inv in E6 as (? & ? & E6 & _). by apply as_main_off_inv in E6.
Qed.

(** Nor does subscribing. *)
Lemma do_subscribe_off sub s sh st msgs :
  off sh → Subscribe.filters sub ≠ [] → Session_do_subscribe sub (s, sh) ≠ (st, Ok msgs).
Proof.
  intros Hi Hp H. unfold Session_do_subscribe in H. cbv zeta in H. apply M_bind_inv in H as (st1 & rcs & H & _).
  destruct (Subscribe.filters sub) as [|filter filters]; [done|]. cbn [for_collect] in H.
  apply M_bind_inv in H as (st2 & ? & H & _). apply M_bind_inv in H as (st3 & ? & H & _).
  unfold subscribe_filter in H. apply M_bind_inv in H as (st4 & [self shard] & E & H). injection E as <- <- <-.
  apply M_bind_inv in H as (st5 & [[[rfr rap] nl] qos] & E & H). unfold lift in E. injection E as <- _.
  apply M_bind_inv in H as (st6 & run & [_ E]%on_snd_inv & _). by apply as_main_off_inv in E.
Qed.

(** The clients that have something to be sent, with their subscriptions. *)
Definition recipients (subs : gmap ClientID (list Subscription)) : list (ClientID * list Subscription) :=
  filter (λ e, e.2 ≠ []) (btree_iter ClientID_cmp subs).

(** In the order of their names. *)
Definition by_name : list ClientID → Prop := StronglySorted (λ c c', ClientID_cmp c c' = Lt).

Lemma sorted_fst_filter {A B} (R : A → A → Prop) (Q : A * B → Prop) `{∀ x, Decision (Q x)} l :
  StronglySorted R l.*1 → StronglySorted R (filter Q l).*1.
Proof.
  induction l as [|x l IH]; [done|]. cbn [fmap list_fmap]. intros [Hl Hx]%StronglySorted_inv.
  rewrite filter_cons. case_decide; [|by apply IH]. constructor; [by apply IH|].
  apply Forall_fmap, Forall_forall. intros y [_ Hy]%list_elem_of_filter.
  rewrite Forall_fmap, Forall_forall in Hx. by apply Hx.
Qed.

Lemma ClientID_keys_sorted {A} (m : gmap ClientID A) : by_name (btree_iter ClientID_cmp m).*1.
Proof.
  pose proof (btree_iter_sorted ClientID_cmp m) as Hs. pose proof (btree_iter_keys_NoDup ClientID_cmp m) as Hd.
  assert (∀ x y, ClientID_cmp y x = CompOpp (ClientID_cmp x y)) as Hanti by (intros x y; apply str_cmp_antisym).
  assert (∀ x y, ClientID_cmp x y ≠ Gt ↔ x = y ∨ ClientID_cmp x y = Lt) as Hle.
  { intros [x] [y]. unfold ClientID_cmp. cbn. destruct (str_cmp x y) eqn:E; [apply str_cmp_eq in E as ->; split; intros _; [by left|done]
      |split; intros _; [by right|done]|].
    split; [done|]. intros [[= ->]|[=]]. by rewrite (proj2 (str_cmp_eq _ _) eq_refl) in E. }
  assert (StronglySorted (λ x y, ClientID_cmp x y ≠ Gt) (btree_iter ClientID_cmp m).*1) as Hsort.
  { apply Hs.
    - intros x y E. by rewrite Hanti, E.
    - intros x y z. rewrite !Hle. intros [->|H1] [->|H2]; auto. right. unfold ClientID_cmp in *.
      by eapply str_cmp_trans. }
  clear Hs. induction Hsort as [|x l _ IH Hx]; [constructor|]. apply NoDup_cons in Hd as [Hn Hd].
  constructor; [by apply IH|]. rewrite Forall_forall in Hx |- *. intros y Hy.
  destruct (proj1 (Hle x y) (Hx y Hy)) as [->|]; done.
Qed.

Lemma recipients_by_name subs : by_name (recipients subs).*1.
Proof. apply sorted_fst_filter, ClientID_keys_sorted. Qed.

Lemma elem_of_recipients subs c ss : (c, ss) ∈ recipients subs ↔ ss ≠ [] ∧ at_key c subs = ss.
Proof.
  unfold recipients. rewrite list_elem_of_filter, elem_of_btree_iter. cbn [snd]. unfold at_key.
  destruct (subs !! c) as [ss'|]; cbn; [naive_solver|]. split; [by intros []|]. by intros [H <-].
Qed.

Lemma recipient_wants subs (matches : list Subscription) sess c :
  (∀ c, at_key c subs = filter (λ s, wants sess c s = true) matches) →
  c ∈ (recipients subs).*1 ↔ ∃ s, s ∈ matches ∧ wants sess c s = true.
Proof.
  intros Hsub. rewrite list_elem_of_fmap. split.
  - intros ([c' ss] & -> & [Hne H]%elem_of_recipients). rewrite Hsub in H.
    destruct ss as [|s ss]; [done|]. exists s. cbn.
    assert (s ∈ filter (λ s, wants sess c' s = true) matches) as Hin by (rewrite H; by left).
    by apply list_elem_of_filter in Hin as [].
  - intros (s & Hin & Hw). exists (c, at_key c subs). split; [done|]. apply elem_of_recipients.
    split; [|done]. rewrite Hsub. intros E.
    assert (s ∈ filter (λ s, wants sess c s = true) matches) as H by by apply list_elem_of_filter.
    by rewrite E in H; apply not_elem_of_nil in H.
Qed.

(** What a publish that is not routed leaves as it was; its retained message is gone to the
    cluster by then. *)
Definition only_retained (publ : Publish) (r r' : RunLoop) : Prop :=
  RunLoop.cluster r' = RunLoop.cluster r ++ retain_request publ ∧
  RunLoop.topic_filters r' = RunLoop.topic_filters r ∧ RunLoop.cinp r' = RunLoop.cinp r ∧
  RunLoop.shard_back_log r' = RunLoop.shard_back_log r ∧ RunLoop.sessions r' = RunLoop.sessions r.

(** What one that is routed, with [msgs] for [clients], each to its shard, does to the shard. *)
Record routed (sid : u32) (cfg : Config) (sess : ClientID) (publ : Publish) (server_qos : QoS) (r r' : RunLoop)
    (matches : list Subscription) (clients : list ClientID) (msgs : list (u32 * Message)) : Prop := {
  routed_retain : RunLoop.cluster r' = RunLoop.cluster r ++ retain_request publ;
  routed_length : length msgs = length clients;
  routed_message i c :
    clients !! i = Some c →
    ∃ s ss, filter (λ s, wants sess c s = true) matches = s :: ss ∧
      msgs !! i = Some (Subscription.shard_id s,
                        route_message sid sess publ (seqno_after (ClientInp.seqno (RunLoop.cinp r)) i) (s :: ss));
  routed_back_log k :
    at_key k (RunLoop.shard_back_log r')
    = at_key k (RunLoop.shard_back_log r) ++ (filter (λ e, e.1 = k) msgs).*2;
  routed_unacks :
    QoS_min server_qos (Publish.qos publ) = QoS.AtLeastOnce →
    ClientInp.seqno (RunLoop.cinp r) + Z.of_nat (length msgs) < 2 ^ 64 →
    ∀ i e, msgs !! i = Some e →
      ClientInp.unacks (RunLoop.cinp r') !! (ClientInp.seqno (RunLoop.cinp r) + Z.of_nat i) = Some e.2;
}.

(** The groups of a publish are routed. *)
Lemma routed_groups sid cfg sess publ server_qos subs matches r r1 t :
  QoS_try_from (Config_mqtt_maximum_qos cfg) = Ok server_qos →
  QoS_min server_qos (Publish.qos publ) ≠ QoS.ExactlyOnce ∨ recipients subs = [] →
  RunLoop.cluster r1 = RunLoop.cluster r ++ retain_request publ →
  RunLoop.cinp r1 = RunLoop.cinp r → RunLoop.shard_back_log r1 = RunLoop.shard_back_log r →
  ClientInp.seqno (RunLoop.cinp r) < 2 ^ 64 →
  (∀ c, at_key c subs = filter (λ s, wants sess c s = true) matches) →
  ∃ r' msgs,
    route_subscribers sess publ subs (running sid cfg (RunLoop.set_topic_filters r1 t)) = (running sid cfg r', Ok ()) ∧
    RunLoop.topic_filters r' = t ∧ routed sid cfg sess publ server_qos r r' matches (recipients subs).*1 msgs.
Proof.
  intros Hs Hq Hc1 Hi1 Hl1 Hlt Hsub. set (q := ClientInp.seqno (RunLoop.cinp r)). fold q in Hlt.
  set (r2 := RunLoop.set_topic_filters r1 t). set (gs := btree_iter ClientID_cmp subs).
  pose proof (route_groups_eq sid cfg sess publ server_qos gs r2 Hs Hq) as E3.
  set (acked := bool_decide _) in E3. set (msgs := route_messages _ _ _ _ _) in E3.
  set (r' := foldl _ _ _) in E3.
  destruct (book_routed_fold acked msgs r2) as (Hback & _ & Htf & Hcl). fold r' in Hback, Htf, Hcl.
  exists r', msgs. split; [exact E3|]. split; [by rewrite Htf|]. split.
  - by rewrite Hcl.
  - unfold msgs, recipients. by rewrite length_route_messages, length_fmap.
  - intros i c ([c' ss] & -> & Hi)%list_lookup_fmap_Some. cbn [fst]. fold q.
    destruct (route_messages_lookup sid sess publ gs q i c' ss Hlt Hi) as (s & ss' & -> & H).
    apply list_elem_of_lookup_2, elem_of_recipients in Hi as [_ Hi]. rewrite Hsub in Hi.
    exists s, ss'. split; [done|]. etrans; [|exact H]. unfold msgs, r2. cbn. by rewrite Hi1.
  - intros k. rewrite Hback. unfold r2. cbn. by rewrite Hl1.
  - intros Hack Hlen. unfold r'. rewrite (bool_decide_eq_true_2 _ Hack : acked = true).
    pose proof (book_routed_unacks msgs r2) as H. cbv zeta in H.
    assert (ClientInp.seqno (RunLoop.cinp r2) = q) as Eq by (unfold r2; cbn; by rewrite Hi1).
    rewrite Eq in H. destruct (H Hlen) as (_ & Hu & _). intros i e. apply Hu.
Qed.


(** * Subscribing *)

Section subscribe.
Context (sid : u32) (cfg : Config).
Context (id : option u32) (server_qos : QoS).

(** The subscription a filter asks for. *)
Definition subscription_of (client_id : ClientID) (f : SubscribeFilter) : Result Subscription :=
  '(rfr, retain_as_published, no_local, qos) ← SubscriptionOpt_unwrap (SubscribeFilter.opt f);
  Ok (Subscription.mk (SubscribeFilter.topic_filter f) client_id sid id qos no_local
        retain_as_published rfr).

(** The filters of a session, and of the trie, with a subscription more. *)
Definition add_subscription (m : gmap TopicFilter Subscription) (s : Subscription)
    : gmap TopicFilter Subscription :=
  <[Subscription.topic_filter s := s]> m.
Definition put_subscription (m : list bytes → list Subscription) (s : Subscription)
    : list bytes → list Subscription :=
  let p := TopicFilter_iter_topic_path (Subscription.topic_filter s) in
  put m p (ordered_add Subscription_cmp s (m p)).

Lemma subscribe_filter_eq self r m f s :
  subscribed_as (RunLoop.topic_filters r) m →
  subscription_of (Session.client_id self) f = Ok s →
  QoS_try_from (Config_mqtt_maximum_qos (Session.config self)) = Ok server_qos →
  ∃ t, subscribed_as t (put_subscription m s) ∧
    subscribe_filter id f (self, running sid cfg r)
    = ((Session.set_subscriptions self (add_subscription (Session.subscriptions self) s),
        running sid cfg (RunLoop.set_topic_filters r t)), Ok (granted_qos server_qos (Subscription.qos s))).
Proof.
  intros Ht Hs Hq. unfold subscription_of in Hs.
  destruct (SubscriptionOpt_unwrap (SubscribeFilter.opt f)) as [[[[rfr rap] nl] qos]| | |] eqn:Eo;
    [|done..]. rewrite bind_Ok_1 in Hs. injection Hs as <-. set (s := Subscription.mk _ _ _ _ _ _ _ _).
  destruct (subscribe_step _ m (TopicFilter_iter_topic_path (SubscribeFilter.topic_filter f)) s Ht
              (split_slash_not_nil _)) as (t & E & Ht' & _).
  exists t. split; [exact Ht'|]. unfold subscribe_filter. change (get ≫= ?f) with (λ s, f s s). cbv beta.
  rewrite Eo, lift_bind_Ok. fold s.
  rewrite (M_bind_Ok (on_snd as_main) _ _ (self, running sid cfg r) r) by done.
  cbn [Shard.shard_id running]. fold s. rewrite E, lift_bind_Ok.
  erewrite M_bind_Ok by done. erewrite M_bind_Ok by done. cbn [fst snd]. by rewrite Hq.
Qed.

Lemma subscribe_filters_eq fs : ∀ self r m subs,
  subscribed_as (RunLoop.topic_filters r) m →
  Forall2 (λ f s, subscription_of (Session.client_id self) f = Ok s) fs subs →
  QoS_try_from (Config_mqtt_maximum_qos (Session.config self)) = Ok server_qos →
  ∃ t, subscribed_as t (foldl put_subscription m subs) ∧
    for_collect fs (λ f, rc ← subscribe_filter id f; mret [rc]) (self, running sid cfg r)
    = ((Session.set_subscriptions self (foldl add_subscription (Session.subscriptions self) subs),
        running sid cfg (RunLoop.set_topic_filters r t)),
       Ok ((λ s, granted_qos server_qos (Subscription.qos s)) <$> subs)).
Proof.
  induction fs as [|f fs IH]; intros self r m subs Ht Hf Hq.
  - apply Forall2_nil_inv_l in Hf as ->. exists (RunLoop.topic_filters r). split; [done|].
    by destruct self, r.
  - apply Forall2_cons_inv_l in Hf as (s & subs' & Hs & Hf & ->).
    destruct (subscribe_filter_eq self r m f s Ht Hs Hq) as (t & Ht' & E).
    destruct (IH (Session.set_subscriptions self (add_subscription (Session.subscriptions self) s))
                (RunLoop.set_topic_filters r t) _ subs' Ht' Hf Hq) as (t2 & Ht2 & E2).
    exists t2. split; [done|]. cbn [for_collect].
    erewrite M_bind_Ok; [|erewrite M_bind_Ok by exact E; done].
    by erewrite M_bind_Ok by exact E2.
Qed.
End subscribe.

(** What the subscriptions of a SUBSCRIBE add to the entries of a path: each that is the first
    of its client and filter. *)
Lemma Subscription_cmp_eq x v :
  Subscription_cmp x v = Eq ↔
  Subscription.client_id x = Subscription.client_id v ∧ Subscription.topic_filter x = Subscription.topic_filter v.
Proof.
  unfold Subscription_cmp. split.
  - destruct (str_cmp _ _) eqn:Es; [|done..]. apply str_cmp_eq in Es. intros Et%str_cmp_eq.
    destruct x as [[fx] [cx] ? ? ? ? ? ?], v as [[fv] [cv] ? ? ? ? ? ?]. cbn in *. by subst.
  - intros [-> ->]. by rewrite (proj2 (str_cmp_eq _ _) eq_refl), (proj2 (str_cmp_eq _ _) eq_refl).
Qed.

Lemma subscribed_sorted t m p : subscribed_as t m → sorted_values Subscription_cmp (m p).
Proof.
  intros Ht. pose proof (trie_as_node _ sorted_nil t m Ht) as Hn. destruct Ht as [_ Hm].
  rewrite <- Hm. by apply values_at_vok; [constructor|].
Qed.

Definition sorted_entries (m : list bytes → list Subscription) : Prop :=
  ∀ p, sorted_values Subscription_cmp (m p).

Lemma elem_of_put_subscription m s p x :
  sorted_entries m →
  x ∈ put_subscription m s p ↔
  x ∈ m p ∨ x = s ∧ p = TopicFilter_iter_topic_path (Subscription.topic_filter s) ∧
    ∀ y, y ∈ m p → Subscription_cmp y s ≠ Eq.
Proof.
  intros Hs. unfold put_subscription, put.
  destruct (bool_decide_reflect (p = TopicFilter_iter_topic_path (Subscription.topic_filter s))) as [->|Hp]; [|naive_solver].
  rewrite (elem_of_ordered_add Subscription_cmp) by apply Hs. set (vs := m _).
  assert (ordered_mem Subscription_cmp s vs = false ↔ ∀ y, y ∈ vs → Subscription_cmp y s ≠ Eq) as ->; [|naive_solver].
  unfold ordered_mem. rewrite <- not_true_iff_false, existsb_exists. split.
  - intros H y Hy E. apply H. exists y. by rewrite E, <- list_elem_of_In.
  - intros H (y & Hy%list_elem_of_In & E). apply (H y Hy). by destruct (Subscription_cmp y s).
Qed.

Lemma put_subscription_sorted m s : sorted_entries m → sorted_entries (put_subscription m s).
Proof.
  intros Hs p. unfold put_subscription, put. case_bool_decide; [|apply Hs].
  apply (ordered_add_sorted Subscription_cmp), Hs.
Qed.

Lemma put_subscriptions_sorted subs : ∀ m, sorted_entries m → sorted_entries (foldl put_subscription m subs).
Proof. induction subs as [|s subs IH]; intros m Hs; [done|]. by apply IH, put_subscription_sorted. Qed.

Lemma put_subscription_has m s :
  sorted_entries m →
  ∃ x, x ∈ put_subscription m s (TopicFilter_iter_topic_path (Subscription.topic_filter s)) ∧
    Subscription_cmp x s = Eq.
Proof.
  intros Hs. set (p := TopicFilter_iter_topic_path _).
  destruct (decide (Exists (λ y, Subscription_cmp y s = Eq) (m p))) as [(x & Hx & Hc)%Exists_exists|Hno].
  - exists x. split; [|done]. apply elem_of_put_subscription; [done|by left].
  - exists s. split; [|by apply Subscription_cmp_eq]. apply elem_of_put_subscription; [done|]. right.
    do 2 (split; [done|]). intros y Hy E. apply Hno, Exists_exists. by exists y.
Qed.

Definition new_entry (m : list bytes → list Subscription) (subs : list Subscription) (p : list bytes)
    (x : Subscription) : Prop :=
  p = TopicFilter_iter_topic_path (Subscription.topic_filter x) ∧ (∀ y, y ∈ m p → Subscription_cmp y x ≠ Eq) ∧
  ∃ i, subs !! i = Some x ∧ ∀ j y, (j < i)%nat → subs !! j = Some y → Subscription_cmp y x ≠ Eq.

Lemma elem_of_put_subscriptions subs : ∀ m p x,
  sorted_entries m → x ∈ foldl put_subscription m subs p ↔ x ∈ m p ∨ new_entry m subs p x.
Proof.
  induction subs as [|s subs IH]; intros m p x Hs; cbn [foldl].
  { split; [by left|]. by intros [|(_ & _ & i & ? & _)]. }
  rewrite (IH _ _ _ (put_subscription_sorted m s Hs)), elem_of_put_subscription by done. unfold new_entry. split.
  - intros [[Hx|(-> & -> & Hno)]|(-> & Hno & i & Hi & Hj)]; [by left| |].
    + right. do 2 (split; [done|]). exists 0%nat. split; [done|]. intros j; lia.
    + right. split; [done|]. split.
      { intros y Hy. apply Hno. apply elem_of_put_subscription; [done|by left]. }
      exists (S i). split; [done|]. intros [|j] y Hlt; [|apply Hj; lia]. intros [= <-] E.
      destruct (put_subscription_has m s Hs) as (z & Hz & Ez).
      apply Subscription_cmp_eq in E as [Ec Ef], Ez as [Ec' Ef']. rewrite Ef in Hz.
      apply (Hno z Hz), Subscription_cmp_eq. split; congruence.
  - intros [Hx|(-> & Hno & [|i] & Hi & Hj)]; [by left; left| |].
    + left. right. injection Hi as <-. done.
    + right. split; [done|]. split; [|exists i; split; [done|]].
      * intros y [Hy|(-> & _ & _)]%elem_of_put_subscription; [by apply Hno| |done].
        apply (Hj 0%nat); [lia|done].
      * intros j y Hlt Hy. by apply (Hj (S j)); [lia|].
Qed.

Lemma granted_qos_max server_qos qos :
  SubAckReasonCode_as_u8 (granted_qos server_qos qos)
  = Z.max (u8_from_QoS server_qos) (u8_from_QoS qos).
Proof. by destruct server_qos, qos. Qed.

(** C28: what a SUBSCRIBE does, where every filter has options that can be read and the server's
    maximum QoS is one.  Where the shard's state is set aside, as it is when the shard's own
    loop handles the packet, it never ends well, if it has a filter.  In a shard that runs,
    its subscriptions are recorded in order: the session has, for each filter, the last one of
    it; the trie of the shards gets, under each filter, the first one of it, and only where it
    has no entry of the client there - the entry of an earlier SUBSCRIBE stays as it is
    ([resubscription_is_stale]).  The SUBACK has for each the greater of the server's maximum
    QoS and the QoS asked for. *)
Theorem subscribe_records_and_grants sid cfg self r m sub subs server_qos :
  subscribed_as (RunLoop.topic_filters r) m →
  let id := props ← Subscribe.properties sub; varu32 <$> SubscribeProperties.subscription_id props in
  Forall2 (λ f s, subscription_of sid id (Session.client_id self) f = Ok s)
    (Subscribe.filters sub) subs →
  QoS_try_from (Config_mqtt_maximum_qos (Session.config self)) = Ok server_qos →
  (∀ sh st l, off sh → Subscribe.filters sub ≠ [] → Session_do_subscribe sub (self, sh) ≠ (st, Ok l)) ∧
  ∃ t m' session_subs codes,
    Session_do_subscribe sub (self, running sid cfg r)
    = ((Session.set_subscriptions self session_subs, running sid cfg (RunLoop.set_topic_filters r t)),
       Ok [Message.ClientAck (Packet.SubAck (SubAck.mk (Subscribe.packet_id sub) None codes))]) ∧
    session_subs = foldl add_subscription (Session.subscriptions self) subs ∧
    subscribed_as t m' ∧ (∀ p x, x ∈ m' p ↔ x ∈ m p ∨ new_entry m subs p x) ∧
    Forall2 (λ s code, SubAckReasonCode_as_u8 code
                       = Z.max (u8_from_QoS server_qos) (u8_from_QoS (Subscription.qos s))) subs codes.
Proof.
  intros Ht id Hf Hq. split; [intros sh st l; apply do_subscribe_off|].
  destruct (subscribe_filters_eq sid cfg id server_qos _ self r m subs Ht Hf Hq) as (t & Ht' & E).
  exists t, (foldl put_subscription m subs), (foldl add_subscription (Session.subscriptions self) subs).
  exists ((λ s, granted_qos server_qos (Subscription.qos s)) <$> subs). split; [|split; [done|split; [done|split]]].
  - unfold Session_do_subscribe. cbv zeta.
    change (match Subscribe.properties sub with Some _ => _ | None => _ end) with id.
    by erewrite M_bind_Ok by exact E.
  - intros p x. apply elem_of_put_subscriptions. intros q. by eapply subscribed_sorted.
  - apply Forall2_fmap_r, Forall_Forall2_diag, Forall_forall. intros s _. apply granted_qos_max.
Qed.

(** * Acknowledgements *)

(** ** Messages that wait to be acknowledged *)

Lemma foldl_min_le (l : list (u32 * (u64 * u64))) : ∀ m,
  foldl (λ m e, Z.min m (snd (snd e))) m l ≤ m ∧
  (∀ e, e ∈ l → foldl (λ m e, Z.min m (snd (snd e))) m l ≤ snd (snd e)) ∧
  (foldl (λ m e, Z.min m (snd (snd e))) m l = m ∨
   ∃ e, e ∈ l ∧ foldl (λ m e, Z.min m (snd (snd e))) m l = snd (snd e)).
Proof.
  induction l as [|e l IH]; intros m; cbn [foldl].
  { split; [lia|]. split; [by intros e ?%not_elem_of_nil|by left]. }
  destruct (IH (Z.min m (snd (snd e)))) as (H1 & H2 & H3). split; [lia|]. split.
  - intros e' [->|He]%elem_of_cons; [lia|by apply H2].
  - destruct H3 as [->|(e' & He & ->)]; [|right; exists e'; split; [by right|done]].
    destruct (Z.min_spec m (snd (snd e))) as [[_ ->]|[_ ->]]; [by left|right].
    exists e. split; [by left|done].
Qed.

(** The least number the shards have acknowledged, of those that were sent something. *)
Lemma least_received_spec ts :
  (∀ sid a b, ts !! sid = Some (a, b) → least_received ts ≤ b) ∧
  (least_received ts = 2 ^ 64 - 1 ∨ ∃ sid a, ts !! sid = Some (a, least_received ts)).
Proof.
  unfold least_received. destruct (foldl_min_le (btree_iter Z.compare ts) (2 ^ 64 - 1)) as (_ & H2 & H3).
  split.
  - intros sid a b H. by apply (H2 (sid, (a, b))), elem_of_btree_iter.
  - destruct H3 as [H|([sid [a b]] & He & ->)]; [by left|right]. exists sid, a.
    by apply elem_of_btree_iter in He.
Qed.

Lemma take_unacks_spec qs : ∀ unacks : gmap u64 Message,
  NoDup qs → (∀ q, q ∈ qs → is_Some (unacks !! q)) →
  ∃ msgs, take_unacks qs unacks = Ok (msgs, filter (λ e, e.1 ∉ qs) unacks) ∧
    Forall2 (λ q m, unacks !! q = Some m) qs msgs.
Proof.
  induction qs as [|q qs IH]; intros unacks Hd Hs; cbn [take_unacks].
  { exists []. split; [|constructor]. do 2 f_equal. symmetry. apply map_filter_id.
    intros i m _. apply not_elem_of_nil. }
  apply NoDup_cons in Hd as [Hq Hd]. destruct (Hs q ltac:(by left)) as (m & Hm). rewrite Hm.
  destruct (IH (delete q unacks) Hd) as (msgs & E & Hf).
  { intros q' Hq'. rewrite lookup_delete_ne by (by intros ->). apply Hs. by right. }
  rewrite E, bind_Ok_1. exists (m :: msgs). split.
  - do 2 f_equal. apply map_eq. intros i. apply option_eq. intros x.
    rewrite !map_lookup_filter_Some, lookup_delete_Some. cbn [fst]. rewrite elem_of_cons.
    split; [intros [[? ?] ?]; split; [done|]; by intros [->|?]|].
    intros [? Hn]. split; [split; [|done]|]; [intros ->; apply Hn; by left|intros ?; apply Hn; by right].
  - constructor; [done|]. eapply Forall2_impl; [exact Hf|]. intros q' m' H.
    by apply lookup_delete_Some in H as [].
Qed.

Lemma elem_of_btree_keys `{Countable K} {A} cmp (m : gmap K A) k :
  k ∈ (btree_iter cmp m).*1 ↔ is_Some (m !! k).
Proof.
  rewrite list_elem_of_fmap. split.
  - intros ([k' x] & -> & Hx%elem_of_btree_iter). by exists x.
  - intros [x Hx]. exists (k, x). split; [done|]. by apply elem_of_btree_iter.
Qed.

(** The messages that leave are those with a number below the least one that the shards
    with something sent to them have acknowledged; they leave in the order of their
    numbers, and the others stay.  Nothing leaves while some shard has acknowledged
    nothing. *)
Theorem acknowledged_leave sid cfg r :
  let cinp := RunLoop.cinp r in
  let least := least_received (ClientInp.timestamp cinp) in
  (∀ q m, ClientInp.unacks cinp !! q = Some m → 0 ≤ q) →
  least < 2 ^ 64 - 1 →
  ∃ cinp' msgs qs,
    Shard_remove_unacks (running sid cfg r) = (running sid cfg (RunLoop.set_cinp r cinp'), Ok msgs) ∧
    Forall2 (λ q m, ClientInp.unacks cinp !! q = Some m) qs msgs ∧ StronglySorted Z.lt qs ∧
    (∀ q, q ∈ qs ↔ q < least ∧ is_Some (ClientInp.unacks cinp !! q)) ∧
    ClientInp.unacks cinp' = filter (λ e, least ≤ e.1) (ClientInp.unacks cinp) ∧
    ClientInp.seqno cinp' = ClientInp.seqno cinp ∧ ClientInp.timestamp cinp' = ClientInp.timestamp cinp ∧
    (∀ shard a b, ClientInp.timestamp cinp !! shard = Some (a, b) → least ≤ b) ∧
    ((∃ shard a, ClientInp.timestamp cinp !! shard = Some (a, 0)) → msgs = [] ∧ cinp' = cinp).
Proof.
  intros cinp least Hpos Hlt. unfold Shard_remove_unacks.
  rewrite (M_bind_Ok as_main _ (running sid cfg r) (running sid cfg r) r) by done. cbv zeta.
  fold cinp least. rewrite (proj2 (Z.eqb_neq _ _)) by lia.
  change (map fst ?l) with (fst <$> l).
  set (qs := filter (λ q, q < least) (btree_iter Z.compare (ClientInp.unacks cinp)).*1).
  assert (∀ q, q ∈ qs ↔ q < least ∧ is_Some (ClientInp.unacks cinp !! q)) as Hqs.
  { intros q. unfold qs. rewrite list_elem_of_filter, elem_of_btree_keys. done. }
  assert (StronglySorted Z.lt qs) as Hsort by apply StronglySorted_filter, Z_keys_sorted.
  destruct (take_unacks_spec qs (ClientInp.unacks cinp)) as (msgs & E & Hm).
  { apply NoDup_filter, btree_iter_keys_NoDup. }
  { intros q Hq. by apply Hqs. }
  assert (filter (λ e : u64 * Message, e.1 ∉ qs) (ClientInp.unacks cinp)
          = filter (λ e, least ≤ e.1) (ClientInp.unacks cinp)) as Ef.
  { apply map_filter_ext. intros q m Hqm. cbn. rewrite Hqs. rewrite Hqm. split; [|lia].
    intros H. destruct (Z.lt_ge_cases q least); [|done]. exfalso. apply H. split; [done|by eexists]. }
  rewrite E, lift_bind_Ok, Ef.
  exists (ClientInp.mk (ClientInp.seqno cinp) (filter (λ e, least ≤ e.1) (ClientInp.unacks cinp))
            (ClientInp.timestamp cinp)), msgs, qs.
  split; [done|]. do 6 (split; [done|]). split; [apply least_received_spec|].
  intros (shard & a & Ha). assert (least ≤ 0) as H0 by by eapply least_received_spec.
  assert (qs = []) as Hnil.
  { apply elem_of_nil_inv. intros q [Hq [m Hqm]]%Hqs. apply Hpos in Hqm. lia. }
  split; [rewrite Hnil in Hm; by apply Forall2_nil_inv_l in Hm|].
  rewrite map_filter_id; [by destruct cinp|]. intros q m Hqm%Hpos. cbn. lia.
Qed.

(** * Instances *)

(** The miot thread and the flusher do what they are asked, at once. *)
Definition prompt_env (clock : Z) (session_rx : ClientID → nat → recv_answer Packet)
    (miot_tx : ClientID → nat → send_answer) (shard_tx : u32 → nat → send_answer)
    (msg_rx : nat → recv_answer Message) : Env :=
  Env.mk clock session_rx miot_tx shard_tx msg_rx (λ _, Ok true) (λ _, Ok ())
    (Ok (Miot.mk 0 ex_config (MiotInner.Close (MiotFin.mk FIRST_TOKEN [] [])))) (λ _, Ok ()).

Definition ex_subscriber : ClientID := mkClientID [0x73].
Definition ex_wanted : Subscription :=
  Subscription.mk (mkTopicFilter [0x61]) ex_subscriber 2 None QoS.AtLeastOnce false true
    RetainForwardRule.OnEverySubscribe.
Definition ex_trie : Inner Subscription :=
  match SubscribedTrie_subscribe SubscribedTrie_default [[0x61]] ex_wanted with
  | Ok t => t
  | _ => SubscribedTrie_default
  end.
Definition ex_loop : RunLoop :=
  RunLoop.mk [] true (Flusher.mk ex_config FlusherInner.Init) [] ∅ ∅ ∅ ∅ (ClientInp.mk 5 ∅ ∅) ∅ ex_trie.

Lemma ex_shard_trie_as : subscribed_as ex_trie (λ p, values_at p (Inner.root ex_trie)).
Proof.
  assert (subscribed_as SubscribedTrie_default (λ _, [])) as H0
    by (split; [by split; [|split; constructor]|by intros [|]]).
  destruct (subscribe_step _ _ [[0x61]] ex_wanted H0 ltac:(done)) as (t & E & [Hw _] & _).
  apply trie_as_root. unfold ex_trie. by rewrite E.
Qed.


Lemma subscribe_records_and_grants_witness :
  ∃ t codes,
    Session_do_subscribe
      (Subscribe.mk 3 None [SubscribeFilter.mk (mkTopicFilter [0x62]) (mkSubscriptionOpt 0)])
      (ex_session, running 1 ex_config ex_loop)
    = ((Session.set_subscriptions ex_session
          {[mkTopicFilter [0x62] :=
              Subscription.mk (mkTopicFilter [0x62]) ex_client 1 None QoS.AtMostOnce false false
                RetainForwardRule.OnEverySubscribe]},
        running 1 ex_config (RunLoop.set_topic_filters ex_loop t)),
       Ok [Message.ClientAck (Packet.SubAck (SubAck.mk 3 None codes))]) ∧
    codes = [SubAckReasonCode.QoS1].
Proof.
  destruct (subscribe_records_and_grants 1 ex_config ex_session ex_loop _
    (Subscribe.mk 3 None [SubscribeFilter.mk (mkTopicFilter [0x62]) (mkSubscriptionOpt 0)])
    [Subscription.mk (mkTopicFilter [0x62]) ex_client 1 None QoS.AtMostOnce false false
       RetainForwardRule.OnEverySubscribe] QoS.AtLeastOnce ex_shard_trie_as)
    as (_ & t & m' & session_subs & codes & E & -> & _ & _ & Hc);
    [by repeat constructor|done|].
  exists t, codes. split; [exact E|].
  apply Forall2_cons_inv_l in Hc as (code & codes' & Hc & ->%Forall2_nil_inv_l & ->).
  by destruct code.
Defined.

Lemma acknowledged_leave_witness :
  ∃ cinp m,
    Shard_remove_unacks (running 1 ex_config (RunLoop.set_cinp ex_loop
      (ClientInp.mk 9 {[5 := Message.LocalAck 1 5; 8 := Message.LocalAck 1 8]} {[2 := (8, 7)]})))
    = (running 1 ex_config (RunLoop.set_cinp ex_loop cinp), Ok [m]) ∧ m = Message.LocalAck 1 5.
Proof.
  destruct (acknowledged_leave 1 ex_config (RunLoop.set_cinp ex_loop
      (ClientInp.mk 9 {[5 := Message.LocalAck 1 5; 8 := Message.LocalAck 1 8]} {[2 := (8, 7)]})))
    as (cinp & msgs & qs & E & _).
  - cbn. intros q m [[<- _]|[_ [<- _]%lookup_singleton_Some]]%lookup_insert_Some; lia.
  - by vm_compute.
  - exists cinp. vm_compute in E. injection E as <- <-. eexists. split; vm_compute; reflexivity.
Defined.
