(* ===== verification/ShardInvariant.v ===== *)
(** What stays true of the sessions and of the shard that hosts them, whatever packets,
    messages and requests arrive and however the operations end: packet identifiers,
    identifiers of pending publishes, back-logs, in-flight messages, subscriptions and
    aliases of each session; the messages that wait for an acknowledgement, the
    back-logs to the other shards and the trie of a shard. *)

From S2P Require Import Prelude Error Util Codec Types V5 AckPackets PublishPacket SubPackets.
From S2P Require Import ConnectPackets Packets Config Ttrie TtrieFacts TtrieTheorems Timer Retained State Queue KeepAlive.
From S2P Require Import Session SessionTheorems Thread Server ServerTheorems Flusher Shard ShardLoop ShardTheorems.
Local Open Scope Z_scope.

(** * Sessions *)

Record wf_session (c : ClientID) (s : Session) : Prop := {
  session_client : Session.client_id s = c;
  session_cout : wf_cout (Session.cout s);
  session_ids : wf_qos s;
  session_back_log : Forall has_packet (ClientOut.back_log (Session.cout s));
  session_inflight id m : ClientOut.index (Session.cout s) !! id = Some m →
    ∃ client shard q subs p, m = Message.Packet client shard q id subs p;
  session_subscriptions f sub : Session.subscriptions s !! f = Some sub →
    Subscription.topic_filter sub = f ∧ Subscription.client_id sub = c;
  session_aliases alias t : Session.topic_aliases s !! alias = Some t →
    topic_name_str t ≠ [] ∧
    ∃ m, Config_mqtt_topic_alias_max (Session.config s) = Some m ∧ alias ≤ m;
}.

Section session.
Context (c : ClientID).
Abbreviation keeps_session := (keeps (wf_session c)).

(** Changes to one part of a session. *)
Lemma wf_session_cout s cout :
  wf_session c s → wf_cout cout → Forall has_packet (ClientOut.back_log cout) →
  (∀ id m, ClientOut.index cout !! id = Some m →
     ∃ client shard q subs p, m = Message.Packet client shard q id subs p) →
  wf_session c (Session.set_cout s cout).
Proof. by intros [? ? ? ? ? ? ?] ? ? ?. Qed.

Lemma wf_session_ids s ids1 ids2 :
  wf_session c s → wf_ids ids1 → wf_ids ids2 → wf_session c (Session.set_qos s ids1 ids2).
Proof. by intros [? ? ? ? ? ? ?] ? ?. Qed.

Lemma wf_session_keep_alive s k : wf_session c s → wf_session c (Session.set_keep_alive s k).
Proof. by intros [? ? ? ? ? ? ?]. Qed.

Lemma incr_cout_seqno_keeps : keeps_session Session_incr_cout_seqno anything.
Proof.
  intros s Hs. split; [|done]. rewrite incr_cout_seqno_eq by apply Hs.
  apply wf_session_cout; [done|apply cout_after_wf, Hs|apply Hs|apply Hs].
Qed.

Lemma push_back_log_keeps msgs : Forall has_packet msgs → keeps_session (push_back_log msgs) anything.
Proof.
  intros Hm. apply keeps_modify. intros s Hs. apply wf_session_cout; [done|apply Hs| |apply Hs].
  cbn. apply Forall_app. split; [apply Hs|done].
Qed.

Lemma cout_loop_keeps server_qos client shard p subs :
  keeps_session (cout_loop server_qos client shard p subs) (Forall has_packet).
Proof.
  induction subs as [|s subs IH]; cbn [cout_loop]; [by apply keeps_ret; constructor|].
  eapply keeps_bind; [apply incr_cout_seqno_keeps|]. intros [q id] _.
  eapply keeps_bind; [apply IH|]. intros msgs Hm. apply keeps_ret. constructor; [exact I|done].
Qed.

Lemma cout_publish_keeps m : keeps_session (Message_cout_publish m) (Forall has_packet).
Proof.
  unfold Message_cout_publish. destruct m as [|client shard q id subs []|]; try apply keeps_panic.
  eapply keeps_bind; [apply keeps_gets_any|]. intros cfg _.
  eapply keeps_bind; [apply keeps_lift_any|]. intros server_qos _. apply cout_loop_keeps.
Qed.

Lemma in_message_keeps m : keeps_session (in_message m) anything.
Proof.
  destruct m; cbn [in_message]; [apply keeps_panic| |apply push_back_log_keeps; by repeat constructor].
  eapply keeps_bind; [apply cout_publish_keeps|]. intros msgs Hm. by apply push_back_log_keeps.
Qed.

Lemma in_messages_keeps msgs : keeps_session (Session_in_messages msgs) anything.
Proof.
  unfold Session_in_messages.
  eapply keeps_bind; [apply keeps_for_each; intros m _; apply in_message_keeps|]. intros _ _.
  eapply keeps_bind; [apply keeps_gets_any|]. intros n _.
  eapply keeps_bind; [apply keeps_gets_any|]. intros cfg _.
  eapply keeps_bind; [apply keeps_lift_any|]. intros batch _.
  destruct (batch * 2 <? n); by apply keeps_ret.
Qed.

Lemma book_inflight_packets msgs : ∀ index,
  (∀ id m, index !! id = Some m → ∃ client shard q subs p, m = Message.Packet client shard q id subs p) →
  ∀ id m, book_inflight msgs index !! id = Some m →
    ∃ client shard q subs p, m = Message.Packet client shard q id subs p.
Proof.
  induction msgs as [|m msgs IH]; intros index Hi; cbn [book_inflight]; [done|].
  apply IH. intros id m'. destruct m as [|client shard q id' subs p|]; try apply Hi.
  intros [[-> <-]|[_ H]]%lookup_insert_Some; [by eexists _, _, _, _, _|by apply Hi].
Qed.

Lemma flush_messages_keeps chan : keeps_session (Session_flush_messages chan) anything.
Proof.
  intros s Hs. split; [|done].
  destruct (Z.ltb (Session.client_receive_maximum s)
              (Z.of_nat (size (ClientOut.index (Session.cout s))))) eqn:E.
  { unfold Session_flush_messages. change (get ≫= ?f) with (λ s, f s s). cbv beta zeta. by rewrite E. }
  apply Z.ltb_ge in E. destruct (flush_messages_eq s chan E) as (status & _ & ->); [apply Hs|].
  apply wf_session_cout; [done|apply Hs| |].
  - cbn. apply Forall_take, Hs.
  - cbn. apply book_inflight_packets, Hs.
Qed.

Lemma book_qos_keeps publ : keeps_session (Session_book_qos publ) anything.
Proof.
  intros s Hs. split; [|done]. pose proof (session_ids c s Hs) as [H1 H2].
  unfold Session_book_qos. change (get ≫= ?f) with (λ s, f s s). cbv beta.
  destruct (unwrap _) as [server_qos| | |]; [rewrite lift_bind_Ok|done..].
  destruct (_ <? _); [done|]. destruct (Publish.qos publ); [done|..];
    (destruct (Publish.packet_id publ) as [id|]; [cbn [unwrap_some]; rewrite lift_bind_Ok|done]);
    rewrite book_id_spec, lift_bind_Ok by done; apply wf_session_ids; done || by apply wf_ids_add.
Qed.

Lemma publish_topic_name_keeps publ : keeps_session (Session_publish_topic_name publ) anything.
Proof.
  intros s Hs. split; [|done].
  unfold Session_publish_topic_name. change (get ≫= ?f) with (λ s, f s s). cbv beta zeta.
  destruct (Publish_topic_alias publ) as [alias|]; [|by destruct (0 <? _)%nat].
  destruct (Config_mqtt_topic_alias_max (Session.config s)) as [m|] eqn:Em; [|done].
  destruct (Z.ltb_spec m alias) as [|Hle]; [done|].
  destruct (Nat.ltb_spec 0 (length (topic_name_str (Publish.topic_name publ)))) as [Hn|];
    [|by destruct (Session.topic_aliases s !! alias)].
  change (wf_session c (Session.set_topic_aliases s
            (<[alias := Publish.topic_name publ]> (Session.topic_aliases s)))).
  destruct Hs as [? ? ? ? ? ? Ha]. split; try done. cbn [Session.topic_aliases Session.set_topic_aliases].
  intros alias' t [[<- <-]|[_ H]]%lookup_insert_Some; [|by apply Ha in H].
  split; [intros E; rewrite E in Hn; cbn in Hn; lia|by exists m].
Qed.
End session.

(** * Tries *)

Definition wf_trie (t : Inner Subscription) : Prop :=
  wf_root (sorted_values Subscription_cmp) (Inner.root t).

Lemma subscribe_wf t f v t' :
  wf_trie t → SubscribedTrie_subscribe t (TopicFilter_iter_topic_path f) v = Ok t' → wf_trie t'.
Proof.
  intros Ht E. apply trie_as_root in Ht.
  destruct (subscribe_step t _ (TopicFilter_iter_topic_path f) v Ht (split_slash_not_nil _)) as (t1 & E1 & [Hw _] & _).
  rewrite E1 in E. by injection E as <-.
Qed.

Lemma unsubscribe_wf t f v t' :
  wf_trie t → SubscribedTrie_unsubscribe t (TopicFilter_iter_topic_path f) v = Ok t' → wf_trie t'.
Proof.
  intros Ht E. pose proof Ht as Ha. apply trie_as_root in Ha. set (p := TopicFilter_iter_topic_path f) in *.
  assert (p ≠ []) as Hp by apply split_slash_not_nil.
  destruct (decide (values_at p (Inner.root t) = [])) as [He|Hne].
  - destruct (unsubscribe_cases t _ p v Ha Hp He) as [[_ E1]|[_ E1]]; rewrite E1 in E; [|done].
    by injection E as <-.
  - destruct (unsubscribe_step t _ p v Ha Hp Hne) as (t1 & E1 & [Hw _] & _).
    rewrite E1 in E. by injection E as <-.
Qed.

Lemma match_topic_name_wf t n t' ss :
  wf_trie t → SubscribedTrie_match_topic_name t (TopicName_iter_topic_path n) = Ok (t', ss) → wf_trie t'.
Proof.
  intros Ht. destruct (TopicName_iter_topic_path n) as [|k ks] eqn:En; [by apply split_slash_not_nil in En|].
  apply trie_as_root in Ht as Ha. rewrite (match_step t _ k ks Ha). by intros [= <- <-].
Qed.

Lemma unsubscribe_all_wf subs : ∀ t t', wf_trie t → unsubscribe_all subs t = Ok t' → wf_trie t'.
Proof.
  induction subs as [|[f v] subs IH]; intros t t' Ht; cbn [unsubscribe_all]; [by intros [= <-]|].
  destruct (SubscribedTrie_unsubscribe _ _ _) as [t1| | |] eqn:E; [|done..]. rewrite bind_Ok_1.
  apply IH. by eapply unsubscribe_wf.
Qed.

(** * Shards *)

(** What a shard has for the others. *)
Definition outbound (sid : u32) (m : Message) : Prop :=
  match m with
  | Message.LocalAck _ _ => True
  | Message.Packet _ from _ id subs (Packet.Publish _) => from = sid ∧ id = 0 ∧ subs ≠ []
  | _ => False
  end.

Record wf_loop (sid : u32) (r : RunLoop) : Prop := {
  loop_sessions c s : RunLoop.sessions r !! c = Some s → wf_session c s;
  loop_seqno : 0 ≤ ClientInp.seqno (RunLoop.cinp r) < 2 ^ 64;
  loop_unacks q m : ClientInp.unacks (RunLoop.cinp r) !! q = Some m →
    ∃ c subs p, m = Message.Packet c sid q 0 subs (Packet.Publish p) ∧ subs ≠ [];
  loop_back_log k ms : RunLoop.shard_back_log r !! k = Some ms → Forall (outbound sid) ms;
  loop_trie : wf_trie (RunLoop.topic_filters r);
}.

Definition wf_inner (sid : u32) (i : ShardInner) : Prop :=
  match i with ShardInner.Main r => wf_loop sid r | _ => True end.
Definition wf_shard (sid : u32) (sh : Shard) : Prop :=
  Shard.shard_id sh = sid ∧ wf_inner sid (Shard.inner sh).

Section shard.
Context (sid : u32).
Abbreviation keeps_shard := (keeps (wf_shard sid)).

Lemma as_main_keeps : keeps_shard as_main (wf_loop sid).
Proof.
  intros [? ? inner] [Hsid Hi]. unfold as_main. cbn in *. destruct inner; try done.
  split; [done|]. by intros r [= <-].
Qed.

Lemma set_main_keeps f : (∀ r, wf_loop sid r → wf_loop sid (f r)) → keeps_shard (set_main f) anything.
Proof.
  intros Hf [? ? inner] [Hsid Hi]. unfold set_main. cbn in *. destruct inner; try done.
  split; [split; [done|by apply Hf]|done].
Qed.

Lemma replace_inner_keeps i : wf_inner sid i → keeps_shard (replace_inner i) (wf_inner sid).
Proof. intros Hi [? ? inner] [Hsid Hw]. split; [by split|]. by intros i' [= <-]. Qed.

(** Changes to one part of the state. *)
Lemma wf_loop_cinp r cinp :
  wf_loop sid r → 0 ≤ ClientInp.seqno cinp < 2 ^ 64 →
  (∀ q m, ClientInp.unacks cinp !! q = Some m →
     ∃ c subs p, m = Message.Packet c sid q 0 subs (Packet.Publish p) ∧ subs ≠ []) →
  wf_loop sid (RunLoop.set_cinp r cinp).
Proof. by intros [? ? ? ? ?] ? ?. Qed.

Lemma wf_loop_back_log r k ms :
  wf_loop sid r → Forall (outbound sid) ms →
  wf_loop sid (RunLoop.set_back_log r (<[k := ms]> (RunLoop.shard_back_log r))).
Proof.
  intros [? ? ? Hb ?] Hm. split; try done. cbn [RunLoop.shard_back_log RunLoop.set_back_log].
  intros k' ms' [[_ <-]|[_ H]]%lookup_insert_Some; [done|by eapply Hb].
Qed.

Lemma wf_loop_push r k m :
  wf_loop sid r → outbound sid m →
  wf_loop sid (RunLoop.set_back_log r (push_at k m (RunLoop.shard_back_log r))).
Proof.
  intros Hr Hm. unfold push_at. destruct (RunLoop.shard_back_log r !! k) as [ms|] eqn:E;
    apply wf_loop_back_log; try done; [|by constructor].
  apply Forall_app. split; [by eapply loop_back_log|by constructor].
Qed.

Lemma wf_loop_sessions r sessions :
  wf_loop sid r → (∀ c s, sessions !! c = Some s → wf_session c s) →
  wf_loop sid (RunLoop.set_sessions r sessions).
Proof. by intros [? ? ? ? ?] ?. Qed.

Lemma wf_loop_session r c s :
  wf_loop sid r → wf_session c s →
  wf_loop sid (RunLoop.set_sessions r (<[c := s]> (RunLoop.sessions r))).
Proof.
  intros Hr Hs. apply wf_loop_sessions; [done|].
  intros c' s' [[<- <-]|[_ H]]%lookup_insert_Some; [done|by apply Hr in H].
Qed.

Lemma wf_loop_trie r t :
  wf_loop sid r → wf_trie t →
  wf_loop sid (RunLoop.set_topic_filters r t).
Proof. by intros [? ? ? ? ?] ?. Qed.

Lemma incr_cinp_seqno_keeps : keeps_shard Shard_incr_cinp_seqno anything.
Proof.
  eapply keeps_bind; [apply as_main_keeps|]. intros r Hr. cbv zeta.
  eapply keeps_bind; [|by intros _ _; apply keeps_ret]. apply set_main_keeps. intros r' Hr'.
  apply wf_loop_cinp; [done| |apply Hr]. pose proof (loop_seqno _ _ Hr). cbn. lia.
Qed.

Lemma book_local_ack_keeps from q : keeps_shard (Shard_book_local_ack from q) anything.
Proof.
  eapply keeps_bind; [apply as_main_keeps|]. intros r Hr. cbv zeta.
  destruct (_ !! from) as [[routed ?]|]; [|apply keeps_panic].
  apply set_main_keeps. intros r' Hr'. apply wf_loop_cinp; [done|apply Hr|apply Hr].
Qed.

Lemma insert_unacks_keeps k c q subs p : subs ≠ [] →
  keeps_shard (Shard_insert_unacks k q (Message.Packet c sid q 0 subs (Packet.Publish p))) anything.
Proof.
  intros Hs. eapply keeps_bind; [apply as_main_keeps|]. intros r Hr. cbv zeta.
  apply set_main_keeps. intros r' Hr'. apply wf_loop_cinp; [done|apply Hr|].
  cbn [ClientInp.unacks]. intros q' m [[-> <-]|[_ H]]%lookup_insert_Some; [by eexists _, _, _|by apply Hr in H].
Qed.

Lemma route_to_client_keeps sess subs publ :
  keeps_shard (Shard_route_to_client sess subs publ) anything.
Proof.
  unfold Shard_route_to_client.
  eapply keeps_bind; [apply keeps_get; by intros s [Hs _]; exact Hs|]. intros self Hself.
  eapply keeps_bind; [apply (keeps_lift _ _ (λ _, subs ≠ [])); by destruct subs|]. intros target Hsubs.
  eapply keeps_bind; [apply keeps_lift_any|]. intros server_qos _.
  eapply keeps_bind; [apply incr_cinp_seqno_keeps|]. intros q _. cbv zeta.
  eapply keeps_bind with (Q := anything).
  - destruct (QoS_min _ _); [by apply keeps_ret| |apply keeps_panic].
    rewrite Hself. by apply insert_unacks_keeps.
  - intros _ _. apply set_main_keeps. intros r Hr. by apply wf_loop_push.
Qed.

Lemma post_to_cluster_keeps op : keeps_shard (post_to_cluster op) anything.
Proof.
  eapply keeps_bind; [apply as_main_keeps|]. intros r Hr.
  destruct (RunLoop.cluster_open r); [|apply keeps_lift_any].
  apply set_main_keeps. by intros r' [? ? ? ? ?].
Qed.

Lemma match_subscribers_keeps sess topic : keeps_shard (Shard_match_subscribers sess topic) anything.
Proof.
  eapply keeps_bind; [apply as_main_keeps|]. intros r Hr.
  eapply keeps_bind; [apply (keeps_lift _ _ (λ x, wf_trie x.1))|].
  { intros [t ss] E. eapply match_topic_name_wf; [apply Hr|exact E]. }
  intros [t ss] Ht. cbn in Ht.
  eapply keeps_bind; [apply set_main_keeps; intros r' Hr'; by apply wf_loop_trie|]. intros _ _. cbv zeta.
  destruct (_ !! sess); [|by apply keeps_ret].
  eapply keeps_bind; [apply keeps_lift_any|]. intros ss' _. by apply keeps_ret.
Qed.

Lemma route_subscribers_keeps sess publ subs : keeps_shard (route_subscribers sess publ subs) anything.
Proof.
  apply keeps_for_each. intros [c [|s ss]] _; [by apply keeps_ret|]. apply route_to_client_keeps.
Qed.
End shard.

(** * A session on its shard *)

Section session_on_shard.
Context (c : ClientID) (sid : u32).
Abbreviation keeps_both := (keeps (both (wf_session c) (wf_shard sid))).

Lemma get_session_keeps : keeps_both (on_fst get) (wf_session c).
Proof. apply keeps_on_fst, keeps_get_inv. Qed.

Lemma book_retain_keeps publ : keeps_both (Session_book_retain publ) anything.
Proof.
  eapply keeps_bind; [apply get_session_keeps|]. intros s _.
  destruct (Publish.retain publ); [|by apply keeps_ret]. destruct (negb _); [apply keeps_lift_any|].
  cbv zeta. destruct (match _ with Some _ => _ | None => _ end);
    apply keeps_on_snd, post_to_cluster_keeps.
Qed.

Lemma do_publish_keeps publ : keeps_both (Session_do_publish publ) anything.
Proof.
  eapply keeps_bind; [apply get_session_keeps|]. intros s _.
  eapply keeps_bind; [apply keeps_lift_any|]. intros [] _; [by apply keeps_ret|].
  eapply keeps_bind; [apply book_retain_keeps|]. intros _ _.
  eapply keeps_bind; [apply keeps_on_fst, book_qos_keeps|]. intros _ _.
  eapply keeps_bind; [apply keeps_on_fst, publish_topic_name_keeps|]. intros topic _.
  eapply keeps_bind; [apply keeps_on_snd, match_subscribers_keeps|]. intros subs _.
  eapply keeps_bind; [apply keeps_on_snd, route_subscribers_keeps|]. intros _ _. by apply keeps_ret.
Qed.

Lemma subscribe_filter_keeps id f : keeps_both (subscribe_filter id f) anything.
Proof.
  eapply keeps_bind; [apply keeps_get_inv|]. intros [s sh] [Hs Hsh].
  eapply keeps_bind; [apply keeps_lift_any|]. intros [[[rfr rap] nl] qos] _. cbv zeta.
  eapply keeps_bind; [apply keeps_on_snd, as_main_keeps|]. intros r Hr.
  eapply keeps_bind; [apply (keeps_lift _ _ wf_trie); intros t E; eapply subscribe_wf; [apply Hr|exact E]|].
  intros t Ht.
  eapply keeps_bind; [apply keeps_on_snd, set_main_keeps; intros r' Hr'; by apply wf_loop_trie|]. intros _ _.
  eapply keeps_bind; [apply keeps_on_fst, keeps_modify|].
  { intros s' [? ? ? ? ? Hsub ?]. split; try done. cbn [Session.subscriptions Session.set_subscriptions].
    intros f' sub [[<- <-]|[_ H]]%lookup_insert_Some; [|by apply Hsub]. split; [done|apply Hs]. }
  intros _ _. eapply keeps_bind; [apply keeps_lift_any|]. intros server_qos _. by apply keeps_ret.
Qed.

Lemma do_subscribe_keeps sub : keeps_both (Session_do_subscribe sub) anything.
Proof.
  eapply keeps_bind; [apply (keeps_for_collect _ _ _ (λ _, True))|].
  { intros f _. eapply keeps_bind; [apply subscribe_filter_keeps|]. intros rc _. apply keeps_ret.
    by repeat constructor. }
  intros codes _. by apply keeps_ret.
Qed.

Lemma handle_packet_keeps pkt : keeps_both (Session_handle_packet pkt) anything.
Proof.
  destruct pkt; cbn [Session_handle_packet]; try apply keeps_panic; try apply keeps_lift_any;
    try (by apply keeps_ret); [apply do_publish_keeps|apply do_subscribe_keeps].
Qed.

Lemma handle_packets_keeps tx pkts : keeps_both (Session_handle_packets tx pkts) anything.
Proof.
  eapply keeps_bind; [apply (keeps_for_collect _ _ _ (λ _, True))|].
  { intros p _. eapply keeps_weaken; [apply handle_packet_keeps|]. intros ms _. by apply Forall_true. }
  intros ms _. eapply keeps_bind; [apply keeps_on_fst, in_messages_keeps|].
  intros [] _; [apply keeps_on_fst, flush_messages_keeps..|by apply keeps_ret].
Qed.

Lemma route_packets_keeps clock rx tx : keeps_both (Session_route_packets clock rx tx) anything.
Proof.
  eapply keeps_bind; [apply get_session_keeps|]. intros s _.
  eapply keeps_bind; [apply keeps_lift_any|]. intros status _.
  destruct (take_values status) as [[|p ps] status'].
  - eapply keeps_bind; [apply keeps_lift_any|]. intros _ _. by apply keeps_ret.
  - eapply keeps_bind; [apply keeps_on_fst, keeps_modify; intros s'; apply wf_session_keep_alive|].
    intros _ _. eapply keeps_bind; [apply handle_packets_keeps|]. intros [st sent] _.
    destruct status', st; by apply keeps_ret.
Qed.
End session_on_shard.

(** * The thread of a shard *)

Lemma foldl_delete_subseteq {A} (qs : list u64) : ∀ (m : gmap u64 A) q x,
  foldl (λ m q, delete q m) m qs !! q = Some x → m !! q = Some x.
Proof.
  induction qs as [|q' qs IH]; intros m q x; cbn [foldl]; [done|].
  intros H. apply IH in H. by apply lookup_delete_Some in H as [_ H].
Qed.

Lemma take_unacks_subseteq qs : ∀ unacks msgs unacks' q m,
  take_unacks qs unacks = Ok (msgs, unacks') → unacks' !! q = Some m → unacks !! q = Some m.
Proof.
  induction qs as [|q' qs IH]; intros unacks msgs unacks' q m; cbn [take_unacks]; [by intros [= _ <-]|].
  destruct (unacks !! q'); [|done].
  destruct (take_unacks qs (delete q' unacks)) as [[ms u]| | |] eqn:E; [|done..].
  rewrite bind_Ok_1. intros [= _ <-] H. eapply IH in H; [|exact E].
  by apply lookup_delete_Some in H as [_ H].
Qed.

Lemma Session_start_wf now args config pkt s :
  Session_start now args config pkt = Ok s → wf_session (SessionArgs.client_id args) s.
Proof.
  unfold Session_start. destruct (start_will pkt); [|done..]. rewrite bind_Ok_1. intros [= <-].
  split; try done. by split; constructor.
Qed.

Section thread.
Context (sid : u32).
Abbreviation keeps_shard := (keeps (wf_shard sid)).

Lemma remove_unacks_keeps : keeps_shard Shard_remove_unacks anything.
Proof.
  eapply keeps_bind; [apply as_main_keeps|]. intros r Hr. cbv zeta.
  destruct (_ =? _); [by apply keeps_ret|].
  eapply keeps_bind.
  { apply (keeps_lift _ _ (λ x, ∀ q m, x.2 !! q = Some m → ClientInp.unacks (RunLoop.cinp r) !! q = Some m)).
    intros [ms u] E q m. by eapply take_unacks_subseteq. }
  intros [ms u] Hu. cbn in Hu. eapply keeps_bind; [|by intros _ _; apply keeps_ret].
  apply set_main_keeps. intros r' Hr'. apply wf_loop_cinp; [done|apply Hr|].
  intros q m H%Hu. by apply Hr in H.
Qed.

Lemma remove_session_keeps c : keeps_shard (Shard_remove_session c) anything.
Proof.
  eapply keeps_bind; [apply as_main_keeps|]. intros r Hr.
  eapply keeps_bind.
  { apply (keeps_lift _ _ (λ cinp, ClientInp.seqno cinp = ClientInp.seqno (RunLoop.cinp r) ∧
      ∀ q m, ClientInp.unacks cinp !! q = Some m → ClientInp.unacks (RunLoop.cinp r) !! q = Some m)).
    intros cinp. unfold ClientInp_remove_session. destruct (seqnos_of_client _ _) as [qs| | |]; [|done..].
    rewrite bind_Ok_1. intros [= <-]. split; [done|]. intros q m. apply foldl_delete_subseteq. }
  intros cinp [Hq Hu]. apply set_main_keeps. intros r' Hr'. apply wf_loop_cinp; [done| |].
  - rewrite Hq. apply Hr.
  - intros q m H%Hu. by apply Hr in H.
Qed.

Lemma set_miot_keeps f : keeps_shard (set_main (λ r, RunLoop.set_miot r (f r))) anything.
Proof. apply set_main_keeps. by intros r [? ? ? ? ?]. Qed.

Lemma delete_session_wf r c : wf_loop sid r →
  wf_loop sid (RunLoop.set_sessions r (delete c (RunLoop.sessions r))).
Proof.
  intros Hr. apply wf_loop_sessions; [done|]. intros c' s [_ H]%lookup_delete_Some. by apply Hr in H.
Qed.

Lemma unsubscribe_session_keeps s t :
  wf_trie t → keeps_shard (lift (Session_remove_topic_filters s t)) wf_trie.
Proof. intros Ht. apply keeps_lift. intros t'. by apply unsubscribe_all_wf. Qed.

Lemma handle_flush_connection_keeps env c e :
  keeps_shard (Shard_handle_flush_connection env c e) anything.
Proof.
  eapply keeps_bind; [apply as_main_keeps|]. intros r Hr.
  eapply keeps_bind with (Q := anything);
    [|intros _ _; eapply keeps_bind; [apply as_main_keeps|]; intros r1 _;
      destruct (Flusher.inner _); try apply keeps_panic;
      (eapply keeps_bind; [apply set_main_keeps; by intros r' [? ? ? ? ?]|intros _ _; apply keeps_lift_any])].
  destruct (RunLoop.sessions r !! c) as [s|]; [|by apply keeps_ret].
  eapply keeps_bind; [apply set_main_keeps; intros r'; apply delete_session_wf|]. intros _ _.
  eapply keeps_bind; [apply remove_session_keeps|]. intros _ _.
  eapply keeps_bind; [apply as_main_keeps|]. intros r1 Hr1.
  eapply keeps_bind; [apply unsubscribe_session_keeps, Hr1|]. intros t Ht.
  apply set_main_keeps. intros r' Hr'. by apply wf_loop_trie.
Qed.

Lemma flush_client_keeps env c e : keeps_shard (flush_client env c e) anything.
Proof.
  eapply keeps_bind; [apply as_main_keeps|]. intros r Hr.
  eapply keeps_bind; [apply keeps_lift_any|]. intros [] _; [|by apply keeps_ret].
  eapply keeps_bind; [apply set_miot_keeps|]. intros _ _. apply handle_flush_connection_keeps.
Qed.

(** ** Rounds *)

Definition wf_sessions (m : gmap ClientID Session) : Prop := ∀ c s, m !! c = Some s → wf_session c s.

Lemma route_sessions_keeps env clients :
  Forall (λ e, wf_session e.1 e.2) clients →
  keeps (both wf_sessions (wf_shard sid)) (route_sessions env clients) anything.
Proof.
  induction 1 as [|[c s] clients Hs _ IH]; cbn [route_sessions]; [by apply keeps_ret|].
  eapply keeps_bind; [apply keeps_get_inv|]. intros [sessions sh] [Hm Hsh].
  pose proof (route_packets_keeps c sid (Env.clock env) (Env.session_rx env c) (Env.miot_tx env c)
                (s, sh) (conj Hs Hsh)) as [[Hs' Hsh'] _].
  destruct (Session_route_packets _ _ _ _) as [[s' sh'] res]. cbn [fst snd] in Hs', Hsh'.
  eapply keeps_bind; [apply keeps_modify|].
  { intros _ _. split; [|done]. cbn [fst]. intros c' s1 [[<- <-]|[_ H]]%lookup_insert_Some; [done|by apply Hm]. }
  intros _ _. eapply keeps_bind; [apply keeps_lift_any|]. intros failed _.
  eapply keeps_bind; [apply IH|]. intros rest _. by apply keeps_ret.
Qed.

Lemma Shard_route_packets_keeps env : keeps_shard (Shard_route_packets env) anything.
Proof.
  eapply keeps_bind; [by apply replace_inner_keeps|]. intros i Hi.
  eapply keeps_bind; [apply (keeps_lift _ _ (wf_loop sid)); destruct i; try done; by intros r [= <-]|].
  intros r Hr. eapply keeps_bind; [apply keeps_get_inv|]. intros sh Hsh.
  assert (Forall (λ e, wf_session e.1 e.2) (btree_iter ClientID_cmp (RunLoop.sessions r))) as Hf.
  { apply Forall_forall. intros [c s] H%elem_of_btree_iter. by apply Hr. }
  pose proof (route_sessions_keeps env _ Hf (RunLoop.sessions r, sh) (conj (loop_sessions _ _ Hr) Hsh))
    as [[Hs' Hsh'] _].
  destruct (route_sessions _ _ _) as [[sessions sh'] failed]. cbn [fst snd] in Hs', Hsh'.
  eapply keeps_bind; [by apply keeps_modify|]. intros _ _.
  eapply keeps_bind; [apply keeps_lift_any|]. intros failed' _.
  eapply keeps_bind; [apply replace_inner_keeps; by apply wf_loop_sessions|]. intros _ _.
  apply keeps_for_each. intros e _. apply flush_client_keeps.
Qed.

Lemma remaining_suffix {A} (chan : nat → send_answer) (msgs : list A) :
  ∃ n, values (snd (try_sends chan msgs)) = drop n msgs.
Proof. destruct (try_sends_spec chan msgs) as (status & -> & Hv & _). by eexists. Qed.

Lemma flush_to_shard_keeps env e :
  Forall (outbound sid) e.2 → keeps_shard (flush_to_shard env e) (Forall anything).
Proof.
  destruct e as [k ms]. intros Hms. cbn [flush_to_shard snd] in *.
  eapply keeps_bind; [apply as_main_keeps|]. intros r Hr.
  eapply keeps_bind; [apply keeps_lift_any|]. intros tx _. unfold MsgTx_try_sends.
  destruct (remaining_suffix (Env.shard_tx env k) ms) as [n Hn].
  destruct (try_sends (Env.shard_tx env k) ms) as [sent status]. cbn [snd] in Hn.
  destruct (take_values_eq status) as (status' & -> & _). rewrite Hn.
  eapply keeps_bind; [apply set_main_keeps; by intros r' [? ? ? ? ?]|]. intros _ _.
  eapply keeps_bind; [|intros _ _; apply keeps_ret; by repeat constructor].
  apply set_main_keeps. intros r' Hr'. apply wf_loop_back_log; [done|by apply Forall_drop].
Qed.

Lemma flush_to_shards_keeps env : keeps_shard (Shard_flush_to_shards env) anything.
Proof.
  eapply keeps_bind; [apply as_main_keeps|]. intros r Hr. cbv zeta.
  eapply keeps_bind.
  { apply set_main_keeps. by intros r' [? ? ? ? ?]. }
  intros _ _. eapply keeps_anything, keeps_for_collect. intros [k ms] H%elem_of_btree_iter.
  apply flush_to_shard_keeps. by eapply loop_back_log.
Qed.

Lemma partition_message_keeps m : keeps_shard (partition_message m) (Forall anything).
Proof.
  destruct m as [from q|c from q id subs p|]; cbn [partition_message]; [| |apply keeps_panic].
  - eapply keeps_bind; [apply book_local_ack_keeps|]. intros _ _. apply keeps_ret. constructor.
  - eapply keeps_bind; [apply set_main_keeps; by intros r [? ? ? ? ?]|]. intros _ _.
    apply keeps_ret. by repeat constructor.
Qed.

Lemma book_session_messages_keeps e : keeps_shard (book_session_messages e) (Forall anything).
Proof.
  destruct e as [c ms]. eapply keeps_bind; [apply as_main_keeps|]. intros r Hr.
  destruct (RunLoop.sessions r !! c) as [s|] eqn:Es; [|apply keeps_ret; constructor].
  pose proof (in_messages_keeps c ms s (loop_sessions _ _ Hr _ _ Es)) as [Hs _].
  destruct (Session_in_messages ms s) as [s' status]. cbn [fst] in Hs.
  eapply keeps_bind; [apply set_main_keeps; intros r' Hr'; by apply wf_loop_session|]. intros _ _.
  eapply keeps_bind; [apply keeps_lift_any|]. intros [] _; apply keeps_ret; by repeat constructor.
Qed.

Lemma Shard_in_messages_keeps env rx : keeps_shard (Shard_in_messages env rx) anything.
Proof.
  eapply keeps_bind; [apply keeps_lift_any|]. intros status _.
  destruct (take_values status) as [msgs status'].
  eapply keeps_bind; [apply keeps_for_collect; intros m _; apply partition_message_keeps|]. intros parted _.
  cbv zeta.
  eapply keeps_bind; [apply keeps_for_collect; intros e _; apply book_session_messages_keeps|]. intros gone _.
  eapply keeps_bind; [apply keeps_for_each; intros c _; apply flush_client_keeps|]. intros _ _.
  by apply keeps_ret.
Qed.

Lemma flush_session_keeps env c : keeps_shard (flush_session env c) (Forall anything).
Proof.
  eapply keeps_bind; [apply as_main_keeps|]. intros r Hr.
  eapply keeps_bind; [apply (keeps_lift _ _ (wf_session c))|].
  { destruct (RunLoop.sessions r !! c) as [s|] eqn:Es; [|done]. intros s' [= <-]. by apply Hr in Es. }
  intros s Hs. pose proof (flush_messages_keeps c (Env.miot_tx env c) s Hs) as [Hs' _].
  destruct (Session_flush_messages _ _) as [s' res]. cbn [fst] in Hs'.
  eapply keeps_bind; [apply set_main_keeps; intros r' Hr'; by apply wf_loop_session|]. intros _ _.
  eapply keeps_bind; [apply keeps_lift_any|]. intros [st sent] _. apply keeps_ret. by repeat constructor.
Qed.

Lemma Shard_flush_messages_keeps env : keeps_shard (Shard_flush_messages env) anything.
Proof.
  eapply keeps_bind; [apply as_main_keeps|]. intros r Hr.
  eapply keeps_anything, keeps_for_collect. intros c _. apply flush_session_keeps.
Qed.

Lemma ack_messages_keeps : keeps_shard Shard_ack_messages anything.
Proof.
  eapply keeps_bind; [apply as_main_keeps|]. intros r Hr. cbv zeta.
  eapply keeps_bind; [apply set_main_keeps; by intros r' [? ? ? ? ?]|]. intros _ _.
  apply keeps_for_each. intros [k q] _. apply set_main_keeps. intros r' Hr'. by apply wf_loop_push.
Qed.

Lemma clear_unacks_keeps : keeps_shard Shard_clear_unacks anything.
Proof.
  eapply keeps_bind; [apply remove_unacks_keeps|]. intros ms _. apply keeps_for_each.
  intros m _. apply keeps_panic.
Qed.

Lemma retry_publish_keeps : keeps_shard Shard_retry_publish anything.
Proof.
  eapply keeps_bind; [apply as_main_keeps|]. intros r Hr. apply keeps_for_each.
  intros [c s] H%elem_of_btree_iter. cbn [fst snd Session_retry_publish panic lift].
  eapply keeps_bind; [|intros _ _; apply keeps_lift_any].
  apply set_main_keeps. intros r' Hr'. apply wf_loop_session; [done|by apply Hr in H].
Qed.

Lemma Shard_round_keeps env rx : keeps_shard (Shard_round env rx) anything.
Proof.
  eapply keeps_bind; [apply Shard_route_packets_keeps|]. intros _ _.
  eapply keeps_bind; [apply flush_to_shards_keeps|]. intros _ _.
  eapply keeps_bind; [apply Shard_in_messages_keeps|]. intros status _.
  destruct status; try (by apply keeps_ret);
    (eapply keeps_bind; [apply Shard_flush_messages_keeps|]); intros _ _;
    (eapply keeps_bind; [apply ack_messages_keeps|]); intros _ _;
    (eapply keeps_bind; [apply clear_unacks_keeps|]); intros _ _;
    (eapply keeps_bind; [apply retry_publish_keeps|]); intros _ _; by apply keeps_ret.
Qed.

(** ** Requests *)

Lemma set_shard_queues_keeps qs : keeps_shard (Shard_handle_set_shard_queues qs) anything.
Proof. apply set_main_keeps. by intros r [? ? ? ? ?]. Qed.

Lemma start_session_keeps env c pkt :
  keeps_shard (start_session env c pkt) (λ x, wf_session c x.1).
Proof.
  eapply keeps_bind; [apply keeps_get_inv|]. intros self Hself.
  eapply keeps_bind; [apply as_main_keeps|]. intros _ _.
  eapply keeps_bind; [apply keeps_lift_any|]. intros size _.
  cbn [pkt_channel]. cbv zeta.
  eapply keeps_bind; [apply (keeps_lift _ _ (wf_session c)); intros s E; by apply Session_start_wf in E|].
  intros s Hs. eapply keeps_bind; [apply keeps_lift_any|]. intros connack _.
  assert (keeps (wf_session c)
            (_ ← Session_in_messages [Message_new_client_ack (Packet.ConnAck connack)];
             Session_flush_messages (Env.miot_tx env c)) anything) as Hk.
  { eapply keeps_bind; [apply in_messages_keeps|]. intros _ _. apply flush_messages_keeps. }
  destruct (Hk s Hs) as [Hs' _].
  destruct ((_ ← Session_in_messages _; Session_flush_messages _) s) as [s' res]. cbn [fst] in Hs'.
  eapply keeps_bind; [apply keeps_lift_any|]. intros r _. by apply keeps_ret.
Qed.

Lemma take_over_keeps env c : keeps_shard (take_over env c) anything.
Proof.
  eapply keeps_bind; [apply as_main_keeps|]. intros r Hr.
  destruct (RunLoop.sessions r !! c) as [s|]; [|by apply keeps_ret].
  eapply keeps_bind; [apply unsubscribe_session_keeps, Hr|]. intros t Ht.
  eapply keeps_bind; [|intros _ _; apply flush_client_keeps].
  apply set_main_keeps. intros r' Hr'. apply wf_loop_trie; [by apply delete_session_wf|done].
Qed.

Lemma add_session_keeps env uuid pkt : keeps_shard (Shard_handle_add_session env uuid pkt) anything.
Proof.
  unfold Shard_handle_add_session. cbv zeta.
  eapply keeps_bind; [apply start_session_keeps|]. intros [s [status sent]] Hs. cbn [fst] in Hs.
  destruct status; try (by apply keeps_ret).
  eapply keeps_bind; [apply take_over_keeps|]. intros _ _.
  eapply keeps_bind; [apply as_main_keeps|]. intros _ _.
  eapply keeps_bind; [apply keeps_lift_any|]. intros _ _.
  eapply keeps_bind; [apply set_miot_keeps|]. intros _ _.
  eapply keeps_bind; [apply set_main_keeps; intros r' Hr'; by apply wf_loop_session|]. intros _ _.
  by apply keeps_ret.
Qed.

Lemma close_keeps env : keeps_shard (Shard_handle_close env) anything.
Proof.
  eapply keeps_bind; [by apply replace_inner_keeps|]. intros i Hi.
  eapply keeps_bind; [apply keeps_lift_any|]. intros r _.
  eapply keeps_bind; [apply keeps_lift_any|]. intros miot _.
  eapply keeps_bind; [by apply replace_inner_keeps|]. intros _ _. by apply keeps_ret.
Qed.

Lemma handle_request_keeps env req waits : keeps_shard (Shard_handle_request env req waits) anything.
Proof.
  destruct req as [|qs|uuid pkt|c e|msgs|], waits; try apply keeps_panic;
    (eapply keeps_bind; [|intros ? _; by apply keeps_ret]).
  - apply set_shard_queues_keeps.
  - apply add_session_keeps.
  - apply handle_flush_connection_keeps.
  - apply close_keeps.
Qed.

Lemma work_keeps env rx wakes : keeps_shard (Shard_work env rx wakes) anything.
Proof.
  eapply keeps_bind; [apply Shard_round_keeps|]. intros exit _. destruct exit; [by apply keeps_ret|].
  eapply keeps_bind; [apply keeps_lift_any|]. intros _ _. by apply keeps_ret.
Qed.

Lemma finish_keeps_shard env : keeps_shard (Shard_finish env) anything.
Proof.
  eapply keeps_bind; [apply keeps_gets_any|]. intros i _.
  destruct i; try apply keeps_panic; [apply close_keeps|by apply keeps_ret].
Qed.
End thread.

(** * What a shard can become *)

Lemma Shard_main_wf sid cfg f t : wf_trie t → wf_shard sid (Shard_main sid cfg f t).
Proof.
  intros Ht. by split.
Qed.

Lemma shard_reachable_wf sid cfg f s :
  sys_reachable (Shard_main sid cfg f SubscribedTrie_default) s → wf_shard sid (self s).
Proof.
  intros Hs. apply (sys_reachable_kept (λ _, wf_shard sid) (λ _ _, wf_shard sid)) in Hs.
  - unfold kept in Hs. by destruct (phase s).
  - intros _ q w t t' r Ht [env E] _. pose proof (proj1 (handle_request_keeps sid env q w t Ht)) as H.
    rewrite E in H. by destruct r.
  - intros _ t t' r Ht (env & rx & wakes & E) _. pose proof (proj1 (work_keeps sid env rx wakes t Ht)) as H.
    rewrite E in H. by destruct r.
  - intros _ t t' r Ht [env E] _. pose proof (proj1 (finish_keeps_shard sid env t Ht)) as H.
    by rewrite E in H.
  - apply Shard_main_wf, default_as.
Qed.

Lemma seqnos_of_client_ok (sid : u32) c unacks :
  Forall (λ e : u64 * Message, ∃ c subs p,
    e.2 = Message.Packet c sid e.1 0 subs (Packet.Publish p) ∧ subs ≠ []) unacks →
  ∃ qs, seqnos_of_client c unacks = Ok qs.
Proof.
  induction 1 as [|[q m] unacks (c' & subs & p & E & Hs) _ [qs IH]]; [by eexists|].
  cbn [fst snd] in E. subst m. cbn [seqnos_of_client Message_as_client_id].
  destruct subs as [|s subs]; [done|]. rewrite bind_Ok_1, IH, bind_Ok_1. by eexists.
Qed.

(** C4: in every interleaving of a shard with those that talk to it, whatever packets,
    messages and requests it goes through, and however they end: each session is kept
    under its client, has a valid next packet identifier, sorted identifiers of pending
    publishes, in its back-log only messages with a packet, in flight only packets under
    their own identifier, its subscriptions under their filters and aliases the server
    allows; the messages that wait for an acknowledgement are publishes of the shard
    under their number; the trie is well formed - and taking a client out of the messages that wait never panics. *)
Theorem reachable_shard_invariants sid cfg f s c :
  sys_reachable (Shard_main sid cfg f SubscribedTrie_default) s →
  Shard.shard_id (self s) = sid ∧
  match Shard.inner (self s) with
  | ShardInner.Main r => wf_loop sid r ∧ snd (Shard_remove_session c (self s)) = Ok ()
  | _ => True
  end.
Proof.
  intros Hr%shard_reachable_wf. destruct Hr as [Hsid Hw]. revert Hsid Hw. generalize (self s). intros sh Hsid Hw. split; [done|].
  destruct (Shard.inner sh) as [| | | |r|] eqn:Ei; try done. split; [done|].
  unfold Shard_remove_session.
  rewrite (M_bind_Ok as_main _ sh sh r) by (unfold as_main; by rewrite Ei).
  destruct (seqnos_of_client_ok sid c (btree_iter Z.compare (ClientInp.unacks (RunLoop.cinp r))))
    as [qs E].
  { apply Forall_forall. intros [q m] H%elem_of_btree_iter. by apply Hw in H. }
  unfold ClientInp_remove_session. rewrite E, bind_Ok_1, lift_bind_Ok. unfold set_main. by rewrite Ei.
Qed.

(** * Instances *)

(** Nothing arrives, and everything that is sent is taken. *)
Definition ex_env : Env :=
  prompt_env 0 (λ _ _, Empty) (λ _ _, Sent) (λ _ _, Sent) (λ _, Empty).
Definition ex_client_connect : Connect :=
  Connect.mk MQTT MqttProtocol.V5 (mkConnectFlags 2) 60 None
    (ConnectPayload.mk ex_client None None None None None).
Definition ex_config_sized : Config :=
  Config.mk [0x6d] None None None None None None None (Some 1024) None None None None None None None None
    None.
Definition ex_flusher : Flusher :=
  Flusher.mk ex_config_sized (FlusherInner.Handle (Thread.mk [] true (Some (Tx.N false)))).
Definition ex_shard : Shard := Shard_main 1 ex_config_sized ex_flusher SubscribedTrie_default.

(** A shard that was asked to add a session, and did. *)
Lemma reachable_shard_invariants_witness :
  ∃ s r, sys_reachable ex_shard s ∧ Shard.inner (self s) = ShardInner.Main r ∧ wf_loop 1 r ∧
    is_Some (RunLoop.sessions r !! ex_client).
Proof.
  eexists _, _. match goal with |- ?A ∧ _ => assert A as Hr end.
  { run_step ltac:(right; left; eapply (step_submit _ (AddSession [] ex_client_connect)); [cbn; lia|reflexivity..]).
    run_step ltac:(right; left; eapply step_wake; cbn; lia).
    run_step ltac:(left; eapply step_poll; reflexivity).
    do 2 run_step ltac:(left; eapply step_take; reflexivity).
    serve_by (Shard_handle_request ex_env) ltac:(exists ex_env; vm_compute; reflexivity).
    constructor. }
  split; [exact Hr|]. split; [reflexivity|]. split; [|vm_compute; by eexists].
  destruct (reachable_shard_invariants 1 ex_config_sized ex_flusher _ ex_client Hr) as [_ H].
  apply H.
Defined.
