(* ===== verification/ShardQueues.v ===== *)
(** The queues between shards: what [Shard::flush_to_shards] of [src/shard.rs] does with
    the back-log, and the composition of the back-logs of all shards, the queue of one of
    them ([msg_channel] of [src/message.rs]) and the rounds in which that one drains it,
    in every interleaving of their accesses to the queue. *)

From S2P Require Import Prelude Error Util Codec Types V5 AckPackets PublishPacket SubPackets.
From S2P Require Import ConnectPackets Packets Config Ttrie Timer Retained State Queue KeepAlive Session SessionTheorems.
From S2P Require Import Thread Server Flusher Shard ShardLoop ShardTheorems ShardInvariant.
Local Open Scope Z_scope.

(** * Accesses of a queue *)

(** [try_send] of a bounded channel. *)
Definition chan_try_send {A} (a : A) (c : Chan A) : Chan A * send_answer :=
  if negb (Chan.receiver c) then (c, ReceiverGone)
  else if chan_full c then (c, Full)
  else (chan_set_queue (Chan.queue c ++ [a]) c, Sent).

(** The accesses [try_sends] makes, and the answers: up to the first that is no. *)
Fixpoint attempts {A} (chan : nat → send_answer) (values : list A) : list (A * send_answer) :=
  match values with
  | [] => []
  | value :: rest =>
      (value, chan 0%nat) ::
      match chan 0%nat with Sent => attempts (λ i, chan (S i)) rest | _ => [] end
  end.

(** The accesses [try_recvs] makes: up to the first no, or one more than the batch. *)
Fixpoint drains {A} (chan : nat → recv_answer A) (batch_size : nat) : list (recv_answer A) :=
  chan 0%nat ::
  match chan 0%nat, batch_size with
  | Received _, S batch_size => drains (λ i, chan (S i)) batch_size
  | _, _ => []
  end.

Definition sent_value {A} (e : A * send_answer) : option A :=
  match snd e with Sent => Some (fst e) | _ => None end.
Definition received_value {A} (a : recv_answer A) : option A :=
  match a with Received v => Some v | _ => None end.
Definition recv_map {A B} (f : A → B) (a : recv_answer A) : recv_answer B :=
  match a with Received v => Received (f v) | Empty => Empty | SendersGone => SendersGone end.

Lemma sent_attempts {A} (values : list A) : ∀ chan,
  omap sent_value (attempts chan values) = take (accepts chan (length values)) values.
Proof.
  induction values as [|v values IH]; intros chan; [done|]. cbn.
  destruct (chan 0%nat) eqn:E; cbn; [|done..]. by rewrite IH.
Qed.

Lemma try_recvs_drains {A} (chan : nat → recv_answer A) : ∀ batch i got size,
  (length got + batch = size)%nat →
  ∃ status, try_recvs_loop chan size (S batch) i got = Ok status ∧
    values status = got ++ omap received_value (drains (λ j, chan (i + j)%nat) batch).
Proof.
  induction batch as [|batch IH]; intros i got size Hs; cbn [try_recvs_loop drains];
    rewrite Nat.add_0_r; destruct (chan i) as [v| |] eqn:E; cbn [omap list_omap received_value].
  2,3,5,6: eexists; split; [done|]; by rewrite app_nil_r.
  - rewrite (proj2 (Nat.ltb_ge _ _)) by lia. by eexists.
  - rewrite (proj2 (Nat.ltb_lt _ _)) by lia.
    destruct (IH (S i) (got ++ [v]) size) as (status & Es & Hv); [rewrite length_app; cbn; lia|].
    exists status. split; [exact Es|]. rewrite Hv, <- app_assoc. cbn. do 2 f_equal.
    f_equal. clear. revert i.
    assert (∀ (f g : nat → recv_answer A) n, (∀ j, f j = g j) → drains f n = drains g n) as Hext.
    { intros f g n. revert f g. induction n as [|n IH]; intros f g H; cbn; rewrite H; [done|].
      destruct (g 0%nat); [|done..]. f_equal. apply IH. intros j. apply H. }
    intros i. apply Hext. intros j. by rewrite Nat.add_succ_r.
Qed.

Lemma MsgRx_drains {A} (rx : MsgRx) (chan : nat → recv_answer A) :
  ∃ status, MsgRx_try_recvs rx chan = Ok status ∧
    values status = omap received_value (drains chan (MsgRx.msg_batch_size rx)).
Proof. exact (try_recvs_drains chan (MsgRx.msg_batch_size rx) 0 [] _ eq_refl). Qed.

(** The received values of an access with the sender forgotten. *)
Lemma drains_map {A B} (f : A → B) batch : ∀ chan,
  omap received_value (drains (λ i, recv_map f (chan i)) batch)
  = f <$> omap received_value (drains chan batch).
Proof.
  induction batch as [|batch IH]; intros chan; cbn; destruct (chan 0%nat); cbn; try done.
  by rewrite IH.
Qed.

(** * Flushing the back-log *)

(** What a shard still has to send to shard [k]. *)
Definition to_shard (k : u32) (sh : Shard) : list Message :=
  match Shard.inner sh with
  | ShardInner.Main r => at_key k (RunLoop.shard_back_log r)
  | _ => []
  end.

Section flush.
Context (env : Env) (sid : u32) (cfg : Config).

(** How many messages the queue of shard [k] takes. *)
Definition taken_by (k : u32) (msgs : list Message) : nat :=
  accepts (Env.shard_tx env k) (length msgs).

(** The back-log with what the queues left of [es]. *)
Definition left_of (es : list (u32 * list Message)) (m : gmap u32 (list Message))
    : gmap u32 (list Message) :=
  foldl (λ m e, <[e.1 := drop (taken_by e.1 e.2) e.2]> m) m es.
Definition took (e : u32 * list Message) : u32 * list Message :=
  (e.1, take (taken_by e.1 e.2) e.2).

Lemma flush_to_shard_eq r k msgs tx : RunLoop.shard_queues r !! k = Some tx →
  flush_to_shard env (k, msgs) (running sid cfg r)
  = (running sid cfg
       (RunLoop.set_back_log
          (RunLoop.set_shard_queues r
             (<[k := MsgTx.mk (MsgTx.shard_id tx) (MsgTx.count tx + taken_by k msgs)]>
                (RunLoop.shard_queues r)))
          (<[k := drop (taken_by k msgs) msgs]> (RunLoop.shard_back_log r))),
     Ok [took (k, msgs)]).
Proof.
  intros Etx. cbn [flush_to_shard].
  rewrite (M_bind_Ok _ _ _ (running sid cfg r) r) by done.
  rewrite (M_bind_Ok _ _ _ (running sid cfg r) tx); [|unfold lift, unwrap_some; by rewrite Etx].
  unfold MsgTx_try_sends.
  destruct (try_sends_spec (Env.shard_tx env k) msgs) as (status & E & Hv & _). rewrite E.
  unfold values in Hv. destruct (take_values status) as [remaining st]. cbn [fst] in Hv. subst remaining.
  unfold set_main, took, running. cbn. rewrite length_take_le by apply accepts_le. done.
Qed.

Lemma flush_loop es : ∀ r,
  Forall (λ e, is_Some (RunLoop.shard_queues r !! e.1)) es →
  ∃ qs, dom qs = dom (RunLoop.shard_queues r) ∧
    for_collect es (flush_to_shard env) (running sid cfg r)
    = (running sid cfg (RunLoop.set_back_log (RunLoop.set_shard_queues r qs)
                          (left_of es (RunLoop.shard_back_log r))),
       Ok (took <$> es)).
Proof.
  induction es as [|[k msgs] es IH]; intros r Hq.
  { exists (RunLoop.shard_queues r). split; [done|]. by destruct r. }
  apply Forall_cons in Hq as [[tx Etx] Hq]. cbn [for_collect fst] in *.
  rewrite (M_bind_Ok _ _ _ _ _ (flush_to_shard_eq r k msgs tx Etx)).
  set (r1 := RunLoop.set_back_log _ _).
  destruct (IH r1) as (qs & Hd & E).
  { eapply Forall_impl; [exact Hq|]. intros e He. by apply lookup_insert_is_Some'; right. }
  exists qs. split.
  { rewrite Hd. cbn. rewrite dom_insert_L. apply elem_of_dom_2 in Etx. set_solver. }
  by rewrite (M_bind_Ok _ _ _ _ _ E).
Qed.

(** A queue that is not there stops the shard. *)
Lemma flush_loop_queues es : ∀ r sh' res,
  for_collect es (flush_to_shard env) (running sid cfg r) = (sh', Ok res) →
  Forall (λ e, is_Some (RunLoop.shard_queues r !! e.1)) es.
Proof.
  induction es as [|[k msgs] es IH]; intros r sh' res H; [done|]. cbn [for_collect] in H.
  destruct (RunLoop.shard_queues r !! k) as [tx|] eqn:Etx.
  - rewrite (M_bind_Ok _ _ _ _ _ (flush_to_shard_eq r k msgs tx Etx)) in H.
    apply M_bind_inv in H as (sh1 & res1 & H & _). apply IH in H.
    constructor; [by exists tx|]. eapply Forall_impl; [exact H|]. intros e.
    cbn. rewrite lookup_insert_is_Some'. intros [<-|?]; [by exists tx|done].
  - exfalso. apply M_bind_inv in H as (sh1 & res1 & H & _). revert H. cbn [flush_to_shard].
    rewrite (M_bind_Ok _ _ _ (running sid cfg r) r) by done.
    unfold mbind, M_bind, lift, unwrap_some. by rewrite Etx.
Qed.

Lemma at_left_of es : ∀ m k, NoDup es.*1 →
  at_key k (left_of es m)
  = match list_find (λ e, e.1 = k) es with
    | Some (_, e) => drop (taken_by k e.2) e.2
    | None => at_key k m
    end.
Proof.
  induction es as [|[k1 msgs] es IH]; intros m k Hn; [done|].
  cbn [left_of foldl fmap list_fmap fst snd] in *. apply NoDup_cons in Hn as [Hk Hn].
  change (foldl _ _ es) with (left_of es (<[k1 := drop (taken_by k1 msgs) msgs]> m)).
  rewrite IH by done. cbn [list_find fst]. case_decide as E; [subst k1|].
  - destruct (list_find _ es) as [[i e]|] eqn:F; cbn [fmap option_fmap option_map prod_map].
    + apply list_find_Some in F as (F & Fe & _). exfalso. apply Hk, list_elem_of_fmap.
      exists e. split; [done|]. by eapply list_elem_of_lookup_2.
    + unfold at_key. by rewrite lookup_insert_eq.
  - destruct (list_find _ es) as [[i e]|]; cbn; [done|]. unfold at_key.
    by rewrite lookup_insert_ne.
Qed.
End flush.

(** A shard that has a queue of every shard it has messages for sends to each of them what
    its queue takes, first come first sent, and keeps the rest in order. *)
Lemma flush_to_shards_spec env sid cfg r :
  (∀ k, is_Some (RunLoop.shard_back_log r !! k) → is_Some (RunLoop.shard_queues r !! k)) →
  ∃ qs bl, dom qs = dom (RunLoop.shard_queues r) ∧
    Shard_flush_to_shards env (running sid cfg r)
    = (running sid cfg (RunLoop.set_back_log (RunLoop.set_shard_queues r qs) bl),
       Ok (took env <$> btree_iter Z.compare (RunLoop.shard_back_log r))) ∧
    ∀ k, let msgs := at_key k (RunLoop.shard_back_log r) in
      at_key k bl = drop (accepts (Env.shard_tx env k) (length msgs)) msgs.
Proof.
  intros Hq. set (es := btree_iter Z.compare (RunLoop.shard_back_log r)).
  destruct (flush_loop env sid cfg es (RunLoop.set_back_log r ∅)) as (qs & Hd & E).
  { apply Forall_forall. intros [k msgs] H%elem_of_btree_iter. apply Hq. by exists msgs. }
  exists qs, (left_of env es ∅). split; [done|]. split.
  { unfold Shard_flush_to_shards. rewrite (M_bind_Ok _ _ _ (running sid cfg r) r) by done.
    by rewrite (M_bind_Ok _ _ _ (running sid cfg (RunLoop.set_back_log r ∅)) ()) by done. }
  intros k. cbn zeta. rewrite at_left_of by apply btree_iter_keys_NoDup. unfold at_key.
  destruct (list_find _ es) as [[i e]|] eqn:F.
  - apply list_find_Some in F as (F & <- & _). apply list_elem_of_lookup_2 in F.
    destruct e as [k msgs]. apply (elem_of_btree_iter Z.compare) in F. cbn [fst snd]. by rewrite F.
  - apply list_find_None in F. rewrite lookup_empty.
    destruct (RunLoop.shard_back_log r !! k) as [msgs|] eqn:El; [|done].
    apply (elem_of_btree_iter Z.compare) in El. rewrite Forall_forall in F. by destruct (F _ El).
Qed.

Lemma flush_sends env sh sh' res k :
  Shard_flush_to_shards env sh = (sh', Ok res) →
  to_shard k sh = omap sent_value (attempts (Env.shard_tx env k) (to_shard k sh)) ++ to_shard k sh'.
Proof.
  intros H. assert (∃ sid cfg r, sh = running sid cfg r) as (sid & cfg & r & ->).
  { apply M_bind_inv in H as (sh1 & r & H & _). destruct sh as [sid cfg [| | | |r'|]]; try done.
    by exists sid, cfg, r'. }
  assert (∀ k, is_Some (RunLoop.shard_back_log r !! k) → is_Some (RunLoop.shard_queues r !! k)) as Hq.
  { intros j [msgs El%(elem_of_btree_iter Z.compare)]. revert H. unfold Shard_flush_to_shards.
    rewrite (M_bind_Ok _ _ _ (running sid cfg r) r) by done.
    rewrite (M_bind_Ok _ _ _ (running sid cfg (RunLoop.set_back_log r ∅)) ()) by done.
    intros H%flush_loop_queues. rewrite Forall_forall in H. exact (H _ El). }
  destruct (flush_to_shards_spec env sid cfg r Hq) as (qs & bl & _ & E & Hbl).
  rewrite E in H. injection H as <- _. cbn. rewrite Hbl, sent_attempts. symmetry. apply take_drop.
Qed.

(** * One queue, many shards

    The accesses of a shard's queue in the order they happen, each message with the shard
    it is from: a try to send, a try to receive, and the end of the receiver, with which
    what the queue still holds is lost. *)
Inductive access :=
| Puts (from : u32) (m : Message) (a : send_answer)
| Gets (a : recv_answer (u32 * Message))
| HangsUp.

Inductive queue_run : Chan (u32 * Message) → list access → Chan (u32 * Message) → Prop :=
| queue_idle c : queue_run c [] c
| queue_puts c c1 c2 from m a es :
    chan_try_send (from, m) c = (c1, a) → queue_run c1 es c2 → queue_run c (Puts from m a :: es) c2
| queue_gets c c1 c2 a es :
    chan_try_recv c = (c1, a) → queue_run c1 es c2 → queue_run c (Gets a :: es) c2
| queue_hangs_up c c2 es :
    queue_run (chan_drop_receiver c) es c2 → queue_run c (HangsUp :: es) c2.

(** What one shard tries to send, and what the receiver is answered. *)
Definition tries (from : u32) (es : list access) : list (Message * send_answer) :=
  omap (λ e, match e with
             | Puts a m ans => if bool_decide (a = from) then Some (m, ans) else None
             | _ => None
             end) es.
Definition takes (es : list access) : list (recv_answer (u32 * Message)) :=
  omap (λ e, match e with Gets a => Some a | _ => None end) es.

(** What the queue took, of all shards. *)
Definition sent_in (es : list access) : list (u32 * Message) :=
  omap (λ e, match e with Puts a m Sent => Some (a, m) | _ => None end) es.
(** The messages of one shard. *)
Definition sent_by (from : u32) (ms : list (u32 * Message)) : list Message :=
  (filter (λ e, e.1 = from) ms).*2.

(** A shard that sends to shard [k] each time it flushes, and books messages for it in
    between: its state, what it books, its tries, and its state after that. *)
Inductive sender_run (k : u32) :
    Shard → list Message → list (Message * send_answer) → Shard → Prop :=
| sender_stops sh : sender_run k sh [] [] sh
| sender_flushes env sh sh1 sh2 sent ms es :
    Shard_flush_to_shards env sh = (sh1, Ok sent) → sender_run k sh1 ms es sh2 →
    sender_run k sh ms (attempts (Env.shard_tx env k) (to_shard k sh) ++ es) sh2
| sender_books sh sh1 sh2 new ms es :
    to_shard k sh1 = to_shard k sh ++ new → sender_run k sh1 ms es sh2 →
    sender_run k sh (new ++ ms) es sh2.

(** The receiver drains the queue, each time up to its batch: what it receives, and what
    it is answered. *)
Inductive receiver_run (rx : MsgRx) : list Message → list (recv_answer (u32 * Message)) → Prop :=
| receiver_stops : receiver_run rx [] []
| receiver_drains chan status ms es :
    MsgRx_try_recvs rx (λ i, recv_map snd (chan i)) = Ok status → receiver_run rx ms es →
    receiver_run rx (values status ++ ms) (drains chan (MsgRx.msg_batch_size rx) ++ es).

(** ** The queue is first in, first out *)

Lemma gone_queue c es c' : queue_run c es c' →
  Chan.receiver c = false → Chan.queue c = [] →
  sent_in es = [] ∧ omap received_value (takes es) = [] ∧ Chan.queue c' = [].
Proof.
  induction 1 as [c|c c1 c2 from m a es E _ IH|c c1 c2 a es E _ IH|c c2 es _ IH]; intros Hr Hq.
  - done.
  - unfold chan_try_send in E. rewrite Hr in E. injection E as <- <-. cbn. by apply IH.
  - unfold chan_try_recv in E. rewrite Hq in E. injection E as <- <-. cbn.
    destruct (_ =? _)%nat; cbn; by apply IH.
  - by apply IH.
Qed.

Lemma queue_fifo c es c' : queue_run c es c' →
  ∃ lost, (HangsUp ∉ es → lost = []) ∧
    Chan.queue c ++ sent_in es = omap received_value (takes es) ++ lost ++ Chan.queue c'.
Proof.
  induction 1 as [c|c c1 c2 from m a es E _ IH|c c1 c2 a es E _ IH|c c2 es H _].
  - exists []. split; [done|]. by rewrite app_nil_r.
  - destruct IH as (lost & Hl & IH). exists lost.
    split; [intros Hn; apply Hl; set_solver|].
    change (takes (Puts from m a :: es)) with (takes es). rewrite <- IH. unfold chan_try_send in E.
    destruct (Chan.receiver c); cbn in E; [destruct (chan_full c)|]; injection E as <- <-; try done.
    cbn. by rewrite <- app_assoc.
  - destruct IH as (lost & Hl & IH). exists lost.
    split; [intros Hn; apply Hl; set_solver|].
    change (takes (Gets a :: es)) with (a :: takes es). change (sent_in (Gets a :: es)) with (sent_in es).
    unfold chan_try_recv in E. destruct (Chan.queue c) as [|x q] eqn:Eq.
    + destruct (_ =? _)%nat; injection E as <- <-; rewrite Eq in IH; exact IH.
    + injection E as <- <-. exact (f_equal (cons x) IH).
  - apply gone_queue in H as (Hs & Hg & Hq); [|done..]. exists (Chan.queue c).
    split; [set_solver|]. change (sent_in (HangsUp :: es)) with (sent_in es).
    change (takes (HangsUp :: es)) with (takes es). by rewrite Hs, Hg, Hq.
Qed.

Lemma queue_bounded c es c' size : queue_run c es c' →
  Chan.bound c = Some size → (length (Chan.queue c) ≤ size)%nat → (length (Chan.queue c') ≤ size)%nat.
Proof.
  induction 1 as [c|c c1 c2 from m a es E _ IH|c c1 c2 a es E _ IH|c c2 es _ IH]; intros Hb Hl.
  - done.
  - unfold chan_try_send, chan_full in E. rewrite Hb in E.
    destruct (Chan.receiver c); cbn in E; [destruct (Nat.leb_spec size (length (Chan.queue c)))|];
      injection E as <- <-; apply IH; try done.
    cbn. rewrite length_app. cbn. lia.
  - unfold chan_try_recv in E. destruct (Chan.queue c) as [|x q] eqn:Eq; injection E as <- <-;
      (apply IH; [done|]); [rewrite Eq; exact Hl|cbn in *; lia].
  - apply IH; [done|cbn; lia].
Qed.

(** ** The two ends *)

Lemma sender_sends k sh ms es sh' : sender_run k sh ms es sh' →
  to_shard k sh ++ ms = omap sent_value es ++ to_shard k sh'.
Proof.
  induction 1 as [sh|env sh sh1 sh2 sent ms es E _ IH|sh sh1 sh2 new ms es E _ IH].
  - apply app_nil_r.
  - rewrite omap_app, <- app_assoc, <- IH, app_assoc. f_equal. by eapply flush_sends.
  - by rewrite <- IH, E, <- app_assoc.
Qed.

Lemma receiver_receives rx ms es : receiver_run rx ms es →
  ms = (omap received_value es).*2.
Proof.
  induction 1 as [|chan status ms es E _ IH]; [done|].
  destruct (MsgRx_drains rx (λ i, recv_map snd (chan i))) as (status' & E' & Hv).
  rewrite E in E'. injection E' as <-. rewrite Hv, drains_map, omap_app, fmap_app. by f_equal.
Qed.

Lemma tries_puts from f m a es :
  tries from (Puts f m a :: es) = (if bool_decide (f = from) then [(m, a)] else []) ++ tries from es.
Proof. unfold tries. cbn. by case_bool_decide. Qed.

Lemma sent_by_cons from f m ms :
  sent_by from ((f, m) :: ms) = (if bool_decide (f = from) then [m] else []) ++ sent_by from ms.
Proof. unfold sent_by. rewrite filter_cons. cbn. case_bool_decide; by case_decide. Qed.

Lemma sent_by_app from ms ms' : sent_by from (ms ++ ms') = sent_by from ms ++ sent_by from ms'.
Proof. unfold sent_by. by rewrite filter_app, fmap_app. Qed.

Lemma sent_by_tries from es : omap sent_value (tries from es) = sent_by from (sent_in es).
Proof.
  induction es as [|[f m a| |] es IH]; [done| |exact IH..].
  rewrite tries_puts, omap_app, IH. destruct a;
    [change (sent_in (Puts f m Sent :: es)) with ((f, m) :: sent_in es); rewrite sent_by_cons|..];
    by case_bool_decide.
Qed.

(** ** A round of a shard

    A round books nothing for other shards but acknowledgements, after it has flushed. *)
Section unbooked.
Context (k : u32) (ms : list Message).
Abbreviation unbooked m := (keeps (λ sh, to_shard k sh = ms) m anything).

Lemma as_main_unbooked : unbooked as_main.
Proof. intros [? ? []] H; by split. Qed.

Lemma set_main_unbooked f :
  (∀ r, RunLoop.shard_back_log (f r) = RunLoop.shard_back_log r) → unbooked (set_main f).
Proof. intros Hf [? ? []] H; split; try done. cbn in *. by rewrite Hf. Qed.

Lemma for_collect_unbooked {A B} (xs : list A) (f : A → M Shard (list B)) :
  (∀ x, unbooked (f x)) → unbooked (for_collect xs f).
Proof.
  intros Hf. eapply keeps_anything, (keeps_for_collect _ _ _ anything). intros x _.
  eapply keeps_weaken; [apply Hf|]. intros ys _. by apply Forall_true.
Qed.

Lemma for_each_unbooked {A} (xs : list A) (f : A → M Shard unit) :
  (∀ x, unbooked (f x)) → unbooked (for_each xs f).
Proof. intros Hf. apply keeps_for_each. intros x _. apply Hf. Qed.
End unbooked.

(** Step by step, every case of every match. *)
Ltac unbooked :=
  cbv zeta;
  lazymatch goal with
  | |- keeps _ (_ ≫= _) _ =>
      apply (keeps_bind _ _ _ anything); [unbooked|intros ? _; unbooked]
  | |- keeps _ as_main _ => apply as_main_unbooked
  | |- keeps _ (set_main _) _ => by apply set_main_unbooked
  | |- keeps _ (for_collect _ _) _ => apply for_collect_unbooked; intros ?; unbooked
  | |- keeps _ (for_each _ _) _ => apply for_each_unbooked; intros ?; unbooked
  | |- keeps _ (match ?x with _ => _ end) _ => destruct x; unbooked
  | |- _ => first [by apply keeps_ret | apply keeps_lift_any | apply keeps_panic | by auto with unbooked]
  end.
Create HintDb unbooked.

Section round.
Context (env : Env) (k : u32) (ms : list Message).
Abbreviation unbooked m := (keeps (λ sh, to_shard k sh = ms) m anything).

Lemma flush_client_unbooked c e : unbooked (flush_client env c e).
Proof.
  unfold flush_client, Shard_handle_flush_connection, Shard_remove_session. unbooked.
Qed.
#[local] Hint Resolve flush_client_unbooked : unbooked.

Lemma in_messages_unbooked rx : unbooked (Shard_in_messages env rx).
Proof.
  unfold Shard_in_messages, partition_message, book_session_messages, Shard_book_local_ack.
  unbooked.
Qed.

Lemma flush_messages_unbooked : unbooked (Shard_flush_messages env).
Proof. unfold Shard_flush_messages, flush_session. unbooked. Qed.

Lemma clear_unacks_unbooked : unbooked Shard_clear_unacks.
Proof. unfold Shard_clear_unacks, Shard_remove_unacks. unbooked. Qed.

Lemma retry_publish_unbooked : unbooked Shard_retry_publish.
Proof. unfold Shard_retry_publish. unbooked. Qed.
End round.

Lemma keeps_unbooked {A} (m : M Shard A) k sh sh' a :
  (∀ ms, keeps (λ sh, to_shard k sh = ms) m anything) → m sh = (sh', Ok a) →
  to_shard k sh' = to_shard k sh.
Proof. intros H E. destruct (H _ sh eq_refl) as [Hs _]. by rewrite E in Hs. Qed.

(** Routing the packets of a shard leaves its back-log: it runs without it. *)
Lemma route_packets_unbooked env sh sh' k :
  Shard_route_packets env sh = (sh', Ok ()) → to_shard k sh' = to_shard k sh.
Proof.
  unfold Shard_route_packets. intros H.
  apply M_bind_inv in H as (sh1 & i & [= <- <-] & H).
  apply M_bind_inv in H as (sh2 & r & Hr & H).
  destruct (Shard.inner sh) as [| | | |r'|] eqn:Ei; try done. injection Hr as <- <-.
  apply M_bind_inv in H as (sh3 & self & [= <- <-] & H).
  destruct (route_sessions _ _ _) as [[sessions self] failed].
  apply M_bind_inv in H as (sh4 & [] & _ & H).
  apply M_bind_inv in H as (sh5 & fs & _ & H).
  apply M_bind_inv in H as (sh6 & i & [= <- _] & H).
  rewrite (keeps_unbooked _ k _ _ _ (λ ms, for_each_unbooked k ms fs _
             (λ e, flush_client_unbooked env k ms e.1 e.2)) H).
  unfold to_shard. by rewrite Ei.
Qed.

Lemma push_acks qs : ∀ sid cfg r sh' k,
  for_each qs (λ '(j, q), set_main (λ r, RunLoop.set_back_log r
    (push_at j (Message.LocalAck j q) (RunLoop.shard_back_log r)))) (running sid cfg r) = (sh', Ok ()) →
  to_shard k sh' = at_key k (RunLoop.shard_back_log r)
    ++ (Message.LocalAck k <$> (filter (λ e, e.1 = k) qs).*2).
Proof.
  induction qs as [|[j q] qs IH]; intros sid cfg r sh' k H; cbn [for_each] in H.
  { injection H as <-. by rewrite app_nil_r. }
  apply M_bind_inv in H as (sh1 & [] & [= <-] & H). rewrite (IH _ _ _ _ k H).
  cbn [RunLoop.shard_back_log RunLoop.set_back_log]. rewrite at_key_push, <- app_assoc, filter_cons.
  cbn [fst]. f_equal. case_bool_decide as E; case_decide; try done. by subst j.
Qed.

Lemma filter_key_once {K A} `{EqDecision K} (k : K) (l : list (K * A)) :
  NoDup l.*1 → filter (λ e, e.1 = k) l = [] ∨ ∃ x, filter (λ e, e.1 = k) l = [(k, x)].
Proof.
  induction l as [|[j x] l IH]; intros Hn; [by left|]. cbn in Hn. apply NoDup_cons in Hn as [Hj Hn].
  rewrite filter_cons. cbn [fst]. case_decide as E; [subst j|by apply IH]. right. exists x. f_equal.
  destruct (filter _ l) as [|[i y] l'] eqn:F; [done|]. exfalso.
  assert ((i, y) ∈ filter (λ e, e.1 = k) l) as Hi by (rewrite F; by left).
  apply list_elem_of_filter in Hi as [Ei Hi]. cbn in Ei. subst i. apply Hj, list_elem_of_fmap.
  by exists (k, y).
Qed.

(** A shard acknowledges to each other at most once a round. *)
Lemma ack_messages_books sh sh' k :
  Shard_ack_messages sh = (sh', Ok ()) →
  ∃ acks, to_shard k sh' = to_shard k sh ++ acks ∧
    (acks = [] ∨ ∃ q, acks = [Message.LocalAck k q]).
Proof.
  intros H. apply M_bind_inv in H as (sh1 & r & Hr & H).
  destruct sh as [sid cfg [| | | |r'|]]; try done. injection Hr as <- <-. cbv zeta in H.
  apply M_bind_inv in H as (sh2 & [] & [= <-] & H). apply (push_acks _ _ _ _ _ k) in H.
  eexists. split; [exact H|].
  destruct (filter_key_once k (btree_iter Z.compare (RunLoop.ack_timestamp r'))) as [->|[q ->]].
  - apply btree_iter_keys_NoDup.
  - by left.
  - right. by exists q.
Qed.

(** A round of a shard is a run of a sender: it flushes once, and then books an
    acknowledgement at most. *)
Lemma round_is_a_sender_run env rx sh sh' ends k :
  Shard_round env rx sh = (sh', Ok ends) →
  ∃ acks, sender_run k sh acks (attempts (Env.shard_tx env k) (to_shard k sh)) sh' ∧
    (acks = [] ∨ ∃ q, acks = [Message.LocalAck k q]).
Proof.
  intros H. apply M_bind_inv in H as (sh1 & [] & H1 & H). apply (route_packets_unbooked _ _ _ k) in H1.
  apply M_bind_inv in H as (sh2 & sent & H2 & H).
  apply M_bind_inv in H as (sh3 & status & H3 & H).
  apply (keeps_unbooked _ k) in H3; [|intros ms; apply in_messages_unbooked].
  assert (∃ acks, to_shard k sh' = to_shard k sh2 ++ acks ∧
            (acks = [] ∨ ∃ q, acks = [Message.LocalAck k q])) as (acks & Hb & Ha).
  { rewrite <- H3. destruct status;
      [..|injection H as <- _; exists []; rewrite app_nil_r; by split; [|left]].
    all: apply M_bind_inv in H as (sh4 & ? & H4 & H);
      apply (keeps_unbooked _ k) in H4 as <-; [|intros ms; apply flush_messages_unbooked];
      apply M_bind_inv in H as (sh5 & [] & H5 & H);
      apply M_bind_inv in H as (sh6 & [] & H6 & H);
      apply (keeps_unbooked _ k) in H6; [|intros ms; apply clear_unacks_unbooked];
      apply M_bind_inv in H as (sh7 & [] & H7 & [= <- _]);
      apply (keeps_unbooked _ k) in H7 as ->; [|intros ms; apply retry_publish_unbooked];
      rewrite H6; by apply ack_messages_books. }
  exists acks. split; [|done].
  rewrite <- (app_nil_r (attempts _ _)), <- (app_nil_l acks), <- H1.
  eapply sender_books; [by rewrite app_nil_r|].
  eapply sender_flushes; [exact H2|]. rewrite <- (app_nil_r acks).
  eapply sender_books; [exact Hb|]. apply sender_stops.
Qed.


(** C20: the shards of a node send to one of them, in any interleaving of their accesses to its
    bounded queue and of the rounds in which it drains it: what a shard had and has booked
    for it since is, in order and each message once, what was received of that shard, what
    was lost with the receiver, what the queue holds, and the shard's back-log.  Nothing is
    lost as long as the receiver is there, the queue never holds more than its size, and
    the receiver takes the messages of all shards in the order the queue took them. *)
Theorem messages_arrive_once_in_order size es c rx got k :
  queue_run (sync_channel size) es c →
  receiver_run rx got (takes es) →
  ∃ taken lost, got = taken.*2 ∧ (HangsUp ∉ es → lost = []) ∧
    (length (Chan.queue c) ≤ size)%nat ∧
    sent_in es = taken ++ lost ++ Chan.queue c ∧
    ∀ from start booked final, sender_run k start booked (tries from es) final →
      to_shard k start ++ booked
      = sent_by from taken ++ sent_by from lost ++ sent_by from (Chan.queue c)
        ++ to_shard k final.
Proof.
  intros Hq Hr. destruct (queue_fifo _ _ _ Hq) as (lost & Hl & E). cbn in E.
  exists (omap received_value (takes es)), lost.
  split; [by eapply receiver_receives|]. split; [done|].
  split; [eapply queue_bounded; [exact Hq|done|cbn; lia]|]. split; [exact E|].
  intros from start booked final Hs. apply sender_sends in Hs.
  by rewrite Hs, sent_by_tries, E, !sent_by_app, <- !app_assoc.
Qed.

(** * Examples *)

(** Two acknowledgements of shard 1 for shard 2. *)
Definition ex_to_second (msgs : list Message) : Shard :=
  running 1 ex_config
    (RunLoop.set_back_log (RunLoop.set_shard_queues ex_loop {[2 := MsgTx.mk 2 0]}) {[2 := msgs]}).
Definition ex_acks : list Message := [Message.LocalAck 1 5; Message.LocalAck 1 6].
(** A queue that has room for so many. *)
Definition ex_room (n : nat) : Env :=
  prompt_env 0 (λ _ _, Empty) (λ _ _, Sent) (λ _ i, if (i <? n)%nat then Sent else Full) (λ _, Empty).

(** The queue of shard 2 has room for two; shard 7 takes one of the places, and shard 1 has
    to flush twice. *)
Definition ex_accesses : list access :=
  [Puts 1 (Message.LocalAck 1 5) Sent; Puts 7 (Message.LocalAck 7 3) Sent;
   Puts 1 (Message.LocalAck 1 6) Full;
   Gets (Received (1, Message.LocalAck 1 5)); Gets (Received (7, Message.LocalAck 7 3));
   Puts 1 (Message.LocalAck 1 6) Sent].

Lemma messages_arrive_once_in_order_witness :
  ∃ final taken lost,
    sender_run 2 (ex_to_second ex_acks) [] (tries 1 ex_accesses) final ∧
    [Message.LocalAck 1 5; Message.LocalAck 7 3] = taken.*2 ∧
    to_shard 2 (ex_to_second ex_acks) ++ []
    = sent_by 1 taken ++ sent_by 1 lost ++ sent_by 1 [(1, Message.LocalAck 1 6)]
      ++ to_shard 2 final.
Proof.
  set (sh1 := fst (Shard_flush_to_shards (ex_room 1) (ex_to_second ex_acks))).
  set (sh2 := fst (Shard_flush_to_shards (ex_room 1) sh1)).
  assert (sender_run 2 (ex_to_second ex_acks) [] (tries 1 ex_accesses) sh2) as Hs.
  { change (tries 1 ex_accesses)
      with (attempts (Env.shard_tx (ex_room 1) 2) (to_shard 2 (ex_to_second ex_acks))
            ++ attempts (Env.shard_tx (ex_room 1) 2) (to_shard 2 sh1) ++ []).
    eapply (sender_flushes 2 (ex_room 1) _ sh1); [vm_compute; reflexivity|].
    eapply (sender_flushes 2 (ex_room 1) sh1 sh2); [vm_compute; reflexivity|].
    apply sender_stops. }
  destruct (messages_arrive_once_in_order 2 ex_accesses
              (Chan.mk [(1, Message.LocalAck 1 6)] (Some 2%nat) 1 true)
              (MsgRx.mk 2 1) [Message.LocalAck 1 5; Message.LocalAck 7 3] 2)
    as (taken & lost & Ht & _ & _ & _ & H).
  - repeat first [eapply queue_puts; [vm_compute; reflexivity|]
                 |eapply queue_gets; [vm_compute; reflexivity|]]. apply queue_idle.
  - exact (receiver_drains (MsgRx.mk 2 1)
             (λ i, match i with
                   | O => Received (1, Message.LocalAck 1 5)
                   | _ => Received (7, Message.LocalAck 7 3)
                   end) (QueueStatus.Ok [Message.LocalAck 1 5; Message.LocalAck 7 3]) [] []
             eq_refl (receiver_stops _)).
  - exists sh2, taken, lost. split; [exact Hs|]. split; [exact Ht|]. exact (H 1 _ _ _ Hs).
Defined.
