(* ===== verification/ShardFlow.v ===== *)
(** How messages and acknowledgements flow between shards, and where it goes wrong: to whom
    a routed message is delivered, which shard an acknowledgement names, what a round
    needs to end well, when a silent connection times out, and that a session stops the
    shard of a cluster, with which packets of its client at once. *)

From S2P Require Import Prelude Error Util Codec Types V5 AckPackets PublishPacket SubPackets.
From S2P Require Import ConnectPackets Packets Config Ttrie TtrieFacts TtrieTheorems Timer Retained State Queue KeepAlive.
From S2P Require Import Session SessionTheorems Thread Flusher Shard ShardLoop ShardTheorems ShardInvariant.
Local Open Scope Z_scope.

(** * Delivery *)

(** The shard runs, with this session for the client. *)
Definition session_is (b : ClientID) (x : option Session) (sh : Shard) : Prop :=
  match Shard.inner sh with
  | ShardInner.Main r => RunLoop.sessions r !! b = x
  | _ => False
  end.

Section session_is.
Context (b : ClientID) (x : option Session).
Abbreviation keeps_b := (keeps (session_is b x)).

Lemma as_main_same : keeps_b as_main (λ r, RunLoop.sessions r !! b = x).
Proof.
  intros [? ? inner] Hi. unfold as_main, session_is in *. cbn in *. destruct inner; try done.
  split; [done|]. by intros r [= <-].
Qed.

Lemma set_main_same f :
  (∀ r, RunLoop.sessions r !! b = x → RunLoop.sessions (f r) !! b = x) →
  keeps_b (set_main f) anything.
Proof.
  intros Hf [? ? inner] Hi. unfold set_main, session_is in *. cbn in *. destruct inner; try done.
  split; [by apply Hf|done].
Qed.

Lemma flush_client_same env c e : c ≠ b → keeps_b (flush_client env c e) anything.
Proof.
  intros Hc. eapply keeps_bind; [apply as_main_same|]. intros r Hr.
  eapply keeps_bind; [apply keeps_lift_any|]. intros [] _; [|by apply keeps_ret].
  eapply keeps_bind; [by apply set_main_same|]. intros _ _.
  eapply keeps_bind; [apply as_main_same|]. intros r' Hr'.
  eapply keeps_bind with (Q := anything);
    [|intros _ _; eapply keeps_bind; [apply as_main_same|]; intros r1 _;
      destruct (Flusher.inner _); try apply keeps_panic;
      (eapply keeps_bind; [by apply set_main_same|intros _ _; apply keeps_lift_any])].
  destruct (RunLoop.sessions r' !! c); [|by apply keeps_ret].
  eapply keeps_bind; [apply set_main_same; intros r1 H1; cbn; by rewrite lookup_delete_ne|]. intros _ _.
  eapply keeps_bind.
  { eapply keeps_bind; [apply as_main_same|]. intros r2 _.
    eapply keeps_bind; [apply keeps_lift_any|]. intros cinp _. by apply set_main_same. }
  intros _ _. eapply keeps_bind; [apply as_main_same|]. intros r2 _.
  eapply keeps_bind; [apply keeps_lift_any|]. intros t _. by apply set_main_same.
Qed.

Definition not_for (m : Message) : Prop :=
  match m with Message.Packet c _ _ _ _ _ => c ≠ b | _ => True end.

Lemma partition_message_same m : not_for m → keeps_b (partition_message m) (Forall (λ e, e.1 ≠ b)).
Proof.
  intros Hm. destruct m as [from q|c from q id subs p|]; cbn [partition_message]; [| |apply keeps_panic].
  - eapply keeps_bind; [|intros _ _; apply keeps_ret; constructor].
    eapply keeps_bind; [apply as_main_same|]. intros r _. cbv zeta.
    destruct (_ !! from) as [[routed ?]|]; [by apply set_main_same|apply keeps_panic].
  - eapply keeps_bind; [by apply set_main_same|]. intros _ _. apply keeps_ret. by repeat constructor.
Qed.

Lemma book_session_messages_same e : e.1 ≠ b →
  keeps_b (book_session_messages e) (Forall (λ c, c ≠ b)).
Proof.
  destruct e as [c ms]. cbn [fst]. intros Hc. eapply keeps_bind; [apply as_main_same|]. intros r Hr.
  destruct (RunLoop.sessions r !! c) as [s|]; [|apply keeps_ret; constructor].
  destruct (Session_in_messages ms s) as [s' status].
  eapply keeps_bind; [apply set_main_same; intros r1 H1; cbn; by rewrite lookup_insert_ne|]. intros _ _.
  eapply keeps_bind; [apply keeps_lift_any|]. intros [] _; apply keeps_ret; by repeat constructor.
Qed.

Lemma grouped_key {A B} (key : A → ClientID) (val : A → B) l : ∀ m k v,
  foldl (λ m x, push_at (key x) (val x) m) m l !! k = Some v →
  is_Some (m !! k) ∨ ∃ x, x ∈ l ∧ key x = k.
Proof.
  induction l as [|y l IH]; intros m k v; cbn [foldl]; [intros ->; left; by eexists|].
  intros [H|(z & Hz & E)]%IH; [|right; exists z; split; [by right|done]].
  rewrite push_at_key in H. case_bool_decide; [right; exists y; split; [by left|done]|by left].
Qed.

Lemma in_messages_same env rx :
  (∀ i m, Env.msg_rx env i = Received m → not_for m) →
  keeps_b (Shard_in_messages env rx) anything.
Proof.
  intros Hm. eapply keeps_bind with (Q := λ status, Forall not_for (values status)).
  { apply keeps_lift. intros status. unfold MsgRx_try_recvs.
    destruct (try_recvs_spec (Env.msg_rx env) (MsgRx.msg_batch_size rx)) as (got & Hg & H).
    assert (Forall not_for got) as Hgot.
    { apply Forall_lookup. intros i m Hi. by apply (Hm i), Hg. }
    intros E. destruct H as [(_ & _ & E1)|[_ E1]]; rewrite E1 in E; injection E as <-; [|done].
    by destruct (Env.msg_rx env (length got)). }
  intros status Hst. destruct (take_values_eq status) as (status' & -> & _). cbv zeta.
  eapply keeps_bind.
  { apply keeps_for_collect. intros m Hin. apply partition_message_same.
    rewrite Forall_forall in Hst. by apply Hst. }
  intros parted Hp. eapply keeps_bind.
  { apply keeps_for_collect. intros [c ms] Hin%elem_of_btree_iter. apply book_session_messages_same.
    apply grouped_key in Hin as [[? H]|(e & He & <-)]; [by rewrite lookup_empty in H|].
    rewrite Forall_forall in Hp. by apply Hp. }
  intros gone Hgone. eapply keeps_bind.
  { apply keeps_for_each. intros c Hin. apply flush_client_same. rewrite Forall_forall in Hgone. by apply Hgone. }
  intros _ _. by apply keeps_ret.
Qed.
End session_is.

(** What a client publishes is delivered under the publisher's own name: the shard that
    receives the routed messages of [a] leaves the session of every other client as it
    was, the subscribers among them. *)
Theorem routed_messages_miss_subscribers env rx sid cfg r a b :
  a ≠ b →
  (∀ i m, Env.msg_rx env i = Received m →
     (∃ from publ q ss, m = route_message from a publ q ss) ∨ (∃ from q, m = Message.LocalAck from q)) →
  match Shard.inner (fst (Shard_in_messages env rx (running sid cfg r))) with
  | ShardInner.Main r' => RunLoop.sessions r' !! b = RunLoop.sessions r !! b
  | _ => False
  end.
Proof.
  intros Hab Hm. pose proof (in_messages_same b (RunLoop.sessions r !! b) env rx) as H.
  apply H; [|reflexivity]. intros i m Hi.
  by destruct (Hm i m Hi) as [(from & publ & q & ss & ->)|(from & q & ->)].
Qed.

(** * Acknowledgements *)

(** An acknowledgement names the shard it is meant for, not the one that sends it: when
    shard [t] got message [q] of shard [p] and acknowledges it, [p] takes the
    acknowledgement for its own; it panics when it never sent itself anything, and
    otherwise stays without an acknowledgement of [t]. *)
Theorem acknowledgements_name_the_wrong_shard p t cfg rp rt c q id subs pkt :
  p ≠ t → RunLoop.ack_timestamp rt = ∅ →
  ∃ rt',
    (parted ← partition_message (Message.Packet c p q id subs pkt); _ ← Shard_ack_messages; mret parted)
      (running t cfg rt)
    = (running t cfg rt', Ok [(c, Message.Packet c p q id subs pkt)]) ∧
    at_key p (RunLoop.shard_back_log rt')
    = at_key p (RunLoop.shard_back_log rt) ++ [Message.LocalAck p q] ∧
    match ClientInp.timestamp (RunLoop.cinp rp) !! p with
    | None => snd (partition_message (Message.LocalAck p q) (running p cfg rp)) = Panic
    | Some (routed, _) =>
        ∃ cinp, partition_message (Message.LocalAck p q) (running p cfg rp)
                = (running p cfg (RunLoop.set_cinp rp cinp), Ok []) ∧
          ClientInp.unacks cinp = ClientInp.unacks (RunLoop.cinp rp) ∧
          ClientInp.timestamp cinp !! p = Some (routed, q) ∧
          ClientInp.timestamp cinp !! t = ClientInp.timestamp (RunLoop.cinp rp) !! t
    end.
Proof.
  intros Hpt Ha.
  set (rt1 := RunLoop.set_ack_timestamp rt (<[p := q]> (RunLoop.ack_timestamp rt))).
  set (rt2 := RunLoop.set_back_log (RunLoop.set_ack_timestamp rt1 ∅)
                (push_at p (Message.LocalAck p q) (RunLoop.shard_back_log rt))).
  exists rt2. split; [|split].
  - rewrite (M_bind_Ok _ _ _ (running t cfg rt1) [(c, Message.Packet c p q id subs pkt)]) by done.
    rewrite (M_bind_Ok _ _ _ (running t cfg rt2) ()); [done|].
    unfold Shard_ack_messages. rewrite (M_bind_Ok as_main _ _ (running t cfg rt1) rt1) by done. cbv zeta.
    rewrite (M_bind_Ok (set_main _) _ _ (running t cfg (RunLoop.set_ack_timestamp rt1 ∅)) ()) by done.
    unfold rt1. cbn [RunLoop.ack_timestamp RunLoop.set_ack_timestamp]. rewrite Ha, insert_empty, btree_iter_singleton.
    done.
  - unfold rt2. cbn [RunLoop.shard_back_log RunLoop.set_back_log]. rewrite at_key_push.
    by rewrite bool_decide_eq_true_2.
  - cbn [partition_message]. unfold Shard_book_local_ack.
    assert (∀ f : RunLoop → M Shard unit,
      (as_main ≫= f) (running p cfg rp) = f rp (running p cfg rp)) as Em by done.
    destruct (ClientInp.timestamp (RunLoop.cinp rp) !! p) as [[routed last]|] eqn:E.
    + eexists. split.
      { erewrite M_bind_Ok; [|rewrite Em; cbv zeta; rewrite E; done]. done. }
      cbn. split; [done|]. by rewrite lookup_insert_eq, lookup_insert_ne.
    + erewrite M_bind_eq; [|rewrite Em; cbv zeta; rewrite E; done]. done.
Qed.

(** * Rounds *)

Lemma btree_iter_nil `{Countable K} {A} cmp (m : gmap K A) : btree_iter cmp m = [] → m = ∅.
Proof.
  intros E. apply map_eq. intros k. rewrite lookup_empty. destruct (m !! k) as [x|] eqn:Hk; [|done].
  apply (elem_of_btree_iter cmp) in Hk. rewrite E in Hk. by apply not_elem_of_nil in Hk.
Qed.

Lemma retry_publish_ends sh sh' : Shard_retry_publish sh = (sh', Ok ()) →
  sh' = sh ∧ ∃ r, Shard.inner sh = ShardInner.Main r ∧ RunLoop.sessions r = ∅.
Proof.
  unfold Shard_retry_publish. intros (s1 & r & E & H)%M_bind_inv.
  unfold as_main in E. destruct (Shard.inner sh) as [| | | |r'|] eqn:Ei; try done.
  injection E as <- <-. destruct (btree_iter ClientID_cmp (RunLoop.sessions r')) as [|e l] eqn:El.
  - injection H as <-. split; [done|]. exists r'. split; [done|]. by eapply btree_iter_nil.
  - cbn [for_each] in H. apply M_bind_inv in H as (? & ? & H & _).
    cbn [Session_retry_publish panic lift] in H. by apply M_bind_inv in H as (? & ? & _ & H).
Qed.

(** The thread of a shard goes on after a round only when it has no sessions left: with a
    session, the round ends in a panic, since retrying is not implemented. *)
Theorem rounds_go_on_without_sessions env rx sh sh' :
  Shard_round env rx sh = (sh', Ok false) →
  ∃ r, Shard.inner sh' = ShardInner.Main r ∧ RunLoop.sessions r = ∅.
Proof.
  unfold Shard_round. intros (s1 & [] & _ & H)%M_bind_inv.
  apply M_bind_inv in H as (s2 & sent & _ & H). apply M_bind_inv in H as (s3 & status & _ & H).
  destruct status; [..|by injection H];
    apply M_bind_inv in H as (s4 & flushed & _ & H); apply M_bind_inv in H as (s5 & [] & _ & H);
    apply M_bind_inv in H as (s6 & [] & _ & H); apply M_bind_inv in H as (s7 & [] & E & H);
    injection H as <-; apply retry_publish_ends in E as (<- & H); exact H.
Qed.

(** A session that received nothing is timed out while it is within its keep-alive
    interval, and left alone once it is over it. *)
Theorem silence_times_out_early clock rx tx s sh interval :
  KeepAlive.interval (Session.keep_alive s) = Some interval → (∀ p, rx O ≠ Received p) →
  let deadline := KeepAlive.alive_at (Session.keep_alive s) + interval * NANOS in
  Session_route_packets clock rx tx (s, sh)
  = ((s, sh), if clock <=? deadline then err ErrorKind.ProtocolError ReasonCode.KeepAliveTimeout
              else Ok (QueueStatus.Ok [], [])).
Proof.
  intros Hi Hrx deadline. unfold Session_route_packets.
  change (on_fst get ≫= ?f) with (λ s : Session * Shard, f (fst s) (fst s, snd s)). cbv beta. cbn [fst snd].
  assert (∃ status, PktRx_try_recvs (Session.session_rx s) rx = Ok status ∧ values status = []) as (status & -> & Hv).
  { unfold PktRx_try_recvs, try_recvs. cbn [try_recvs_loop].
    destruct (rx O) as [p| |]; [by specialize (Hrx p)|by eexists..]. }
  rewrite lift_bind_Ok. destruct (take_values_eq status) as (status' & -> & _). rewrite Hv.
  unfold KeepAlive_check_expired. rewrite Hi. cbv zeta. fold deadline.
  by rewrite Z.leb_antisym; destruct (deadline <? clock).
Qed.

(** A publish that any session could make: QoS 0, with a name and no alias. *)
Definition plain_publish (publ : Publish) : Prop :=
  Publish.qos publ = QoS.AtMostOnce ∧ Publish.retain publ = false ∧
  Publish_topic_alias publ = None ∧ topic_name_str (Publish.topic_name publ) ≠ [].

Lemma plain_publish_panics self sh publ server_qos :
  plain_publish publ → (∀ r, Shard.inner sh ≠ ShardInner.Main r) →
  QoS_try_from (Config_mqtt_maximum_qos (Session.config self)) = Ok server_qos →
  Session_do_publish publ (self, sh) = ((self, sh), Panic).
Proof.
  intros (Hq & Hr & Ha & Hn) Hi Hs. unfold Session_do_publish.
  change (on_fst get ≫= ?f) with (λ s : Session * Shard, f (fst s) (fst s, snd s)). cbv beta. cbn [fst snd].
  unfold Session_is_duplicate. rewrite Hq, lift_bind_Ok.
  assert (Session_book_retain publ (self, sh) = ((self, sh), Ok ())) as E1
    by (unfold Session_book_retain; by rewrite Hr).
  rewrite (M_bind_Ok _ _ _ _ _ E1).
  assert (Session_book_qos publ self = (self, Ok true)) as E2.
  { unfold Session_book_qos. change (get ≫= ?f) with (λ s, f s s). cbv beta.
    rewrite Hs. cbn [unwrap]. rewrite lift_bind_Ok, Hq.
    by rewrite (proj2 (Z.ltb_ge _ _)) by (destruct server_qos; cbn; lia). }
  erewrite M_bind_Ok; [|unfold on_fst; cbn [fst]; rewrite E2; done]. cbn [snd].
  assert (Session_publish_topic_name publ self = (self, Ok (Publish.topic_name publ))) as E3.
  { unfold Session_publish_topic_name. change (get ≫= ?f) with (λ s, f s s). cbv beta zeta.
    rewrite Ha. by destruct (topic_name_str (Publish.topic_name publ)). }
  erewrite M_bind_Ok; [|unfold on_fst; cbn [fst]; rewrite E3; done]. cbn [snd].
  assert (∀ c t, Shard_match_subscribers c t sh = (sh, Panic)) as E4.
  { intros c t. unfold Shard_match_subscribers. by rewrite (M_bind_eq _ _ _ _ _ (as_main_off sh Hi)). }
  erewrite M_bind_eq; [|unfold on_snd; cbn [snd]; rewrite E4; done]. done.
Qed.

Lemma route_one_panics env c s s' sh sh' m :
  Session_route_packets (Env.clock env) (Env.session_rx env c) (Env.miot_tx env c) (s, sh)
  = ((s', sh'), Panic) →
  route_sessions env [(c, s)] (m, sh) = ((<[c := s']> m, sh'), Panic).
Proof.
  intros E. cbn [route_sessions]. rewrite (M_bind_Ok get _ (m, sh) (m, sh) (m, sh)) by done.
  by rewrite E.
Qed.

(** A plain publish of its only session stops a shard: the packets are routed while the
    shard's state is set aside, and looking up the subscribers there panics. *)
Theorem a_publish_stops_the_shard env sid cfg r c s publ server_qos :
  RunLoop.sessions r = {[c := s]} → plain_publish publ →
  QoS_try_from (Config_mqtt_maximum_qos (Session.config s)) = Ok server_qos →
  Env.session_rx env c 0 = Received (Packet.Publish publ) → Env.session_rx env c 1 = Empty →
  (0 < PktRx.pkt_batch_size (Session.session_rx s))%nat →
  Shard_route_packets env (running sid cfg r) = (Shard.mk sid cfg ShardInner.Init, Panic).
Proof.
  intros Hs Hp Hq H0 H1 Hb.
  assert (PktRx_try_recvs (Session.session_rx s) (Env.session_rx env c)
          = Ok (QueueStatus.Block [Packet.Publish publ])) as Er.
  { unfold PktRx_try_recvs, try_recvs. destruct (PktRx.pkt_batch_size (Session.session_rx s)) as [|n]; [lia|].
    cbn [try_recvs_loop]. rewrite H0. cbn [length Nat.ltb Nat.leb]. by rewrite H1. }
  set (sh := Shard.mk sid cfg ShardInner.Init).
  set (s' := Session.set_keep_alive s (KeepAlive_live (Env.clock env) (Session.keep_alive s))).
  assert (Session_route_packets (Env.clock env) (Env.session_rx env c) (Env.miot_tx env c) (s, sh)
          = ((s', sh), Panic)) as Ep.
  { unfold Session_route_packets.
    change (on_fst get ≫= ?f) with (λ s : Session * Shard, f (fst s) (fst s, snd s)). cbv beta. cbn [fst snd].
    rewrite Er, lift_bind_Ok. cbn [take_values].
    rewrite (M_bind_Ok _ _ _ (s', sh) ()) by done.
    rewrite (M_bind_eq _ _ _ (s', sh) Panic); [done|]. unfold Session_handle_packets.
    rewrite (M_bind_eq _ _ _ (s', sh) Panic); [done|]. cbn [for_collect Session_handle_packet].
    by erewrite M_bind_eq by (eapply plain_publish_panics; [exact Hp|done|exact Hq]). }
  unfold Shard_route_packets.
  rewrite (M_bind_Ok _ _ _ sh (ShardInner.Main r)) by done. rewrite lift_bind_Ok.
  change (get ≫= ?f) with (λ s, f s s). cbv beta. rewrite Hs, btree_iter_singleton.
  by rewrite (route_one_panics env c s s' sh sh _ Ep).
Qed.

(** * Flushing *)

(** The shard runs, with this flusher. *)
Definition flusher_is (f : FlusherInner) (sh : Shard) : Prop :=
  match Shard.inner sh with
  | ShardInner.Main r => Flusher.inner (RunLoop.flusher r) = f
  | _ => False
  end.

Section flusher_is.
Context (f : FlusherInner).
Abbreviation keeps_f := (keeps (flusher_is f)).

Lemma as_main_flusher : keeps_f as_main (λ r, Flusher.inner (RunLoop.flusher r) = f).
Proof.
  intros [? ? inner] Hi. unfold as_main, flusher_is in *. cbn in *. destruct inner; try done.
  split; [done|]. by intros r [= <-].
Qed.

Lemma set_main_flusher g :
  (∀ r, RunLoop.flusher (g r) = RunLoop.flusher r) → keeps_f (set_main g) anything.
Proof.
  intros Hg [? ? inner] Hi. unfold set_main, flusher_is in *. cbn in *. destruct inner; try done.
  split; [by etrans; [apply f_equal, Hg|]|done].
Qed.

Lemma handle_flush_connection_stops env c e :
  (∀ thrd, f ≠ FlusherInner.Handle thrd) →
  keeps_f (Shard_handle_flush_connection env c e) (λ _, False).
Proof.
  intros Hf. eapply keeps_bind; [apply as_main_flusher|]. intros r Hr.
  eapply keeps_bind with (Q := anything).
  - destruct (RunLoop.sessions r !! c); [|by apply keeps_ret].
    eapply keeps_bind; [by apply set_main_flusher|]. intros _ _.
    eapply keeps_bind.
    { eapply keeps_bind; [apply as_main_flusher|]. intros r2 _.
      eapply keeps_bind; [apply keeps_lift_any|]. intros cinp _. by apply set_main_flusher. }
    intros _ _. eapply keeps_bind; [apply as_main_flusher|]. intros r2 _.
    eapply keeps_bind; [apply keeps_lift_any|]. intros t _. by apply set_main_flusher.
  - intros _ _. eapply keeps_bind; [apply as_main_flusher|]. cbv beta. intros r1 ->.
    destruct f as [|thrd|tx| |]; try apply keeps_panic. by destruct (Hf thrd).
Qed.
End flusher_is.

(** A shard that was given a copy of the flusher's handle, as the cluster gives it, never
    flushes a connection: the request ends the shard, in an error or a panic, whether
    the client has a session or not. *)
Theorem shards_with_copies_do_not_flush env flusher copy i i' sh r c e :
  Flusher_to_tx flusher i = (i', Ok copy) →
  Shard.inner sh = ShardInner.Main r → RunLoop.flusher r = copy →
  snd (Shard_handle_flush_connection env c e sh) ≠ Ok ().
Proof.
  unfold Flusher_to_tx. intros (i1 & inner & H & Hc)%M_bind_inv Er <-. injection Hc as <- Hc.
  assert (∀ thrd, inner ≠ FlusherInner.Handle thrd) as Hi.
  { destruct (Flusher.inner flusher) as [|thrd|tx| |]; try done;
      apply M_bind_inv in H as (i2 & tx' & _ & H); by injection H as _ <-. }
  assert (flusher_is inner sh) as Hr by (unfold flusher_is; by rewrite Er, <-Hc).
  intros E. destruct (handle_flush_connection_stops inner env c e Hi _ Hr) as [_ Hf]. by destruct (Hf ()).
Qed.

(** * Packets of a connected client *)

(** What a session does not survive, while the shard's state is set aside. *)
Definition stopping (s : Session) (p : Packet) : Prop :=
  match p with
  | Packet.PingReq => False
  | Packet.Publish publ => Session_is_duplicate s publ ≠ Ok true
  | Packet.Subscribe sub => Subscribe.filters sub ≠ []
  | _ => True
  end.

Lemma handle_packet_stops s sh p st msgs :
  off sh → stopping s p → Session_handle_packet p (s, sh) ≠ (st, Ok msgs).
Proof.
  intros Hi Hp H. destruct p as [| |publ| | | | |sub| | | | | | |]; try done; cbn [Session_handle_packet] in H.
  - by eapply do_publish_off in H.
  - by eapply do_subscribe_off in H.
Qed.

(** One packet is there to be read. *)
Lemma one_packet rx n (p : Packet) :
  rx O = Received p → rx 1%nat = Empty → (0 < n)%nat → try_recvs rx n = Ok (QueueStatus.Block [p]).
Proof.
  intros H0 H1 Hn. unfold try_recvs. destruct n as [|n]; [lia|].
  cbn [try_recvs_loop]. rewrite H0. cbn [length Nat.ltb Nat.leb]. by rewrite H1.
Qed.

Definition alive_at (clock : Z) (s : Session) : Session :=
  Session.set_keep_alive s (KeepAlive_live clock (Session.keep_alive s)).

Lemma route_one_packet clock rx tx s sh p :
  rx O = Received p → rx 1%nat = Empty → (0 < PktRx.pkt_batch_size (Session.session_rx s))%nat →
  Session_route_packets clock rx tx (s, sh)
  = ('(status, sent) ← Session_handle_packets tx [p];
     match status with
     | QueueStatus.Disconnected _ => mret (QueueStatus.Disconnected [], sent)
     | _ => mret (QueueStatus.Ok [], sent)
     end) (alive_at clock s, sh).
Proof.
  intros H0 H1 Hb. unfold Session_route_packets.
  change (on_fst get ≫= ?f) with (λ s : Session * Shard, f (fst s) (fst s, snd s)). cbv beta. cbn [fst snd].
  unfold PktRx_try_recvs. rewrite (one_packet rx _ p) by done. rewrite lift_bind_Ok. cbn [take_values].
  by rewrite (M_bind_Ok _ _ _ (alive_at clock s, sh) ()) by done.
Qed.

(** Where only a copy of the flusher's handle is there, a client is flushed only if the miot
    thread had no connection of it, and then nothing happens. *)
Lemma flush_client_of_copy env c e sh r sh' u :
  Shard.inner sh = ShardInner.Main r →
  (∀ thrd, Flusher.inner (RunLoop.flusher r) ≠ FlusherInner.Handle thrd) →
  flush_client env c e sh = (sh', Ok u) → sh' = sh ∧ Env.miot_remove env c = Ok false.
Proof.
  intros Hi Hf H. unfold flush_client in H. apply M_bind_inv in H as (sh1 & r1 & E1 & H).
  unfold as_main in E1. rewrite Hi in E1. injection E1 as <- <-.
  apply M_bind_inv in H as (sh2 & removed & E2 & H). unfold lift in E2. injection E2 as <- E2.
  destruct removed; [|by injection H as ->; destruct (Env.miot_remove env c) as [[]| | |]].
  apply M_bind_inv in H as (sh3 & [] & E3 & H).
  unfold set_main in E3. rewrite Hi in E3. injection E3 as <-.
  destruct (handle_flush_connection_stops _ env c e Hf (Shard.mk (Shard.shard_id sh) (Shard.config sh)
    (ShardInner.Main (RunLoop.set_miot r (RunLoop.miot r ∖ {[c]})))) eq_refl) as [_ Hn].
  destruct (Hn u). by rewrite H.
Qed.

Section only_client.
Context (env : Env) (sid : u32) (cfg : Config) (r : RunLoop) (c : ClientID) (s : Session).
Hypothesis sessions_one : RunLoop.sessions r = {[c := s]}.
Local Abbreviation set_aside := (Shard.mk sid cfg ShardInner.Init).
Local Abbreviation routed :=
  (Session_route_packets (Env.clock env) (Env.session_rx env c) (Env.miot_tx env c) (s, set_aside)).

Lemma route_only :
  Shard_route_packets env (running sid cfg r)
  = let '((s', sh'), res) := routed in
    match route_failure res with
    | Ok failed =>
        for_each (match failed with Some e => [(c, e)] | None => [] end) (λ e, flush_client env (fst e) (snd e))
          (Shard.mk (Shard.shard_id sh') (Shard.config sh') (ShardInner.Main (RunLoop.set_sessions r {[c := s']})))
    | Err e => (sh', Err e)
    | Panic => (sh', Panic)
    | Diverge => (sh', Diverge)
    end.
Proof using sessions_one.
  unfold Shard_route_packets.
  rewrite (M_bind_Ok _ _ _ set_aside (ShardInner.Main r)) by done. rewrite lift_bind_Ok.
  change (get ≫= ?f) with (λ s, f s s). cbv beta. rewrite sessions_one, btree_iter_singleton.
  cbn [route_sessions]. rewrite (M_bind_Ok get _ _ _ ({[c := s]}, set_aside) eq_refl). cbv beta iota.
  destruct routed as [[s' sh'] res]. rewrite (M_bind_Ok (modify _) _ _ (<[c := s']> {[c := s]}, sh') ()) by done.
  rewrite insert_singleton_eq. by destruct (route_failure res) as [[e|]|e| |].
Qed.

(** A session that fails takes its shard with it. *)
Lemma route_only_stops :
  Env.miot_remove env c ≠ Ok false →
  (∀ thrd, Flusher.inner (RunLoop.flusher r) ≠ FlusherInner.Handle thrd) →
  (∀ st x, routed ≠ (st, Ok x)) → ∀ sh u, Shard_route_packets env (running sid cfg r) ≠ (sh, Ok u).
Proof using sessions_one.
  intros Hc Hf Hr sh u. rewrite route_only. destruct routed as [[s' sh'] res].
  destruct res as [x|e| |]; [by destruct (Hr (s', sh') x)| |done..].
  unfold route_failure. intros H.
  assert (∀ sh1 u1, for_each [(c, e)] (λ e, flush_client env (fst e) (snd e))
    (Shard.mk (Shard.shard_id sh') (Shard.config sh') (ShardInner.Main (RunLoop.set_sessions r {[c := s']})))
    ≠ (sh1, Ok u1)) as Hn.
  { intros sh1 u1 E. cbn [for_each fst snd] in E. apply M_bind_inv in E as (sh2 & u2 & E & _).
    by eapply flush_client_of_copy in E as [_ E]. }
  destruct (kind e); try done; by eapply Hn.
Qed.
End only_client.

(** ** Rounds with a session *)

(** The shard runs, with sessions, and without the flusher's own handle. *)
Definition peopled (sh : Shard) : Prop :=
  match Shard.inner sh with
  | ShardInner.Main r =>
      RunLoop.sessions r ≠ ∅ ∧ ∀ thrd, Flusher.inner (RunLoop.flusher r) ≠ FlusherInner.Handle thrd
  | _ => False
  end.
Abbreviation keeps_people m := (keeps peopled m anything).

Lemma as_main_people : keeps_people as_main.
Proof. intros [? ? []] H; by split. Qed.

Lemma set_main_people f :
  (∀ r, RunLoop.sessions r ≠ ∅ → RunLoop.sessions (f r) ≠ ∅) →
  (∀ r, RunLoop.flusher (f r) = RunLoop.flusher r) → keeps_people (set_main f).
Proof.
  intros Hs Hf [? ? []] H; split; try done. destruct H as [H1 H2]. split; [by apply Hs|].
  intros thrd. cbn. rewrite Hf. apply H2.
Qed.

Lemma for_collect_people {A B} (xs : list A) (f : A → M Shard (list B)) :
  (∀ x, keeps_people (f x)) → keeps_people (for_collect xs f).
Proof.
  intros Hf. eapply keeps_anything, (keeps_for_collect _ _ _ anything). intros x _.
  eapply keeps_weaken; [apply Hf|]. intros ys _. by apply Forall_true.
Qed.

Lemma insert_people (m : gmap ClientID Session) c s : <[c := s]> m ≠ ∅.
Proof. apply insert_non_empty. Qed.

(** Step by step, every case of every match. *)
Ltac people :=
  cbv zeta;
  lazymatch goal with
  | |- keeps _ (_ ≫= _) _ => apply (keeps_bind _ _ _ anything); [people|intros ? _; people]
  | |- keeps _ as_main _ => apply as_main_people
  | |- keeps _ (set_main _) _ => apply set_main_people; intros ?; cbn; auto using insert_people
  | |- keeps _ (for_collect _ _) _ => apply for_collect_people; intros ?; people
  | |- keeps _ (for_each _ _) _ => apply keeps_for_each; intros ? _; people
  | |- keeps _ (match ?x with _ => _ end) _ => destruct x; people
  | |- _ => first [by apply keeps_ret | apply keeps_lift_any | apply keeps_panic]
  end.

Lemma keeps_people_Ok {A} (m : M Shard A) sh sh' a :
  keeps_people m → peopled sh → m sh = (sh', Ok a) → peopled sh'.
Proof. intros Hm Hp E. destruct (Hm sh Hp) as [H _]. by rewrite E in H. Qed.

Lemma flush_client_people env c e sh sh' u :
  peopled sh → flush_client env c e sh = (sh', Ok u) → peopled sh'.
Proof.
  intros Hp E. pose proof Hp as Hr. unfold peopled in Hr. destruct (Shard.inner sh) as [| | | |r|] eqn:Ei; try done.
  by destruct (flush_client_of_copy env c e sh r sh' u Ei (proj2 Hr) E) as [-> _].
Qed.

Lemma for_each_people {A} (f : A → M Shard unit) xs : ∀ sh sh' u,
  (∀ x sh sh' u, peopled sh → f x sh = (sh', Ok u) → peopled sh') →
  peopled sh → for_each xs f sh = (sh', Ok u) → peopled sh'.
Proof.
  induction xs as [|x xs IH]; intros sh sh' u Hf Hp E; [by injection E as <- _|].
  cbn [for_each] in E. apply M_bind_inv in E as (sh1 & u1 & E1 & E). eapply IH; [done| |exact E]. by eapply Hf.
Qed.

Lemma route_sessions_dom env clients : ∀ st st' failed,
  route_sessions env clients st = (st', Ok failed) → fst st ≠ ∅ → fst st' ≠ ∅.
Proof.
  induction clients as [|[c s] clients IH]; intros st st' failed E Hne; [by injection E as <- _|].
  cbn [route_sessions] in E. apply M_bind_inv in E as (st1 & [sessions shard] & E1 & E). injection E1 as <- ->.
  destruct (Session_route_packets _ _ _ _) as [[s' sh'] res].
  apply M_bind_inv in E as (st2 & [] & E2 & E). injection E2 as <-.
  apply M_bind_inv in E as (st3 & o & E3 & E). unfold lift in E3. injection E3 as <- _.
  apply M_bind_inv in E as (st4 & rest & E4 & E). apply IH in E4; [|apply insert_people].
  by destruct o; injection E as <- _.
Qed.

Lemma route_packets_people env sh sh' u :
  peopled sh → Shard_route_packets env sh = (sh', Ok u) → peopled sh'.
Proof.
  intros Hp E. unfold Shard_route_packets in E. apply M_bind_inv in E as (sh1 & i & [= <- <-] & E).
  apply M_bind_inv in E as (sh2 & r & Hr & E). unfold peopled in Hp.
  destruct (Shard.inner sh) as [| | | |r'|] eqn:Ei; try done. injection Hr as <- <-.
  apply M_bind_inv in E as (sh3 & self & [= <- <-] & E).
  destruct (route_sessions env _ _) as [[sessions self] failed] eqn:Er.
  apply M_bind_inv in E as (sh4 & [] & [= <-] & E).
  apply M_bind_inv in E as (sh5 & fs & Ef & E). unfold lift in Ef. injection Ef as <- ->.
  apply M_bind_inv in E as (sh6 & i & [= <- _] & E).
  refine (for_each_people _ _ _ _ _ (λ x s1 s2 u, flush_client_people env x.1 x.2 s1 s2 u) _ E).
  exact (conj (route_sessions_dom _ _ _ _ _ Er (proj1 Hp)) (proj2 Hp)).
Qed.

Lemma in_messages_people env rx sh sh' status :
  peopled sh → Shard_in_messages env rx sh = (sh', Ok status) → peopled sh'.
Proof.
  intros Hp E. unfold Shard_in_messages in E. apply M_bind_inv in E as (sh1 & st & E1 & E).
  unfold lift in E1. injection E1 as <- _. destruct (take_values st) as [msgs st'].
  apply M_bind_inv in E as (sh2 & parted & E2 & E). cbv zeta in E.
  apply M_bind_inv in E as (sh3 & gone & E3 & E). apply M_bind_inv in E as (sh4 & [] & E4 & E).
  injection E as <- _. refine (for_each_people _ _ _ _ _ (λ x s1 s2 u, flush_client_people env x _ s1 s2 u) _ E4).
  eapply keeps_people_Ok; [|eapply keeps_people_Ok; [|exact Hp|exact E2]|exact E3].
  - unfold book_session_messages. people.
  - unfold partition_message, Shard_book_local_ack. people.
Qed.

(** A round that began with a session does not let the shard go on. *)
Lemma round_with_sessions env rx sh sh' : peopled sh → Shard_round env rx sh ≠ (sh', Ok false).
Proof.
  intros Hp E. unfold Shard_round in E. apply M_bind_inv in E as (s1 & [] & E1 & E).
  apply route_packets_people in E1; [|done].
  apply M_bind_inv in E as (s2 & sent & E2 & E).
  assert (peopled s2) as Hp2.
  { eapply keeps_people_Ok; [|exact E1|exact E2]. unfold Shard_flush_to_shards, flush_to_shard. people. }
  apply M_bind_inv in E as (s3 & status & E3 & E). apply in_messages_people in E3; [|done].
  assert (∃ s4 s5 s6 flushed, Shard_flush_messages env s3 = (s4, Ok flushed) ∧
    Shard_ack_messages s4 = (s5, Ok ()) ∧ Shard_clear_unacks s5 = (s6, Ok ()) ∧
    ∃ s7, Shard_retry_publish s6 = (s7, Ok ())) as (s4 & s5 & s6 & flushed & E4 & E5 & E6 & s7 & E7).
  { destruct status; [..|by injection E];
      apply M_bind_inv in E as (s4 & flushed & ? & E); apply M_bind_inv in E as (s5 & [] & ? & E);
      apply M_bind_inv in E as (s6 & [] & ? & E); apply M_bind_inv in E as (s7 & [] & ? & E);
      exists s4, s5, s6, flushed; eauto. }
  apply retry_publish_ends in E7 as (-> & r & Ei & Hs).
  assert (peopled s6) as H6; [|unfold peopled in H6; rewrite Ei in H6; by destruct H6].
  eapply keeps_people_Ok; [|eapply keeps_people_Ok; [|eapply keeps_people_Ok; [|exact E3|exact E4]|exact E5]|exact E6].
  - unfold Shard_clear_unacks, Shard_remove_unacks. people.
  - unfold Shard_ack_messages. people.
  - unfold Shard_flush_messages, flush_session. people.
Qed.

(** A PINGREQ that is answered. *)
Lemma route_ping env sid cfg r c s batch :
  Env.session_rx env c 0%nat = Received Packet.PingReq → Env.session_rx env c 1%nat = Empty →
  (0 < PktRx.pkt_batch_size (Session.session_rx s))%nat →
  Config_mqtt_pkt_batch_size (Session.config s) = Ok batch →
  let msgs := ClientOut.back_log (Session.cout s) ++ [Message.ClientAck Packet.PingReq] in
  Forall has_packet msgs → Z.of_nat (length msgs) ≤ batch * 2 →
  Z.of_nat (size (ClientOut.index (Session.cout s))) ≤ Session.client_receive_maximum s →
  (∀ i, Env.miot_tx env c i = Sent) →
  ∃ s',
    (let '((s', sh'), res) := Session_route_packets (Env.clock env) (Env.session_rx env c) (Env.miot_tx env c)
                                (s, Shard.mk sid cfg ShardInner.Init) in
     match route_failure res with
     | Ok failed =>
         for_each (match failed with Some e => [(c, e)] | None => [] end) (λ e, flush_client env (fst e) (snd e))
           (Shard.mk (Shard.shard_id sh') (Shard.config sh') (ShardInner.Main (RunLoop.set_sessions r {[c := s']})))
     | Err e => (sh', Err e)
     | Panic => (sh', Panic)
     | Diverge => (sh', Diverge)
     end) = (running sid cfg (RunLoop.set_sessions r {[c := s']}), Ok ()) ∧
    ClientOut.back_log (Session.cout s') = msgs.
Proof.
  intros H0 H1 Hb Hbatch msgs Hm Hl Hi Ht.
  rewrite (route_one_packet _ _ _ _ _ Packet.PingReq) by done.
  set (s0 := alive_at (Env.clock env) s). set (s1 := queued s0 Packet.PingReq).
  exists s1. split; [|done]. rewrite (M_bind_Ok _ _ _ (s1, Shard.mk sid cfg ShardInner.Init) (QueueStatus.Ok [], packet_of <$> msgs)); [done|].
  unfold Session_handle_packets. rewrite (M_bind_Ok _ _ _ (s0, Shard.mk sid cfg ShardInner.Init) [Message.ClientAck Packet.PingReq]) by done.
  rewrite (M_bind_Ok _ _ _ (s1, Shard.mk sid cfg ShardInner.Init) (QueueStatus.Ok [])).
  2: { unfold on_fst. cbn [fst snd]. rewrite (in_ack_eq s0 Packet.PingReq batch Hbatch).
       by rewrite (proj2 (Z.ltb_ge _ _)) by done. }
  unfold on_fst. cbn [fst snd]. by rewrite (flush_all_sent s1).
Qed.

(** C40: a shard of a cluster, which has a copy of the flusher's handle, does not go on after a
    round that it began with a session, whatever its queues, the clock and the other threads
    answer: a round never takes a session away, and ends in trying to publish again, which
    is not implemented, if it gets that far.  Mostly it does not.  Of a shard with one
    client, whose connection the miot thread does not deny having, routing the packets goes
    through with no single packet but a PINGREQ, a PUBLISH that the session takes for a
    duplicate, and a SUBSCRIBE to nothing: the packets that panic are those that look at the
    shard, whose state is set aside meanwhile, and those that are not implemented; and an
    error that is the client's - a DISCONNECT, a second CONNECT, whatever a publish
    violates - ends in the flush that panics.  With a PINGREQ it goes through, if the
    connection's queue takes all there is to send. *)
Theorem sessions_stop_their_shard env rx sid cfg r :
  RunLoop.sessions r ≠ ∅ → (∀ thrd, Flusher.inner (RunLoop.flusher r) ≠ FlusherInner.Handle thrd) →
  (∀ sh, Shard_round env rx (running sid cfg r) ≠ (sh, Ok false)) ∧
  ∀ c s p, RunLoop.sessions r = {[c := s]} →
    Env.session_rx env c 0%nat = Received p → Env.session_rx env c 1%nat = Empty →
    (0 < PktRx.pkt_batch_size (Session.session_rx s))%nat →
    (stopping s p → Env.miot_remove env c ≠ Ok false →
     ∀ sh u, Shard_route_packets env (running sid cfg r) ≠ (sh, Ok u)) ∧
    (∀ batch, p = Packet.PingReq → Config_mqtt_pkt_batch_size (Session.config s) = Ok batch →
     let msgs := ClientOut.back_log (Session.cout s) ++ [Message.ClientAck Packet.PingReq] in
     Forall has_packet msgs → Z.of_nat (length msgs) ≤ batch * 2 →
     Z.of_nat (size (ClientOut.index (Session.cout s))) ≤ Session.client_receive_maximum s →
     (∀ i, Env.miot_tx env c i = Sent) →
     ∃ s', Shard_route_packets env (running sid cfg r)
           = (running sid cfg (RunLoop.set_sessions r {[c := s']}), Ok ()) ∧
       ClientOut.back_log (Session.cout s') = msgs).
Proof.
  intros Hne Hf. split; [|intros c s p Hs H0 H1 Hb; split].
  - intros sh. by apply round_with_sessions.
  - intros Hp Hc. eapply route_only_stops; [done..|]. intros st x H.
    rewrite (route_one_packet _ _ _ _ _ p) in H by done.
    apply M_bind_inv in H as (st1 & ? & H & _). apply M_bind_inv in H as (st2 & ? & H & _).
    apply M_bind_inv in H as (st3 & msgs & H & _). by eapply (handle_packet_stops (alive_at (Env.clock env) s)) in H.
  - intros batch -> Hbatch msgs Hm Hl Hi Ht. rewrite (route_only env sid cfg r c s Hs).
    by eapply route_ping.
Qed.

(** * Instances *)

Definition ex_two_sessions : RunLoop :=
  RunLoop.set_sessions ex_loop (<[ex_subscriber := ex_session]> {[ex_client := ex_session]}).
Definition ex_routed_env : Env :=
  prompt_env 0 (λ _ _, Empty) (λ _ _, Sent) (λ _ _, Sent)
    (λ i, match i with
          | O => Received (route_message 1 ex_client (ex_publish QoS.AtLeastOnce None) 5 [ex_wanted])
          | _ => Empty end).

Lemma routed_messages_miss_subscribers_witness :
  match Shard.inner (fst (Shard_in_messages ex_routed_env (MsgRx.mk 1 4)
                            (running 1 ex_config ex_two_sessions))) with
  | ShardInner.Main r' => RunLoop.sessions r' !! ex_subscriber = Some ex_session
  | _ => False
  end.
Proof.
  apply (routed_messages_miss_subscribers ex_routed_env (MsgRx.mk 1 4) 1 ex_config ex_two_sessions
           ex_client ex_subscriber); [by vm_compute|].
  intros [|i] m; [|done]. intros [= <-]. left. by eexists _, _, _, _.
Defined.

Lemma acknowledgements_name_the_wrong_shard_witness :
  snd (partition_message (Message.LocalAck 1 5) (running 1 ex_config ex_loop)) = Panic.
Proof.
  by destruct (acknowledgements_name_the_wrong_shard 1 2 ex_config ex_loop ex_loop ex_client 5 0
    [ex_wanted] Packet.PingReq ltac:(done) eq_refl) as (rt & _ & _ & H).
Defined.

Lemma rounds_go_on_without_sessions_witness :
  ∃ sh r, Shard_round ex_env (MsgRx.mk 1 4) (running 1 ex_config ex_loop) = (sh, Ok false) ∧
    Shard.inner sh = ShardInner.Main r ∧ RunLoop.sessions r = ∅.
Proof.
  destruct (Shard_round ex_env (MsgRx.mk 1 4) (running 1 ex_config ex_loop)) as [sh res] eqn:E.
  assert (res = Ok false) as -> by (vm_compute in E; by injection E as _ <-).
  destruct (rounds_go_on_without_sessions _ _ _ _ E) as (r & Hi & Hs). by exists sh, r.
Defined.

Definition ex_timed_session : Session := Session.set_keep_alive ex_session (KeepAlive.mk (Some 90) 0).

Lemma silence_times_out_early_witness :
  snd (Session_route_packets 1 (λ _, Empty) (λ _, Sent) (ex_timed_session, running 1 ex_config ex_loop))
  = err ErrorKind.ProtocolError ReasonCode.KeepAliveTimeout.
Proof.
  by rewrite (silence_times_out_early 1 (λ _, Empty) (λ _, Sent) ex_timed_session
                (running 1 ex_config ex_loop) 90 eq_refl).
Defined.

Definition ex_publish_env : Env :=
  prompt_env 0 (λ _ i, match i with
                   | O => Received (Packet.Publish (Publish.mk false QoS.AtMostOnce false ex_topic None None None))
                   | _ => Empty end)
    (λ _ _, Sent) (λ _ _, Sent) (λ _, Empty).

Lemma a_publish_stops_the_shard_witness :
  Shard_route_packets ex_publish_env
    (running 1 ex_config (RunLoop.set_sessions ex_loop {[ex_client := ex_session]}))
  = (Shard.mk 1 ex_config ShardInner.Init, Panic).
Proof.
  apply (a_publish_stops_the_shard ex_publish_env 1 ex_config _ ex_client ex_session
           (Publish.mk false QoS.AtMostOnce false ex_topic None None None) QoS.AtLeastOnce); try done.
  cbn. lia.
Defined.

Definition ex_ping_env : Env :=
  prompt_env 0 (λ _ i, match i with O => Received Packet.PingReq | _ => Empty end) (λ _ _, Sent) (λ _ _, Sent) (λ _, Empty).
Definition ex_connected : RunLoop :=
  RunLoop.set_miot (RunLoop.set_sessions ex_loop {[ex_client := ex_session]}) {[ex_client]}.

Lemma sessions_stop_their_shard_witness :
  (∀ sh, Shard_round ex_ping_env (MsgRx.mk 1 4) (running 1 ex_config ex_connected) ≠ (sh, Ok false)) ∧
  ∃ s', Shard_route_packets ex_ping_env (running 1 ex_config ex_connected)
        = (running 1 ex_config (RunLoop.set_sessions ex_connected {[ex_client := s']}), Ok ()) ∧
    length (ClientOut.back_log (Session.cout s')) = 3%nat.
Proof.
  destruct (sessions_stop_their_shard ex_ping_env (MsgRx.mk 1 4) 1 ex_config ex_connected) as [Hround H];
    [apply singleton_non_empty|done|].
  split; [exact Hround|]. destruct (H ex_client ex_session Packet.PingReq) as [_ Hp]; [done..|cbn; lia|].
  destruct (Hp 1024) as (s' & E & Hb); [done|done|by repeat constructor|cbn; lia|by vm_compute|done|].
  exists s'. split; [exact E|]. by rewrite Hb.
Defined.

(** A copy of the flusher's handle, in a shard without sessions. *)
Lemma shards_with_copies_do_not_flush_witness :
  let flusher := Flusher.mk ex_config (FlusherInner.Handle (Thread.mk [] true (Some (Tx.N true)))) in
  let copy := Flusher.mk ex_config (FlusherInner.Tx (Tx.N true)) in
  snd (Shard_handle_flush_connection ex_ping_env ex_client (mkError ErrorKind.Disconnected None)
         (Shard_main 0 ex_config copy SubscribedTrie_default)) ≠ Ok ().
Proof.
  intros flusher copy.
  eapply (shards_with_copies_do_not_flush ex_ping_env flusher copy (snd (Thread_spawn []))).
  - reflexivity.
  - reflexivity.
  - reflexivity.
Defined.
