(* ===== verification/SocketTheorems.v ===== *)
(** The properties of the connections of [Socket]: packets that are read reach the queue of
    the session in order and without loss; what the inverted time limits do; and that
    nothing is ever written. *)

From S2P Require Import Prelude Error Util Codec Types V5 Packets PacketIO Config State Queue KeepAlive Socket.
From S2P Require Import Session SessionTheorems.
Local Open Scope Z_scope.

(** * Reading *)

Abbreviation pending self := (Source.packets (Socket.rd self)).

(** Sending upstream takes packets from the front. *)
Lemma send_upstream_eq self chan :
  let pkts := pending self in
  let k := accepts chan (length pkts) in
  ∃ status, Socket_send_upstream chan self
    = (Socket.set_rd_packets self (drop k pkts), Ok (status, take k pkts)) ∧
    (k = length pkts ↔ status = QueueStatus.Ok []) ∧
    ((k < length pkts)%nat → ∀ vs, status ≠ QueueStatus.Ok vs).
Proof.
  intros pkts k. unfold Socket_send_upstream. change (get ≫= ?f) with (λ s, f s s). cbv beta zeta.
  fold pkts. unfold PktTx_try_sends.
  destruct (try_sends_spec chan pkts) as (status & E & Hv & Hk & Hl). fold k in E, Hv, Hk, Hl.
  rewrite E. destruct (take_values_eq status) as (status' & Et & Ev). rewrite Et, Hv.
  exists status'. split; [done|].
  assert (∀ T (s s' : QueueStatus T) vs, take_values s = (vs, s') →
            (s' = QueueStatus.Ok [] ↔ ∃ ws, s = QueueStatus.Ok ws) ∧
            ((∃ ws, s' = QueueStatus.Ok ws) ↔ ∃ ws, s = QueueStatus.Ok ws)) as Hst.
  { intros T [] s' vs [= <- <-]; naive_solver. }
  destruct (Hst _ _ _ _ Et) as [H1 H2]. split.
  - rewrite H1, Hk. split; [intros ->; by eexists|]. intros [ws ->].
    cbn in Hv. destruct (decide (k = length pkts)) as [e|e]; [by apply Hk|].
    assert (k < length pkts)%nat as Hlt by (pose proof (accepts_le chan (length pkts)); unfold k; lia).
    by destruct (Hl Hlt ws).
  - intros Hlt vs ->. destruct (proj1 H2 (ex_intro _ vs eq_refl)) as [ws ->]. by destruct (Hl Hlt ws).
Qed.

(** What reading one packet gives, from the reader it starts with. *)
Definition read_status (pr : MQTTRead) (conn : access (nat → io_read)) (status : QueueStatus Packet)
    : Prop :=
  status = QueueStatus.Block [] ∨ status = QueueStatus.Disconnected [] ∨
  ∃ pr' b pkt, MQTTRead_read pr (answer conn) = Ok (pr', b) ∧ MQTTRead_parse pr' = Ok pkt ∧
    status = QueueStatus.Ok [pkt].

Section read_packet.
Context (x : list Packet).
Abbreviation keeps_pending := (keeps (λ s, pending s = x)).

Lemma set_read_timeout_pending t retry timeout : keeps_pending (Socket_set_read_timeout t retry timeout) anything.
Proof. apply keeps_modify. intros s Hs. by destruct retry, (Source.timeout (Socket.rd s)). Qed.

Lemma set_pr_pending pr : keeps_pending (modify (λ self, Socket.set_pr self pr)) anything.
Proof. by apply keeps_modify. Qed.

Lemma read_packet_pending conn config self :
  pending self = x →
  pending (fst (Socket_read_packet conn config self)) = x ∧
  ∀ status, snd (Socket_read_packet conn config self) = Ok status →
    read_status (Source.pr (Socket.rd self)) conn status.
Proof.
  unfold Socket_read_packet. change (get ≫= ?f) with (λ s, f s s). cbv beta zeta.
  set (pr := Source.pr (Socket.rd self)).
  refine ((_ : keeps_pending _ (read_status pr conn)) self).
  eapply keeps_bind; [apply set_pr_pending|]. intros _ _.
  destruct (MQTTRead_read pr _) as [[pr' b]|e| |] eqn:Er.
  2: { destruct (kind e); try (by apply keeps_lift). apply keeps_ret. right. by left. }
  2: apply keeps_panic.
  2: by apply keeps_lift.
  assert (∀ (retry : bool) st, st = QueueStatus.Block [] ∨ st = QueueStatus.Disconnected [] →
    keeps_pending (_ ← Socket_set_read_timeout (later conn) retry (Config_mqtt_read_timeout config);
                   _ ← modify (λ self, Socket.set_pr self pr'); mret st) (read_status pr conn)) as Hwait.
  { intros retry st Hst. eapply keeps_bind; [apply set_read_timeout_pending|]. intros _ _.
    eapply keeps_bind; [apply set_pr_pending|]. intros _ _. apply keeps_ret. unfold read_status. tauto. }
  destruct pr' as [| | | |data fh max_size]; [apply keeps_panic|..];
    try (destruct (negb _); apply Hwait; tauto). clear Hwait.
  set (pr' := MQTTRead.Fin _ _ _) in *.
  eapply keeps_bind; [apply set_read_timeout_pending|]. intros _ _.
  eapply keeps_bind; [apply (keeps_lift _ _ (λ pkt, MQTTRead_parse pr' = Ok pkt)); done|]. intros pkt Hpkt.
  eapply keeps_bind; [apply keeps_lift_any|]. intros pr2 _.
  eapply keeps_bind; [apply set_pr_pending|]. intros _ _. apply keeps_ret. right. right. by exists pr', b, pkt.
Qed.
End read_packet.

(** From one state to another, what was read and what was sent so far: nothing is lost and
    nothing overtakes. *)
Definition parsed (pkt : Packet) : Prop := ∃ pr, MQTTRead_parse pr = Ok pkt.
Definition in_order (s s' : Socket) (t t' : list Packet * list Packet) : Prop :=
  ∃ g u, t' = (t.1 ++ g, t.2 ++ u) ∧ pending s ++ g = u ++ pending s' ∧ Forall parsed g.

Lemma in_order_trans s1 s2 s3 t1 t2 t3 :
  in_order s1 s2 t1 t2 → in_order s2 s3 t2 t3 → in_order s1 s3 t1 t3.
Proof.
  intros (g1 & u1 & -> & E1 & H1) (g2 & u2 & -> & E2 & H2). cbn [fst snd].
  exists (g1 ++ g2), (u1 ++ u2). rewrite <- !app_assoc. split; [done|]. split; [|by apply Forall_app].
  by rewrite app_assoc, E1, <- app_assoc, E2.
Qed.

Lemma send_upstream_in_order chan s s' st sent t :
  Socket_send_upstream chan s = (s', Ok (st, sent)) → in_order s s' t (t.1, t.2 ++ sent).
Proof.
  destruct (send_upstream_eq s chan) as (st1 & -> & _). intros [= <- _ <-].
  eexists [], _. rewrite app_nil_r. split; [done|]. split; [|constructor].
  cbn. by rewrite app_nil_r, take_drop.
Qed.

Lemma read_packet_in_order conn config s s1 st t :
  Socket_read_packet conn config s = (s1, Ok st) →
  in_order s (Socket.set_rd_packets s1 (pending s1 ++ values st)) t (t.1 ++ values st, t.2).
Proof.
  intros E. destruct (read_packet_pending (pending s) conn config s eq_refl) as [Hp Hst].
  rewrite E in Hp, Hst. specialize (Hst st eq_refl). cbn [fst] in Hp.
  exists (values st), []. rewrite app_nil_r. split; [done|]. split; [cbn; by rewrite Hp|].
  destruct Hst as [->|[->|(pr' & b & pkt & _ & Hpkt & ->)]]; [constructor..|].
  constructor; [by exists pr'|constructor].
Qed.

Lemma read_loop_in_order size config rounds : ∀ s s' t status t',
  read_loop size config rounds t.1 t.2 s = (s', Ok (status, t')) → in_order s s' t t'.
Proof.
  induction rounds as [|round rounds IH]; intros s s' t status t'; cbn [read_loop]; [done|].
  intros (s1 & [st1 sent1] & E1 & H)%M_bind_inv.
  apply (send_upstream_in_order _ _ _ _ _ t) in E1. eapply in_order_trans; [exact E1|]. clear E1.
  assert (∀ st : QueueStatus Packet,
    (mret (st, (t.1, t.2 ++ sent1)) : M Socket _) s1 = (s', Ok (status, t')) → in_order s1 s' (t.1, t.2 ++ sent1) t') as Hstop.
  { intros st [= <- _ <-]. exists [], []. rewrite !app_nil_r. by repeat split. }
  destruct st1 as [v|v|v]; [clear Hstop|exact (Hstop _ H)..].
  apply M_bind_inv in H as (s2 & st2 & E2 & H). apply (read_packet_in_order _ _ _ _ _ (t.1, t.2 ++ sent1)) in E2.
  eapply in_order_trans; [exact E2|]. clear E2. cbn [fst snd].
  destruct (take_values_eq st2) as (st3 & E3 & _). rewrite E3 in H.
  set (s3 := Socket.set_rd_packets s2 (pending s2 ++ values st2)) in *.
  rewrite (M_bind_Ok (modify _) _ s2 s3 ()) in H by done. cbv zeta in H.
  rewrite (M_bind_Ok get _ s3 s3 s3) in H by done.
  assert (∀ m, m s3 = (s', Ok (status, t')) →
    m = ('(st, sent2) ← Socket_send_upstream (ReadRound.after round);
         mret (st, (t.1 ++ values st2, (t.2 ++ sent1) ++ sent2))) →
    in_order s3 s' (t.1 ++ values st2, t.2 ++ sent1) t') as Hsend.
  { intros m Hm ->. apply M_bind_inv in Hm as (s4 & [st sent2] & E & Hm). injection Hm as <- _ <-.
    by apply (send_upstream_in_order _ _ _ _ _ (t.1 ++ values st2, t.2 ++ sent1)) in E. }
  destruct st3 as [v'|v'|v']; [|by eapply Hsend|].
  - destruct (_ <? _); [by apply (IH s3 s' (t.1 ++ values st2, t.2 ++ sent1)) in H|by eapply Hsend].
  - destruct (_ =? _)%nat; [|by eapply Hsend]. injection H as <- _ <-.
    exists [], []. rewrite !app_nil_r. by repeat split.
Qed.

(** C31: the packets read from a connection, after those that were pending, go to the session's
    queue in the order they came; what the queue did not take is pending, in order,
    whatever the socket and the queue answer; and each was parsed from a frame. *)
Theorem reads_are_forwarded_in_order config rounds self self' status got sent :
  Socket_read_packets config rounds self = (self', Ok (status, (got, sent))) →
  Source.packets (Socket.rd self) ++ got = sent ++ Source.packets (Socket.rd self') ∧
  Forall (λ pkt, ∃ pr, MQTTRead_parse pr = Ok pkt) got.
Proof.
  unfold Socket_read_packets. destruct (Config_mqtt_pkt_batch_size config) as [size| | |]; [|done..].
  rewrite lift_bind_Ok. intros H. apply (read_loop_in_order _ _ _ _ _ ([], [])) in H as (g & u & [= -> ->] & E & Hg).
  done.
Qed.

(** * Time limits *)

(** A packet that is still incomplete when more of it is read, within the time limit set
    by the first read, disconnects the client and lifts the limit; once the limit has
    passed the client may go on for ever. *)
Theorem read_limit_is_inverted conn config self deadline pr b :
  Source.timeout (Socket.rd self) = Some deadline →
  MQTTRead_read (Source.pr (Socket.rd self)) (answer conn) = Ok (pr, b) →
  (∀ data fh max_size, pr ≠ MQTTRead.Fin data fh max_size) → pr ≠ MQTTRead.None →
  ∃ self',
    Socket_read_packet conn config self
    = (self', Ok (if now conn <? deadline then QueueStatus.Disconnected [] else QueueStatus.Block [])) ∧
    Source.timeout (Socket.rd self') = (if now conn <? deadline then None else Some deadline) ∧
    Source.pr (Socket.rd self') = pr.
Proof.
  intros Ht Er Hfin Hnone. unfold Socket_read_packet. change (get ≫= ?f) with (λ s, f s s). cbv beta zeta.
  rewrite (M_bind_Ok (modify _) _ _ (Socket.set_pr self MQTTRead.None) ()) by done. rewrite Er.
  unfold Socket_read_elapsed. rewrite Ht.
  destruct pr as [| | | |data fh max_size]; [done|..|by destruct (Hfin data fh max_size)];
    destruct (now conn <? deadline); cbn [negb]; eexists; (split; [reflexivity|]); cbn; rewrite ?Ht; auto.
Qed.

(** * Writing *)

Lemma write_packet_none conn config self :
  Sink.pw (Socket.wt self) = MQTTWrite.None →
  Socket_write_packet conn config self = (Socket.set_pw self MQTTWrite.None, Panic).
Proof.
  intros H. unfold Socket_write_packet. change (get ≫= ?f) with (λ s, f s s). cbv beta zeta.
  rewrite (M_bind_Ok (modify _) _ _ (Socket.set_pw self MQTTWrite.None) ()) by done. by rewrite H.
Qed.

Lemma flush_loop_none config conn iter pw self :
  Sink.pw (Socket.wt self) = MQTTWrite.None →
  flush_loop config conn iter pw self = (Socket.set_pw self MQTTWrite.None, Panic).
Proof.
  intros H. by destruct iter; cbn [flush_loop];
    rewrite (M_bind_eq _ _ _ _ _ (write_packet_none (conn O) config self H)).
Qed.

(** Nothing is ever written to a client: the writer is set aside before the first packet
    is, and writing with what takes its place panics; the packets that waited are gone. *)
Theorem writing_always_panics config round rounds self :
  Socket_write_packets config (round :: rounds) self
  = (Socket.set_wt_packets (Socket.set_pw self MQTTWrite.None) [], Panic).
Proof.
  assert (Socket_flush_packets config (WriteRound.conn round) self
          = (Socket.set_wt_packets (Socket.set_pw self MQTTWrite.None) [], Panic)) as E.
  { unfold Socket_flush_packets. change (get ≫= ?f) with (λ s, f s s). cbv beta zeta.
    rewrite (M_bind_Ok (modify _) _ _ (Socket.set_wt_packets (Socket.set_pw self MQTTWrite.None) []) ()) by done.
    by rewrite (M_bind_eq _ _ _ _ _ (flush_loop_none config _ _ _
                  (Socket.set_wt_packets (Socket.set_pw self MQTTWrite.None) []) eq_refl)). }
  cbn [Socket_write_packets]. by rewrite (M_bind_eq _ _ _ _ _ E).
Qed.

(** * Instances *)

Definition ex_socket : Socket :=
  Socket.mk ex_client (Source.mk (MQTTRead_new 100) (Some 7) (PktTx.mk 1 0) [])
    (Sink.mk (MQTTWrite.Fin [] 100) None (PktRx.mk 4) [Packet.PingResp]).

(** The rest of a publish, and then nothing. *)
Definition ex_half_read : Socket :=
  Socket.set_pr ex_socket (MQTTRead.Remain [0x30; 5; 0; 1; 0x61; 0; 0] 5 (mkFixedHeader 0x30 (mkVarU32 5)) 100).
Definition ex_rounds : list ReadRound :=
  let round chunk := ReadRound.mk (λ _, Sent) (mkAccess (λ _, chunk) 9 9) (λ _, Sent) in
  [round (ReadOk [0; 1]); round (ReadErr WouldBlock)].

Lemma reads_are_forwarded_in_order_witness :
  ∃ self' status got sent,
    Socket_read_packets ex_config ex_rounds ex_half_read = (self', Ok (status, (got, sent))) ∧
    got = sent ++ Source.packets (Socket.rd self') ∧ length sent = 1%nat.
Proof.
  destruct (Socket_read_packets ex_config ex_rounds ex_half_read) as [self' r] eqn:E.
  destruct r as [[status [got sent]]| | |]; [|by vm_compute in E..].
  destruct (reads_are_forwarded_in_order _ _ _ _ _ _ _ E) as [H _].
  exists self', status, got, sent. split; [done|]. split; [exact H|].
  vm_compute in E. by injection E as _ _ _ <-.
Defined.

Lemma read_limit_is_inverted_witness :
  ∃ self', Socket_read_packet (mkAccess (λ _, ReadOk [0x30]) 5 6) ex_config ex_socket
           = (self', Ok (QueueStatus.Disconnected [])).
Proof.
  destruct (read_limit_is_inverted (mkAccess (λ _, ReadOk [0x30]) 5 6) ex_config ex_socket 7
              (MQTTRead.Header 0x30 [0x30] 100) false eq_refl) as (self' & E & _);
    [by vm_compute|done..|].
  by exists self'.
Defined.
