(* ===== verification/MiotTheorems.v ===== *)
(** The properties of the threads of [Miot]: which connections the miot thread keeps and
    which it hands over to be flushed, under which tokens; the errors it does not expect;
    and how handshakes end. *)

From S2P Require Import Prelude Error Util Codec Types V5 AckPackets ConnectPackets Packets PacketIO.
From S2P Require Import Config State Queue Thread Server ServerTheorems KeepAlive Session SessionTheorems.
From S2P Require Import Socket SocketTheorems Miot.
Local Open Scope Z_scope.

Definition running_miot (id : u32) (config : Config) (r : MiotLoop) : Miot :=
  Miot.mk id config (MiotInner.Main r).

(** * Moving packets *)

Section moving.
Context (f : ClientID → Socket → Socket * Result (option Error)).

(** What one connection comes to. *)
Definition moved (e : ClientID * (u64 * Socket)) : u64 * Socket := (e.2.1, fst (f e.1 e.2.2)).
Definition failure_of (e : ClientID * (u64 * Socket)) : option (ClientID * Error) :=
  match snd (f e.1 e.2.2) with Ok (Some err) => Some (e.1, err) | _ => None end.
Definition settles (e : ClientID * (u64 * Socket)) : Prop := ∃ o, snd (f e.1 e.2.2) = Ok o.

Lemma each_connection_eq clients : ∀ conns,
  Forall settles clients →
  each_connection f clients conns
  = (foldl (λ m e, <[e.1 := moved e]> m) conns clients, Ok (omap failure_of clients)).
Proof.
  induction clients as [|[c [token s]] clients IH]; intros conns Hs; [done|].
  apply Forall_cons in Hs as [[o Ho] Hs]. cbn [each_connection foldl omap list_omap].
  unfold moved, failure_of in *. cbn [fst snd] in *. destruct (f c s) as [s' res]. cbn [fst snd] in *. subst res.
  rewrite IH by done. by destruct o.
Qed.

Lemma each_connection_fails clients : ∀ conns,
  (∃ e, e ∈ clients ∧ ∀ o, snd (f e.1 e.2.2) ≠ Ok o) →
  ∀ l, snd (each_connection f clients conns) ≠ Ok l.
Proof.
  induction clients as [|[c [token s]] clients IH]; intros conns (e & Hin & He) l.
  { by apply not_elem_of_nil in Hin. }
  cbn [each_connection]. apply elem_of_cons in Hin as [->|Hin].
  - cbn [fst snd] in He. destruct (f c s) as [s' [o|err| |]]; [by destruct (He o)|done..].
  - destruct (f c s) as [s' [o|err| |]]; [|done..].
    pose proof (IH (<[c:=(token, s')]> conns) (ex_intro _ e (conj Hin He))) as H.
    destruct (each_connection f clients _) as [conns' [rest|err| |]]; [by destruct (H rest)|done..].
Qed.

Lemma each_connection_settles clients : ∀ conns conns' l,
  each_connection f clients conns = (conns', Ok l) → Forall settles clients.
Proof.
  induction clients as [|[c [token s]] clients IH]; intros conns conns' l E; [constructor|].
  cbn [each_connection] in E. destruct (f c s) as [s' res] eqn:Ef.
  destruct res as [o|err| |]; [|done..]. destruct (each_connection f clients _) as [conns1 rest] eqn:Er.
  destruct rest as [rest|err| |]; [|done..]. constructor; [exists o; cbn; by rewrite Ef|by eapply IH].
Qed.

Lemma fold_insert_lookup (clients : list (ClientID * (u64 * Socket))) : ∀ (conns : gmap ClientID (u64 * Socket)) c,
  NoDup clients.*1 →
  foldl (λ m e, <[e.1 := moved e]> m) conns clients !! c
  = match list_find (λ e, e.1 = c) clients with
    | Some (_, e) => Some (moved e)
    | None => conns !! c
    end.
Proof.
  induction clients as [|e clients IH]; intros conns c Hd; [done|].
  apply NoDup_cons in Hd as [Hn Hd]. cbn [foldl list_find]. rewrite IH by done.
  destruct (decide (e.1 = c)) as [<-|Hne].
  - destruct (list_find (λ e', e'.1 = e.1) clients) as [[i e']|] eqn:El.
    + apply list_find_Some in El as (Hi & He & _). exfalso. apply Hn. rewrite <- He.
      by apply list_elem_of_fmap_2, list_elem_of_lookup_2 with i.
    + by rewrite lookup_insert_eq.
  - destruct (list_find (λ e', e'.1 = c) clients) as [[i e']|]; cbn; [done|].
    by rewrite lookup_insert_ne.
Qed.
End moving.

(** What comes of a connection that is to be flushed: the poller takes it out, and the shard
    takes the request. *)
Definition handed_over (env : MiotEnv) (c : ClientID) : Prop :=
  MiotEnv.deregisters env c = true ∧ MiotEnv.posts env c = Ok ().

Section handing_over.
Context (env : MiotEnv) (id : u32) (config : Config).

Lemma flush_one_eq r c e x :
  MiotLoop.conns r !! c = Some x →
  let conns := delete c (MiotLoop.conns r) in
  flush_one env (c, e) (running_miot id config r)
  = if MiotEnv.deregisters env c then
      match MiotEnv.posts env c with
      | Ok _ => (running_miot id config (MiotLoop.mk (MiotLoop.next_token r) conns (MiotLoop.flushes r ++ [(c, e)])),
                 Ok ())
      | Diverge => (running_miot id config (MiotLoop.mk (MiotLoop.next_token r) conns (MiotLoop.flushes r)), Diverge)
      | _ => (running_miot id config (MiotLoop.mk (MiotLoop.next_token r) conns (MiotLoop.flushes r)), Panic)
      end
    else (running_miot id config (MiotLoop.mk (MiotLoop.next_token r) conns (MiotLoop.flushes r)), Panic).
Proof.
  intros Hx conns. unfold flush_one, Miot_handle_remove_connection. cbn [fst].
  assert (miot_loop (running_miot id config r) = (running_miot id config r, Ok r)) as Er by done.
  unfold mbind, M_bind. rewrite Er, Hx. destruct x as [token socket]. cbn.
  destruct (MiotEnv.deregisters env c); [|done]. cbn. by destruct (MiotEnv.posts env c).
Qed.

(** Handing over failed connections, all of them there. *)
Lemma flush_failed_eq failed : ∀ r,
  NoDup failed.*1 → (∀ c, c ∈ failed.*1 → is_Some (MiotLoop.conns r !! c) ∧ handed_over env c) →
  flush_failed env failed (running_miot id config r)
  = (running_miot id config
       (MiotLoop.mk (MiotLoop.next_token r) (foldl (λ m c, delete c m) (MiotLoop.conns r) failed.*1)
          (MiotLoop.flushes r ++ failed)), Ok ()).
Proof.
  induction failed as [|[c e] failed IH]; intros r Hd Hin.
  { cbn. rewrite app_nil_r. by destruct r. }
  cbn [fmap list_fmap fst] in Hd, Hin. apply NoDup_cons in Hd as [Hn Hd].
  destruct (Hin c ltac:(by left)) as [[x Hx] [Hd' Hp]].
  change (flush_failed env ((c, e) :: failed)) with (_ ← flush_one env (c, e); flush_failed env failed).
  erewrite M_bind_Ok by (rewrite (flush_one_eq r c e x Hx), Hd', Hp; done). rewrite IH; [|done|].
  - cbn [MiotLoop.next_token MiotLoop.conns MiotLoop.flushes fmap list_fmap foldl fst].
    by rewrite <- app_assoc.
  - intros c' Hc'. cbn [MiotLoop.conns]. rewrite lookup_delete_ne by (by intros ->).
    apply Hin. by right.
Qed.

(** It goes through only if all are handed over. *)
Lemma flush_failed_Ok failed : ∀ r m' u,
  NoDup failed.*1 → (∀ c, c ∈ failed.*1 → is_Some (MiotLoop.conns r !! c)) →
  flush_failed env failed (running_miot id config r) = (m', Ok u) → ∀ c, c ∈ failed.*1 → handed_over env c.
Proof.
  induction failed as [|[c e] failed IH]; intros r m' u Hd Hin E c' Hc'; [by apply not_elem_of_nil in Hc'|].
  cbn [fmap list_fmap fst] in Hd, Hin, Hc'. apply NoDup_cons in Hd as [Hn Hd].
  destruct (Hin c ltac:(by left)) as [x Hx].
  change (flush_failed env ((c, e) :: failed)) with (_ ← flush_one env (c, e); flush_failed env failed) in E.
  apply M_bind_inv in E as (m1 & [] & E1 & E). rewrite (flush_one_eq r c e x Hx) in E1.
  destruct (MiotEnv.deregisters env c) eqn:Hd'; [|done]. destruct (MiotEnv.posts env c) as [[]|err| |] eqn:Hp; [|done..].
  injection E1 as <-. apply elem_of_cons in Hc' as [->|Hc']; [by split|].
  eapply (IH _ _ _ Hd); [|exact E|exact Hc']. intros c2 Hc2. cbn [MiotLoop.conns].
  rewrite lookup_delete_ne by (by intros ->). apply Hin. by right.
Qed.
End handing_over.

Lemma omap_keys_NoDup f (clients : list (ClientID * (u64 * Socket))) :
  NoDup clients.*1 → NoDup (omap (failure_of f) clients).*1.
Proof.
  induction clients as [|e clients IH]; intros Hd; [constructor|]. apply NoDup_cons in Hd as [Hn Hd].
  cbn [omap list_omap]. unfold failure_of at 1. destruct (snd (f e.1 e.2.2)) as [[err|]| | |]; try by apply IH.
  cbn. constructor; [|by apply IH]. intros ([c x] & Hc & Hx)%list_elem_of_fmap. apply Hn. rewrite Hc.
  apply list_elem_of_omap in Hx as (e' & He' & Hx). unfold failure_of in Hx.
  destruct (snd (f e'.1 e'.2.2)) as [[?|]| | |]; [|done..]. injection Hx as Hx _. cbn [fst]. rewrite <- Hx. by apply list_elem_of_fmap_2.
Qed.

Lemma foldl_delete_lookup `{Countable K} {A} (ks : list K) : ∀ (m : gmap K A) k,
  foldl (λ m k, delete k m) m ks !! k = if bool_decide (k ∈ ks) then None else m !! k.
Proof.
  induction ks as [|k' ks IH]; intros m k; [done|]. cbn [foldl]. rewrite IH.
  destruct (decide (k' = k)) as [->|Hne].
  - rewrite (bool_decide_eq_true_2 (k ∈ k :: ks)) by left. rewrite lookup_delete_eq. by case_bool_decide.
  - rewrite lookup_delete_ne by done. rewrite (bool_decide_ext (k ∈ k' :: ks) (k ∈ ks)); [done|].
    rewrite elem_of_cons. split; [by intros [->|]|by right].
Qed.

Section move.
Context (env : MiotEnv) (id : u32) (config : Config).
Context (f : ClientID → Socket → Socket * Result (option Error)) (r : MiotLoop).

Lemma list_find_conns c :
  list_find (λ e, e.1 = c) (btree_iter ClientID_cmp (MiotLoop.conns r))
  = match MiotLoop.conns r !! c with
    | Some x => (λ i, (i, (c, x))) <$>
        (fst <$> list_find (λ e, e.1 = c) (btree_iter ClientID_cmp (MiotLoop.conns r)))
    | None => None
    end ∧
  (is_Some (MiotLoop.conns r !! c) → is_Some (list_find (λ e, e.1 = c) (btree_iter ClientID_cmp (MiotLoop.conns r)))).
Proof.
  split.
  - destruct (list_find (λ e, e.1 = c) (btree_iter ClientID_cmp (MiotLoop.conns r))) as [[i [c' x]]|] eqn:E.
    + apply list_find_Some in E as (Hi & Hc & _). cbn in Hc. subst c'.
      apply list_elem_of_lookup_2, elem_of_btree_iter in Hi. by rewrite Hi.
    + by destruct (MiotLoop.conns r !! c).
  - intros [x Hx]. apply (list_find_elem_of _ _ (c, x)); [by apply elem_of_btree_iter|done].
Qed.

(** Every connection settles, and those that fail are handed over. *)
Definition goes_through : Prop :=
  ∀ c x, MiotLoop.conns r !! c = Some x →
    ∃ o, snd (f c x.2) = Ok o ∧ (is_Some o → handed_over env c).

Local Abbreviation clients := (btree_iter ClientID_cmp (MiotLoop.conns r)).
Local Abbreviation failed := (omap (failure_of f) clients).
Local Abbreviation changed := (foldl (λ m e, <[e.1 := moved f e]> m) (MiotLoop.conns r) clients).

Lemma failed_spec c e : (c, e) ∈ failed ↔ ∃ x, MiotLoop.conns r !! c = Some x ∧ snd (f c x.2) = Ok (Some e).
Proof.
  rewrite list_elem_of_omap. split.
  - intros ([c' x] & Hin%elem_of_btree_iter & Hx). unfold failure_of in Hx. cbn [fst snd] in Hx.
    destruct (snd (f c' x.2)) as [[e'|]| | |] eqn:E; [|done..]. injection Hx as -> ->. by exists x.
  - intros (x & Hx & E). exists (c, x). split; [by apply elem_of_btree_iter|]. unfold failure_of. cbn [fst snd]. by rewrite E.
Qed.

Lemma changed_lookup c : changed !! c = (λ x, (x.1, fst (f c x.2))) <$> MiotLoop.conns r !! c.
Proof.
  rewrite fold_insert_lookup by apply btree_iter_keys_NoDup.
  destruct (list_find_conns c) as [E Hsome]. rewrite E.
  destruct (MiotLoop.conns r !! c) as [x|]; [|done].
  destruct (Hsome ltac:(by eexists)) as [[i y] Hy]. by rewrite Hy.
Qed.

Lemma failed_present c : c ∈ failed.*1 → is_Some (changed !! c).
Proof.
  intros ([c' e] & -> & (x & Hx & _)%failed_spec)%list_elem_of_fmap. cbn [fst]. rewrite changed_lookup, Hx. by eexists.
Qed.

Lemma move_packets_after :
  Forall (settles f) clients →
  move_packets env f (running_miot id config r)
  = flush_failed env failed (running_miot id config (MiotLoop.mk (MiotLoop.next_token r) changed (MiotLoop.flushes r))).
Proof.
  intros Hs. unfold move_packets. rewrite (M_bind_Ok miot_loop _ _ (running_miot id config r) r) by done.
  by rewrite each_connection_eq.
Qed.

Lemma move_packets_eq :
  goes_through →
  ∃ r' failed,
    move_packets env f (running_miot id config r) = (running_miot id config r', Ok ()) ∧
    MiotLoop.next_token r' = MiotLoop.next_token r ∧
    MiotLoop.flushes r' = MiotLoop.flushes r ++ failed ∧ NoDup failed.*1 ∧
    (∀ c e, (c, e) ∈ failed ↔ ∃ x, MiotLoop.conns r !! c = Some x ∧ snd (f c x.2) = Ok (Some e)) ∧
    (∀ c, MiotLoop.conns r' !! c =
       if bool_decide (c ∈ failed.*1) then None
       else (λ x, (x.1, fst (f c x.2))) <$> MiotLoop.conns r !! c).
Proof.
  intros Hf. eexists _, failed. split.
  { rewrite move_packets_after.
    - apply flush_failed_eq; [apply omap_keys_NoDup, btree_iter_keys_NoDup|]. intros c Hc.
      split; [by apply failed_present|]. apply list_elem_of_fmap in Hc as ([c' e] & -> & (x & Hx & E)%failed_spec).
      destruct (Hf c' x Hx) as (o & E' & Ho). apply Ho. rewrite E in E'. injection E' as <-. by eexists.
    - apply Forall_forall. intros [c x] H%elem_of_btree_iter. destruct (Hf c x H) as (o & Ho & _). by exists o. }
  split; [done|]. split; [done|]. split; [apply omap_keys_NoDup, btree_iter_keys_NoDup|].
  split; [apply failed_spec|]. intros c. cbn [MiotLoop.conns]. by rewrite foldl_delete_lookup, changed_lookup.
Qed.

Lemma move_packets_Ok m' u : move_packets env f (running_miot id config r) = (m', Ok u) → goes_through.
Proof.
  intros E. assert (Forall (settles f) clients) as Hs.
  { unfold move_packets in E. rewrite (M_bind_Ok miot_loop _ _ (running_miot id config r) r) in E by done.
    destruct (each_connection f clients _) as [conns res] eqn:Ec.
    rewrite (M_bind_Ok (set_miot_inner _) _ _ (running_miot id config (MiotLoop.mk (MiotLoop.next_token r) conns (MiotLoop.flushes r))) ()) in E by done.
    destruct res as [l|err| |]; [|done..]. by eapply each_connection_settles. }
  rewrite move_packets_after in E by done. intros c x Hx.
  rewrite Forall_forall in Hs. destruct (Hs (c, x)) as [o Ho]; [by apply elem_of_btree_iter|].
  exists o. split; [done|]. intros [e ->].
  eapply (flush_failed_Ok env id config failed); [| |exact E|].
  - apply omap_keys_NoDup, btree_iter_keys_NoDup.
  - apply failed_present.
  - apply list_elem_of_fmap. exists (c, e). split; [done|]. apply failed_spec. by exists x.
Qed.
End move.

(** C32: one pass of reading goes through exactly when each connection's reading settles - it
    ends well, or in one of the errors that the thread expects - and each one that failed is
    taken out of the poller and accepted by the shard; one that fails otherwise, or is not
    accepted, stops the thread.  When it goes through, each connection is left as its own
    reading leaves it, those that go on are kept under their tokens, and exactly those whose
    client is gone or breaks the protocol are posted to the shard to be flushed, once each,
    with the error. *)
Theorem failed_connections_are_flushed id config env r :
  let read c (x : u64 * Socket) := Socket_read_packets config (MiotEnv.reads env c) x.2 in
  let fails c x e := MiotLoop.conns r !! c = Some x ∧ read_failure (snd (read c x)) = Ok (Some e) in
  let '(m', result) := Miot_socket_to_session env (running_miot id config r) in
  (result = Ok () ↔
     (∀ c x, MiotLoop.conns r !! c = Some x → ∃ o, read_failure (snd (read c x)) = Ok o) ∧
     (∀ c x e, fails c x e → MiotEnv.deregisters env c = true ∧ MiotEnv.posts env c = Ok ())) ∧
  (result = Ok () →
   ∃ r' failed,
     m' = running_miot id config r' ∧
     MiotLoop.flushes r' = MiotLoop.flushes r ++ failed ∧ NoDup failed.*1 ∧
     (∀ c e, (c, e) ∈ failed ↔ ∃ x, fails c x e) ∧
     ∀ c, MiotLoop.conns r' !! c =
       if bool_decide (c ∈ failed.*1) then None
       else (λ x, (x.1, fst (read c x))) <$> MiotLoop.conns r !! c).
Proof.
  intros read fails. set (f := λ (c : ClientID) s, let '(s, res) := Socket_read_packets config (MiotEnv.reads env c) s in (s, read_failure res)).
  assert (∀ c x, fst (f c x.2) = fst (read c x) ∧ snd (f c x.2) = read_failure (snd (read c x))) as Hfe.
  { intros c x. unfold f, read. by destruct (Socket_read_packets config (MiotEnv.reads env c) x.2). }
  assert (Miot_socket_to_session env (running_miot id config r) = move_packets env f (running_miot id config r)) as -> by done.
  assert (goes_through env f r ↔
    (∀ c x, MiotLoop.conns r !! c = Some x → ∃ o, read_failure (snd (read c x)) = Ok o) ∧
    (∀ c x e, fails c x e → handed_over env c)) as Hg.
  { split.
    - intros Hg. split; [intros c x Hx|intros c x e [Hx He]]; destruct (Hg c x Hx) as (o & Ho & Hh);
        rewrite (proj2 (Hfe c x)) in Ho; [by exists o|]. rewrite He in Ho. injection Ho as <-. apply Hh. by eexists.
    - intros [Hs Hh] c x Hx. destruct (Hs c x Hx) as [o Ho]. exists o. split; [by rewrite (proj2 (Hfe c x))|].
      intros [e ->]. by eapply Hh. }
  destruct (move_packets env f (running_miot id config r)) as [m' res] eqn:E.
  assert (res = Ok () → goes_through env f r) as Hok by (intros ->; by eapply move_packets_Ok).
  split.
  - rewrite <- Hg. split; [done|]. intros H. apply (move_packets_eq env id config f r) in H as (r' & l & E' & _). by rewrite E in E'; injection E' as _ ->.
  - intros Hres. destruct (move_packets_eq env id config f r (Hok Hres)) as (r' & l & E' & _ & Hl & Hd & Hin & Hc).
    rewrite E in E'. injection E' as -> _. exists r', l. do 3 (split; [done|]). split.
    + intros c e. rewrite Hin. apply exist_proper. intros x. unfold fails. by rewrite (proj2 (Hfe c x)).
    + intros c. rewrite Hc. destruct (bool_decide _); [done|].
      destruct (MiotLoop.conns r !! c) as [x|]; [|done]. cbn. by rewrite (proj1 (Hfe c x)).
Qed.

(** One connection with an error that is neither of the protocol nor a malformed packet,
    such as a packet that ends too early, stops the thread that serves them all. *)
Theorem unexpected_error_stops_the_miot id config env r c x e :
  MiotLoop.conns r !! c = Some x →
  snd (Socket_read_packets config (MiotEnv.reads env c) x.2) = Err e →
  kind e ≠ ErrorKind.ProtocolError → kind e ≠ ErrorKind.MalformedPacket →
  ∀ u, snd (Miot_socket_to_session env (running_miot id config r)) ≠ Ok u.
Proof.
  intros Hx He Hp Hm u. unfold Miot_socket_to_session.
  rewrite (M_bind_Ok (gets Miot.config) _ _ (running_miot id config r) config) by done.
  set (f := λ (client_id : ClientID) s, _). unfold move_packets.
  rewrite (M_bind_Ok miot_loop _ _ (running_miot id config r) r) by done.
  assert (∀ l, snd (each_connection f (btree_iter ClientID_cmp (MiotLoop.conns r)) (MiotLoop.conns r)) ≠ Ok l) as Hno.
  { apply each_connection_fails. exists (c, x). split; [by apply elem_of_btree_iter|]. cbn [fst snd]. intros o.
    unfold f. destruct (Socket_read_packets config (MiotEnv.reads env c) x.2) as [s' res]. cbn [snd] in He |- *. subst res.
    unfold read_failure. by destruct (kind e). }
  destruct (each_connection f _ _) as [conns failed]. cbn [snd] in Hno.
  rewrite (M_bind_Ok (set_miot_inner _) _ _ (running_miot id config (MiotLoop.mk (MiotLoop.next_token r) conns (MiotLoop.flushes r))) ()) by done.
  destruct failed as [l|err| |]; [by destruct (Hno l)|done..].
Qed.

(** * Tokens *)

(** Tokens are given out once, from the first one on. *)
Definition tokens_ok (next : u64) (tokens : gmap ClientID u64) : Prop :=
  (∀ c t, tokens !! c = Some t → FIRST_TOKEN ≤ t < next) ∧
  (∀ c c' t, tokens !! c = Some t → tokens !! c' = Some t → c = c') ∧ FIRST_TOKEN ≤ next.

(** The next token is at most [n]. *)
Section wf_miot.
Context (n : Z).
Definition wf_miot_loop (r : MiotLoop) : Prop :=
  tokens_ok (MiotLoop.next_token r) (fst <$> MiotLoop.conns r) ∧ MiotLoop.next_token r ≤ n.
Definition wf_miot (m : Miot) : Prop :=
  match Miot.inner m with
  | MiotInner.Init | MiotInner.Handle _ => True
  | MiotInner.Main r => wf_miot_loop r
  | MiotInner.Close fin => NoDup (MiotFin.tokens fin)
  end.

Lemma tokens_ok_insert next tokens c :
  tokens_ok next tokens → tokens_ok (next + 1) (<[c := next]> tokens).
Proof.
  intros (Hb & Hi & Hn). split; [|split; [|lia]].
  - intros c' t [[-> <-]|[_ H%Hb]]%lookup_insert_Some; lia.
  - intros c1 c2 t [[-> <-]|[H1 E1]]%lookup_insert_Some [[-> H]|[H2 E2]]%lookup_insert_Some; subst.
    + done.
    + apply Hb in E2. lia.
    + apply Hb in E1. lia.
    + by eapply Hi.
Qed.

Lemma tokens_ok_delete next tokens c : tokens_ok next tokens → tokens_ok next (delete c tokens).
Proof.
  intros (Hb & Hi & Hn). split; [|split; [|done]].
  - intros c' t [_ H]%lookup_delete_Some. by eapply Hb.
  - intros c1 c2 t [_ H1]%lookup_delete_Some [_ H2]%lookup_delete_Some. by eapply Hi.
Qed.

Lemma wf_miot_loop_wf : keeps wf_miot miot_loop wf_miot_loop.
Proof.
  intros m Hm. unfold miot_loop. destruct (Miot.inner m) as [|thrd|r|fin] eqn:E; (split; [done|]); [done|done| |done].
  intros a [= <-]. unfold wf_miot in Hm. by rewrite E in Hm.
Qed.

Lemma set_miot_inner_wf r : wf_miot_loop r → keeps wf_miot (set_miot_inner (MiotInner.Main r)) anything.
Proof. intros Hr. by apply keeps_modify. Qed.

Lemma remove_connection_wf env c : keeps wf_miot (Miot_handle_remove_connection env c) anything.
Proof.
  eapply keeps_bind; [apply wf_miot_loop_wf|]. intros r [Hr Hn].
  destruct (MiotLoop.conns r !! c) as [[token s]|]; [|by apply keeps_ret].
  eapply keeps_bind; [apply set_miot_inner_wf|intros _ _].
  { split; [|done]. cbn [MiotLoop.next_token MiotLoop.conns]. rewrite fmap_delete. by apply tokens_ok_delete. }
  eapply keeps_bind; [apply keeps_lift_any|intros _ _; by apply keeps_ret].
Qed.

Lemma conns_tokens_NoDup next (conns : gmap ClientID (u64 * Socket)) :
  tokens_ok next (fst <$> conns) → NoDup ((λ e, e.2.1) <$> btree_iter ClientID_cmp conns).
Proof.
  intros (_ & Hi & _).
  assert (∀ e, e ∈ btree_iter ClientID_cmp conns → (fst <$> conns) !! e.1 = Some e.2.1) as Hin.
  { intros [c x] H%elem_of_btree_iter. rewrite lookup_fmap. cbn [fst snd]. by rewrite H. }
  pose proof (btree_iter_keys_NoDup ClientID_cmp conns) as Hd.
  induction (btree_iter ClientID_cmp conns) as [|e l IH]; [constructor|].
  cbn [fmap list_fmap] in *. apply NoDup_cons in Hd as [Hn Hd]. constructor.
  - intros (e' & Ht & He')%list_elem_of_fmap. apply Hn.
    rewrite (Hi e.1 e'.1 e.2.1); [by apply list_elem_of_fmap_2|apply Hin; by left|].
    rewrite Ht. apply Hin. by right.
  - apply IH; [|done]. intros e' He'. apply Hin. by right.
Qed.

Lemma close_wf : keeps wf_miot Miot_handle_close anything.
Proof.
  eapply keeps_bind; [apply wf_miot_loop_wf|]. intros r [Hr _].
  apply keeps_modify. intros m _. by eapply conns_tokens_NoDup.
Qed.

(** Changing the connections in place leaves the tokens. *)
Lemma each_connection_tokens f clients : ∀ conns,
  (∀ e, e ∈ clients → (fst <$> conns) !! e.1 = Some e.2.1) →
  fst <$> fst (each_connection f clients conns) = fst <$> conns.
Proof.
  induction clients as [|[c [token s]] clients IH]; intros conns Hin; [done|]. cbn [each_connection].
  destruct (f c s) as [s' res].
  assert (fst <$> <[c := (token, s')]> conns = fst <$> conns) as E.
  { rewrite fmap_insert. apply insert_id, (Hin (c, (token, s))). by left. }
  destruct res as [o|err| |]; [|exact E..]. specialize (IH (<[c := (token, s')]> conns)). rewrite E in IH.
  destruct (each_connection f clients _) as [conns' rest]. cbn [fst] in *.
  apply IH. intros e He. apply Hin. by right.
Qed.

Lemma flush_one_wf env e : keeps wf_miot (flush_one env e) anything.
Proof.
  eapply keeps_bind; [apply remove_connection_wf|]. intros [s|] _; [|by apply keeps_ret].
  eapply keeps_bind; [apply keeps_lift_any|]. intros _ _.
  eapply keeps_bind; [apply wf_miot_loop_wf|]. intros r' Hr'. by apply set_miot_inner_wf.
Qed.

Lemma move_packets_wf env f : keeps wf_miot (move_packets env f) anything.
Proof.
  eapply keeps_bind; [apply wf_miot_loop_wf|]. intros r [Hr Hn].
  pose proof (each_connection_tokens f (btree_iter ClientID_cmp (MiotLoop.conns r)) (MiotLoop.conns r)) as E.
  destruct (each_connection f _ _) as [conns failed]. cbn [fst] in E.
  eapply keeps_bind; [apply set_miot_inner_wf|intros _ _].
  { split; [|done]. cbn [MiotLoop.next_token MiotLoop.conns]. rewrite E; [done|].
    intros [c x] H%elem_of_btree_iter. rewrite lookup_fmap. cbn [fst snd]. by rewrite H. }
  eapply keeps_bind; [auto with keeps|]. intros failed' _. apply keeps_for_each. intros e _. apply flush_one_wf.
Qed.

Lemma socket_to_session_wf env : keeps wf_miot (Miot_socket_to_session env) anything.
Proof. eapply keeps_bind; [apply keeps_gets_any|]. intros ? _. apply move_packets_wf. Qed.

Lemma session_to_socket_wf env : keeps wf_miot (Miot_session_to_socket env) anything.
Proof. eapply keeps_bind; [apply keeps_gets_any|]. intros ? _. apply move_packets_wf. Qed.

Lemma work_wf env : keeps wf_miot (Miot_work env) anything.
Proof.
  eapply keeps_bind; [apply keeps_gets_any|]. intros inner _.
  destruct inner; try (by apply keeps_ret);
    (eapply keeps_bind; [apply socket_to_session_wf|]; intros _ _;
     eapply keeps_bind; [apply session_to_socket_wf|]; intros _ _; by apply keeps_ret).
Qed.

Lemma finish_wf : keeps wf_miot Miot_finish anything.
Proof.
  eapply keeps_bind; [apply keeps_gets_any|]. intros inner _.
  destruct inner; try apply keeps_panic; [apply close_wf|by apply keeps_ret].
Qed.

End wf_miot.

Lemma wf_miot_le n n' m : n ≤ n' → wf_miot n m → wf_miot n' m.
Proof. unfold wf_miot, wf_miot_loop. intros H. destruct (Miot.inner m); try done. intros [? ?]. split; [done|lia]. Qed.

(** A new connection takes a token, whether or not the poller registers it. *)
Lemma add_connection_wf n env args m m' r :
  n + 1 < 2 ^ 64 → wf_miot n m → Miot_handle_add_connection env args m = (m', r) → wf_miot (n + 1) m'.
Proof.
  intros Hlt Hm E. unfold Miot_handle_add_connection in E. unfold mbind, M_bind in E. unfold miot_loop in E.
  destruct m as [id config [|thrd|l|fin]]; try (injection E as <- _; done). cbn -[token_incr] in E.
  destruct Hm as [Ht Hn]. unfold token_incr in E. rewrite (proj2 (Z.ltb_lt _ _)) in E by (cbn in *; lia). cbn in E.
  assert (tokens_ok (MiotLoop.next_token l + 1) (fst <$> MiotLoop.conns l)) as H1.
  { destruct Ht as (Hb & Hi & H2). split; [|split; [done|lia]]. intros c t Hc. apply Hb in Hc. lia. }
  destruct (MiotEnv.registers env); cbn in E; [|injection E as <- _; by split; [|cbn; lia]].
  destruct (Config_mqtt_max_packet_size config); cbn in E; injection E as <- _; try (by split; [|cbn; lia]).
  split; [|cbn; lia]. cbn [MiotLoop.next_token MiotLoop.conns]. rewrite fmap_insert. by apply tokens_ok_insert.
Qed.

Lemma handle_request_wf n env req waits m m' r :
  n + 1 < 2 ^ 64 → wf_miot n m → Miot_handle_request env req waits m = (m', r) → wf_miot (n + 1) m'.
Proof.
  intros Hlt Hm E.
  assert (∀ A (h : M Miot A) k, (∀ a m, fst (k a m : Miot * Result (option (Result MiotResponse) * bool)) = m) →
    (∀ m' r, h m = (m', r) → wf_miot (n + 1) m') → (h ≫= k) m = (m', r) → wf_miot (n + 1) m') as Hbind.
  { intros A h k Hk Hh Eb. unfold mbind, M_bind in Eb. destruct (h m) as [m1 [a|x| |]] eqn:E1;
      [|injection Eb as <- _; by eapply Hh..]. specialize (Hk a m1). rewrite Eb in Hk. cbn in Hk. subst m1. by eapply Hh. }
  assert (∀ A (h : M Miot A), keeps (wf_miot n) h anything → ∀ m' r, h m = (m', r) → wf_miot (n + 1) m') as Hkeeps.
  { intros A h Hk m1 r1 E1. eapply wf_miot_le; [|pose proof (proj1 (Hk m Hm)) as H; by rewrite E1 in H]. lia. }
  destruct req as [args|c|], waits; cbn [Miot_handle_request] in E;
    try (by injection E as <- _; eapply wf_miot_le; [|exact Hm]; lia).
  - eapply Hbind; [|intros m1 r1; by apply add_connection_wf|exact E]. done.
  - eapply Hbind; [|apply Hkeeps, remove_connection_wf|exact E]. done.
  - eapply Hbind; [|apply Hkeeps, close_wf|exact E]. done.
Qed.

(** C33: no two connections are ever registered with the poller under the same token, in any
    interleaving of the thread with those that give it connections and take them away,
    whatever sockets, queues, the poller and the shard answer, as long as it handled fewer
    than [2 ^ 64 - 3] requests, so that the number of the next token did not overflow,
    whether additions are checked or not; so the tokens it leaves when it closes are distinct
    as well. *)
Theorem miot_tokens_are_distinct id config s :
  sys_reachable (Miot_main id config) s → Z.of_nat (length (served s)) < 2 ^ 64 - 3 →
  match Miot.inner (self s) with
  | MiotInner.Init | MiotInner.Handle _ => True
  | MiotInner.Main r =>
      ∀ c c' x x', MiotLoop.conns r !! c = Some x → MiotLoop.conns r !! c' = Some x' →
        FIRST_TOKEN ≤ x.1 < MiotLoop.next_token r ∧ (x.1 = x'.1 → c = c')
  | MiotInner.Close fin => NoDup (MiotFin.tokens fin)
  end.
Proof.
  intros Hm Hlt. assert (∃ n, wf_miot n (self s)) as [n Hwf].
  { set (wf d n m := Z.of_nat n < 2 ^ 64 - 3 → wf_miot (FIRST_TOKEN + d + Z.of_nat n) m).
    apply (sys_reachable_kept (wf 0) (λ n _ m, wf 1 n m)) in Hm.
    - unfold kept in Hm. destruct (phase s); eexists; by apply Hm.
    - intros n q w t t' r Ht [env E] _.
      assert (Z.of_nat n < 2 ^ 64 - 3 → wf_miot (FIRST_TOKEN + Z.of_nat n + 1) t') as H.
      { intros Hn. eapply handle_request_wf; [|by apply Ht|exact E]. unfold FIRST_TOKEN. lia. }
      destruct r; intros Hn; (eapply wf_miot_le; [|apply H; lia]); unfold FIRST_TOKEN; lia.
    - intros n t t' r Ht [env E] _.
      assert (Z.of_nat n < 2 ^ 64 - 3 → wf_miot (FIRST_TOKEN + 0 + Z.of_nat n) t') as H.
      { intros Hn. pose proof (proj1 (work_wf _ env t (Ht Hn))) as H. by rewrite E in H. }
      destruct r; intros Hn; (eapply wf_miot_le; [|by apply H]); unfold FIRST_TOKEN; lia.
    - intros n t t' r Ht E _ Hn. pose proof (proj1 (finish_wf _ t (Ht Hn))) as H.
      unfold finishes in E. cbn in E. rewrite E in H. eapply wf_miot_le; [|exact H]. unfold FIRST_TOKEN. lia.
    - intros _. by vm_compute. }
  unfold wf_miot in Hwf. destruct (Miot.inner (self s)) as [|thrd|r|fin]; [done|done| |done].
  destruct Hwf as [(Hb & Hi & _) _]. intros c c' x x' Hx Hx'. split.
  - apply (Hb c). by rewrite lookup_fmap, Hx.
  - intros E. apply (Hi c c' x.1); rewrite lookup_fmap; [by rewrite Hx|by rewrite Hx', E].
Qed.

(** * Handshakes *)

Lemma start_remain_ends byte1 data start max_size lenbytes :
  start_remain byte1 data start max_size lenbytes ≠ Diverge.
Proof.
  assert (∀ bs i out, varu32_loop bs i out ≠ Diverge) as Hloop.
  { induction bs as [|b bs IH]; intros i out; cbn -[Z.shiftl Z.land]; [done|]. by destruct (b <? 0x80). }
  unfold start_remain, read_packet_limit, VarU32_decode.
  specialize (Hloop (take (length lenbytes `min` 4) lenbytes) 0%nat 0).
  destruct (varu32_loop _ 0 0) as [[v m]|e| |]; cbn -[Z.of_nat]; [by case_match|done..].
Qed.

Lemma MQTTRead_read_ends st stream : MQTTRead_read st stream ≠ Diverge.
Proof.
  unfold MQTTRead_read. pose proof start_remain_ends.
  repeat first [done | case_decide | case_match].
Qed.

(** A handshake is over at the latest with the first read that ends after the deadline,
    whatever comes later; it goes on for ever only if decoding a frame does. *)
Theorem handshake_ends timeout rounds conn now later : ∀ pr,
  timeout ≤ now →
  handshake_loop timeout pr (rounds ++ (conn, now) :: later)
  = handshake_loop timeout pr (rounds ++ [(conn, now)]) ∧
  (handshake_loop timeout pr (rounds ++ [(conn, now)]) = Diverge → ∃ st, MQTTRead_parse st = Diverge).
Proof.
  intros pr Hn. revert pr. induction rounds as [|[c t] rounds IH]; intros pr; cbn [app handshake_loop].
  - rewrite (proj2 (Z.ltb_ge _ _)) by done. split; [by repeat case_match|].
    pose proof (MQTTRead_read_ends pr conn). repeat case_match; try done. eauto.
  - pose proof (MQTTRead_read_ends pr c).
    destruct (MQTTRead_read pr c) as [[st b]|e| |]; [|by repeat case_match..].
    destruct st as [| | | |data fh max_size] eqn:Est; [done| | | |];
      [destruct (t <? timeout); [apply IH|done]..|].
    split; [done|]. repeat case_match; try done. eauto.
Qed.

(** A client that waits and then goes away ends its handshake with a panic. *)
Theorem closing_panics_the_handshake timeout max_size waits conn now rounds :
  Forall (λ r, fst r = (λ _, ReadErr WouldBlock) ∧ snd r < timeout) waits →
  conn 5%nat = ReadOk [] →
  handshake_loop timeout (MQTTRead_new max_size) (waits ++ (conn, now) :: rounds) = Panic.
Proof.
  intros Hw Hc. induction Hw as [|[c t] waits [Hr Ht] _ IH]; cbn [app handshake_loop MQTTRead_new MQTTRead_read].
  - by rewrite Hc.
  - cbn [fst snd] in Hr, Ht. subst c. by rewrite (proj2 (Z.ltb_lt _ _) Ht).
Qed.

(** A packet that ends too early does as well. *)
Example truncated_packet_panics_the_handshake :
  handshake_loop 10 (MQTTRead_new 100)
    [(λ _, ReadOk [0x30; 2], 1); (λ _, ReadOk [0], 2); (λ _, ReadOk [5], 3)] = Panic.
Proof. vm_compute. reflexivity. Qed.

(** * Instances *)

(** Two clients; the first one's packet is a PUBLISH that is complete with the next byte. *)
Definition ex_conns : gmap ClientID (u64 * Socket) :=
  let socket c pr := Socket.mk c (Source.mk pr None (PktTx.mk 1 0) []) (Sink.mk MQTTWrite.None None (PktRx.mk 4) []) in
  {[ mkClientID [1] := (2, socket (mkClientID [1])
       (MQTTRead.Remain [0x30; 2; 0; 0] 3 (mkFixedHeader 0x30 (mkVarU32 2)) 100));
     mkClientID [2] := (3, socket (mkClientID [2]) (MQTTRead_new 100)) ]}.
Definition ex_miot_loop : MiotLoop := MiotLoop.mk 4 ex_conns [].
Definition ex_miot_env (chunk : io_read) : MiotEnv :=
  let round chunk := ReadRound.mk (λ _, Sent) (mkAccess (λ _, chunk) 9 9) (λ _, Sent) in
  MiotEnv.mk (λ c, if decide (c = mkClientID [1]) then [round chunk] else [round (ReadErr WouldBlock)])
    (λ _, []) true (λ _, true) (λ _, Ok ()) false.

Lemma failed_connections_are_flushed_witness :
  ∃ r' failed,
    Miot_socket_to_session (ex_miot_env (ReadOk [])) (running_miot 0 ex_config ex_miot_loop)
    = (running_miot 0 ex_config r', Ok ()) ∧
    MiotLoop.flushes r' = failed ∧ mkClientID [1] ∈ failed.*1 ∧ mkClientID [2] ∉ failed.*1.
Proof.
  pose proof (failed_connections_are_flushed 0 ex_config (ex_miot_env (ReadOk [])) ex_miot_loop) as H.
  cbv zeta in H. destruct (Miot_socket_to_session _ _) as [m' res].
  destruct H as [Hiff H]. assert (res = Ok ()) as Hok.
  { apply Hiff. split.
    - intros c x Hx. unfold ex_miot_loop, ex_conns in Hx. cbn [MiotLoop.conns] in Hx.
      apply lookup_insert_Some in Hx as [[<- <-]|[_ [<- <-]%lookup_singleton_Some]]; vm_compute; by eexists.
    - done. }
  destruct (H Hok) as (r' & failed & -> & Hf & _ & Hin & _). rewrite Hok. clear H Hiff Hok.
  exists r', failed. split; [done|]. split; [exact Hf|]. split.
  - apply list_elem_of_fmap. exists (mkClientID [1], mkError ErrorKind.Disconnected None). split; [done|].
    apply Hin. eexists. split; [unfold ex_miot_loop, ex_conns; cbn [MiotLoop.conns]; apply lookup_insert_eq|].
    by vm_compute.
  - intros ([c e] & Hc & (x & Hx & Hr)%Hin)%list_elem_of_fmap. cbn [fst] in Hc. subst c. revert Hr.
    unfold ex_miot_loop, ex_conns in Hx. cbn [MiotLoop.conns] in Hx.
    rewrite lookup_insert_ne, lookup_singleton_eq in Hx by done. injection Hx as <-. by vm_compute.
Defined.

Lemma unexpected_error_stops_the_miot_witness :
  snd (Miot_socket_to_session (ex_miot_env (ReadOk [5])) (running_miot 0 ex_config ex_miot_loop)) ≠ Ok ().
Proof.
  apply (unexpected_error_stops_the_miot 0 ex_config (ex_miot_env (ReadOk [5])) ex_miot_loop (mkClientID [1])
           (2, Socket.mk (mkClientID [1])
              (Source.mk (MQTTRead.Remain [0x30; 2; 0; 0] 3 (mkFixedHeader 0x30 (mkVarU32 2)) 100) None (PktTx.mk 1 0) [])
              (Sink.mk MQTTWrite.None None (PktRx.mk 4) []))
           (mkError ErrorKind.InsufficientBytes (Some ReasonCode.MalformedPacket))); [|by vm_compute|done..].
  unfold ex_miot_loop, ex_conns. cbn [MiotLoop.conns]. by rewrite lookup_insert_eq.
Defined.

Definition ex_add (c : ClientID) : miot_request :=
  AddConnectionReq (AddConnectionArgs.mk c (PktTx.mk 1 0) (PktRx.mk 4) 100).

(** A miot thread that has two connections to add, and is closed. *)
Lemma miot_tokens_are_distinct_witness :
  ∃ s fin, sys_reachable (Miot_main 0 ex_config) s ∧
    Miot.inner (self s) = MiotInner.Close fin ∧ length (MiotFin.tokens fin) = 2%nat ∧ NoDup (MiotFin.tokens fin).
Proof.
  eexists _, _. match goal with |- ?A ∧ _ => assert A as Hr end.
  { run_step ltac:(right; left; eapply (step_submit _ (ex_add (mkClientID [1]))); [cbn; lia|reflexivity..]).
    run_step ltac:(right; left; eapply (step_submit _ (ex_add (mkClientID [2]))); [cbn; lia|reflexivity..]).
    run_step ltac:(right; left; eapply (step_submit _ CloseReq); [cbn; lia|reflexivity..]).
    run_step ltac:(right; left; eapply step_wake; cbn; lia).
    run_step ltac:(left; eapply step_poll; reflexivity).
    do 4 run_step ltac:(left; eapply step_take; reflexivity).
    do 3 serve_by (Miot_handle_request (ex_miot_env (ReadOk [])))
      ltac:(exists (ex_miot_env (ReadOk [])); vm_compute; reflexivity).
    constructor. }
  split; [exact Hr|]. split; [reflexivity|]. split; [reflexivity|].
  apply (miot_tokens_are_distinct 0 ex_config _ Hr). by vm_compute.
Defined.

Lemma handshake_ends_witness :
  handshake_loop 5 (MQTTRead_new 100)
    ([(λ _, ReadErr WouldBlock, 3)] ++ (λ _, ReadErr WouldBlock, 6) :: [(λ _, ReadErr WouldBlock, 7)])
  = Ok (Refused ReasonCode.UnspecifiedError).
Proof.
  destruct (handshake_ends 5 [(λ _, ReadErr WouldBlock, 3)] (λ _, ReadErr WouldBlock) 6
              [(λ _, ReadErr WouldBlock, 7)] (MQTTRead_new 100))
    as [E _]; [done|].
  rewrite E. by vm_compute.
Defined.
