(* ===== verification/Cluster.v ===== *)
(** Model of [src/rebalance.rs] and of [src/cluster.rs]: which shard hosts the session of a
    client, the topology of the shards, the requests the cluster's thread handles, its
    handles, and how the shards and the cluster are spawned.

    The hash of [cityhash_rs] and the identifiers of nodes are parameters.  The sessions that shards are asked to add
    are kept as they are requested; what other threads answer is a [ClusterEnv].  The
    requests about retained messages are in [Retained].  Left out: the poller, names and
    log messages. *)

From S2P Require Import Prelude Error Util Codec Types V5 PublishPacket SubPackets ConnectPackets.
From S2P Require Import Packets Config Ttrie Timer Retained State Queue Thread Server.
From S2P Require Import Session Flusher Shard ShardLoop Miot Listener Ticker.
Local Open Scope Z_scope.

(** * Topologies *)

(** src/cluster.rs:706-716 [Node] *)
Module ClusterNode.
Record ClusterNode := mk { uuid : Z; path : bytes; weight : u16; mqtt_address : bytes }.
End ClusterNode.
Abbreviation ClusterNode := ClusterNode.ClusterNode.

(** Nodes are compared by their identifier. *)
(** src/cluster.rs:719-721 [Node::eq] *)
Definition Node_eqb (self other : ClusterNode) : bool := ClusterNode.uuid self =? ClusterNode.uuid other.

Section node.
(** [Uuid::new_v4], the textual form of an identifier, and the parser of that form. *)
Context (num_cpus : nat) (new_v4 : Z) (uuid_to_string : Z → bytes)
  (uuid_parse : bytes → outcome unit Z).

(** src/cluster.rs:726-736 [Node::default] *)
Definition Node_default : Result ClusterNode :=
  config ← ConfigNode_default num_cpus (uuid_to_string new_v4);
  weight ← unwrap_some (ConfigNode.weight config);
  uuid ← unwrap_some (ConfigNode.uuid config);
  uuid ← unwrap (err_try ErrorKind.InvalidInput (uuid_parse uuid));
  Ok (ClusterNode.mk uuid (ConfigNode.path config) weight (ConfigNode.mqtt_address config)).

(** The default node is made whether or not the configuration needs it. *)
(** src/cluster.rs:738-757 [Node::try_from] *)
Definition Node_try_from (c : ConfigNode) : Result ClusterNode :=
  node ← Node_default;
  uuid ← match ConfigNode.uuid c with
         | Some uuid => err_try ErrorKind.InvalidInput (uuid_parse uuid)
         | None => Ok (ClusterNode.uuid node)
         end;
  Ok (ClusterNode.mk uuid (ConfigNode.path c)
        (default (ClusterNode.weight node) (ConfigNode.weight c)) (ConfigNode.mqtt_address c)).

End node.

(** What a ring of nodes asks of each. *)
(** src/lib.rs:94-104 [Hostable] *)
Class Hostable (T : Type) := {
  host_uuid : T → Z;
  host_weight : T → u16;
  host_path : T → bytes;
}.

(** src/cluster.rs:759-771 [Node as Hostable] *)
#[export] Instance Node_Hostable : Hostable ClusterNode := {
  host_uuid := ClusterNode.uuid;
  host_weight := ClusterNode.weight;
  host_path := ClusterNode.path;
}.

(** src/rebalance.rs:39-44 [Topology] *)
Module Topology.
Record Topology := mk { shard : u32; master : ClusterNode; replicas : list ClusterNode }.
End Topology.
Abbreviation Topology := Topology.Topology.

(** [==] on vectors. *)
Fixpoint list_eqb {A} (eqb : A → A → bool) (xs ys : list A) : bool :=
  match xs, ys with
  | [], [] => true
  | x :: xs, y :: ys => eqb x y && list_eqb eqb xs ys
  | _, _ => false
  end.

(** src/rebalance.rs:39-44 [Topology::eq] *)
Definition Topology_eqb (self other : Topology) : bool :=
  (Topology.shard self =? Topology.shard other) &&
  Node_eqb (Topology.master self) (Topology.master other) &&
  list_eqb Node_eqb (Topology.replicas self) (Topology.replicas other).

(** src/rebalance.rs:71-73 [Algorithm] *)
Inductive Algorithm := SingleNodeAlgorithm.

(** The shards from zero up to [n]. *)
Definition shard_ids (n : u32) : list u32 := Z.of_nat <$> seq 0 (Z.to_nat n).

(** src/rebalance.rs:76-89 [Algorithm::rebalance] *)
Definition Algorithm_rebalance (num_cpus : nat) (self : Algorithm) (c : Config)
    (nodes : list ClusterNode) (_old : list Topology) : Result (list Topology) :=
  match self with
  | SingleNodeAlgorithm =>
      node ← match nodes with node :: _ => Ok node | [] => Panic end;
      num_shards ← Config_num_shards num_cpus c;
      Ok ((λ shard, Topology.mk shard node []) <$> shard_ids num_shards)
  end.

(** src/rebalance.rs:47-50 [Rebalancer] *)
Module Rebalancer.
Record Rebalancer := mk { config : Config; algo : Algorithm }.
End Rebalancer.
Abbreviation Rebalancer := Rebalancer.Rebalancer.

(** src/rebalance.rs:63-68 [Rebalancer::rebalance] *)
Definition Rebalancer_rebalance (num_cpus : nat) (self : Rebalancer) (nodes : list ClusterNode)
    (old : list Topology) : Result (list Topology) :=
  Algorithm_rebalance num_cpus (Rebalancer.algo self) (Rebalancer.config self) nodes old.

(** [sort_by_key(|x| x.shard)] *)
Definition sort_by_shard (ts : list Topology) : list Topology := sort_by_key Topology.shard ts.

(** src/rebalance.rs:104-111 [diff_topology] *)
Fixpoint diff_sorted (olds news : list Topology) : Result (list (Topology * Topology)) :=
  match olds, news with
  | old :: olds, new :: news =>
      if negb (Topology.shard old =? Topology.shard new) then Panic
      else
        diffs ← diff_sorted olds news;
        Ok (if Topology_eqb old new then diffs else (old, new) :: diffs)
  | _, _ => Ok []
  end.

(** src/rebalance.rs:95-114 [diff_topology] *)
Definition diff_topology (olds news : list Topology) : Result (list (Topology * Topology)) :=
  let olds := sort_by_shard olds in
  let news := sort_by_shard news in
  if (length olds =? length news)%nat then diff_sorted olds news else Panic.

(** * The cluster *)

(** src/cluster.rs:786-790 [SingleNode] *)
Record SingleNode := mkSingleNode {
  single_config : Config;
  single_node : ClusterNode;
  single_topology : list Topology;
}.
(** src/cluster.rs:792-797 [MultiNode] *)
Record MultiNode := mkMultiNode {
  multi_config : Config;
  multi_nodes : list ClusterNode;
  multi_topology : list Topology;
}.

(** src/cluster.rs:773-782 [ClusterState] *)
Module ClusterState.
Inductive ClusterState := SingleNode (state : SingleNode) | Elastic (state : MultiNode) | Stable (state : MultiNode).
End ClusterState.
Abbreviation ClusterState := ClusterState.ClusterState.

(** src/cluster.rs:809-809 [ClusterState::shards_in_node] *)
Definition hosted_by (node : Z) (topology : list Topology) : list u32 :=
  Topology.shard <$> filter (λ t, ClusterNode.uuid (Topology.master t) = node) topology.

(** src/cluster.rs:802-811 [ClusterState::shards_in_node] *)
Definition ClusterState_shards_in_node (self : ClusterState) (node : Z) : Result (list u32) :=
  topology ←
    (match self with
     | ClusterState.SingleNode state =>
         if node =? ClusterNode.uuid (single_node state) then Ok (single_topology state) else Panic
     | ClusterState.Stable state => Ok (multi_topology state)
     | ClusterState.Elastic _ => Panic
     end : Result (list Topology));
  Ok (hosted_by node topology).

(** The handles of the other threads; what the cluster's own thread keeps of retained
    messages; the sessions it asked shards to add.  The trie of subscriptions is only
    handed on to the shards. *)
(** src/cluster.rs:47-75 [RunLoop] *)
Record cluster_loop := mkClusterLoop {
  cluster_state : ClusterState;
  cluster_listener : Listener;
  cluster_ticker : Ticker;
  cluster_flusher : Flusher;
  cluster_shards : gmap u32 Shard;
  cluster_rebalancer : Rebalancer;
  cluster_rt : Rt;
  added_sessions : list (u32 * Connect);
}.
(** src/cluster.rs:77-87 [FinState] *)
Record cluster_fin := mkClusterFin {
  fin_state : ClusterState;
  fin_listener : Listener;
  fin_ticker : Ticker;
  fin_flusher : Flusher;
  fin_shards : gmap u32 Shard;
  fin_rt : Rt;
}.
(** src/cluster.rs:35-45 [Inner] *)
Inductive cluster_inner :=
| ClusterInit | ClusterHandle (thrd : Thread) | ClusterTx (tx : Tx)
| ClusterMain (run_loop : cluster_loop) | ClusterClose (fin : cluster_fin).
(** src/cluster.rs:27-33 [Cluster] *)
Record Cluster := mkCluster { cluster_config : Config; inner_of : cluster_inner }.

(** src/cluster.rs:90-100 [Cluster::default] *)
Definition Cluster_default (num_cpus : nat) : Result Cluster :=
  config ← Config_default num_cpus; Ok (mkCluster config ClusterInit).

(** src/cluster.rs:104-115 [Cluster::drop] *)
Definition Cluster_drop (self : Cluster) : Result unit :=
  match inner_of self with ClusterHandle thrd => Thread_drop thrd | _ => Ok () end.

(** src/cluster.rs:126-149 [Cluster::from_config] *)
Definition Cluster_from_config (num_cpus : nat) (config : Config) : Result Cluster :=
  num_shards ← Config_num_shards num_cpus config;
  if num_shards =? 0 then err_desc ErrorKind.InvalidInput
  else if negb (is_power_of_2 num_shards) then err_desc ErrorKind.InvalidInput
  else Ok (mkCluster config ClusterInit).

(** src/cluster.rs:286-300 [Request] *)
Inductive cluster_request :=
| SetThreads (listener : Listener) (ticker : Ticker) (shards : gmap u32 Shard)
| SetRetainTopic (publish : Publish)
| ResetRetainTopic (topic_name : TopicName)
| AddConnection (pkt : Connect)
| CloseCluster.
Definition cluster_ipc : Type := Ipc cluster_request (Result unit).

(** What the clock says, and what comes of the requests to other threads: adding a session
    to a shard, and closing. *)
Module ClusterEnv.
Record ClusterEnv := mk {
  now : Z;
  add_session : u32 → Result unit;
  close_shard : u32 → Result Shard;
  close_listener : Result Listener;
  close_ticker : Result Ticker;
  close_flusher : Result Flusher;
}.
End ClusterEnv.
Abbreviation ClusterEnv := ClusterEnv.ClusterEnv.

(** * Sessions to shards *)

Section partition.
Context (cityhash_110_128 : bytes → Z).

(** The subtraction is the checked one. *)
(** src/rebalance.rs:53-61 [Rebalancer::session_partition] *)
Definition session_partition (id : bytes) (num_shards : u32) : Result u32 :=
  let hash := cityhash_110_128 id in
  let hash := Z.lxor (Z.land hash (Z.ones 64)) (Z.land (Z.shiftr hash 64) (Z.ones 64)) in
  let hash := Z.lxor (Z.land hash (Z.ones 32)) (Z.land (Z.shiftr hash 32) (Z.ones 32)) in
  if num_shards =? 0 then Panic else Ok (Z.land hash (num_shards - 1)).

Definition as_cluster_loop : M Cluster cluster_loop := λ self,
  match inner_of self with ClusterMain r => (self, Ok r) | _ => (self, Panic) end.
Definition set_cluster_inner (inner : cluster_inner) : M Cluster unit :=
  modify (λ self, mkCluster (cluster_config self) inner).

(** What was there before is dropped. *)
(** src/cluster.rs:517-533 [Cluster::handle_set] *)
Definition Cluster_handle_set (listener : Listener) (ticker : Ticker) (shards : gmap u32 Shard)
    : M Cluster unit :=
  r ← as_cluster_loop;
  _ ← set_cluster_inner (ClusterMain (mkClusterLoop (cluster_state r) listener ticker (cluster_flusher r)
        shards (cluster_rebalancer r) (cluster_rt r) (added_sessions r)));
  _ ← lift (Ticker_drop (cluster_ticker r));
  _ ← lift (Listener_drop (cluster_listener r));
  for_each (btree_iter Z.compare (cluster_shards r)) (λ e, lift (Shard_drop (snd e))).

Definition set_cluster_rt (rt : Rt) : M Cluster unit :=
  r ← as_cluster_loop;
  set_cluster_inner (ClusterMain (mkClusterLoop (cluster_state r) (cluster_listener r) (cluster_ticker r)
    (cluster_flusher r) (cluster_shards r) (cluster_rebalancer r) rt (added_sessions r))).

(** src/cluster.rs:462-467 [Cluster::drain_control_chan] *)
Definition Cluster_handle_retain (now : Z) (op : retain_op) : M Cluster unit :=
  r ← as_cluster_loop;
  rt ← lift (retain_step now op (cluster_rt r));
  set_cluster_rt rt.

(** A shard that is not here is not implemented; one that is asked must be a handle, and
    its failure is a panic. *)
(** src/cluster.rs:593-630 [Cluster::handle_add_connection] *)
Definition Cluster_handle_add_connection (num_cpus : nat) (env : ClusterEnv) (connect : Connect) : M Cluster unit :=
  r ← as_cluster_loop;
  let client_id := ConnectPayload.client_id (Connect.payload connect) in
  config ← gets cluster_config;
  num_shards ← lift (Config_num_shards num_cpus config);
  shard_id ← lift (session_partition (client_id_str client_id) num_shards);
  shard ← lift (match cluster_shards r !! shard_id with Some shard => Ok shard | None => Panic end);
  match Shard.inner shard with
  | ShardInner.Handle _ _ =>
      _ ← set_cluster_inner (ClusterMain (mkClusterLoop (cluster_state r) (cluster_listener r)
            (cluster_ticker r) (cluster_flusher r) (cluster_shards r) (cluster_rebalancer r) (cluster_rt r)
            (added_sessions r ++ [(shard_id, connect)])));
      lift (allow_panic (ClusterEnv.add_session env shard_id))
  | _ => panic
  end.

(** Only handles can be closed. *)
Definition close_handle {A} (is_handle : bool) (closed : Result A) : Result A :=
  if is_handle then closed else Panic.

(** src/cluster.rs:642-644 [Cluster::handle_close] *)
Fixpoint close_shards (env : ClusterEnv) (shards : list (u32 * Shard)) : Result (gmap u32 Shard) :=
  match shards with
  | [] => Ok ∅
  | (shard_id, shard) :: shards =>
      shard ← close_handle (match Shard.inner shard with ShardInner.Handle _ _ => true | _ => false end)
                (ClusterEnv.close_shard env shard_id);
      rest ← close_shards env shards;
      Ok (<[shard_id := shard]> rest)
  end.

(** Each thread is waited for in turn. *)
(** src/cluster.rs:632-678 [Cluster::handle_close] *)
Definition Cluster_handle_close (env : ClusterEnv) : M Cluster unit :=
  inner ← gets inner_of;
  _ ← set_cluster_inner ClusterInit;
  match inner with
  | ClusterMain r =>
      shards ← lift (close_shards env (btree_iter Z.compare (cluster_shards r)));
      listener ← lift (close_handle
        (match Listener.inner (cluster_listener r) with ListenerInner.Handle _ => true | _ => false end)
        (ClusterEnv.close_listener env));
      ticker ← lift (close_handle
        (match Ticker.inner (cluster_ticker r) with TickerInner.Handle _ => true | _ => false end)
        (ClusterEnv.close_ticker env));
      flusher ← lift (close_handle
        (match Flusher.inner (cluster_flusher r) with FlusherInner.Handle _ => true | _ => false end)
        (ClusterEnv.close_flusher env));
      set_cluster_inner (ClusterClose
        (mkClusterFin (cluster_state r) listener ticker flusher shards (cluster_rt r)))
  | ClusterClose _ => mret ()
  | _ => panic
  end.

(** A request, with whether its sender waits for the response. *)
(** src/cluster.rs:456-482 [Cluster::drain_control_chan] *)
Definition Cluster_handle_request (num_cpus : nat) (env : ClusterEnv) (req : cluster_request) (waits : bool)
    : M Cluster (option (Result unit) * bool) :=
  match req, waits with
  | SetThreads listener ticker shards, true =>
      _ ← Cluster_handle_set listener ticker shards; mret (Some (Ok ()), false)
  | SetRetainTopic publish, false =>
      _ ← Cluster_handle_retain (ClusterEnv.now env) (SetRetain publish); mret (None, false)
  | ResetRetainTopic topic, false =>
      _ ← Cluster_handle_retain (ClusterEnv.now env) (ResetRetain topic); mret (None, false)
  | AddConnection pkt, true =>
      _ ← Cluster_handle_add_connection num_cpus env pkt; mret (Some (Ok ()), false)
  | CloseCluster, true => _ ← Cluster_handle_close env; mret (Some (Ok ()), true)
  | _, _ => panic
  end.

(** src/cluster.rs:447-485 [Cluster::drain_control_chan] *)
Definition Cluster_drain_control_chan (num_cpus : nat) (env : ClusterEnv)
    (rx : nat → recv_answer (cluster_request * bool))
    : M Cluster (list (option (Result unit)) * (QueueStatus (cluster_request * bool) * bool)) :=
  drain_control_chan (Cluster_handle_request num_cpus env) rx.

(** The events of a poll: a wake-up, with what the queue answers then, the consensus port,
    or another. *)
Inductive cluster_event :=
| ClusterWake (drains : list (nat → recv_answer (cluster_request * bool)))
| ConsensusEvent
| OtherClusterEvent.

(** Consensus is not implemented. *)
(** src/cluster.rs:414-443 [Cluster::mio_events] *)
Fixpoint Cluster_mio_events (num_cpus : nat) (env : ClusterEnv) (events : list cluster_event) : M Cluster bool :=
  match events with
  | [] => mret false
  | event :: events =>
      exit ← match event with
             | ClusterWake drains => drain_until_empty (Cluster_handle_request num_cpus env) drains
             | ConsensusEvent | OtherClusterEvent => panic
             end;
      if exit : bool then mret true else Cluster_mio_events num_cpus env events
  end.

(** src/cluster.rs:398-398 [Cluster::main_loop] *)
Definition Cluster_work (env : ClusterEnv) : M Cluster bool :=
  _ ← Cluster_handle_retain (ClusterEnv.now env) Expires; mret false.

(** src/cluster.rs:401-405 [Cluster::main_loop] *)
Definition Cluster_finish (env : ClusterEnv) : M Cluster unit :=
  inner ← gets inner_of;
  match inner with
  | ClusterMain _ => Cluster_handle_close env
  | ClusterClose _ => mret ()
  | _ => panic
  end.

(** The events and answers of each poll, or its failure; what closing comes to. *)
(** src/cluster.rs:375-409 [Cluster::main_loop] *)
Fixpoint Cluster_main_loop (num_cpus : nat) (polls : list (option (ClusterEnv * list cluster_event)))
    (last : ClusterEnv) : M Cluster unit :=
  match polls with
  | [] => lift Diverge
  | None :: _ => panic
  | Some (env, events) :: polls =>
      exit ← Cluster_mio_events num_cpus env events;
      if exit : bool then Cluster_finish last else
      _ ← Cluster_work env;
      Cluster_main_loop num_cpus polls last
  end.
End partition.

(** ** The thread and its handles *)

(** The cluster's thread, for a hash and a number of cores. *)
(** src/cluster.rs:375-409 [Cluster::main_loop] *)
#[export] Program Instance Cluster_thread (cityhash : bytes → Z) (num_cpus : nat)
    : Threadable Cluster cluster_request (Result unit) := {|
  chan_bound := None;
  takes_requests := true;
  get_waits := false;
  batch_max := CONTROL_CHAN_SIZE;
  close_breaks := false;
  handles q w t t' r := ∃ env, Cluster_handle_request cityhash num_cpus env q w t = (t', r);
  works t t' r := ∃ env, Cluster_work env t = (t', r);
  finishes t t' r := ∃ env, Cluster_finish env t = (t', r);
|}.
Next Obligation.
  intros cityhash num_cpus q w t t' r c [env H]. unfold Cluster_handle_request in H.
  destruct q, w; try done; apply M_bind_inv in H as (? & ? & _ & H); by injection H as _ <- _.
Qed.

(** The cluster's thread as it is spawned: without shards, and with a listener and a ticker
    that are not. *)
(** src/cluster.rs:162-203 [Cluster::spawn] *)
Definition Cluster_main (num_cpus : nat) (now : Z) (config : Config) (node : ClusterNode) (flusher : Flusher)
    : Result Cluster :=
  let rebalancer := Rebalancer.mk config SingleNodeAlgorithm in
  topology ← Rebalancer_rebalance num_cpus rebalancer [node] [];
  let state := ClusterState.SingleNode (mkSingleNode config node topology) in
  listener ← Listener_default num_cpus;
  ticker ← Ticker_default num_cpus;
  Ok (mkCluster config
        (ClusterMain (mkClusterLoop state listener ticker flusher ∅ rebalancer (Rt_default now) []))).

(** src/cluster.rs:267-283 [Cluster::to_tx] *)
Definition Cluster_to_tx (self : Cluster) : M cluster_ipc Cluster :=
  inner ← match inner_of self with
          | ClusterHandle thrd => tx ← Thread_to_tx thrd; mret (ClusterTx tx)
          | ClusterTx tx => tx ← Tx_clone tx; mret (ClusterTx tx)
          | _ => panic
          end;
  mret (mkCluster (cluster_config self) inner).

Section handle.
Context (wake_result : outcome unit unit) (meanwhile : cluster_ipc → cluster_ipc).

(** src/cluster.rs:314-319 [Cluster::wake] *)
Definition Cluster_wake (self : Cluster) : M cluster_ipc unit :=
  match inner_of self with
  | ClusterTx _ =>
      _ ← lift (allow_panic (err_try ErrorKind.IOError wake_result));
      modify (ipc_set_woken true)
  | _ => panic
  end.

(** src/cluster.rs:321-331 [Cluster::add_connection] *)
Definition Cluster_add_connection (pkt : Connect) (self : Cluster) : M cluster_ipc unit :=
  match inner_of self with
  | ClusterTx tx => response ← Tx_request wake_result meanwhile tx (AddConnection pkt); lift response
  | _ => panic
  end.

(** src/cluster.rs:345-355 [Cluster::reset_retain_topic] *)
Definition Cluster_reset_retain_topic (topic_name : TopicName) (self : Cluster) : M cluster_ipc unit :=
  match inner_of self with
  | ClusterTx tx => Tx_post wake_result tx (ResetRetainTopic topic_name)
  | _ => panic
  end.

(** src/cluster.rs:357-368 [Cluster::close_wait] *)
Definition Cluster_close_wait (joined : option (outcome unit Cluster)) (self : Cluster) : M cluster_ipc Cluster :=
  match inner_of self with
  | ClusterHandle thrd =>
      _ ← ignored (Thread_request wake_result meanwhile thrd CloseCluster);
      '(_, cluster) ← Thread_close_wait joined thrd;
      mret cluster
  | _ => panic
  end.
End handle.

(** ** Spawning *)

(** What the operating system says when a shard is spawned, and what becomes of the request
    that gives it its miot thread. *)
Module ShardSpawnEnv.
Record ShardSpawnEnv := mk {
  poll : bool;
  waker : bool;
  miot_poll : bool;
  miot_waker : bool;
  set_miot : Result unit;
}.
End ShardSpawnEnv.
Abbreviation ShardSpawnEnv := ShardSpawnEnv.ShardSpawnEnv.

(** On the way out with an error, what was built so far is dropped. *)
Definition or_drop {A} (dropped : Result unit) (r : Result A) : Result A :=
  match r with Err e => _ ← dropped; Err e | _ => r end.

(** The handle; the two threads, with what they share with their handles; and the receiver
    of the messages, which goes to the shard with the handle of its miot. *)
(** src/shard.rs:169-244 [Shard::spawn] *)
Definition Shard_spawn (num_cpus : nat) (env : ShardSpawnEnv) (flusher : Flusher)
    (topic_filters : Inner Subscription) (self : Shard)
    : Result (Shard * (Shard * shard_ipc) * (Miot * miot_ipc) * (Miot * MsgRx)) :=
  '(shard, msg_rx, (main, ipc)) ←
    Shard_spawn_thread num_cpus (ShardSpawnEnv.poll env) (ShardSpawnEnv.waker env) flusher topic_filters self;
  or_drop (Shard_drop shard)
    (miot ← Miot_from_config (Shard.config self) (Shard.shard_id self);
     let '(ipc, shard_tx) := Shard_to_tx shard ipc in
     _ ← shard_tx;
     '(miot, miot_main) ← Miot_spawn (ShardSpawnEnv.miot_poll env) (ShardSpawnEnv.miot_waker env) miot;
     _ ← ShardSpawnEnv.set_miot env;
     Ok (shard, (main, ipc), miot_main, (miot, msg_rx))).

(** What the operating system says when a cluster is spawned; what becomes of the requests
    that give its shards their queues, and of the one that gives it its threads. *)
Module ClusterSpawnEnv.
Record ClusterSpawnEnv := mk {
  poll : bool;
  waker : bool;
  shard_env : u32 → ShardSpawnEnv;
  set_shard_queues : u32 → Result unit;
  listener : SpawnEnv;
  set_threads : Result unit;
}.
End ClusterSpawnEnv.
Abbreviation ClusterSpawnEnv := ClusterSpawnEnv.ClusterSpawnEnv.

Section spawn.
Context (num_cpus : nat) (env : ClusterSpawnEnv).

(** src/cluster.rs:217-233 [Cluster::spawn] *)
Fixpoint spawn_shards (config : Config) (flusher_tx : Flusher) (ids : list u32) : Result (list Shard) :=
  match ids with
  | [] => Ok []
  | shard_id :: ids =>
      shard ← Shard_from_config num_cpus config shard_id;
      '(shard, _, _, _) ← Shard_spawn num_cpus (ClusterSpawnEnv.shard_env env shard_id) flusher_tx
                            SubscribedTrie_default shard;
      shards ← or_drop (Shard_drop shard) (spawn_shards config flusher_tx ids);
      Ok (shard :: shards)
  end.

(** The queues of all shards, for one of them; those at hand are copies already. *)
(** src/cluster.rs:236-237 [Cluster::spawn] *)
Fixpoint copy_queues (shard_queues : list Shard) : Result (list Shard) :=
  match shard_queues with
  | [] => Ok []
  | s :: shard_queues => s ← Shard_to_msg_tx s; rest ← copy_queues shard_queues; Ok (s :: rest)
  end.

(** src/cluster.rs:235-239 [Cluster::spawn] *)
Fixpoint give_queues (shard_queues shards : list Shard) : Result unit :=
  match shards with
  | [] => Ok ()
  | shard :: shards =>
      _ ← copy_queues shard_queues;
      _ ← ClusterSpawnEnv.set_shard_queues env (Shard.shard_id shard);
      give_queues shard_queues shards
  end.

(** The handle of the cluster, and its thread with the request that is made of it. *)
(** src/cluster.rs:151-265 [Cluster::spawn] *)
Definition Cluster_spawn (now : Z) (node : ClusterNode) (self : Cluster)
    : Result (Cluster * Cluster * cluster_request) :=
  let config := cluster_config self in
  match inner_of self with
  | ClusterHandle _ | ClusterMain _ => err_desc ErrorKind.InvalidInput
  | _ =>
      _ ← io_call (ClusterSpawnEnv.poll env);
      _ ← io_call (ClusterSpawnEnv.waker env);
      flusher ← Flusher_from_config config;
      '(flusher, (_, flusher_ipc)) ← Flusher_spawn flusher;
      flusher_tx ← snd (Flusher_to_tx flusher flusher_ipc);
      main ← Cluster_main num_cpus now config node flusher;
      let '(thrd, ipc) := Thread_spawn (Q := cluster_request) (R := Result unit) [] in
      thrd ← Thread_set_waker thrd;
      let cluster := mkCluster config (ClusterHandle thrd) in
      or_drop (Cluster_drop cluster)
        (num_shards ← Config_num_shards num_cpus config;
         cluster_tx ← snd (Thread_to_tx thrd ipc);
         shards ← spawn_shards config flusher_tx (shard_ids num_shards);
         or_drop (close_handle (length shards =? 0)%nat (Ok ()))
           (shard_queues ← copy_queues shards;
            _ ← give_queues shard_queues shards;
            listener ← Listener_from_config num_cpus config;
            '(listener, _) ← Listener_spawn (ClusterSpawnEnv.listener env) cluster_tx listener;
            ticker ← Ticker_from_config config;
            '(ticker, _) ← Ticker_spawn now (Shard.shard_id <$> shards) ticker;
            _ ← ClusterSpawnEnv.set_threads env;
            Ok (cluster, main,
                SetThreads listener ticker (list_to_map ((λ s, (Shard.shard_id s, s)) <$> shards)))))
  end.
End spawn.
