(* ===== verification/ClusterTheorems.v ===== *)
(** The properties of [Cluster]: sessions are spread over the shards by a hash of their
    client, every connection finds its shard, comparing two topologies finds exactly the
    shards that move, and spawning a cluster ends in a panic. *)

From S2P Require Import Prelude Error Util Codec Types V5 PublishPacket SubPackets ConnectPackets.
From S2P Require Import Packets Config Ttrie Timer Retained State Queue.
From S2P Require Import Thread Server Session SessionTheorems Flusher Shard ShardLoop Miot Listener Ticker.
From S2P Require Import ServiceTheorems Cluster.
Local Open Scope Z_scope.

(** * Partition *)

(** The four words of a 128-bit number. *)
Definition word (i : Z) (h : Z) : Z := (h / 2 ^ (32 * i)) mod 2 ^ 32.
Definition words_xor (h : Z) : Z := Z.lxor (Z.lxor (word 0 h) (word 1 h)) (Z.lxor (word 2 h) (word 3 h)).

Lemma word_testbit i h n : 0 ≤ i → 0 ≤ n →
  Z.testbit (word i h) n = (n <? 32) && Z.testbit h (n + 32 * i).
Proof.
  intros Hi Hn. unfold word. rewrite <- Z.shiftr_div_pow2 by lia.
  destruct (Z.ltb_spec n 32).
  - by rewrite Z.mod_pow2_bits_low, Z.shiftr_spec by lia.
  - by rewrite Z.mod_pow2_bits_high by lia.
Qed.

Lemma fold_words h :
  let h64 := Z.lxor (Z.land h (Z.ones 64)) (Z.land (Z.shiftr h 64) (Z.ones 64)) in
  Z.lxor (Z.land h64 (Z.ones 32)) (Z.land (Z.shiftr h64 32) (Z.ones 32)) = words_xor h.
Proof.
  apply Z.bits_inj'. intros n Hn. unfold words_xor.
  rewrite !Z.lxor_spec, !word_testbit by lia.
  rewrite !Z.land_spec, !Z.shiftr_spec, !Z.lxor_spec, !Z.land_spec, !Z.shiftr_spec by lia.
  rewrite !Z.testbit_ones_nonneg by lia.
  replace (n + 32 * 0) with n by lia. replace (n + 32 * 1) with (n + 32) by lia.
  replace (n + 32 * 2) with (n + 64) by lia. replace (n + 32 * 3) with (n + 32 + 64) by lia.
  destruct (Z.ltb_spec n 32), (Z.ltb_spec n 64), (Z.ltb_spec (n + 32) 64); try lia;
    rewrite ?andb_true_r, ?andb_false_r; [|done..].
  by destruct (Z.testbit h n), (Z.testbit h (n + 32)), (Z.testbit h (n + 64)), (Z.testbit h (n + 32 + 64)).
Qed.

Lemma session_partition_eq cityhash id n :
  0 ≤ n → is_power_of_2 n = true →
  session_partition cityhash id n = Ok (words_xor (cityhash id) mod n).
Proof.
  intros H0 Hp. unfold session_partition. cbv zeta.
  rewrite fold_words. destruct (Z.eqb_spec n 0) as [->|Hn]; [done|]. by rewrite land_power_of_2.
Qed.

(** C38: the shard of a client is the exclusive or of the four words of the hash of its
    identifier, modulo the number of shards: one of the shards, and the same one
    whenever and wherever it is computed. *)
Theorem sessions_are_partitioned cityhash id n :
  0 ≤ n → is_power_of_2 n = true →
  ∃ shard, session_partition cityhash id n = Ok shard ∧ shard ∈ shard_ids n ∧
    shard = words_xor (cityhash id) mod n.
Proof.
  intros H0 Hp. eexists. split; [by apply session_partition_eq|]. split; [|done].
  assert (n ≠ 0) as Hn by by intros ->.
  pose proof (Z.mod_pos_bound (words_xor (cityhash id)) n ltac:(lia)) as Hm.
  apply list_elem_of_fmap. exists (Z.to_nat (words_xor (cityhash id) mod n)).
  rewrite elem_of_seq. lia.
Qed.

(** * Connections *)

Lemma from_config_ok num_cpus config c :
  Cluster_from_config num_cpus config = Ok c →
  ∃ n, Config_num_shards num_cpus config = Ok n ∧ is_power_of_2 n = true ∧ c = mkCluster config ClusterInit.
Proof.
  unfold Cluster_from_config. destruct (Config_num_shards num_cpus config) as [n| | |]; [|done..].
  rewrite bind_Ok_1. destruct (n =? 0); [done|]. destruct (is_power_of_2 n) eqn:E; [|done].
  intros [= <-]. by exists n.
Qed.

Lemma num_cores_pos num_cpus m : num_cores num_cpus = Ok m → 0 ≤ m.
Proof.
  unfold num_cores. destruct (unwrap _) as [n| | |]; [|done..]. rewrite bind_Ok_1. cbv zeta.
  destruct (_ <? _); [|done]. intros [= <-]. unfold ceil_power_of_2.
  destruct (skip_while _ _); apply Z.shiftl_nonneg; lia.
Qed.

Lemma num_shards_nonneg num_cpus config n :
  Config_num_shards num_cpus config = Ok n → (∀ k, Config.num_shards config = Some k → 0 ≤ k) → 0 ≤ n.
Proof.
  unfold Config_num_shards. destruct (num_cores num_cpus) as [m| | |] eqn:Em; [|done..].
  rewrite bind_Ok_1. intros [= <-] Hpos. destruct (Config.num_shards config) as [k|]; [by apply Hpos|].
  cbn. by apply num_cores_pos in Em.
Qed.

(** A running cluster, with the shards its topology gives the node. *)
Definition running_cluster (config : Config) (n : u32) (node : ClusterNode) (listener : Listener)
    (ticker : Ticker) (flusher : Flusher) (shards : gmap u32 Shard) (now : Z) (added : list (u32 * Connect))
    : Cluster :=
  mkCluster config
    (ClusterMain (mkClusterLoop
       (ClusterState.SingleNode (mkSingleNode config node ((λ shard, Topology.mk shard node []) <$> shard_ids n)))
       listener ticker flusher shards (Rebalancer.mk config SingleNodeAlgorithm) (Rt_default now) added)).

Lemma default_config_ok num_cpus config n :
  Config_num_shards num_cpus config = Ok n → ∃ c, Config_default num_cpus = Ok c ∧ Config.port c = Some DEF_MQTT_PORT.
Proof.
  unfold Config_num_shards, Config_default. destruct (num_cores num_cpus) as [m| | |]; [|done..].
  rewrite !bind_Ok_1. intros _. by eexists.
Qed.

Lemma main_eq num_cpus now config n node flusher :
  Config_num_shards num_cpus config = Ok n →
  ∃ listener ticker, Cluster_main num_cpus now config node flusher
    = Ok (running_cluster config n node listener ticker flusher ∅ now []) ∧
    Listener.inner listener = ListenerInner.Init ∧ Ticker.inner ticker = TickerInner.Init.
Proof.
  intros En. destruct (default_config_ok _ _ _ En) as (c & Ec & Ep). unfold Cluster_main.
  unfold Rebalancer_rebalance, Algorithm_rebalance. cbn [Rebalancer.algo Rebalancer.config].
  rewrite bind_Ok_1, En, !bind_Ok_1. unfold Listener_default, Ticker_default. rewrite Ec, !bind_Ok_1, Ep.
  cbn. by eexists _, _.
Qed.

Definition hosted_shard (cityhash : bytes → Z) (n : u32) (connect : Connect) : u32 :=
  words_xor (cityhash (client_id_str (ConnectPayload.client_id (Connect.payload connect)))) mod n.

(** The shard is one of those hosted. *)
Lemma hosted_shard_in cityhash n connect :
  0 ≤ n → is_power_of_2 n = true → hosted_shard cityhash n connect ∈ shard_ids n.
Proof.
  intros H0 Hp. assert (n ≠ 0) as Hn by by intros ->. unfold hosted_shard.
  set (h := words_xor _). pose proof (Z.mod_pos_bound h n ltac:(lia)) as Hm.
  apply list_elem_of_fmap. exists (Z.to_nat (h mod n)). rewrite elem_of_seq. lia.
Qed.

Definition is_shard_handle (shard : Shard) : Prop := ∃ thrd tx, Shard.inner shard = ShardInner.Handle thrd tx.

Section connections.
Context (cityhash : bytes → Z) (num_cpus : nat) (config : Config) (n : u32) (env : ClusterEnv).
Context (node : ClusterNode) (listener : Listener) (ticker : Ticker) (flusher : Flusher).
Context (shards : gmap u32 Shard) (now : Z).
Hypothesis num_shards : Config_num_shards num_cpus config = Ok n.
Hypothesis n_nonneg : 0 ≤ n.
Hypothesis n_power : is_power_of_2 n = true.
Hypothesis hosts_all : ∀ id, id ∈ shard_ids n → ∃ shard, shards !! id = Some shard ∧ is_shard_handle shard.
Hypothesis shards_answer : ∀ id, ClusterEnv.add_session env id = Ok ().
Local Abbreviation running := (running_cluster config n node listener ticker flusher shards now).

Lemma add_connection_eq connect added :
  Cluster_handle_add_connection cityhash num_cpus env connect (running added)
  = (running (added ++ [(hosted_shard cityhash n connect, connect)]), Ok ()).
Proof using num_shards n_nonneg n_power hosts_all shards_answer.
  destruct (hosts_all (hosted_shard cityhash n connect)) as (shard & Es & thrd & tx & Ei).
  { by apply hosted_shard_in. }
  unfold Cluster_handle_add_connection.
  erewrite (M_bind_Ok as_cluster_loop) by done. cbv zeta. erewrite (M_bind_Ok (gets _)) by done.
  cbn [cluster_config running_cluster]. rewrite num_shards, lift_bind_Ok, session_partition_eq, lift_bind_Ok by done.
  fold (hosted_shard cityhash n connect). cbn [cluster_shards]. rewrite Es, lift_bind_Ok, Ei.
  erewrite M_bind_Ok by done. by rewrite shards_answer.
Qed.

Lemma handle_connections connects : ∀ added,
  handle_requests (Cluster_handle_request cityhash num_cpus env)
    ((λ pkt, (AddConnection pkt, true)) <$> connects) false (running added)
  = (running (added ++ ((λ pkt, (hosted_shard cityhash n pkt, pkt)) <$> connects)),
     Ok ((λ _, Some (Ok ())) <$> connects, false)).
Proof using num_shards n_nonneg n_power hosts_all shards_answer.
  induction connects as [|pkt connects IH]; intros added; [by rewrite app_nil_r|].
  cbn [fmap list_fmap handle_requests].
  erewrite M_bind_Ok; [|cbn [Cluster_handle_request]; by erewrite M_bind_Ok by by apply add_connection_eq].
  cbn [orb]. erewrite M_bind_Ok by apply IH. rewrite <- app_assoc. done.
Qed.
End connections.

Lemma hosted_by_all uuid node ids :
  ClusterNode.uuid node = uuid →
  hosted_by uuid ((λ shard, Topology.mk shard node []) <$> ids) = ids.
Proof.
  intros H. unfold hosted_by. induction ids as [|i ids IH]; [done|].
  cbn [fmap list_fmap]. rewrite filter_cons, decide_True by done. cbn [fmap list_fmap]. f_equal. exact IH.
Qed.

(** C14: a cluster's thread for a valid configuration, given handles of its shards, takes any
    sequence of connections that the shards accept: each goes to the shard of its client,
    which is one of those its topology says it hosts. *)
Theorem connections_find_their_shard cityhash num_cpus now config c n node flusher listener ticker shards env connects :
  Cluster_from_config num_cpus config = Ok c → 0 ≤ n → Config_num_shards num_cpus config = Ok n →
  (∀ id, id ∈ shard_ids n → ∃ shard, shards !! id = Some shard ∧ is_shard_handle shard) →
  (∀ id, ClusterEnv.add_session env id = Ok ()) →
  ∃ c1 c2 r resps hosted,
    Cluster_main num_cpus now config node flusher = Ok c1 ∧
    handle_requests (Cluster_handle_request cityhash num_cpus env)
      ((SetThreads listener ticker shards, true) :: ((λ pkt, (AddConnection pkt, true)) <$> connects)) false c1
      = (c2, Ok (resps, false)) ∧
    inner_of c2 = ClusterMain r ∧
    (added_sessions r).*2 = connects ∧
    ClusterState_shards_in_node (cluster_state r) (ClusterNode.uuid node) = Ok hosted ∧
    Forall (λ e, e.1 ∈ hosted ∧
      session_partition cityhash (client_id_str (ConnectPayload.client_id (Connect.payload e.2)))
        (Z.of_nat (length hosted)) = Ok e.1) (added_sessions r).
Proof.
  intros (n' & En' & Hp & ->)%from_config_ok H0 En Hh Ha. rewrite En in En'. injection En' as <-.
  destruct (main_eq num_cpus now config n node flusher En) as (l0 & t0 & Em & El & Et).
  exists (running_cluster config n node l0 t0 flusher ∅ now []).
  eexists _, _, _, (shard_ids n). split; [done|]. split.
  { cbn [handle_requests]. erewrite M_bind_Ok.
    2: { cbn [Cluster_handle_request]. erewrite M_bind_Ok; [done|]. unfold Cluster_handle_set.
         erewrite (M_bind_Ok as_cluster_loop) by done. erewrite M_bind_Ok by done.
         cbn [cluster_ticker cluster_listener running_cluster]. unfold Ticker_drop, Listener_drop.
         by rewrite Et, El. }
    cbn [orb]. by erewrite M_bind_Ok by by apply handle_connections. }
  split; [done|]. cbn [added_sessions cluster_state app]. split; [|split].
  - rewrite <- list_fmap_compose. apply list_fmap_id.
  - unfold ClusterState_shards_in_node. cbn [single_node single_topology]. rewrite Z.eqb_refl, bind_Ok_1.
    by rewrite hosted_by_all.
  - apply Forall_fmap, Forall_forall. intros pkt _. cbn [compose fst snd].
    assert (Z.of_nat (length (shard_ids n)) = n) as -> by
      (unfold shard_ids; rewrite length_fmap, length_seq; lia).
    rewrite session_partition_eq by done. split; [by apply hosted_shard_in|done].
Qed.

(** * Spawning a cluster *)

Section spawning.
Context (num_cpus : nat) (env : ClusterSpawnEnv).

(** A computation that ends; that comes to nothing is none that waits. *)
Lemma spawned_thread poll waker flusher id config r :
  Shard_spawn_thread num_cpus poll waker flusher SubscribedTrie_default (Shard.mk id config ShardInner.Init) = r →
  r ≠ Diverge ∧ ∀ shard rx t, r = Ok (shard, rx, t) → is_shard_handle shard.
Proof.
  intros <-. unfold Shard_spawn_thread, Config_num_shards, num_cores, u32_try_from. cbn [Shard.inner Shard.config].
  destruct (_ <? _); [|done]. cbn [unwrap]. rewrite !bind_Ok_1. cbv zeta.
  destruct (ceil_power_of_2 _ <? _); [|done]. rewrite !bind_Ok_1.
  destruct poll, waker; cbn [io_call]; [|done..]. rewrite !bind_Ok_1. unfold Config_mqtt_pkt_batch_size.
  destruct (Config.mqtt_pkt_batch_size config) as [v|]; [destruct (_ <? v); [done|]|]; rewrite bind_Ok_1;
    (destruct (_ <=? _); [done|]); (split; [done|]); intros shard rx t [= <- _ _]; by eexists _, _.
Qed.

Lemma dropped_handle shard : is_shard_handle shard → ∀ r : Result unit, Shard_drop shard = r → r = Ok () ∨ r = Panic.
Proof. intros (thrd & tx & E) r <-. unfold Shard_drop, Thread_drop. rewrite E. destruct (_ || _); auto. Qed.

Lemma or_drop_ends {A} shard (r : Result A) :
  is_shard_handle shard → r ≠ Diverge → or_drop (Shard_drop shard) r ≠ Diverge.
Proof. intros Hs Hr. destruct r; try done. cbn. by destruct (dropped_handle shard Hs _ eq_refl) as [->| ->]. Qed.

Lemma or_drop_Ok {A} dropped (r : Result A) a : or_drop dropped r = Ok a → r = Ok a.
Proof. destruct r; try done. cbn. by destruct dropped. Qed.

Lemma bind_ends {A B} (m : Result A) (f : A → Result B) :
  m ≠ Diverge → (∀ a, m = Ok a → f a ≠ Diverge) → m ≫= f ≠ Diverge.
Proof. destruct m; intros Hm Hf; try done. by apply (Hf a). Qed.

Lemma Shard_to_tx_ends shard ipc : is_shard_handle shard → snd (Shard_to_tx shard ipc) ≠ Diverge.
Proof.
  intros (thrd & tx & E). unfold Shard_to_tx, Thread_to_tx. rewrite E. by destruct (Thread.tx thrd) as [[]|].
Qed.

Lemma Miot_spawn_ends poll waker id config : Miot_spawn poll waker (Miot.mk id config MiotInner.Init) ≠ Diverge.
Proof. by destruct poll, waker. Qed.

Lemma spawned_shard senv flusher id config :
  ShardSpawnEnv.set_miot senv ≠ Diverge →
  let r := Shard_spawn num_cpus senv flusher SubscribedTrie_default (Shard.mk id config ShardInner.Init) in
  r ≠ Diverge ∧ ∀ shard s m x, r = Ok (shard, s, m, x) → is_shard_handle shard.
Proof.
  intros Hm. unfold Shard_spawn. destruct (Shard_spawn_thread _ _ _ _ _ _) as [[[shard rx] [main ipc]]| | |] eqn:Es;
    apply spawned_thread in Es as [Hd Hs]; [|done..]. specialize (Hs _ _ _ eq_refl). rewrite bind_Ok_1.
  cbv beta iota zeta. unfold Miot_from_config. rewrite bind_Ok_1.
  destruct (Shard_to_tx shard ipc) as [ipc' tx] eqn:Et.
  assert (tx ≠ Diverge) as Htx by (intros ->; by apply (Shard_to_tx_ends shard ipc Hs); rewrite Et).
  split.
  - apply or_drop_ends; [done|]. apply bind_ends; [done|]. intros _ _. apply bind_ends; [apply Miot_spawn_ends|].
    intros [miot miot_main] _. apply bind_ends; [done|]. by intros [] _.
  - intros shard' s m x E%or_drop_Ok. apply bind_Ok in E as (tx' & _ & E).
    apply bind_Ok in E as ([miot miot_main] & _ & E). apply bind_Ok in E as ([] & _ & [= <- _ _ _]). done.
Qed.

Lemma default_ends c : Config_default num_cpus = c → c ≠ Diverge.
Proof.
  intros <-. unfold Config_default, num_cores, u32_try_from. destruct (_ <? _); [|done]. cbn [unwrap].
  rewrite bind_Ok_1. cbv zeta. by destruct (_ <? _).
Qed.

Lemma spawn_shards_handles config flusher_tx ids :
  (∀ id, ShardSpawnEnv.set_miot (ClusterSpawnEnv.shard_env env id) ≠ Diverge) →
  spawn_shards num_cpus env config flusher_tx ids ≠ Diverge ∧
  ∀ shards, spawn_shards num_cpus env config flusher_tx ids = Ok shards →
    length shards = length ids ∧ Forall is_shard_handle shards.
Proof.
  intros Hset. induction ids as [|id ids [IHd IH]]; [split; [done|]; by intros shards [= <-]|].
  cbn [spawn_shards]. unfold Shard_from_config, Shard_default.
  destruct (Config_default num_cpus) as [c| | |] eqn:Ec; [|done|done|by apply default_ends in Ec].
  rewrite !bind_Ok_1.
  destruct (spawned_shard (ClusterSpawnEnv.shard_env env id) flusher_tx id config (Hset id)) as [Hd Hs].
  destruct (Shard_spawn _ _ _ _ _) as [[[[shard s] m] x]| | |]; [|done..]. rewrite bind_Ok_1.
  cbv beta iota. specialize (Hs _ _ _ _ eq_refl).
  destruct (spawn_shards num_cpus env config flusher_tx ids) as [shards|e| |]; [|..|done]; [|cbn [or_drop]|done].
  2: { destruct Hs as (thrd & tx & Ei). unfold Shard_drop, Thread_drop. rewrite Ei. by destruct (_ || _). }
  cbn [or_drop]. rewrite bind_Ok_1. split; [done|]. intros shards' [= <-].
  destruct (IH shards eq_refl) as [El Hf]. cbn [length]. split; [by rewrite El|by constructor].
Qed.

Definition is_msg_tx (shard : Shard) : Prop := ∃ tx, Shard.inner shard = ShardInner.MsgTx tx.

Lemma copy_handles shards :
  Forall is_shard_handle shards →
  ∃ queues, copy_queues shards = Ok queues ∧ length queues = length shards ∧ Forall is_msg_tx queues.
Proof.
  induction 1 as [|shard shards (thrd & tx & Ei) _ (queues & E & El & Hf)]; [by exists []|].
  cbn [copy_queues]. unfold Shard_to_msg_tx at 1. rewrite Ei, bind_Ok_1, E, bind_Ok_1.
  eexists. split; [done|]. split; [by cbn; rewrite El|]. constructor; [by eexists|done].
Qed.

(** A copy is not copied again. *)
Lemma copy_copies shard queues : is_msg_tx shard → copy_queues (shard :: queues) = Panic.
Proof. intros [tx E]. cbn [copy_queues]. unfold Shard_to_msg_tx. by rewrite E. Qed.

(** No cluster can be spawned: for every configuration that is accepted, once the poller and
    its waker are there, spawning ends in a panic, whatever the operating system and the
    threads that were started answer, so long as each shard answers that it has its miot,
    since the queues it gives the shards are copied twice and only a handle can be copied. *)
Theorem spawning_a_cluster_panics now config c node :
  Cluster_from_config num_cpus config = Ok c →
  (∀ n, Config.num_shards config = Some n → 0 ≤ n) →
  ClusterSpawnEnv.poll env = true → ClusterSpawnEnv.waker env = true →
  (∀ id, ShardSpawnEnv.set_miot (ClusterSpawnEnv.shard_env env id) ≠ Diverge) →
  Cluster_spawn num_cpus env now node c = Panic.
Proof.
  intros (n & En & Hp & ->)%from_config_ok Hpos Epoll Ewaker Hset.
  assert (0 ≤ n) as H0 by by eapply num_shards_nonneg.
  unfold Cluster_spawn. cbn [cluster_config inner_of]. cbv zeta. rewrite Epoll, Ewaker. cbn [io_call].
  rewrite !bind_Ok_1. unfold Flusher_from_config. rewrite bind_Ok_1.
  unfold Flusher_spawn. cbn [Flusher.inner Flusher.config Thread_spawn]. rewrite bind_Ok_1. cbv beta iota.
  set (flusher := Flusher.mk config _).
  destruct (snd (Flusher_to_tx flusher _)) as [flusher_tx| | |] eqn:Ef; [|by vm_compute in Ef..]. clear Ef.
  rewrite bind_Ok_1. destruct (main_eq num_cpus now config n node flusher En) as (l & t & E & _).
  rewrite E, bind_Ok_1. unfold Thread_set_waker. cbn [Thread.tx Thread.name Thread.handle].
  rewrite bind_Ok_1, En, bind_Ok_1. unfold Thread_to_tx, Tx_clone. cbn [Thread.tx].
  set (cluster_tx := snd _). assert (cluster_tx = Ok (Tx.N true)) as -> by reflexivity. rewrite bind_Ok_1.
  destruct (spawn_shards_handles config flusher_tx (shard_ids n) Hset) as [Hd Hs].
  destruct (spawn_shards num_cpus env config flusher_tx (shard_ids n)) as [shards|e| |]; [|done..].
  destruct (Hs shards eq_refl) as [El Hf]. rewrite bind_Ok_1.
  destruct (copy_handles shards Hf) as (queues & Eq & Elq & Hq). rewrite Eq, bind_Ok_1.
  assert (n ≠ 0) as Hn by by intros ->.
  unfold shard_ids in El. rewrite length_fmap, length_seq in El.
  destruct shards as [|shard shards]; [cbn in El; lia|]. destruct queues as [|queue queues]; [done|].
  apply Forall_cons in Hq as [Hq _]. cbn [give_queues]. by rewrite copy_copies.
Qed.
End spawning.


(** * Comparing topologies *)

Lemma sort_by_shard_permutation ts : sort_by_shard ts ≡ₚ ts.
Proof. apply sort_by_key_permutation. Qed.

Abbreviation shard_le := (key_le Topology.shard).

Lemma sort_by_shard_sorted ts : StronglySorted shard_le (sort_by_shard ts).
Proof. apply sort_by_key_sorted. Qed.

Lemma sorted_shards ts : StronglySorted shard_le ts → StronglySorted Z.le (Topology.shard <$> ts).
Proof. induction 1; cbn; constructor; [done|]. by apply Forall_fmap. Qed.

Lemma sorted_sublist ts ts' : ts `sublist_of` ts' → StronglySorted shard_le ts' → StronglySorted shard_le ts.
Proof.
  induction 1 as [|t ts ts' Hsub IH|t ts ts' Hsub IH]; intros Hs; [done|..];
    apply StronglySorted_inv in Hs as [Hs Hf]; [|by apply IH].
  constructor; [by apply IH|]. rewrite Forall_forall in Hf |- *. intros x Hx. apply Hf.
  by eapply elem_of_sublist.
Qed.

(** Sorted, the shards of two topologies for the same shards are the same list. *)
Lemma sorted_shards_unique olds news :
  Topology.shard <$> olds ≡ₚ Topology.shard <$> news →
  Topology.shard <$> sort_by_shard olds = Topology.shard <$> sort_by_shard news.
Proof.
  intros H. apply (StronglySorted_unique Z.le).
  1,2: apply sorted_shards, sort_by_shard_sorted.
  by rewrite !sort_by_shard_permutation.
Qed.

Lemma diff_sorted_spec olds : ∀ news,
  Topology.shard <$> olds = Topology.shard <$> news → NoDup (Topology.shard <$> olds) →
  ∃ diffs, diff_sorted olds news = Ok diffs ∧ diffs.*1 `sublist_of` olds ∧
    ∀ o n, (o, n) ∈ diffs ↔
      o ∈ olds ∧ n ∈ news ∧ Topology.shard o = Topology.shard n ∧ Topology_eqb o n = false.
Proof.
  induction olds as [|o olds IH]; intros [|n news] He Hd; [|done|done|].
  - exists []. split; [done|]. split; [constructor|]. intros o n.
    split; [by intros ?%not_elem_of_nil|by intros (?%not_elem_of_nil & _)].
  - injection He as Eo Es. change (Topology.shard <$> olds = Topology.shard <$> news) in Es.
    cbn [fmap list_fmap] in Hd. apply NoDup_cons in Hd as [Hn Hd].
    destruct (IH news) as (diffs & E & Hsub & Hin); [done|done|].
    cbn [diff_sorted]. rewrite (proj2 (Z.eqb_eq _ _)) by done. cbn [negb]. rewrite E, bind_Ok_1.
    eexists. split; [done|].
    assert (∀ o' n', o' ∈ o :: olds → n' ∈ n :: news → Topology.shard o' = Topology.shard n' →
              (o' = o ∧ n' = n) ∨ (o' ∈ olds ∧ n' ∈ news)) as Hcase.
    { intros o' n' [->|Ho]%elem_of_cons [->|Hn']%elem_of_cons Hs; [by left| | |by right]; exfalso; apply Hn.
      - replace (Topology.shard o) with (Topology.shard n') by congruence.
        rewrite Es. by apply list_elem_of_fmap_2.
      - replace (Topology.shard o) with (Topology.shard o') by congruence. by apply list_elem_of_fmap_2. }
    destruct (Topology_eqb o n) eqn:Eq.
    + split; [by constructor|]. intros o' n'. rewrite Hin. split.
      * intros (? & ? & ? & ?). split; [by right|]. split; [by right|done].
      * intros (Ho & Hn' & Hs & Hq). destruct (Hcase o' n' Ho Hn' Hs) as [[-> ->]|[? ?]]; [congruence|done].
    + split; [by constructor|]. intros o' n'. rewrite elem_of_cons, Hin. split.
      * intros [[= -> ->]|(? & ? & ? & ?)]; (split; [by left||by right|]); (split; [by left||by right|]); done.
      * intros (Ho & Hn' & Hs & Hq). destruct (Hcase o' n' Ho Hn' Hs) as [[-> ->]|[? ?]]; [by left|by right].
Qed.

(** C13: for two topologies of the same shards, in any order, the difference has for each shard
    whose master or replicas changed the old and the new topology, in the order of the
    shards, and nothing else. *)
Theorem diff_topology_spec olds news :
  NoDup (Topology.shard <$> olds) → Topology.shard <$> olds ≡ₚ Topology.shard <$> news →
  ∃ diffs, diff_topology olds news = Ok diffs ∧
    StronglySorted shard_le diffs.*1 ∧
    ∀ o n, (o, n) ∈ diffs ↔
      o ∈ olds ∧ n ∈ news ∧ Topology.shard o = Topology.shard n ∧ Topology_eqb o n = false.
Proof.
  intros Hd Hp. unfold diff_topology. cbv zeta.
  pose proof (sorted_shards_unique olds news Hp) as Es.
  assert (length (sort_by_shard olds) = length (sort_by_shard news)) as El.
  { apply (f_equal length) in Es. by rewrite !length_fmap in Es. }
  rewrite El, Nat.eqb_refl.
  destruct (diff_sorted_spec (sort_by_shard olds) (sort_by_shard news) Es) as (diffs & E & Hsub & Hin).
  { by rewrite sort_by_shard_permutation. }
  exists diffs. split; [done|]. split; [by eapply sorted_sublist, sort_by_shard_sorted|].
  intros o n. rewrite Hin. by rewrite !sort_by_shard_permutation.
Qed.

(** * Instances *)

(** A hash that adds up the bytes. *)
Definition ex_hash (id : bytes) : Z := foldr Z.add 0 id.
Definition ex_node : ClusterNode := ClusterNode.mk 77 [] 1 [].
Definition ex_cluster_config : Config :=
  Config.mk [0x6d] None (Some 4) None None None None None None None None None None None None None None None.

Lemma sessions_are_partitioned_witness :
  ∃ shard, session_partition ex_hash [0x63; 0x64] 4 = Ok shard ∧ shard ∈ shard_ids 4 ∧ shard = 3.
Proof.
  destruct (sessions_are_partitioned ex_hash [0x63; 0x64] 4) as (shard & E & Hin & ->); [lia|done|].
  eexists. split; [exact E|]. split; [exact Hin|]. by vm_compute.
Defined.

Definition ex_thread : Thread := Thread.mk [] true (Some (Tx.N true)).
Definition ex_shards : gmap u32 Shard :=
  list_to_map ((λ id, (id, Shard.mk id ex_cluster_config (ShardInner.Handle ex_thread (MsgTx.mk id 0)))) <$> shard_ids 4).
Definition ex_cluster_env : ClusterEnv :=
  ClusterEnv.mk 0 (λ _, Ok ()) (λ _, Panic) Panic Panic Panic.
Definition ex_cluster_listener : Listener :=
  Listener.mk 1883 ex_cluster_config (ListenerInner.Handle ex_thread).
Definition ex_cluster_ticker : Ticker := Ticker.mk ex_cluster_config (TickerInner.Handle ex_thread).
Definition ex_cluster_flusher : Flusher := Flusher.mk ex_cluster_config (FlusherInner.Handle ex_thread).
Definition ex_connection : Connect :=
  Connect.mk MQTT MqttProtocol.V5 (mkConnectFlags 2) 60 None
    (ConnectPayload.mk ex_client None None None None None).

Lemma ex_shards_handles id :
  id ∈ shard_ids 4 → ∃ shard, ex_shards !! id = Some shard ∧ is_shard_handle shard.
Proof.
  change (shard_ids 4) with [0; 1; 2; 3]. rewrite !elem_of_cons, elem_of_nil.
  intros [->|[->|[->|[->|[]]]]]; (eexists; split; [vm_compute; reflexivity|by eexists _, _]).
Qed.

Lemma connections_find_their_shard_witness :
  ∃ c c1 c2 resps, Cluster_from_config 8 ex_cluster_config = Ok c ∧
    Cluster_main 8 0 ex_cluster_config ex_node ex_cluster_flusher = Ok c1 ∧
    handle_requests (Cluster_handle_request ex_hash 8 ex_cluster_env)
      [(SetThreads ex_cluster_listener ex_cluster_ticker ex_shards, true); (AddConnection ex_connection, true)]
      false c1
    = (c2, Ok (resps, false)).
Proof.
  destruct (connections_find_their_shard ex_hash 8 0 ex_cluster_config (mkCluster ex_cluster_config ClusterInit) 4
    ex_node ex_cluster_flusher ex_cluster_listener ex_cluster_ticker ex_shards ex_cluster_env [ex_connection])
    as (c1 & c2 & r & resps & hosted & E1 & E2 & _).
  - by vm_compute.
  - done.
  - by vm_compute.
  - exact ex_shards_handles.
  - done.
  - exists (mkCluster ex_cluster_config ClusterInit), c1, c2, resps.
    split; [by vm_compute|]. split; [exact E1|exact E2].
Defined.

Lemma diff_topology_spec_witness :
  ∃ diffs, diff_topology [Topology.mk 1 ex_node []; Topology.mk 0 ex_node []]
             [Topology.mk 0 ex_node []; Topology.mk 1 (ClusterNode.mk 78 [] 1 []) []] = Ok diffs ∧
    length diffs = 1%nat.
Proof.
  destruct (diff_topology_spec [Topology.mk 1 ex_node []; Topology.mk 0 ex_node []]
             [Topology.mk 0 ex_node []; Topology.mk 1 (ClusterNode.mk 78 [] 1 []) []]) as (diffs & E & _).
  - cbn. apply NoDup_cons. split; [by intros ?%list_elem_of_singleton|apply NoDup_singleton].
  - cbn. constructor.
  - exists diffs. split; [exact E|]. vm_compute in E. by injection E as <-.
Defined.
