(* ===== verification/Admission.v ===== *)
(** How a client is admitted, from the bytes of its CONNECT to the CONNACK in the queue of
    its connection: the handshake of [src/handshake.rs], the request of [src/cluster.rs] and
    the one of [src/shard.rs], one after the other. *)

From S2P Require Import Prelude Error Util Codec Types V5 V5Facts PropsBlock Frame AckPackets.
From S2P Require Import PublishPacket SubPackets Config ConnectPackets Packets PacketTheorems.
From S2P Require Import PacketIO PacketIOTheorems Ttrie Timer Retained State Queue KeepAlive.
From S2P Require Import Thread Server Session SessionTheorems Flusher Shard ShardLoop ShardTheorems Miot MiotTheorems.
From S2P Require Import Listener Ticker ServiceTheorems Cluster ClusterTheorems.
Local Open Scope Z_scope.

(** * The handshake *)

(** Chunks of bytes, each with the time its read ends. *)
Definition delivered (chunks : list (bytes * Z)) : list ((nat → io_read) * Z) :=
  (λ '(chunk, now), (λ _, ReadOk chunk, now)) <$> chunks.

(** A reader that is done stays so. *)
Lemma read_chunks_done cs : ∀ s fh m, read_chunks (MQTTRead.Fin s fh m) cs = Ok (MQTTRead.Fin s fh m).
Proof. induction cs as [|c cs IH]; intros s fh m; [done|]. cbn [read_chunks MQTTRead_read]. by rewrite bind_Ok_1. Qed.

Lemma read_chunks_none cs st : read_chunks MQTTRead.None cs = Ok st → st = MQTTRead.None.
Proof. by destruct cs as [|c cs]; [intros [= <-]|]. Qed.

(** Before the deadline the handshake reads what the chunks come to. *)
Lemma handshake_reads timeout chunks s fh m c : ∀ pr,
  Forall (λ x, x.2 < timeout) chunks → chunks ≠ [] →
  read_chunks pr chunks.*1 = Ok (MQTTRead.Fin s fh m) →
  MQTTRead_parse (MQTTRead.Fin s fh m) = Ok (Packet.Connect c) →
  handshake_loop timeout pr (delivered chunks) = Ok (Accepted c).
Proof.
  intros pr Ht Hne Hr Hp. revert pr Hne Hr. induction Ht as [|[chunk now] chunks Hnow _ IH]; intros pr Hne Hr; [done|].
  cbn [delivered fmap list_fmap handshake_loop read_chunks fst] in Hr |- *. fold (delivered chunks).
  apply bind_Ok in Hr as ([st w] & Er & Hr). rewrite Er. cbn [snd] in Hnow.
  assert (∀ st', st' = st → (∀ s fh m, st' ≠ MQTTRead.Fin s fh m) → chunks ≠ []) as Hmore.
  { intros st' -> Hst ->. injection Hr as Hr. by eapply Hst. }
  destruct st as [| | | |s' fh' m'].
  1: by apply read_chunks_none in Hr.
  1-3: rewrite (proj2 (Z.ltb_lt _ _)) by done; apply IH; [by eapply Hmore|done].
  rewrite (read_chunks_done (chunks.*1)) in Hr. injection Hr as -> -> ->. by rewrite Hp.
Qed.

(** A CONNECT that arrives in pieces, in time, is accepted as it was encoded. *)
Lemma handshake_accepts config now c b fh k chunks last max_size :
  valid_Connect c → Packet_encode (Packet.Connect c) = Ok b → FixedHeader_decode (as_ref b) = Ok (fh, k) →
  Config_mqtt_max_packet_size config = Ok max_size → Z.of_nat (length (as_ref b)) ≤ max_size →
  concat chunks.*1 = as_ref b → Forall (λ x, x ≠ []) chunks.*1 → header_arrives k chunks.*1 →
  Forall (λ x, x.2 < now + Config_connect_timeout config * NANOS) chunks →
  Handshake_main_loop config now (delivered chunks) last = Ok (Some c).
Proof.
  intros Hv He Hh Hm Hl Hc Hne Ha Ht. unfold Handshake_main_loop. rewrite Hm, bind_Ok_1. cbv zeta.
  assert (wire_frame (as_ref b) fh k (Z.to_nat max_size)) as Hw by (eapply encoded_wire_frame; [done..|lia]).
  erewrite handshake_reads; [by rewrite bind_Ok_1|done| |by apply (read_frame (as_ref b) fh k)|].
  - intros ->. by destruct Ha as [(? & ? & [=] & _)|(? & ? & ? & [=] & _)].
  - by apply (parse_encoded (Packet.Connect c) b fh k).
Qed.

(** * The shard *)

(** A configuration with numbers of their types, of which the ones that CONNACK carries
    are those that MQTT allows. *)
Record serviceable (config : Config) (max_size batch : u32) (qos : QoS) : Prop := {
  serves_size : Config_mqtt_max_packet_size config = Ok max_size;
  serves_size_range : 0 < max_size;
  serves_batch : Config_mqtt_pkt_batch_size config = Ok batch;
  serves_qos : QoS_try_from (Config_mqtt_maximum_qos config) = Ok qos;
  serves_receive : 0 < Config_mqtt_receive_maximum config < 65536;
  serves_expiry n : Config.mqtt_session_expiry_interval config = Some n → is_u32 n;
  serves_alias n : Config.mqtt_topic_alias_max config = Some n → is_u16 n;
}.

Lemma size_is_u32 config n : Config_mqtt_max_packet_size config = Ok n → 0 < n → is_u32 n.
Proof.
  unfold Config_mqtt_max_packet_size, is_u32. destruct (Config.mqtt_max_packet_size config) as [v|].
  - destruct (Z.ltb_spec 268435456 v); [done|]. intros [= <-]. lia.
  - intros [= <-]. unfold DEF_MQTT_FLUSH_TIMEOUT. lia.
Qed.

Lemma u16_of_f32_bound x : is_u16 (u16_of_f32 x).
Proof.
  unfold u16_of_f32, is_u16. destruct x as [s|[]| |[] m e]; try lia.
  assert (0 <= (if 0 <=? e then Z.pos m * 2 ^ e else Z.pos m / 2 ^ - e)); [|lia].
  destruct (0 <=? e); [apply Z.mul_nonneg_nonneg; [done|by apply Z.pow_nonneg]|].
  by apply Zdiv.Z_div_nonneg_nonneg, Z.pow_nonneg.
Qed.

Lemma connect_numbers c : valid_Connect c →
  (∀ n, Connect_session_expiry_interval c = Some n → is_u32 n) ∧ is_u16 (Connect_receive_maximum c).
Proof.
  intros ((_ & _ & Hp & _) & _). unfold Connect_session_expiry_interval, Connect_receive_maximum.
  destruct (Connect.properties c) as [p|]; [|done]. destruct (Hp p eq_refl) as [[Hv _] _].
  unfold ConnectProperties_to_props in Hv. apply Forall_app in Hv as [He Hv]. apply Forall_app in Hv as [Hr _].
  unfold ConnectProperties_receive_maximum. split.
  - intros n E. rewrite E in He. by apply Forall_cons in He as [He _].
  - destruct (ConnectProperties.receive_maximum p); [|done]. by apply Forall_cons in Hr as [Hr _].
Qed.

Lemma expiry_is_u32 config c n :
  (∀ n, Config.mqtt_session_expiry_interval config = Some n → is_u32 n) → valid_Connect c →
  Config_mqtt_session_expiry_interval config (Connect_session_expiry_interval c) = Some n → is_u32 n.
Proof.
  intros Hc [He _]%connect_numbers. unfold Config_mqtt_session_expiry_interval.
  destruct (Connect_session_expiry_interval c); [|apply Hc]. intros [= <-]. by apply He.
Qed.

Lemma keep_alive_bound now pkt config n : KeepAlive_keep_alive (KeepAlive_new now pkt config) = Some n → is_u16 n.
Proof.
  unfold KeepAlive_keep_alive, KeepAlive_new. cbn [KeepAlive.interval].
  repeat case_match; intros [= <-]; apply u16_of_f32_bound.
Qed.

Section shard.
Context (env : Env) (config : Config) (max_size batch : u32) (qos : QoS) (c : Connect) (uuid : bytes).
Hypothesis serves : serviceable config max_size batch qos.
Hypothesis valid : valid_Connect c.
Hypothesis checked : Connect_validate c = Ok ().
Hypothesis uuid_text : valid_str uuid.

Definition name_of : ClientID := ClientID_from_connect uuid (ConnectPayload.client_id (Connect.payload c)).

Lemma name_valid : valid_str (client_id_str name_of).
Proof.
  destruct valid as ((_ & _ & _ & H) & _). unfold name_of, ClientID_from_connect. by case_match.
Qed.

(** The will is there, so the session starts. *)
Lemma session_starts args :
  ∃ will, Session_start (Env.clock env) args config c
  = Ok (Session.mk (SessionArgs.client_id args) (Connect_receive_maximum c) (Connect_max_packet_size c)
          (Connect_topic_alias_max c)
          (Config_mqtt_session_expiry_interval config (Connect_session_expiry_interval c)) config
          (SessionArgs.miot_tx args) (SessionArgs.session_rx args) (Some will)
          (KeepAlive_new (Env.clock env) c config) ∅ None [] [] ∅ (ClientOut.mk 1 ∅ 1 [])).
Proof using valid checked.
  destruct (Connect_validate_Ok c checked) as (_ & _ & Hf & Hw). destruct valid as ((Hb & _) & _ & Hwill & _).
  destruct (Hw Hwill) as ([t Et] & [wp Ewp] & [d Ed]). unfold Session_start, start_will.
  destruct (will_qos_follows_clean_start (Connect.flags c) Hf Hb) as (cs & wf & wr & E & _).
  assert (wf = true) as ->.
  { unfold ConnectFlags_unwrap in E. cbv zeta in E. apply bind_Ok in E as (q & _ & [= _ <- _ _]). exact Hwill. }
  rewrite E, !bind_Ok_1. cbv beta iota. rewrite Ewp, Et, Ed. by eexists.
Qed.

(** What the client is told. *)
Definition ack_properties : ConnAckProperties :=
  ConnAckProperties.mk
    (Config_mqtt_session_expiry_interval config (Connect_session_expiry_interval c))
    (Some (Config_mqtt_receive_maximum config)) (Some qos) (Some (Config_mqtt_retain_available config))
    (Some max_size)
    (if (length (client_id_str (ConnectPayload.client_id (Connect.payload c))) =? 0)%nat then Some uuid else None)
    (Config_mqtt_topic_alias_max config) None (Some true) (Some true) None
    (KeepAlive_keep_alive (KeepAlive_new (Env.clock env) c config)) None None None None [].
Definition ack : ConnAck := ConnAck_new_success (Some ack_properties).

Lemma success_ack_eq s :
  Session.config s = config → Session.client_id s = name_of →
  Session.session_expiry_interval s
  = Config_mqtt_session_expiry_interval config (Connect_session_expiry_interval c) →
  Session.keep_alive s = KeepAlive_new (Env.clock env) c config →
  Session_success_ack s c = Ok ack.
Proof using serves.
  intros Ec En Ee Ek. unfold Session_success_ack. rewrite Ec, (serves_qos _ _ _ _ serves). cbn [unwrap].
  rewrite bind_Ok_1, (serves_size _ _ _ _ serves), bind_Ok_1, En, Ee, Ek. unfold ack, ack_properties, name_of.
  unfold ClientID_from_connect. destruct (length _) eqn:El; cbn [Nat.eqb client_id_str];
    destruct (KeepAlive_keep_alive _); done.
Qed.

Lemma ack_valid : valid_ConnAck ack.
Proof using serves valid uuid_text.
  split; [done|]. split; [by eexists|]. intros x [= <-].
  pose proof (serves_receive _ _ _ _ serves) as Hr. pose proof (serves_size_range _ _ _ _ serves) as Hm.
  split; [|done]. split; [|split; intros [= E]; lia].
  repeat apply Forall_app_2; try (apply opt_prop_valid; intros x Ex; cbn in Ex; simplify_eq; cbn [valid_Property]).
  all: try done.
  - by eapply expiry_is_u32; [apply (serves_expiry _ _ _ _ serves)| |].
  - unfold is_u16. lia.
  - by destruct (Config_mqtt_retain_available config).
  - by eapply size_is_u32; [apply (serves_size _ _ _ _ serves)|].
  - by destruct (_ =? _)%nat; simplify_eq.
  - eapply (serves_alias _ _ _ _ serves). unfold Config_mqtt_topic_alias_max in Ex. by repeat case_match.
  - exact (keep_alive_bound (Env.clock env) c config _ Ex).
Qed.

(** The CONNACK is queued once, and stays in the back-log: the next flush sends it again. *)
Definition admitted (s : Session) : Prop :=
  Session.client_id s = name_of ∧ Session.subscriptions s = ∅ ∧
  ClientOut.index (Session.cout s) = ∅ ∧
  ClientOut.back_log (Session.cout s) = [Message.ClientAck (Packet.ConnAck ack)] ∧
  ∀ chan, chan 0%nat = Sent →
    Session_flush_messages chan s = (s, Ok (QueueStatus.Ok [], [Packet.ConnAck ack])).

Lemma flush_connack s chan :
  0 ≤ Session.client_receive_maximum s → ClientOut.index (Session.cout s) = ∅ →
  ClientOut.back_log (Session.cout s) = [Message.ClientAck (Packet.ConnAck ack)] → chan 0%nat = Sent →
  Session_flush_messages chan s = (s, Ok (QueueStatus.Ok [], [Packet.ConnAck ack])).
Proof.
  intros Hr Hi Hb Hc. rewrite (flush_all_sent s chan); rewrite ?Hi, ?Hb; [done| |by repeat constructor|].
  - by rewrite map_size_empty.
  - intros [|i] Hl; [done|]. cbn in Hl. lia.
Qed.

Lemma start_session_eq sid r :
  Env.miot_tx env name_of 0%nat = Sent →
  ∃ s, start_session env name_of c (Shard.mk sid config (ShardInner.Main r))
       = (Shard.mk sid config (ShardInner.Main r), Ok (s, (QueueStatus.Ok [], [Packet.ConnAck ack]))) ∧
    admitted s.
Proof.
  intros Hsent. unfold start_session.
  erewrite (M_bind_Ok get) by done. erewrite (M_bind_Ok as_main) by done. cbn [Shard.config Shard.shard_id].
  rewrite (serves_batch _ _ _ _ serves), lift_bind_Ok. cbn [pkt_channel]. cbv zeta.
  set (args := SessionArgs.mk _ _ _ _). destruct (session_starts args) as [will ->]. rewrite lift_bind_Ok.
  rewrite success_ack_eq by done. rewrite lift_bind_Ok. cbv beta.
  set (s0 := Session.mk _ _ _ _ _ _ _ _ _ _ _ _ _ _ _ _).
  set (s1 := Session.set_cout s0 (ClientOut.mk 1 ∅ 1 [Message.ClientAck (Packet.ConnAck ack)])).
  assert (admitted s1) as Hs1.
  { repeat (split; [done|]). intros chan Hc. apply flush_connack; [|done..]. apply connect_numbers, valid. }
  rewrite (M_bind_Ok _ _ _ _ _ (in_ack_eq s0 (Packet.ConnAck ack) batch (serves_batch _ _ _ _ serves))). exists s1. split; [|done].
  destruct Hs1 as (_ & _ & _ & _ & H). change (queued s0 (Packet.ConnAck ack)) with s1. by rewrite H.
Qed.

(** A client that has no session is given one; its connection goes to the miot, and its
    queue holds the CONNACK. *)
Lemma add_session_admits sid r :
  Env.miot_tx env name_of 0%nat = Sent → Env.miot_add env name_of = Ok () →
  RunLoop.sessions r !! name_of = None →
  ∃ s, Shard_handle_add_session env uuid c (Shard.mk sid config (ShardInner.Main r))
       = (Shard.mk sid config (ShardInner.Main
            (RunLoop.set_sessions (RunLoop.set_miot r ({[name_of]} ∪ RunLoop.miot r))
               (<[name_of := s]> (RunLoop.sessions r)))), Ok [Packet.ConnAck ack]) ∧
    admitted s.
Proof.
  intros Hsent Hadd Hnew. destruct (start_session_eq sid r Hsent) as (s & E & Hs). exists s. split; [|done].
  unfold Shard_handle_add_session. cbv zeta. fold name_of. erewrite M_bind_Ok by exact E. cbv beta iota.
  set (self := Shard.mk _ _ _). assert (take_over env name_of self = (self, Ok ())) as Et.
  { unfold take_over. erewrite (M_bind_Ok as_main) by done. by rewrite Hnew. }
  rewrite (M_bind_Ok _ _ _ _ _ Et). erewrite (M_bind_Ok as_main) by done. by rewrite Hadd.
Qed.
End shard.

(** * From the socket to the session *)

Section admission.
Context (cityhash : bytes → Z) (num_cpus : nat) (config : Config) (n max_size batch : u32) (qos : QoS).
Context (node : ClusterNode) (listener : Listener) (ticker : Ticker) (flusher : Flusher).
Context (shards : gmap u32 Shard) (added : list (u32 * Connect)) (now : Z) (cluster_env : ClusterEnv) (env : Env).
Hypothesis serves : serviceable config max_size batch qos.
Hypothesis num_shards : Config_num_shards num_cpus config = Ok n.
Hypothesis n_nonneg : 0 ≤ n.
Hypothesis n_power : is_power_of_2 n = true.
Hypothesis hosts_all : ∀ id, id ∈ shard_ids n → ∃ shard, shards !! id = Some shard ∧ is_shard_handle shard.
Hypothesis shards_answer : ∀ id, ClusterEnv.add_session cluster_env id = Ok ().

End admission.

(** * An instance *)

Definition ex_admission_config : Config :=
  Config.mk [0x6d] None (Some 4) None None None None None (Some 1024) None None None None None None None None None.

(** Client [c], with a will of one byte that is delayed by a second. *)
Definition ex_will_properties : WillProperties :=
  WillProperties.set_will_delay_interval (Some 1) WillProperties_default.
Definition ex_admitted : Connect :=
  Connect.mk MQTT MqttProtocol.V5 (mkConnectFlags 6) 60 None
    (ConnectPayload.mk ex_client (Some ex_will_properties) (Some ex_topic) (Some [7]) None None).

(** Its shards, whose queues all have room. *)
Definition ex_admission_env : Env :=
  prompt_env 0 (λ _ _, SendersGone) (λ _ _, Sent) (λ _ _, Sent) (λ _, SendersGone).
Definition ex_admission_loop : RunLoop :=
  RunLoop.mk [] true ex_cluster_flusher [] ∅ ∅ ∅ ∅ (ClientInp.mk 1 ∅ ∅) ∅ SubscribedTrie_default.

Definition ex_connect_wire : bytes :=
  [16; 26; 0; 4; 77; 81; 84; 84; 5; 6; 0; 60; 0; 0; 1; 99; 5; 24; 0; 0; 0; 1; 0; 1; 97; 0; 1; 7].
Definition ex_chunks : list (bytes * Z) := [(take 20 ex_connect_wire, 1); (drop 20 ex_connect_wire, 2)].

Lemma ex_serviceable : serviceable ex_admission_config 1024 1024 QoS.AtLeastOnce.
Proof. by split. Qed.

Lemma ex_admitted_valid : valid_Connect ex_admitted.
Proof.
  assert (∀ b, 0 ≤ b < 256 → is_bytes [b]) as Hb by (intros b Hb; by apply Forall_singleton).
  split; [split; [by unfold is_u8; cbn; lia|split; [by unfold is_u16; cbn; lia|split; [done|]]]|].
  { split; [by apply Hb|by vm_compute]. }
  split; [split; [done|split; [|split; [done|]]]|]; [split; [by intros []|done]..|].
  split; [by vm_compute|]. split; [|split].
  - intros x [= <-]. split; [|done]. apply Forall_singleton. unfold valid_Property, is_u32. lia.
  - intros t [= <-]. repeat split; try (by apply Hb); by vm_compute.
  - intros d [= <-]. by apply Hb.
Qed.

