(* ===== verification/TakeOver.v ===== *)
(** How a client takes over its own session: what [src/shard.rs] does when a client that has
    a session connects again.  The subscriptions of the old session leave the trie, its
    connection is flushed, and the new session takes its place. *)

From S2P Require Import Prelude Error Util Codec Types V5 V5Facts PropsBlock Frame AckPackets.
From S2P Require Import PublishPacket SubPackets Config ConnectPackets Packets Ttrie TtrieFacts TtrieTheorems.
From S2P Require Import Timer Retained State Queue KeepAlive Thread Server Session SessionTheorems.
From S2P Require Import Flusher Shard ShardLoop ShardTheorems Listener Cluster ClusterTheorems Admission.
Local Open Scope Z_scope.

(** * Leaving the trie *)

Lemma Subscription_eqb_cmp x v : Subscription_eqb x v = true → Subscription_cmp x v = Eq.
Proof.
  unfold Subscription_eqb, Subscription_cmp. rewrite !andb_true_iff, !bool_decide_eq_true.
  intros ((((((-> & ->) & _) & _) & _) & _) & _).
  by rewrite (proj2 (str_cmp_eq _ _) eq_refl), (proj2 (str_cmp_eq _ _) eq_refl).
Qed.

(** A value is taken out, with nothing else - but the last one only if it is the same in
    every field. *)
Lemma elem_of_value_del v vs x :
  sorted_values Subscription_cmp vs →
  x ∈ value_del Subscription_cmp Subscription_eqb v vs ↔
  x ∈ vs ∧ ¬ (Subscription_cmp x v = Eq ∧ (vs = [x] → Subscription_eqb x v = true)).
Proof.
  intros Hs. destruct vs as [|y [|z vs]].
  - by split; [intros ?%not_elem_of_nil|intros [?%not_elem_of_nil]].
  - cbn [value_del]. destruct (Subscription_eqb y v) eqn:E.
    + split; [by intros ?%not_elem_of_nil|]. intros [->%list_elem_of_singleton H]. destruct H.
      split; [by apply Subscription_eqb_cmp|done].
    + split; [|by intros []]. intros Hx. split; [done|]. apply list_elem_of_singleton in Hx as ->.
      intros [_ H]. specialize (H eq_refl). congruence.
  - cbn [value_del]. rewrite (elem_of_ordered_del Subscription_cmp) by done. split.
    + intros [Hx Hc]. split; [done|]. by intros [? _].
    + intros [Hx H]. split; [done|]. intros Hc. by apply H.
Qed.

Lemma filter_path_inj f f' : TopicFilter_iter_topic_path f = TopicFilter_iter_topic_path f' → f = f'.
Proof. destruct f, f'. intros H. by apply split_slash_inj in H; cbn in H; subst. Qed.

(** What taking out the subscriptions of a map does to the entries of a path: an entry with the
    client and the filter of one of them leaves, unless it is the only one of its path and
    differs in another field. *)
Definition leaves (subs : gmap TopicFilter Subscription) (entries : list Subscription) (p : list bytes)
    (x : Subscription) : Prop :=
  p = TopicFilter_iter_topic_path (Subscription.topic_filter x) ∧
  ∃ v, subs !! Subscription.topic_filter x = Some v ∧
    Subscription.client_id x = Subscription.client_id v ∧ (entries = [x] → Subscription_eqb x v = true).

(** Taking out subscriptions, each of a filter that has some, succeeds, and does it at each
    of their paths. *)
Lemma unsubscribe_all_removes subs : ∀ t m,
  subscribed_as t m → NoDup subs.*1 →
  (∀ f v, (f, v) ∈ subs → m (TopicFilter_iter_topic_path f) ≠ []) →
  ∃ t' m', unsubscribe_all subs t = Ok t' ∧ subscribed_as t' m' ∧
    ∀ p x, x ∈ m' p ↔ x ∈ m p ∧
      ∀ f v, (f, v) ∈ subs → TopicFilter_iter_topic_path f = p →
        ¬ (Subscription_cmp x v = Eq ∧ (m p = [x] → Subscription_eqb x v = true)).
Proof.
  induction subs as [|[f v] subs IH]; intros t m Ht Hd Hin.
  - exists t, m. split; [done|]. split; [done|]. intros p x. split; [|by intros []].
    intros Hx. split; [done|]. by intros f v ?%not_elem_of_nil.
  - cbn [fmap list_fmap] in Hd. apply NoDup_cons in Hd as [Hn Hd].
    set (p := TopicFilter_iter_topic_path f).
    destruct (unsubscribe_step t m p v Ht (filter_path_not_nil f)) as (t1 & E1 & Ht1 & _).
    { apply (Hin f v). by left. }
    assert (∀ f' v', (f', v') ∈ subs → TopicFilter_iter_topic_path f' ≠ p) as Hne.
    { intros f' v' Hf' ->%filter_path_inj. apply Hn. apply list_elem_of_fmap. by exists (f, v'). }
    destruct (IH t1 _ Ht1 Hd) as (t' & m' & E & Ht' & Hm').
    { intros f' v' Hf'. unfold put. rewrite bool_decide_false by by eapply Hne. apply (Hin f' v'). by right. }
    exists t', m'. split; [cbn [unsubscribe_all]; fold p; by rewrite E1, bind_Ok_1|]. split; [done|].
    intros q x. rewrite Hm'. unfold put. destruct (bool_decide_reflect (q = p)) as [->|Hq].
    + rewrite elem_of_value_del by by eapply subscribed_sorted. split.
      * intros [[Hx Hc] _]. split; [done|]. intros f' v' [[= -> ->]|Hf']%elem_of_cons Hp; [done|].
        by destruct (Hne f' v' Hf').
      * intros [Hx Hall]. split; [split; [done|]|].
        { apply (Hall f); [by left|done]. }
        intros f' v' Hf' Hp. by destruct (Hne f' v' Hf').
    + split; intros [Hx Hall]; (split; [done|]); intros f' v' Hf' Hp.
      * apply elem_of_cons in Hf' as [[= -> ->]|Hf']; [by destruct Hq|by eapply Hall].
      * eapply Hall; [by right|done].
Qed.

(** * The shard *)

(** The trie knows the subscriptions of a client's session: they are the client's, each under
    its filter, and the trie has an entry of the client for each filter - maybe an older one,
    which subscribing again has left there. *)
Definition known_subscriptions (name : ClientID) (subs : gmap TopicFilter Subscription)
    (m : list bytes → list Subscription) : Prop :=
  ∀ f v, subs !! f = Some v →
    Subscription.client_id v = name ∧ Subscription.topic_filter v = f ∧
    ∃ x, x ∈ m (TopicFilter_iter_topic_path f) ∧ Subscription_cmp x v = Eq.

(** It is so of a session without any; subscribing keeps it, whoever subscribes, and however
    often, and so does unsubscribing, of another client or of the client itself. *)
Lemma known_at_first name m : known_subscriptions name ∅ m.
Proof. by intros f v ?%lookup_empty_Some. Qed.

Lemma known_by_subscribing t name subs m s :
  subscribed_as t m → known_subscriptions name subs m →
  known_subscriptions name subs (put_subscription m s) ∧
  (Subscription.client_id s = name → known_subscriptions name (add_subscription subs s) (put_subscription m s)).
Proof.
  intros Ht Hk. assert (known_subscriptions name subs (put_subscription m s)) as Hk'.
  { intros f v Hf. destruct (Hk f v Hf) as (Hn & Hv & x & Hx & Hc). repeat (split; [done|]).
    exists x. split; [|done]. apply elem_of_put_subscription; [intros q; by eapply subscribed_sorted|by left]. }
  split; [done|]. intros Hs f v. unfold add_subscription. intros [[<- <-]|[_ Hf]]%lookup_insert_Some; [|by apply Hk'].
  repeat (split; [done|]). apply put_subscription_has. intros q. by eapply subscribed_sorted.
Qed.

Lemma known_by_unsubscribing t name subs m v' :
  subscribed_as t m → known_subscriptions name subs m →
  let p := TopicFilter_iter_topic_path (Subscription.topic_filter v') in
  let m' := put m p (value_del Subscription_cmp Subscription_eqb v' (m p)) in
  (Subscription.client_id v' ≠ name → known_subscriptions name subs m') ∧
  known_subscriptions name (delete (Subscription.topic_filter v') subs) m'.
Proof.
  intros Ht Hk p m'.
  assert (∀ f v, subs !! f = Some v → Subscription.client_id v' ≠ name ∨ f ≠ Subscription.topic_filter v' →
            ∃ x, x ∈ m' (TopicFilter_iter_topic_path f) ∧ Subscription_cmp x v = Eq) as Hstays.
  { intros f v Hf Hne. destruct (Hk f v Hf) as (Hn & Hv & x & Hx & Hc). exists x. split; [|done].
    unfold m', put. destruct (bool_decide_reflect (TopicFilter_iter_topic_path f = p)) as [Hp|]; [|done]. apply filter_path_inj in Hp as ->.
    rewrite elem_of_value_del by by eapply subscribed_sorted. split; [done|]. intros [Hcv _].
    apply Subscription_cmp_eq in Hc as [Hc _], Hcv as [Hcv _].
    destruct Hne as [Hne|]; [|done]. apply Hne. congruence. }
  split.
  - intros Hne f v Hf. destruct (Hk f v Hf) as (Hn & Hv & _). repeat (split; [done|]). apply Hstays; [done|by left].
  - intros f v [Hne Hf]%lookup_delete_Some. destruct (Hk f v Hf) as (Hn & Hv & _).
    repeat (split; [done|]). apply Hstays; [done|by right].
Qed.

(** The session's subscriptions leave the trie, and all others stay. *)
Lemma session_leaves_trie name s t m :
  subscribed_as t m → known_subscriptions name (Session.subscriptions s) m →
  ∃ t' m', Session_remove_topic_filters s t = Ok t' ∧ subscribed_as t' m' ∧
    ∀ p x, x ∈ m' p ↔ x ∈ m p ∧ ¬ leaves (Session.subscriptions s) (m p) p x.
Proof.
  intros Ht Hk. unfold Session_remove_topic_filters.
  destruct (unsubscribe_all_removes (btree_iter TopicFilter_cmp (Session.subscriptions s)) t m Ht)
    as (t' & m' & E & Ht' & Hm').
  { apply btree_iter_keys_NoDup. }
  { intros f v (_ & _ & x & Hx & _)%elem_of_btree_iter%Hk E. rewrite E in Hx. by apply not_elem_of_nil in Hx. }
  exists t', m'. split; [done|]. split; [done|]. intros p x. rewrite Hm'.
  split; intros [Hx H]; (split; [done|]).
  - intros (-> & v & Hv & Hc & He). destruct (Hk _ _ Hv) as (_ & Hf & _).
    eapply H; [by apply elem_of_btree_iter|done|]. split; [|done]. by apply Subscription_cmp_eq.
  - intros f v Hf%elem_of_btree_iter <- [[Hc Hc']%Subscription_cmp_eq He]. apply H.
    destruct (Hk _ _ Hf) as (_ & Hvf & _). rewrite Hvf in Hc'.
    split; [by rewrite Hc'|]. exists v. by rewrite Hc'.
Qed.

Lemma readd_removed (x : ClientID) (X : gset ClientID) : {[x]} ∪ (X ∖ {[x]}) = {[x]} ∪ X.
Proof.
  apply set_eq. intros y. rewrite !elem_of_union, elem_of_difference, elem_of_singleton.
  destruct (decide (y = x)); tauto.
Qed.

Section take_over.
Context (sid : u32) (config : Config) (r : RunLoop) (name : ClientID) (t : Inner Subscription).
Local Abbreviation running r := (Shard.mk sid config (ShardInner.Main r)).

(** The shard without the old session. *)
Definition freed : RunLoop :=
  RunLoop.set_topic_filters (RunLoop.set_sessions r (delete name (RunLoop.sessions r))) t.

(** The miot thread has no connection of the client; or it has one, which the flusher takes. *)
Definition lets_go (env : Env) : Prop :=
  Env.miot_remove env name = Ok false ∨
  (Env.miot_remove env name = Ok true ∧ (∃ thrd, Flusher.inner (RunLoop.flusher r) = FlusherInner.Handle thrd) ∧
   Env.flusher_flush env name = Ok ()).

(** The connection is flushed, if there is one, or it ends badly. *)
Lemma flush_freed env e :
  ∃ r1 res, flush_client env name e (running freed) = (running r1, res) ∧
    RunLoop.topic_filters r1 = t ∧ RunLoop.sessions r1 = delete name (RunLoop.sessions r) ∧
    ((lets_go env ∧ res = Ok () ∧ {[name]} ∪ RunLoop.miot r1 = {[name]} ∪ RunLoop.miot r ∧
      RunLoop.flushes r1 = RunLoop.flushes r ++ (match Env.miot_remove env name with Ok true => [(name, e)] | _ => [] end)) ∨
     (¬ lets_go env ∧ (res = Panic ∨ res = Diverge))).
Proof.
  unfold flush_client, lets_go. erewrite (M_bind_Ok as_main) by done.
  destruct (Env.miot_remove env name) as [[|]|err| |] eqn:Em.
  - erewrite M_bind_Ok by done. cbv iota. erewrite (M_bind_Ok (set_main _)) by done.
    unfold Shard_handle_flush_connection. erewrite (M_bind_Ok as_main) by done.
    cbn [RunLoop.sessions freed RunLoop.set_miot RunLoop.set_topic_filters RunLoop.set_sessions].
    rewrite lookup_delete_eq. erewrite (M_bind_Ok (mret ())) by done. erewrite (M_bind_Ok as_main) by done.
    cbn [RunLoop.flusher RunLoop.set_miot freed RunLoop.set_topic_filters RunLoop.set_sessions].
    destruct (Flusher.inner (RunLoop.flusher r)) as [|thrd|tx| |] eqn:Ef.
    2: { destruct (Env.flusher_flush env name) as [[]|err| |] eqn:Eq; (do 2 eexists; split; [done|]);
         do 2 (split; [done|]).
         { left. split; [right; split; [done|split; [by eexists|done]]|]. split; [done|].
           split; [apply readd_removed|done]. }
         all: right; split; [by intros [|(_ & _ & ?)]|by auto]. }
    all: do 2 eexists; split; [done|]; do 2 (split; [done|]); right; split; [|by left].
    all: by intros [|(_ & [thrd' Hthrd] & _)].
  - erewrite M_bind_Ok by done. cbv iota. do 2 eexists. split; [done|]. do 2 (split; [done|]). left.
    split; [by left|]. do 2 (split; [done|]). by rewrite app_nil_r.
  - do 2 eexists. split; [done|]. do 2 (split; [done|]). right. split; [by intros [|(? & _)]|by left].
  - do 2 eexists. split; [done|]. do 2 (split; [done|]). right. split; [by intros [|(? & _)]|by left].
  - do 2 eexists. split; [done|]. do 2 (split; [done|]). right. split; [by intros [|(? & _)]|by right].
Qed.

Lemma take_over_frees env old :
  RunLoop.sessions r !! name = Some old → Session_remove_topic_filters old (RunLoop.topic_filters r) = Ok t →
  take_over env name (running r)
  = flush_client env name (mkError ErrorKind.SessionTakenOver (Some ReasonCode.SessionTakenOver)) (running freed).
Proof.
  intros Ho Ht. unfold take_over. erewrite (M_bind_Ok as_main) by done. rewrite Ho, Ht, lift_bind_Ok.
  by erewrite (M_bind_Ok (set_main _)) by done.
Qed.
End take_over.

(** C19: a client that has a session and connects again takes it over, if its new connection
    takes the CONNACK, its CONNECT and the configuration are those that admit clients, and the
    trie has an entry of the client for each filter of the old session - which holds however
    the client and others subscribe and unsubscribe ([known_by_subscribing],
    [known_by_unsubscribing]).  The trie then has, at every path, the entries it had, but those with the client and the filter
    of a subscription of the old session.  Of these one stays behind where a path has no other
    entry and it is not the session's own subscription in every field, that is, when the
    client has subscribed again with other options ([resubscription_is_stale]).  The sessions of
    others stay.  If the miot thread has no connection of the client any more, or the shard has
    the flusher's own handle and the flusher takes the connection, which then goes to it with
    the error [SessionTakenOver]; and if the miot takes the new one: then a new session without
    subscriptions is kept in the place of the old.  In every other case the request ends in a
    panic, or never, with the old session gone and no new one - so it does for a client that is
    still connected to a shard of a cluster, as these have a copy of the flusher's handle. *)
Theorem sessions_are_taken_over env config max_size batch qos c uuid sid r m old :
  serviceable config max_size batch qos → valid_Connect c → Connect_validate c = Ok () →
  Env.miot_tx env (name_of c uuid) 0%nat = Sent →
  RunLoop.sessions r !! name_of c uuid = Some old →
  subscribed_as (RunLoop.topic_filters r) m → known_subscriptions (name_of c uuid) (Session.subscriptions old) m →
  let name := name_of c uuid in
  let e := mkError ErrorKind.SessionTakenOver (Some ReasonCode.SessionTakenOver) in
  let goes_well := lets_go r name env ∧ Env.miot_add env name = Ok () in
  let '(sh, result) := Shard_handle_add_session env uuid c (Shard.mk sid config (ShardInner.Main r)) in
  ∃ r' m',
    sh = Shard.mk sid config (ShardInner.Main r') ∧
    subscribed_as (RunLoop.topic_filters r') m' ∧
    (∀ p x, x ∈ m' p ↔ x ∈ m p ∧ ¬ leaves (Session.subscriptions old) (m p) p x) ∧
    (∀ other, other ≠ name → RunLoop.sessions r' !! other = RunLoop.sessions r !! other) ∧
    (goes_well →
     ∃ s a, result = Ok [Packet.ConnAck a] ∧ RunLoop.sessions r' !! name = Some s ∧
       Session.client_id s = name ∧ Session.subscriptions s = ∅ ∧
       RunLoop.miot r' = {[name]} ∪ RunLoop.miot r ∧
       RunLoop.flushes r'
       = RunLoop.flushes r ++ (match Env.miot_remove env name with Ok true => [(name, e)] | _ => [] end)) ∧
    (¬ goes_well → (result = Panic ∨ result = Diverge) ∧ RunLoop.sessions r' !! name = None).
Proof.
  intros Hserves Hv Hchecked Hsent Ho Ht Hk name e goes_well.
  destruct (session_leaves_trie name old _ m Ht Hk) as (t & m' & Et & Ht' & Hm').
  destruct (start_session_eq env config max_size batch qos c uuid Hserves Hv Hchecked sid r Hsent)
    as (s & Es & Hn & Hsub & _). fold name in Es, Hn.
  pose proof (take_over_frees sid config r name t env old Ho Et) as Etake. fold e in Etake.
  destruct (flush_freed sid config r name t env e) as (r1 & res & Ef & Hr1 & Hs1 & Hres). rewrite Ef in Etake.
  assert (∀ other, other ≠ name → RunLoop.sessions r1 !! other = RunLoop.sessions r !! other) as Hothers
    by (intros other Hne; by rewrite Hs1, lookup_delete_ne by done).
  assert (RunLoop.sessions r1 !! name = None) as Hnone by (by rewrite Hs1, lookup_delete_eq).
  rewrite <- Hr1 in Ht'. unfold Shard_handle_add_session. cbv zeta. fold (name_of c uuid). fold name.
  rewrite (M_bind_Ok _ _ _ _ _ Es). cbv beta iota. unfold goes_well.
  destruct Hres as [(Hgo & -> & Hmiot & Hflushes)|(Hno & Hres)].
  - rewrite (M_bind_Ok _ _ _ _ _ Etake). erewrite (M_bind_Ok as_main) by done.
    destruct (Env.miot_add env name) as [[]|err| |].
    { eexists _, m'. do 3 (split; [done|]). split.
      { intros other Hne. cbn. rewrite lookup_insert_ne by done. by apply Hothers. }
      split; [|by intros []]. intros _. eexists s, _. split; [done|]. cbn. by rewrite lookup_insert_eq. }
    all: exists r1, m'; do 4 (split; [done|]); (split; [by intros []|]); intros _; by auto.
  - rewrite (M_bind_eq _ _ _ _ _ Etake). destruct Hres as [-> | ->].
    all: exists r1, m'; do 4 (split; [done|]); (split; [by intros []|]); intros _; by auto.
Qed.

(** * An instance *)

(** Two clients with a subscription to [a]; one of them is connected, and connects again. *)
Definition ex_shared_trie : Inner Subscription :=
  match SubscribedTrie_subscribe ex_trie [[0x61]] (ex_subscription QoS.AtLeastOnce) with
  | Ok t => t
  | _ => SubscribedTrie_default
  end.
Definition ex_shared : list bytes → list Subscription :=
  put (λ _, []) [[0x61]] [ex_subscription QoS.AtLeastOnce; ex_wanted].
Definition ex_old_subscriptions : gmap TopicFilter Subscription :=
  {[mkTopicFilter [0x61] := ex_subscription QoS.AtLeastOnce]}.
Definition ex_old_session : Session := Session.set_subscriptions ex_session ex_old_subscriptions.
Definition ex_shared_loop : RunLoop :=
  RunLoop.mk [] true ex_cluster_flusher [] {[ex_client]} {[ex_client := ex_old_session]} ∅ ∅
    (ClientInp.mk 5 ∅ ∅) ∅ ex_shared_trie.

Lemma ex_shared_as : subscribed_as ex_shared_trie ex_shared.
Proof.
  assert (subscribed_as SubscribedTrie_default (λ _, [])) as H0
    by (split; [by split; [|split; constructor]|by intros [|]]).
  destruct (subscribe_step _ _ [[0x61]] ex_wanted H0 ltac:(done)) as (t & E & Ht & _).
  destruct (subscribe_step t _ [[0x61]] (ex_subscription QoS.AtLeastOnce) Ht ltac:(done)) as (t' & E' & Ht' & _).
  assert (ex_shared_trie = t') as -> by (unfold ex_shared_trie, ex_trie; by rewrite E, E').
  eapply trie_as_ext; [done| |exact Ht']. intros p. unfold ex_shared, put. by destruct (bool_decide (p = _)).
Qed.

Lemma ex_old_knows : known_subscriptions ex_client ex_old_subscriptions ex_shared.
Proof.
  intros f v. unfold ex_old_subscriptions. intros [<- <-]%lookup_singleton_Some. do 2 (split; [done|]).
  exists (ex_subscription QoS.AtLeastOnce). split; [apply list_elem_of_here|by vm_compute].
Qed.

Lemma sessions_are_taken_over_witness :
  let name := name_of ex_admitted [] in
  let '(sh, result) := Shard_handle_add_session ex_admission_env [] ex_admitted
                         (Shard.mk 3 ex_admission_config (ShardInner.Main ex_shared_loop)) in
  ∃ r', sh = Shard.mk 3 ex_admission_config (ShardInner.Main r') ∧
    RunLoop.flushes r' = [(name, mkError ErrorKind.SessionTakenOver (Some ReasonCode.SessionTakenOver))].
Proof.
  cbv zeta. pose proof (sessions_are_taken_over ex_admission_env ex_admission_config 1024 1024 QoS.AtLeastOnce ex_admitted []
    3 ex_shared_loop ex_shared ex_old_session ex_serviceable ex_admitted_valid ltac:(by vm_compute) ltac:(done)
    ltac:(by vm_compute) ex_shared_as ex_old_knows) as H.
  destruct (Shard_handle_add_session _ _ _ _) as [sh result].
  destruct H as (r' & m' & -> & _ & _ & _ & H & _). exists r'. split; [done|].
  destruct H as (s & a & _ & _ & _ & _ & _ & Hf).
  { split; [right; split; [done|split; [by eexists|done]]|done]. }
  rewrite Hf. by vm_compute.
Defined.
