(* ===== verification/Mqcl.v ===== *)
(** Model of [src/bin/mqcl/main.rs]: the program that starts a broker, from its command
    line to the cluster.  The parser of the command line ([structopt]) and the set-up of
    the log are left out. *)

From S2P Require Import Prelude Error Util Config Thread Shard ShardLoop Flusher Listener Cluster ClusterTheorems.
Local Open Scope Z_scope.

(** src/bin/mqcl/main.rs:18-27 [SubCommand] *)
Inductive SubCommand := Start (name : option bytes) (port : option u16).

(** src/bin/mqcl/main.rs:9-16 [Opt] *)
Record Opt := mkOpt { config_loc : option bytes; subcmd : SubCommand }.

Definition config_with (name : bytes) (port : option u16) (c : Config) : Config :=
  Config.mk name (Config.max_nodes c) (Config.num_shards c) port (Config.connect_timeout c)
    (Config.mqtt_read_timeout c) (Config.mqtt_write_timeout c) (Config.mqtt_flush_timeout c)
    (Config.mqtt_max_packet_size c) (Config.mqtt_pkt_batch_size c) (Config.mqtt_keep_alive c)
    (Config.mqtt_keep_alive_factor c) (Config.mqtt_receive_maximum c)
    (Config.mqtt_session_expiry_interval c) (Config.mqtt_maximum_qos c)
    (Config.mqtt_retain_available c) (Config.mqtt_topic_alias_max c) (Config.mqtt_ignore_duplicate c).

(** What the command line says takes precedence. *)
(** src/bin/mqcl/main.rs:63-82 [setup_config] *)
Definition setup_config (config : Config) (opts : Opt) : Config :=
  let 'Start name port := subcmd opts in
  config_with (default (Config.name config) name)
    (match port with Some port => Some port | None => Config.port config end) config.

(** How the process ends: with a code it exits with, at the end of [main], or in a panic;
    or that it goes on. *)
Inductive process := Exited (code : Z) | Finished | Panicked | Running.

Section main.
Context {io_error toml_error : Type}.
Context (fs_read : bytes → outcome io_error bytes) (toml_from_str : bytes → outcome toml_error Config).
Context (num_cpus : nat) (env : ClusterSpawnEnv) (now : Z) (node : ClusterNode).

(** Once the cluster is there, [loop {}]. *)
(** src/bin/mqcl/main.rs:53-61 [handle_start] *)
Definition handle_start (opts : Opt) (config : Config) : Result unit :=
  let config := setup_config config opts in
  cluster ← Cluster_from_config num_cpus config;
  _ ← Cluster_spawn num_cpus env now node cluster;
  Diverge.

(** src/bin/mqcl/main.rs:35-44 [main] *)
Definition load_config (opts : Opt) : outcome Z Config :=
  match config_loc opts with
  | Some loc =>
      match Config_from_file fs_read toml_from_str loc with
      | Ok config => Ok config
      | Err _ => Err 1
      | Panic => Panic
      | Diverge => Diverge
      end
  | None => match Config_default num_cpus with
            | Ok config => Ok config
            | Err _ | Panic => Panic
            | Diverge => Diverge
            end
  end.

(** An error is printed, and the program ends as it does without one. *)
(** src/bin/mqcl/main.rs:29-51 [main] *)
Definition main (opts : Opt) : process :=
  match load_config opts with
  | Ok config =>
      match handle_start opts config with
      | Ok _ | Err _ => Finished
      | Panic => Panicked
      | Diverge => Running
      end
  | Err code => Exited code
  | Panic => Panicked
  | Diverge => Running
  end.

(** * The broker does not start *)

Hypothesis read_ends : ∀ loc, fs_read loc ≠ Diverge.
Hypothesis parse_ends : ∀ s, toml_from_str s ≠ Diverge.
Hypothesis parse_typed : ∀ s config n, toml_from_str s = Ok config → Config.num_shards config = Some n → 0 <= n.
Hypothesis set_miot_ends : ∀ id, ShardSpawnEnv.set_miot (ClusterSpawnEnv.shard_env env id) ≠ Diverge.

Lemma err_try_ends {E A} k (r : outcome E A) : r ≠ Diverge → err_try k r ≠ Diverge.
Proof. by destruct r. Qed.

Lemma load_config_ends opts : load_config opts ≠ Diverge.
Proof.
  unfold load_config. destruct (config_loc opts) as [loc|].
  - assert (Config_from_file fs_read toml_from_str loc ≠ Diverge) as H; [|by destruct (Config_from_file _ _ _)].
    apply bind_ends; [by apply err_try_ends|]. intros data _.
    apply bind_ends; [by destruct (from_utf8 data)|]. intros s _. by apply err_try_ends.
  - destruct (Config_default num_cpus) as [c| | |] eqn:Ec; try done. by apply default_ends in Ec.
Qed.

Lemma load_config_typed opts config n :
  load_config opts = Ok config → Config.num_shards config = Some n → 0 <= n.
Proof.
  unfold load_config. destruct (config_loc opts) as [loc|].
  - destruct (Config_from_file fs_read toml_from_str loc) as [c| | |] eqn:E; try done. intros [= ->].
    unfold Config_from_file, load_toml in E. apply bind_Ok in E as (data & _ & E).
    apply bind_Ok in E as (s & _ & E). unfold err_try in E.
    destruct (toml_from_str s) as [c| | |] eqn:Es; try done. injection E as ->. by eapply parse_typed.
  - unfold Config_default. destruct (num_cores num_cpus) as [m| | |] eqn:Em; try done.
    rewrite bind_Ok_1. intros [= <-] [= <-]. by apply num_cores_pos in Em.
Qed.

Lemma load_config_exit opts code :
  load_config opts = Err code → code = 1 ∧ is_Some (config_loc opts).
Proof.
  unfold load_config. destruct (config_loc opts) as [loc|].
  - destruct (Config_from_file _ _ _); try done. intros [= <-]. by eexists.
  - by destruct (Config_default _).
Qed.

(** The command line changes neither the number of shards nor what else spawning needs. *)
Lemma setup_config_shards config opts :
  Config.num_shards (setup_config config opts) = Config.num_shards config.
Proof. unfold setup_config. by destruct (subcmd opts). Qed.

Lemma handle_start_ends opts config :
  load_config opts = Ok config →
  handle_start opts config ≠ Diverge ∧
  ∀ c, Cluster_from_config num_cpus (setup_config config opts) = Ok c →
    ClusterSpawnEnv.poll env = true → ClusterSpawnEnv.waker env = true → handle_start opts config = Panic.
Proof using parse_typed set_miot_ends.
  intros El. unfold handle_start. cbv zeta.
  destruct (Cluster_from_config num_cpus (setup_config config opts)) as [c| | |] eqn:Ec; [|done|done|].
  - rewrite bind_Ok_1.
    assert (∀ n, Config.num_shards (setup_config config opts) = Some n → 0 <= n) as Hn.
    { intros n. rewrite setup_config_shards. exact (load_config_typed opts config n El). }
    destruct (ClusterSpawnEnv.poll env) eqn:Ep; [destruct (ClusterSpawnEnv.waker env) eqn:Ew|].
    1: by rewrite (spawning_a_cluster_panics _ _ _ _ _ _ Ec Hn Ep Ew set_miot_ends).
    all: split; [|done]; apply from_config_ok in Ec as (? & _ & _ & ->); unfold Cluster_spawn;
      cbn [inner_of]; cbv zeta; by rewrite ?Ep, ?Ew.
  - unfold Cluster_from_config, Config_num_shards, num_cores, u32_try_from in Ec.
    destruct (_ <? _) in Ec; [|done]. cbn [unwrap] in Ec. rewrite bind_Ok_1 in Ec. cbv zeta in Ec.
    destruct (_ <? _) in Ec; [|done]. rewrite !bind_Ok_1 in Ec. by repeat case_match.
Qed.

(** C26: no command line starts a broker: whatever the configuration file holds and the
    operating system answers, the process ends - with code 1 only if a configuration file
    was named; and in a panic when the configuration is one that the cluster accepts and
    there is a poller for it. *)
Theorem no_broker_starts opts :
  main opts ≠ Running ∧
  (∀ code, main opts = Exited code → code = 1 ∧ is_Some (config_loc opts)) ∧
  ∀ config c, load_config opts = Ok config →
    Cluster_from_config num_cpus (setup_config config opts) = Ok c →
    ClusterSpawnEnv.poll env = true → ClusterSpawnEnv.waker env = true → main opts = Panicked.
Proof using read_ends parse_ends parse_typed set_miot_ends.
  pose proof (load_config_ends opts) as Hd. unfold main. split; [|split].
  - destruct (load_config opts) as [config| | |] eqn:El; [|done..].
    destruct (handle_start_ends opts config El) as [H _]. by destruct (handle_start opts config).
  - intros code. destruct (load_config opts) as [config|e| |] eqn:El; [|intros [= <-]|done..].
    + by destruct (handle_start opts config).
    + by apply load_config_exit in El.
  - intros config c El Ec Ep Ew. rewrite El. destruct (handle_start_ends opts config El) as [_ H].
    by rewrite (H c Ec Ep Ew).
Qed.
End main.

(** * An instance *)

(** Any file is there, and describes a broker of four shards. *)
Definition ex_read (loc : bytes) : outcome unit bytes := Ok [0x6d].
Definition ex_parse (s : bytes) : outcome unit Config := Ok ex_cluster_config.
Definition ex_spawn_env : ClusterSpawnEnv :=
  ClusterSpawnEnv.mk true true (λ _, ShardSpawnEnv.mk true true true true (Ok ())) (λ _, Ok ())
    (SpawnEnv.mk true true true true) (Ok ()).
Definition ex_opts : Opt := mkOpt (Some [0x63]) (Start None (Some 1884)).

Lemma no_broker_starts_witness :
  main ex_read ex_parse 8 ex_spawn_env 0 ex_node ex_opts = Panicked.
Proof.
  assert (∀ s config n, ex_parse s = Ok config → Config.num_shards config = Some n → 0 <= n) as Ht.
  { intros s config n [= <-] [= <-]. lia. }
  pose proof (no_broker_starts ex_read ex_parse 8 ex_spawn_env 0 ex_node ltac:(done) ltac:(done) Ht ltac:(done) ex_opts)
    as (_ & _ & H).
  apply (H ex_cluster_config (mkCluster (setup_config ex_cluster_config ex_opts) ClusterInit));
    [done|by vm_compute|done..].
Defined.
