(* ===== verification/Chash.v ===== *)
(** Model of [src/chash.rs]: consistent hashing, a ring of hashes on which every node has
    as many points as its weight.  No module of the crate includes the file; where its
    code leaves arguments and fields out, it is read with those.

    The generator of random numbers is a parameter: the numbers it gives for a seed. *)

From S2P Require Import Prelude Error Util Ttrie TtrieFacts Cluster.
Local Open Scope Z_scope.

(** An identifier, as a number of 128 bits, whose bytes are in big-endian order. *)
(** src/chash.rs:105-107 [hash] *)
Definition uuid_word (uuid : Z) (start : nat) : u32 :=
  Z.land (Z.shiftr uuid (32 * (3 - Z.of_nat start))) 0xffffffff.

(** src/chash.rs:102-109 [hash] *)
Definition uuid_hash (uuid : Z) : u32 :=
  fold_left (λ hash start, Z.lxor hash (uuid_word uuid start)) (seq 0 4) 0.

Abbreviation conode := (Z * u32)%type.

(** src/chash.rs:10-16 [ConsistentHash] *)
Record ConsistentHash := mkConsistentHash { conodes : list conode }.

Section chash.
Context (gen : u64 → nat → u32).

(** src/chash.rs:91-100 [circle_of_hash] *)
Definition circle_of_hash (uuid : Z) (hash : u32) (weight : u16) : list conode :=
  let seed := Z.lor (Z.shiftl hash 32) (Z.shiftl hash 32) in
  let conodes := (λ i, (uuid, gen seed i)) <$> seq 0 (Z.to_nat (weight - 1)) in
  sort_by_key snd ((uuid, hash) :: conodes).

Section nodes.
Context {T : Type} `{!Hostable T}.

Definition circle_of (node : T) : list conode :=
  circle_of_hash (host_uuid node) (uuid_hash (host_uuid node)) (host_weight node).

(** src/chash.rs:38-47 [ConsistentHash::add_nodes] *)
Definition add_nodes (self : ConsistentHash) (nodes : list T) : ConsistentHash :=
  mkConsistentHash
    (fold_left (λ conodes node, sort_by_key snd (conodes ++ circle_of node)) nodes (conodes self)).

(** The places of the points of a node, the last first, and their removal. *)
(** src/chash.rs:51-60 [ConsistentHash::remove_nodes] *)
Definition points_of_node (uuid : Z) (conodes : list conode) : list nat :=
  reverse (fst <$> filter (λ e, uuid = e.2.1) (imap pair conodes)).

(** src/chash.rs:62-64 [ConsistentHash::remove_nodes] *)
Fixpoint remove_points (offs : list nat) (conodes : list conode) : Result (list conode) :=
  match offs with
  | [] => Ok conodes
  | i :: offs => '(_, conodes) ← vec_remove conodes i; remove_points offs conodes
  end.

(** src/chash.rs:49-68 [ConsistentHash::remove_nodes] *)
Fixpoint remove_nodes (self : ConsistentHash) (nodes : list T) : Result ConsistentHash :=
  match nodes with
  | [] => Ok self
  | node :: nodes =>
      conodes ← remove_points (points_of_node (host_uuid node) (conodes self)) (conodes self);
      remove_nodes (mkConsistentHash conodes) nodes
  end.

(** src/chash.rs:23-36 [ConsistentHash::from_nodes] *)
Definition from_nodes (nodes : list T) : Result ConsistentHash :=
  match nodes with
  | node :: nodes => Ok (add_nodes (mkConsistentHash (circle_of node)) nodes)
  | [] => err_desc ErrorKind.InvalidInput
  end.
End nodes.

(** The point before the hash, and before the first one the last; there is none on an empty
    ring. *)
(** src/chash.rs:80-87 [ConsistentHash::shard_to_node] *)
Definition shard_to_node (self : ConsistentHash) (uuid : Z) : Result Z :=
  let hash := uuid_hash uuid in
  r ← binary_search_by (λ a, Ok (Z.compare (snd a) hash)) (conodes self);
  off ← match r with
        | inl O | inr O =>
            if (length (conodes self) =? 0)%nat then Panic else Ok (length (conodes self) - 1)%nat
        | inl (S off) | inr (S off) => Ok off
        end;
  match conodes self !! off with Some c => Ok (fst c) | None => Panic end.
End chash.

(** * The ring *)

Definition conode_le : conode → conode → Prop := key_le snd.

(** The ring is sorted, and no two of its points have the same hash. *)
Definition wf_ring (ring : list conode) : Prop := StronglySorted conode_le ring ∧ NoDup ring.*2.

(** [c] owns the hash: it is the last point before it; or there is none before it, and it is
    the last of all. *)
Definition owns (ring : list conode) (hash : Z) (c : conode) : Prop :=
  c ∈ ring ∧
  ((c.2 < hash ∧ ∀ d, d ∈ ring → d.2 < hash → d.2 ≤ c.2) ∨
   ((∀ d, d ∈ ring → hash ≤ d.2) ∧ ∀ d, d ∈ ring → d.2 ≤ c.2)).

Lemma conode_inj ring (c d : conode) : NoDup ring.*2 → c ∈ ring → d ∈ ring → c.2 = d.2 → c = d.
Proof.
  intros Hn [i Hi]%list_elem_of_lookup [j Hj]%list_elem_of_lookup E.
  assert (ring.*2 !! i = Some c.2 ∧ ring.*2 !! j = Some c.2) as [Hi2 Hj2]
    by (split; rewrite list_lookup_fmap, ?Hi, ?Hj; cbn; congruence).
  assert (i = j) as -> by by eapply NoDup_lookup. congruence.
Qed.

Lemma owns_unique ring hash c d : NoDup ring.*2 → owns ring hash c → owns ring hash d → c = d.
Proof.
  intros Hn [Hc Hco] [Hd Hdo]. apply (conode_inj ring); [done..|].
  destruct Hco as [[H1 H2]|[H1 H2]], Hdo as [[H3 H4]|[H3 H4]].
  - specialize (H2 d Hd H3). specialize (H4 c Hc H1). lia.
  - specialize (H3 c Hc). lia.
  - specialize (H1 d Hd). lia.
  - specialize (H2 d Hd). specialize (H4 c Hc). lia.
Qed.

(** Of a ring with more points, a point that owns a hash owns it among the fewer. *)
Lemma owns_fewer ring ring' hash c : c ∈ ring → ring ⊆ ring' → owns ring' hash c → owns ring hash c.
Proof.
  intros Hc Hsub [_ Ho]. split; [done|].
  destruct Ho as [[H1 H2]|[H1 H2]]; [left|right]; split; try done; intros d Hd; auto.
Qed.

Lemma owns_permutation ring ring' hash c : ring ≡ₚ ring' → owns ring hash c → owns ring' hash c.
Proof. intros E [Hc Ho]. unfold owns. setoid_rewrite <- E. by split. Qed.

(** The last of sorted points is the greatest. *)
Lemma sorted_last ring c d : StronglySorted conode_le (ring ++ [c]) → d ∈ ring ++ [c] → d.2 ≤ c.2.
Proof.
  intros Hs [Hd| ->%list_elem_of_singleton]%elem_of_app; [|lia].
  eapply (StronglySorted_app_1_elem_of conode_le) in Hs; [exact Hs|done|by left].
Qed.

Lemma ring_split ring hash : wf_ring ring →
  ∃ l1 l2, ring = l1 ++ l2 ∧ (∀ d, d ∈ l1 → d.2 < hash) ∧ (∀ d, d ∈ l2 → hash ≤ d.2) ∧
    ∃ b : bool, binary_search_by (λ a : conode, Ok (Z.compare (snd a) hash)) ring
      = Ok (if b then inl (length l1) else inr (length l1)).
Proof.
  intros [Hs Hn]. set (f := λ a : conode, Ok (Z.compare (snd a) hash)).
  assert (StronglySorted (λ c d : conode, c.2 < d.2) ring) as Hstrict.
  { induction Hs as [|c ring Hs IH Hf]; [constructor|]. cbn in Hn. apply NoDup_cons in Hn as [Hc Hn].
    constructor; [by apply IH|]. rewrite Forall_forall in Hf |- *. intros d Hd. specialize (Hf d Hd).
    unfold conode_le, key_le in Hf. assert (c.2 ≠ d.2); [|lia].
    intros E. apply Hc. rewrite E. apply list_elem_of_fmap. by exists d. }
  assert (∀ l (x : comparison), answers f x l → ∀ d, d ∈ l → Z.compare d.2 hash = x) as Hans.
  { intros l x Hl d Hd. unfold answers in Hl. rewrite Forall_forall in Hl. specialize (Hl d Hd).
    by injection Hl. }
  destruct (sorted_split_at f _ (λ a : conode, Z.compare a.2 hash) ring Hstrict) as [l1 x l2 H1 Hx H2|l1 l2 H1 H2].
  - by apply Forall_forall.
  - intros x y Hxy Hx. destruct (Z.compare_spec x.2 hash), (Z.compare_spec y.2 hash); done || lia.
  - exists l1, (x :: l2). split; [done|]. split.
    { intros d Hd. apply Z.compare_lt_iff. by apply (Hans l1). }
    split; [|exists true; by apply binary_search_by_found].
    injection Hx as Hx%Z.compare_eq_iff. intros d [->|Hd]%elem_of_cons; [lia|].
    specialize (Hans _ _ H2 d Hd). apply Z.compare_gt_iff in Hans. lia.
  - exists l1, l2. split; [done|]. split.
    { intros d Hd. apply Z.compare_lt_iff. by apply (Hans l1). }
    split; [|exists false; by apply binary_search_by_missing].
    intros d Hd. specialize (Hans _ _ H2 d Hd). apply Z.compare_gt_iff in Hans. lia.
Qed.

(** What the search finds. *)
Lemma shard_to_node_owns ring uuid : wf_ring ring → ring ≠ [] →
  ∃ c, owns ring (uuid_hash uuid) c ∧ shard_to_node (mkConsistentHash ring) uuid = Ok c.1.
Proof.
  intros Hwf Hne. unfold shard_to_node. cbv zeta. cbn [conodes].
  destruct (ring_split ring (uuid_hash uuid) Hwf) as (l1 & l2 & -> & H1 & H2 & b & ->).
  rewrite bind_Ok_1. destruct Hwf as [Hs _]. destruct l1 as [|c l1 _] using rev_ind.
  - cbn [app] in *. destruct l2 as [|c l2 _] using rev_ind; [done|].
    exists c. split.
    + split; [apply elem_of_app; right; by left|]. right. split; [done|]. intros d Hd. by eapply sorted_last.
    + cbn [length]. rewrite length_app. cbn [length]. rewrite Nat.add_1_r. cbn [Nat.eqb].
      destruct b; rewrite bind_Ok_1, Nat.sub_1_r; cbn [Nat.pred]; by rewrite list_lookup_middle.
  - exists c. split.
    + split; [apply elem_of_app; left; apply elem_of_app; right; by left|]. left.
      split; [apply H1, elem_of_app; right; by left|].
      intros d [Hd|Hd]%elem_of_app Hlt; [|specialize (H2 d Hd); lia].
      eapply sorted_last; [|done]. by apply StronglySorted_app_1_l in Hs.
    + rewrite length_app, Nat.add_1_r. rewrite <- app_assoc. cbn [app]. destruct b; rewrite bind_Ok_1; by rewrite list_lookup_middle.
Qed.

(** * Nodes that come and go *)

Section ring.
Context (gen : u64 → nat → u32) {T : Type} `{!Hostable T}.
Implicit Types (ring : list conode) (nodes : list T).

(** The points of some nodes. *)
Definition circles nodes : list conode := nodes ≫= circle_of gen.

Lemma circle_of_uuid node c : c ∈ circle_of gen node → c.1 = host_uuid node.
Proof.
  unfold circle_of, circle_of_hash. rewrite sort_by_key_permutation.
  intros [->|(i & -> & _)%list_elem_of_fmap]%elem_of_cons; done.
Qed.

Lemma circles_uuid nodes c : c ∈ circles nodes → ∃ node, node ∈ nodes ∧ c.1 = host_uuid node.
Proof.
  intros (node & Hc & Hn)%list_elem_of_bind. exists node. split; [done|]. by apply circle_of_uuid.
Qed.

Lemma add_nodes_permutation nodes : ∀ ring,
  conodes (add_nodes gen (mkConsistentHash ring) nodes) ≡ₚ ring ++ circles nodes.
Proof.
  unfold add_nodes. cbn [conodes]. induction nodes as [|node nodes IH]; intros ring; cbn [fold_left].
  { by rewrite app_nil_r. }
  rewrite IH, sort_by_key_permutation. unfold circles. cbn. by rewrite app_assoc.
Qed.

Lemma add_nodes_sorted nodes : ∀ ring, StronglySorted conode_le ring →
  StronglySorted conode_le (conodes (add_nodes gen (mkConsistentHash ring) nodes)).
Proof.
  unfold add_nodes. cbn [conodes]. induction nodes as [|node nodes IH]; intros ring Hs; cbn [fold_left]; [done|].
  apply IH, sort_by_key_sorted.
Qed.

Lemma add_nodes_wf ring nodes : wf_ring ring → NoDup (ring ++ circles nodes).*2 →
  wf_ring (conodes (add_nodes gen (mkConsistentHash ring) nodes)).
Proof.
  intros [Hs _] Hn. split; [by apply add_nodes_sorted|]. by rewrite add_nodes_permutation.
Qed.

Lemma remove_points_app offs k : ∀ ring ring',
  remove_points offs ring = Ok ring' → remove_points offs (ring ++ k) = Ok (ring' ++ k).
Proof.
  induction offs as [|i offs IH]; intros ring ring' H; cbn [remove_points] in *; [by injection H as <-|].
  unfold vec_remove in *. destruct (ring !! i) as [x|] eqn:Hi; [|done].
  pose proof (lookup_lt_Some _ _ _ Hi) as Hlt.
  rewrite (lookup_app_l_Some _ _ _ _ Hi). rewrite bind_Ok_1 in H |- *.
  rewrite take_app_le, drop_app_le by lia. rewrite app_assoc. by apply IH.
Qed.

(** Taking out the points of a node, from the last to the first, leaves the others. *)
Lemma remove_points_filter uuid ring :
  remove_points (points_of_node uuid ring) ring = Ok (filter (λ c, uuid ≠ c.1) ring).
Proof.
  induction ring as [|c ring IH] using rev_ind; [done|].
  unfold points_of_node in *. rewrite imap_app, !filter_app, fmap_app, reverse_app.
  cbn [imap]. rewrite Nat.add_0_r. destruct (decide (uuid = c.1)) as [E|E].
  - rewrite (filter_cons_True _ _ []), filter_nil by done. rewrite (filter_cons_False _ c []) by tauto.
    rewrite filter_nil, app_nil_r. cbn [fmap list_fmap fst reverse rev_append app].
    cbn [remove_points]. rewrite vec_remove_middle, app_nil_r, bind_Ok_1. done.
  - rewrite (filter_cons_False _ _ []), filter_nil by done. rewrite (filter_cons_True _ c []) by done.
    rewrite filter_nil. cbn [fmap list_fmap reverse rev_append app]. by apply remove_points_app.
Qed.

Lemma remove_nodes_filter nodes : ∀ ring,
  remove_nodes (mkConsistentHash ring) nodes
  = Ok (mkConsistentHash (filter (λ c, c.1 ∉ (host_uuid <$> nodes)) ring)).
Proof.
  induction nodes as [|node nodes IH]; intros ring; cbn [remove_nodes conodes].
  { do 2 f_equal. induction ring as [|c ring IH]; [done|].
    rewrite filter_cons_True by apply not_elem_of_nil. by f_equal. }
  rewrite remove_points_filter, bind_Ok_1, IH. do 2 f_equal. rewrite list_filter_filter.
  apply list_filter_iff. intros c. rewrite fmap_cons, not_elem_of_cons. naive_solver.
Qed.

Lemma filter_wf (P : conode → Prop) `{!∀ c, Decision (P c)} ring : wf_ring ring → wf_ring (filter P ring).
Proof.
  intros [Hs Hn]. split.
  - clear Hn. induction Hs as [|c ring Hs IH Hf]; [constructor|]. rewrite filter_cons.
    destruct (decide (P c)); [|done]. constructor; [done|]. rewrite Forall_forall in Hf |- *.
    intros d [_ Hd]%list_elem_of_filter. by apply Hf.
  - eapply sublist_NoDup; [exact Hn|]. apply fmap_sublist, sublist_filter.
Qed.
Lemma circle_of_point node : (host_uuid node, uuid_hash (host_uuid node)) ∈ circle_of gen node.
Proof. unfold circle_of, circle_of_hash. rewrite sort_by_key_permutation. by left. Qed.

Lemma circles_point node nodes : node ∈ nodes → (host_uuid node, uuid_hash (host_uuid node)) ∈ circles nodes.
Proof. intros Hn. apply list_elem_of_bind. exists node. split; [apply circle_of_point|done]. Qed.

Lemma from_nodes_wf nodes ch : NoDup (circles nodes).*2 → from_nodes gen nodes = Ok ch →
  wf_ring (conodes ch) ∧ conodes ch ≡ₚ circles nodes ∧ conodes ch ≠ [].
Proof.
  destruct nodes as [|node nodes]; [done|]. intros Hn [= <-].
  assert (conodes (add_nodes gen (mkConsistentHash (circle_of gen node)) nodes) ≡ₚ circles (node :: nodes)) as Hp
    by apply add_nodes_permutation.
  split; [|split; [done|]].
  - split; [apply add_nodes_sorted, sort_by_key_sorted|]. by rewrite Hp.
  - intros E. rewrite E in Hp. apply Permutation_nil_l in Hp.
    pose proof (circles_point node (node :: nodes) ltac:(by left)) as H. rewrite <- Hp in H. by apply elem_of_nil in H.
Qed.
End ring.

(** C36: consistent hashing.  On a ring of nodes whose points have distinct hashes every shard
    has a node; when nodes are added, a shard stays where it is or goes to one of them; when
    nodes are removed, and not all, a shard goes to one that is left, and stays where it
    is if its node is left. *)
Theorem shards_move_no_further gen {T} `{!Hostable T} (nodes new gone : list T) ch uuid :
  NoDup (circles gen (nodes ++ new)).*2 → from_nodes gen nodes = Ok ch →
  (∃ node, node ∈ nodes ∧ host_uuid node ∉ (host_uuid <$> gone)) →
  ∃ a b c ch',
    shard_to_node ch uuid = Ok a ∧ a ∈ (host_uuid <$> nodes) ∧
    shard_to_node (add_nodes gen ch new) uuid = Ok b ∧ (b = a ∨ b ∈ (host_uuid <$> new)) ∧
    remove_nodes ch gone = Ok ch' ∧ shard_to_node ch' uuid = Ok c ∧
    (c ∉ (host_uuid <$> gone)) ∧ ((a ∉ (host_uuid <$> gone)) → c = a).
Proof.
  intros Hn Hf (node & Hnode & Hleft). unfold circles in Hn. rewrite bind_app in Hn.
  fold (circles gen nodes) (circles gen new) in Hn.
  assert (NoDup (circles gen nodes).*2) as Hn1 by (rewrite fmap_app in Hn; by apply NoDup_app in Hn as [? _]).
  destruct (from_nodes_wf gen nodes ch Hn1 Hf) as (Hwf & Hp & Hne). destruct ch as [ring]. cbn [conodes] in *.
  rewrite <- Hp in Hn.
  destruct (shard_to_node_owns ring uuid Hwf Hne) as (a & Ha & Ea).
  assert (∀ d, d ∈ ring → d.1 ∈ (host_uuid <$> nodes)) as Hring.
  { intros d Hd. rewrite Hp in Hd. apply circles_uuid in Hd as (m & Hm & ->). by apply list_elem_of_fmap_2. }
  set (added := add_nodes gen (mkConsistentHash ring) new).
  assert (conodes added ≡ₚ ring ++ circles gen new) as Hadd by apply add_nodes_permutation.
  destruct (shard_to_node_owns (conodes added) uuid) as (b & Hb & Eb).
  { by apply add_nodes_wf. }
  { intros E. rewrite E in Hadd. apply Permutation_nil_l in Hadd. by apply symmetry, app_eq_nil in Hadd as [? _]. }
  set (ring' := filter (λ c : conode, c.1 ∉ (host_uuid <$> gone)) ring).
  assert (wf_ring ring') as Hwf' by by apply filter_wf.
  destruct (shard_to_node_owns ring' uuid Hwf') as (c & Hc & Ec).
  { intros E. assert ((host_uuid node, uuid_hash (host_uuid node)) ∈ ring') as H.
    { apply list_elem_of_filter. split; [done|]. rewrite Hp. by apply circles_point. }
    rewrite E in H. by apply elem_of_nil in H. }
  exists a.1, b.1, c.1, (mkConsistentHash ring'). split; [done|]. split; [by apply Hring, Ha|].
  split; [by destruct added|]. split.
  - apply (owns_permutation _ _ _ _ Hadd) in Hb. destruct (proj1 (elem_of_app _ _ _) (proj1 Hb)) as [Hd|Hd].
    + left. f_equal. apply (owns_unique ring (uuid_hash uuid)); [apply Hwf| |done].
      eapply owns_fewer; [done| |exact Hb]. intros x Hx. apply elem_of_app. by left.
    + right. apply circles_uuid in Hd as (m & Hm & ->). by apply list_elem_of_fmap_2.
  - split; [apply (remove_nodes_filter gen)|]. split; [done|].
    pose proof (proj1 Hc) as Hcr. apply list_elem_of_filter in Hcr as [Hcg _]. split; [done|].
    intros Hag. f_equal. apply (owns_unique ring' (uuid_hash uuid)); [apply Hwf'|done|].
    eapply owns_fewer; [|intros x Hx; by apply list_elem_of_filter in Hx as [_ ?]|exact Ha].
    apply list_elem_of_filter. split; [done|apply Ha].
Qed.

(** When all nodes are removed, finding the node of a shard panics. *)
Lemma no_nodes_panics uuid : shard_to_node (mkConsistentHash []) uuid = Panic.
Proof. reflexivity. Qed.

(** Nodes of weight one and two; the generator gives numbers made from the square of its
    seed. *)
Definition ex_ring_node (uuid : Z) (weight : u16) : ClusterNode := ClusterNode.mk uuid [] weight [].
Definition ex_gen (seed : u64) (i : nat) : u32 := (seed * seed / 2 ^ 64 + Z.of_nat i) mod 2 ^ 32.

Lemma shards_move_no_further_witness :
  let nodes := [ex_ring_node 77 1; ex_ring_node 1000 2] in let new := [ex_ring_node 500 1] in
  ∃ ch a b c ch',
    from_nodes ex_gen nodes = Ok ch ∧
    shard_to_node ch 700 = Ok a ∧ shard_to_node (add_nodes ex_gen ch new) 700 = Ok b ∧
    remove_nodes ch [ex_ring_node 1000 2] = Ok ch' ∧ shard_to_node ch' 700 = Ok c ∧
    (b = a ∨ b ∈ [500]) ∧ (c ∉ [1000]).
Proof.
  intros nodes new. destruct (from_nodes ex_gen nodes) as [ch| | |] eqn:E; [|discriminate E..].
  destruct (shards_move_no_further ex_gen nodes new [ex_ring_node 1000 2] ch 700)
    as (a & b & c & ch' & Ha & _ & Hb & Hab & Hr & Hc & Hcg & _).
  - apply (bool_decide_unpack _). vm_compute. exact I.
  - exact E.
  - exists (ex_ring_node 77 1). split; [by left|]. apply (bool_decide_unpack _). vm_compute. exact I.
  - exists ch, a, b, c, ch'. split; [done|]. split; [exact Ha|]. split; [exact Hb|]. split; [exact Hr|].
    split; [exact Hc|]. split; [exact Hab|exact Hcg].
Defined.
