(* ===== verification/Arbitrary.v ===== *)
(** Model of the generators of test data in [src/types.rs] and [src/v5]: the
    implementations of [Arbitrary] that are compiled for tests and fuzzing, with the
    [normalize] methods that belong to them.

    The input they consume is the [Unstructured] of the [arbitrary] crate.  It is a
    parameter: what its methods give and what is left of it, or an error. *)

From S2P Require Import Prelude Error Util Codec Types V5 AckPackets SubPackets Config ConnectPackets.
From stdpp Require Import strings.
Local Open Scope Z_scope.

(** * Generators *)

(** A computation that consumes input of type [U] and may fail with an error of type [E]. *)
Definition Gen (E U A : Type) : Type := U → U * outcome E A.

#[export] Instance Gen_ret {E U} : MRet (Gen E U) := λ A a u, (u, Ok a).
#[export] Instance Gen_bind {E U} : MBind (Gen E U) := λ A B f m u,
  let '(u, r) := m u in
  match r with
  | Ok a => f a u
  | Err e => (u, Err e)
  | Panic => (u, Panic)
  | Diverge => (u, Diverge)
  end.

(** The crate's input: its numbers and bytes, whether an [Option] has a value, the index
    [choose] takes in a list of a length, the variant that a derived implementation takes
    of so many, and a random UUID as text. *)
Class Unstructured (E U : Type) := {
  arbitrary_bool : Gen E U bool;
  arbitrary_u8 : Gen E U u8;
  arbitrary_u16 : Gen E U u16;
  arbitrary_u32 : Gen E U u32;
  arbitrary_usize : Gen E U Z;
  arbitrary_bytes : Gen E U bytes;
  arbitrary_is_some : Gen E U bool;
  choose_index : nat → Gen E U nat;
  arbitrary_variant : nat → Gen E U nat;
  new_v4_text : Gen E U bytes;
  incorrect_format : E;
}.

Section generators.
Context {E U : Type} `{!Unstructured E U}.
Abbreviation G := (Gen E U).

Definition gen_end {A} (r : outcome E A) : G A := λ u, (u, r).

(** [?] on a result of the crate. *)
(** src/error.rs:243-247 [arbitrary::Error::from(Error)] *)
Definition gen_try {A} (r : Result A) : G A :=
  gen_end match r with
          | Ok a => Ok a
          | Err _ => Err (incorrect_format (U := U))
          | Panic => Panic
          | Diverge => Diverge
          end.
(** [.unwrap()] on one. *)
Definition gen_unwrap {A} (r : Result A) : G A :=
  gen_end match r with Ok a => Ok a | Diverge => Diverge | _ => Panic end.

(** [uns.choose(&xs)], and a derived implementation with the variants [xs]. *)
Definition pick {A} (index : nat → G nat) (xs : list A) : G A :=
  i ← index (length xs);
  match xs !! i with Some x => mret x | None => gen_end Panic end.
Definition choose {A} (xs : list A) : G A := pick choose_index xs.
Definition derived {A} (xs : list A) : G A := pick arbitrary_variant xs.

Definition arbitrary_option {A} (g : G A) : G (option A) :=
  some ← arbitrary_is_some;
  match some with true => x ← g; mret (Some x) | false => mret None end.

(** [for _ in 0..n { xs.push(g?) }]. *)
Fixpoint repeat_gen {A} (n : nat) (g : G A) : G (list A) :=
  match n with
  | O => mret []
  | S n => x ← g; xs ← repeat_gen n g; mret (x :: xs)
  end.

(** A string literal. *)
Definition str (s : string) : bytes :=
  (λ a, Z.of_N (Ascii.N_of_ascii a)) <$> String.list_ascii_of_string s.

(** [String::from_iter], the UTF-8 of characters. *)
Definition char_bytes (c : Z) : bytes :=
  if c <? 0x80 then [c]
  else if c <? 0x800 then [0xC0 + c / 64; 0x80 + c mod 64]
  else if c <? 0x10000 then [0xE0 + c / 4096; 0x80 + c / 64 mod 64; 0x80 + c mod 64]
  else [0xF0 + c / 262144; 0x80 + c / 4096 mod 64; 0x80 + c / 64 mod 64; 0x80 + c mod 64].
Definition string_of_chars (cs : list Z) : bytes := cs ≫= char_bytes.

(** * src/types.rs *)

(** src/types.rs:92-103 [ClientID::arbitrary] *)
Definition ClientID_arbitrary : G ClientID :=
  c ← arbitrary_u8;
  match c mod 2 with
  | 0 => uuid ← new_v4_text; mret (mkClientID uuid)
  | 1 => mret (mkClientID (str ""))
  | _ => gen_end Panic
  end.

(** src/types.rs:350-356 [VarU32::arbitrary] *)
Definition VarU32_arbitrary : G VarU32 :=
  val ← arbitrary_u32;
  mret (mkVarU32 (val mod VarU32_MAX)).

(** src/types.rs:424-442 [valid_user_props] *)
Definition valid_user_props (n : nat) : G (list UserProperty) :=
  repeat_gen n
    (key ← choose [str ""; str "key"];
     val ← choose [str ""; str "val"];
     mret (key, val)).

(** [uns.arbitrary::<usize>()? % 4] *)
Definition n_user_props : G nat :=
  n ← arbitrary_usize;
  mret (Z.to_nat (n mod 4)).

(** [match uns.arbitrary::<u8>()? % 2 { 0 => Some(uns.choose(..)?), 1 => None, .. }] *)
Definition optional_choice (xs : list bytes) : G (option bytes) :=
  c ← arbitrary_u8;
  match c mod 2 with
  | 0 => x ← choose xs; mret (Some x)
  | 1 => mret None
  | _ => gen_end Panic
  end.

Definition LEVELS : list bytes := [str ""; str "$"; str "$SYS"].
Definition FILTER_LEVELS : list bytes := [str ""; str "$"; str "$SYS"; HASH; PLUS].
Definition STRINGS : list bytes := [str ""; str "a"; str "ab"; str "abc"].

(** [(c % 10) + 1] levels. *)
(** src/types.rs:155-161 [TopicName::arbitrary] *)
Definition arbitrary_levels (special : list bytes) (c : u8) : G (list bytes) :=
  repeat_gen (Z.to_nat (c mod 10 + 1))
    (n ← arbitrary_u8;
     if n <=? 200 then choose STRINGS else choose special).

(** The strings chosen until one is not empty.  [fuel] bounds how many are chosen: nothing
    in the code does ([topic_generation_ends]). *)
(** src/types.rs:170-175 [TopicName::arbitrary] *)
Fixpoint nonempty (fuel : nat) (s : bytes) : G bytes :=
  if (0 <? length s)%nat then mret s
  else match fuel with
       | O => gen_end Diverge
       | S fuel => s ← choose STRINGS; nonempty fuel s
       end.

Context (fuel : nat).

(** src/types.rs:142-179 [TopicName::arbitrary] *)
Definition TopicName_arbitrary : G TopicName :=
  c ← arbitrary_u8;
  levels ←
    (if c <=? 9 then l ← choose STRINGS; mret [l] else arbitrary_levels LEVELS c);
  s ← nonempty fuel
        (string_of_chars
           (filter (λ ch, negb (is_wildcard ch || (ch =? 0)) = true) (chars (join_slash levels))));
  mret (mkTopicName s).

(** Up to the first [#]. *)
(** src/types.rs:291-294 [TopicFilter::arbitrary] *)
Definition up_to_hash (levels : list bytes) : list bytes :=
  match list_find (λ l, l = HASH) levels with
  | Some (i, _) => take (i + 1) levels
  | None => levels
  end.

(** src/types.rs:270-311 [TopicFilter::arbitrary] *)
Definition TopicFilter_arbitrary : G TopicFilter :=
  c ← arbitrary_u8;
  levels ←
    (if c <=? 9 then l ← choose FILTER_LEVELS; mret [l]
     else if c <=? 20 then l ← choose STRINGS; mret [l]
     else levels ← arbitrary_levels FILTER_LEVELS c; mret (up_to_hash levels));
  s ← nonempty fuel
        (string_of_chars (filter (λ ch, negb (ch =? 0) = true) (chars (join_slash levels))));
  mret (mkTopicFilter s).

(** * src/v5/mod.rs *)

(** src/v5/mod.rs:187-205 [PacketType::arbitrary] *)
Definition PacketType_arbitrary : G PacketType :=
  derived
   [PacketType.Connect; PacketType.ConnAck; PacketType.Publish; PacketType.PubAck;
    PacketType.PubRec; PacketType.PubRel; PacketType.PubComp; PacketType.Subscribe;
    PacketType.SubAck; PacketType.UnSubscribe; PacketType.UnsubAck; PacketType.PingReq;
    PacketType.PingResp; PacketType.Disconnect; PacketType.Auth].

(** src/v5/mod.rs:389-395 [QoS::arbitrary] *)
Definition QoS_arbitrary : G QoS := derived [QoS.AtMostOnce; QoS.AtLeastOnce; QoS.ExactlyOnce].

(** src/v5/mod.rs:1059-1064 [PayloadFormat::arbitrary] *)
Definition PayloadFormat_arbitrary : G PayloadFormat :=
  derived [PayloadFormat.Binary; PayloadFormat.Utf8].

(** src/v5/mod.rs:666-696 [PropertyType::arbitrary] *)
Definition PropertyType_arbitrary : G PropertyType :=
  derived
   [PropertyType.PayloadFormatIndicator; PropertyType.MessageExpiryInterval;
    PropertyType.ContentType; PropertyType.ResponseTopic; PropertyType.CorrelationData;
    PropertyType.SubscriptionIdentifier; PropertyType.SessionExpiryInterval;
    PropertyType.AssignedClientIdentifier; PropertyType.ServerKeepAlive;
    PropertyType.AuthenticationMethod; PropertyType.AuthenticationData;
    PropertyType.RequestProblemInformation; PropertyType.WillDelayInterval;
    PropertyType.RequestResponseInformation; PropertyType.ResponseInformation;
    PropertyType.ServerReference; PropertyType.ReasonString; PropertyType.ReceiveMaximum;
    PropertyType.TopicAliasMaximum; PropertyType.TopicAlias; PropertyType.MaximumQoS;
    PropertyType.RetainAvailable; PropertyType.UserProp; PropertyType.MaximumPacketSize;
    PropertyType.WildcardSubscriptionAvailable; PropertyType.SubscriptionIdentifierAvailable;
    PropertyType.SharedSubscriptionAvailable].

(** Lengths until one is less than the greatest; the first one is ([rem_len_ends]). *)
(** src/v5/mod.rs:460-465 [FixedHeader::arbitrary] *)
Fixpoint arbitrary_rem_len (fuel : nat) : G VarU32 :=
  match fuel with
  | O => gen_end Diverge
  | S fuel =>
      rem_len ← VarU32_arbitrary;
      if varu32 rem_len <? VarU32_MAX then mret rem_len else arbitrary_rem_len fuel
  end.

(** src/v5/mod.rs:456-492 [FixedHeader::arbitrary] *)
Definition FixedHeader_arbitrary : G FixedHeader :=
  pkt_type ← PacketType_arbitrary;
  rem_len ← arbitrary_rem_len fuel;
  match pkt_type with
  | PacketType.Publish =>
      retain ← arbitrary_bool;
      qos ← QoS_arbitrary;
      dup ← arbitrary_bool;
      gen_try (FixedHeader_new_publish retain qos dup rem_len)
  | PacketType.PubRel => gen_try (FixedHeader_new_pubrel rem_len)
  | PacketType.Subscribe => gen_try (FixedHeader_new_subscribe rem_len)
  | PacketType.UnSubscribe => gen_try (FixedHeader_new_unsubscribe rem_len)
  | _ => gen_try (FixedHeader_new pkt_type rem_len)
  end.

(** src/v5/mod.rs:776-902 [Property::arbitrary] *)
Definition Property_arbitrary : G Property :=
  prop_type ← PropertyType_arbitrary;
  match prop_type with
  | PropertyType.PayloadFormatIndicator => val ← arbitrary_u8; mret (Property.PayloadFormatIndicator val)
  | PropertyType.MessageExpiryInterval => val ← arbitrary_u32; mret (Property.MessageExpiryInterval val)
  | PropertyType.ContentType => val ← choose [str "img/png"]; mret (Property.ContentType val)
  | PropertyType.ResponseTopic => val ← TopicName_arbitrary; mret (Property.ResponseTopic val)
  | PropertyType.CorrelationData => val ← arbitrary_bytes; mret (Property.CorrelationData val)
  | PropertyType.SubscriptionIdentifier => val ← VarU32_arbitrary; mret (Property.SubscriptionIdentifier val)
  | PropertyType.SessionExpiryInterval => val ← arbitrary_u32; mret (Property.SessionExpiryInterval val)
  | PropertyType.AssignedClientIdentifier =>
      val ← ClientID_arbitrary; mret (Property.AssignedClientIdentifier (client_id_str val))
  | PropertyType.ServerKeepAlive => val ← arbitrary_u16; mret (Property.ServerKeepAlive val)
  | PropertyType.AuthenticationMethod => val ← choose [str "userpass"]; mret (Property.AuthenticationMethod val)
  | PropertyType.AuthenticationData => val ← arbitrary_bytes; mret (Property.AuthenticationData val)
  | PropertyType.RequestProblemInformation => val ← arbitrary_u8; mret (Property.RequestProblemInformation val)
  | PropertyType.WillDelayInterval => val ← arbitrary_u32; mret (Property.WillDelayInterval val)
  | PropertyType.RequestResponseInformation => val ← arbitrary_u8; mret (Property.RequestResponseInformation val)
  | PropertyType.ResponseInformation => val ← choose [str "userpass"]; mret (Property.ResponseInformation val)
  | PropertyType.ServerReference => val ← choose [str "a.b.com:1883"]; mret (Property.ServerReference val)
  | PropertyType.ReasonString => val ← mret (str "failed"); mret (Property.ReasonString val)
  | PropertyType.ReceiveMaximum => val ← arbitrary_u16; mret (Property.ReceiveMaximum val)
  | PropertyType.TopicAliasMaximum => val ← arbitrary_u16; mret (Property.TopicAliasMaximum val)
  | PropertyType.TopicAlias => val ← arbitrary_u16; mret (Property.TopicAlias val)
  | PropertyType.MaximumQoS => val ← QoS_arbitrary; mret (Property.MaximumQoS val)
  | PropertyType.RetainAvailable => val ← arbitrary_u8; mret (Property.RetainAvailable val)
  | PropertyType.UserProp =>
      props ← valid_user_props 1;
      match last props with
      | Some val => mret (Property.UserProp val)
      | None => gen_end Panic
      end
  | PropertyType.MaximumPacketSize => val ← arbitrary_u32; mret (Property.MaximumPacketSize val)
  | PropertyType.WildcardSubscriptionAvailable => val ← arbitrary_u8; mret (Property.WildcardSubscriptionAvailable val)
  | PropertyType.SubscriptionIdentifierAvailable => val ← arbitrary_u8; mret (Property.SubscriptionIdentifierAvailable val)
  | PropertyType.SharedSubscriptionAvailable => val ← arbitrary_u8; mret (Property.SharedSubscriptionAvailable val)
  end.
End generators.
