(* ===== verification/ArbitraryPackets.v ===== *)
(** Model of the generators of packets in [src/v5]: the implementations of [Arbitrary]
    for the packets and their properties, compiled for tests and fuzzing, and the
    [normalize] methods that make a generated packet one that can be read back. *)

From S2P Require Import Prelude Error Util Codec Types V5 AckPackets SubPackets Config ConnectPackets.
From S2P Require Import Arbitrary.
From stdpp Require Import strings.
Local Open Scope Z_scope.

(** * Reason codes

    The codes each acknowledgement of PUBLISH admits. *)

(** src/v5/pubaclc.rs:16-27 [PubAckReasonCode] *)
Module PubAckReasonCode.
Inductive PubAckReasonCode :=
| Success | NoMatchingSubscribers | UnspecifiedError | ImplementationError
| NotAuthorized | TopicNameInvalid | PacketIdInuse | PacketIdNotFound
| QuotaExceeded | PayloadFormatInvalid.
End PubAckReasonCode.
Abbreviation PubAckReasonCode := PubAckReasonCode.PubAckReasonCode.
(** src/v5/pubaclc.rs:16-27 [PubAckReasonCode as u8] *)
Definition PubAckReasonCode_as_u8 (code : PubAckReasonCode) : u8 :=
  match code with
  | PubAckReasonCode.Success => 0x00
  | PubAckReasonCode.NoMatchingSubscribers => 0x10
  | PubAckReasonCode.UnspecifiedError => 0x80
  | PubAckReasonCode.ImplementationError => 0x83
  | PubAckReasonCode.NotAuthorized => 0x87
  | PubAckReasonCode.TopicNameInvalid => 0x90
  | PubAckReasonCode.PacketIdInuse => 0x91
  | PubAckReasonCode.PacketIdNotFound => 0x92
  | PubAckReasonCode.QuotaExceeded => 0x97
  | PubAckReasonCode.PayloadFormatInvalid => 0x99
  end.

(** src/v5/pubaclc.rs:33-44 [PubRecReasonCode] *)
Module PubRecReasonCode.
Inductive PubRecReasonCode :=
| Success | NoMatchingSubscribers | UnspecifiedError | ImplementationError
| NotAuthorized | TopicNameInvalid | PacketIdInuse | PacketIdNotFound
| QuotaExceeded | PayloadFormatInvalid.
End PubRecReasonCode.
Abbreviation PubRecReasonCode := PubRecReasonCode.PubRecReasonCode.
(** src/v5/pubaclc.rs:33-44 [PubRecReasonCode as u8] *)
Definition PubRecReasonCode_as_u8 (code : PubRecReasonCode) : u8 :=
  match code with
  | PubRecReasonCode.Success => 0x00
  | PubRecReasonCode.NoMatchingSubscribers => 0x10
  | PubRecReasonCode.UnspecifiedError => 0x80
  | PubRecReasonCode.ImplementationError => 0x83
  | PubRecReasonCode.NotAuthorized => 0x87
  | PubRecReasonCode.TopicNameInvalid => 0x90
  | PubRecReasonCode.PacketIdInuse => 0x91
  | PubRecReasonCode.PacketIdNotFound => 0x92
  | PubRecReasonCode.QuotaExceeded => 0x97
  | PubRecReasonCode.PayloadFormatInvalid => 0x99
  end.

(** src/v5/pubaclc.rs:50-53 [PubRelReasonCode] *)
Module PubRelReasonCode.
Inductive PubRelReasonCode :=
| Success | PacketIdNotFound.
End PubRelReasonCode.
Abbreviation PubRelReasonCode := PubRelReasonCode.PubRelReasonCode.
(** src/v5/pubaclc.rs:50-53 [PubRelReasonCode as u8] *)
Definition PubRelReasonCode_as_u8 (code : PubRelReasonCode) : u8 :=
  match code with
  | PubRelReasonCode.Success => 0x00
  | PubRelReasonCode.PacketIdNotFound => 0x92
  end.

(** src/v5/pubaclc.rs:59-62 [PubCompReasonCode] *)
Module PubCompReasonCode.
Inductive PubCompReasonCode :=
| Success | PacketIdNotFound.
End PubCompReasonCode.
Abbreviation PubCompReasonCode := PubCompReasonCode.PubCompReasonCode.
(** src/v5/pubaclc.rs:59-62 [PubCompReasonCode as u8] *)
Definition PubCompReasonCode_as_u8 (code : PubCompReasonCode) : u8 :=
  match code with
  | PubCompReasonCode.Success => 0x00
  | PubCompReasonCode.PacketIdNotFound => 0x92
  end.

Section generators.
Context {E U : Type} `{!Unstructured E U} (fuel : nat).
Abbreviation G := (Gen E U).

(** src/v5/pubaclc.rs:13-27 [PubAckReasonCode::arbitrary] *)
Definition PubAckReasonCode_arbitrary : G PubAckReasonCode :=
  derived
   [PubAckReasonCode.Success; PubAckReasonCode.NoMatchingSubscribers;
    PubAckReasonCode.UnspecifiedError; PubAckReasonCode.ImplementationError;
    PubAckReasonCode.NotAuthorized; PubAckReasonCode.TopicNameInvalid;
    PubAckReasonCode.PacketIdInuse; PubAckReasonCode.PacketIdNotFound;
    PubAckReasonCode.QuotaExceeded; PubAckReasonCode.PayloadFormatInvalid].

(** src/v5/pubaclc.rs:30-44 [PubRecReasonCode::arbitrary] *)
Definition PubRecReasonCode_arbitrary : G PubRecReasonCode :=
  derived
   [PubRecReasonCode.Success; PubRecReasonCode.NoMatchingSubscribers;
    PubRecReasonCode.UnspecifiedError; PubRecReasonCode.ImplementationError;
    PubRecReasonCode.NotAuthorized; PubRecReasonCode.TopicNameInvalid;
    PubRecReasonCode.PacketIdInuse; PubRecReasonCode.PacketIdNotFound;
    PubRecReasonCode.QuotaExceeded; PubRecReasonCode.PayloadFormatInvalid].

(** src/v5/pubaclc.rs:47-53 [PubRelReasonCode::arbitrary] *)
Definition PubRelReasonCode_arbitrary : G PubRelReasonCode :=
  derived
   [PubRelReasonCode.Success; PubRelReasonCode.PacketIdNotFound].

(** src/v5/pubaclc.rs:56-62 [PubCompReasonCode::arbitrary] *)
Definition PubCompReasonCode_arbitrary : G PubCompReasonCode :=
  derived
   [PubCompReasonCode.Success; PubCompReasonCode.PacketIdNotFound].

(** src/v5/suback.rs:15-31 [SubAckReasonCode::arbitrary] *)
Definition SubAckReasonCode_arbitrary : G SubAckReasonCode :=
  derived
   [SubAckReasonCode.QoS0; SubAckReasonCode.QoS1; SubAckReasonCode.QoS2;
    SubAckReasonCode.UnspecifiedError; SubAckReasonCode.ImplementationError;
    SubAckReasonCode.NotAuthorized; SubAckReasonCode.InvalidTopicFilter;
    SubAckReasonCode.PacketIdInuse; SubAckReasonCode.QuotaExceeded;
    SubAckReasonCode.SharedSubscriptionsNotSupported;
    SubAckReasonCode.SubscriptionIdNotSupported;
    SubAckReasonCode.WildcardSubscriptionsNotSupported].

(** src/v5/unsuback.rs:15-26 [UnsubAckReasonCode::arbitrary] *)
Definition UnsubAckReasonCode_arbitrary : G UnsubAckReasonCode :=
  derived
   [UnsubAckReasonCode.QoS0; UnsubAckReasonCode.NoSubscriptionExisted;
    UnsubAckReasonCode.UnspecifiedError; UnsubAckReasonCode.ImplementationError;
    UnsubAckReasonCode.NotAuthorized; UnsubAckReasonCode.InvalidTopicFilter;
    UnsubAckReasonCode.PacketIdInuse].

(** src/v5/disconnect.rs:15-48 [DisconnReasonCode::arbitrary] *)
Definition DisconnReasonCode_arbitrary : G DisconnReasonCode :=
  derived
   [DisconnReasonCode.NormalDisconnect; DisconnReasonCode.DiconnectWillMessage;
    DisconnReasonCode.UnspecifiedError; DisconnReasonCode.MalformedPacket;
    DisconnReasonCode.ProtocolError; DisconnReasonCode.ImplementationError;
    DisconnReasonCode.NotAuthorized; DisconnReasonCode.ServerBusy;
    DisconnReasonCode.ServerShutdown; DisconnReasonCode.KeepAliveTimeout;
    DisconnReasonCode.SessionTakenOver; DisconnReasonCode.InvalidTopicFilter;
    DisconnReasonCode.TopicNameInvalid; DisconnReasonCode.ExceededReceiveMaximum;
    DisconnReasonCode.TopicAliasInvalid; DisconnReasonCode.PacketTooLarge;
    DisconnReasonCode.ExceedMessageRate; DisconnReasonCode.QuotaExceeded;
    DisconnReasonCode.AdminAction; DisconnReasonCode.PayloadFormatInvalid;
    DisconnReasonCode.RetainNotSupported; DisconnReasonCode.QoSNotSupported;
    DisconnReasonCode.UseAnotherServer; DisconnReasonCode.ServerMoved;
    DisconnReasonCode.UnsupportedSharedSubscription; DisconnReasonCode.ExceedConnectionRate;
    DisconnReasonCode.ExceedMaximumConnectTime; DisconnReasonCode.SubscriptionIdNotSupported;
    DisconnReasonCode.WildcardSubscriptionsNotSupported].

(** src/v5/auth.rs:14-21 [AuthReasonCode::arbitrary] *)
Definition AuthReasonCode_arbitrary : G AuthReasonCode :=
  derived
   [AuthReasonCode.Success; AuthReasonCode.ContinueAuthentication; AuthReasonCode.ReAuthenticate].

(** src/v5/sub.rs:81-87 [RetainForwardRule::arbitrary] *)
Definition RetainForwardRule_arbitrary : G RetainForwardRule :=
  derived
   [RetainForwardRule.OnEverySubscribe; RetainForwardRule.OnNewSubscribe;
    RetainForwardRule.Never].

(** * Acknowledgements *)

(** src/v5/pubaclc.rs:225-246 [PubProperties::arbitrary] *)
Definition PubProperties_arbitrary : G PubProperties :=
  reason_string ← optional_choice [str ""; str "unit-testing"];
  n ← n_user_props;
  user_properties ← valid_user_props n;
  mret (PubProperties.mk reason_string user_properties).

(** src/v5/pubaclc.rs:73-102 [Pub::arbitrary] *)
Definition Pub_arbitrary : G Pub :=
  packet_type ← choose [PacketType.PubAck; PacketType.PubRec; PacketType.PubRel; PacketType.PubComp];
  code ←
    match packet_type with
    | PacketType.PubAck => c ← PubAckReasonCode_arbitrary; mret (PubAckReasonCode_as_u8 c)
    | PacketType.PubRec => c ← PubRecReasonCode_arbitrary; mret (PubRecReasonCode_as_u8 c)
    | PacketType.PubRel => c ← PubRelReasonCode_arbitrary; mret (PubRelReasonCode_as_u8 c)
    | PacketType.PubComp => c ← PubCompReasonCode_arbitrary; mret (PubCompReasonCode_as_u8 c)
    | _ => gen_end Panic
    end;
  code ← gen_unwrap (ReasonCode_try_from code);
  packet_id ← arbitrary_u16;
  properties ← arbitrary_option PubProperties_arbitrary;
  mret (Pub.mk packet_type packet_id code properties).

(** src/v5/suback.rs:162-183 [SubAckProperties::arbitrary] *)
Definition SubAckProperties_arbitrary : G SubAckProperties :=
  reason_string ← optional_choice [str ""; str "unit-testing"];
  n ← n_user_props;
  user_properties ← valid_user_props n;
  mret (SubAckProperties.mk reason_string user_properties).

(** src/v5/suback.rs:71-87 [SubAck::arbitrary] *)
Definition SubAck_arbitrary : G SubAck :=
  n ← arbitrary_u8;
  return_codes ← repeat_gen (Z.to_nat (n mod 32 + 1)) SubAckReasonCode_arbitrary;
  packet_id ← arbitrary_u16;
  properties ← arbitrary_option SubAckProperties_arbitrary;
  mret (SubAck.mk packet_id properties return_codes).

(** src/v5/unsuback.rs:152-173 [UnsubAckProperties::arbitrary] *)
Definition UnsubAckProperties_arbitrary : G UnsubAckProperties :=
  reason_string ← optional_choice [str ""; str "unit-testing"];
  n ← n_user_props;
  user_properties ← valid_user_props n;
  mret (UnsubAckProperties.mk reason_string user_properties).

(** src/v5/unsuback.rs:61-77 [UnsubAck::arbitrary] *)
Definition UnsubAck_arbitrary : G UnsubAck :=
  n ← arbitrary_u8;
  return_codes ← repeat_gen (Z.to_nat (n mod 32 + 1)) UnsubAckReasonCode_arbitrary;
  packet_id ← arbitrary_u16;
  properties ← arbitrary_option UnsubAckProperties_arbitrary;
  mret (UnsubAck.mk packet_id properties return_codes).

(** * DISCONNECT, AUTH and the pings *)

(** src/v5/disconnect.rs:198-227 [DisconnProperties::arbitrary] *)
Definition DisconnProperties_arbitrary : G DisconnProperties :=
  reason_string ← optional_choice [str ""; str "unit-testing"];
  c ← arbitrary_u8;
  server_reference ←
    match c mod 3 with
    | 0 => mret (Some (str ""))
    | 1 => mret (Some (str "a.b.com:1883"))
    | 2 => mret None
    | _ => gen_end Panic
    end;
  n ← n_user_props;
  session_expiry_interval ← arbitrary_option arbitrary_u32;
  user_properties ← valid_user_props n;
  mret (DisconnProperties.mk session_expiry_interval reason_string user_properties server_reference).

(** src/v5/disconnect.rs:104-114 [Disconnect::arbitrary] *)
Definition Disconnect_arbitrary : G Disconnect :=
  code ← DisconnReasonCode_arbitrary;
  properties ← arbitrary_option DisconnProperties_arbitrary;
  mret (Disconnect.mk code properties).

(** src/v5/auth.rs:115-140 [AuthProperties::arbitrary] *)
Definition AuthProperties_arbitrary : G AuthProperties :=
  reason_string ← optional_choice [str ""; str "unit-testing"];
  n ← n_user_props;
  authentication_method ← choose [str ""; str "digest"];
  authentication_data ← arbitrary_bytes;
  user_properties ← valid_user_props n;
  mret (AuthProperties.mk authentication_method authentication_data reason_string user_properties).

(** src/v5/auth.rs:43-53 [Auth::arbitrary] *)
Definition Auth_arbitrary : G Auth :=
  code ← AuthReasonCode_arbitrary;
  properties ← arbitrary_option AuthProperties_arbitrary;
  mret (Auth.mk code properties).

(** src/v5/ping.rs:9-11 [PingReq::arbitrary] *)
Definition PingReq_arbitrary : G PingReq := mret mkPingReq.
(** src/v5/ping.rs:34-36 [PingResp::arbitrary] *)
Definition PingResp_arbitrary : G PingResp := mret mkPingResp.

(** * SUBSCRIBE and UNSUBSCRIBE *)

(** src/v5/sub.rs:17-27 [SubscriptionOpt::arbitrary] *)
Definition SubscriptionOpt_arbitrary : G SubscriptionOpt :=
  rfr ← RetainForwardRule_arbitrary;
  rap ← arbitrary_bool;
  nl ← arbitrary_bool;
  qos ← QoS_arbitrary;
  mret (SubscriptionOpt_new rfr rap nl qos).

(** src/v5/sub.rs:327-337 [SubscribeFilter::arbitrary] *)
Definition SubscribeFilter_arbitrary : G SubscribeFilter :=
  topic_filter ← TopicFilter_arbitrary fuel;
  opt ← SubscriptionOpt_arbitrary;
  mret (SubscribeFilter.mk topic_filter opt).

(** src/v5/sub.rs:244-257 [SubscribeProperties::arbitrary] *)
Definition SubscribeProperties_arbitrary : G SubscribeProperties :=
  n ← n_user_props;
  subscription_id ← arbitrary_option VarU32_arbitrary;
  user_properties ← valid_user_props n;
  mret (SubscribeProperties.mk subscription_id user_properties).

(** src/v5/sub.rs:122-138 [Subscribe::arbitrary] *)
Definition Subscribe_arbitrary : G Subscribe :=
  n ← arbitrary_u8;
  filters ← repeat_gen (Z.to_nat (n mod 32 + 1)) SubscribeFilter_arbitrary;
  packet_id ← arbitrary_u16;
  properties ← arbitrary_option SubscribeProperties_arbitrary;
  mret (Subscribe.mk packet_id properties filters).

(** src/v5/unsub.rs:119-130 [UnSubscribeProperties::arbitrary] *)
Definition UnSubscribeProperties_arbitrary : G UnSubscribeProperties :=
  n ← n_user_props;
  user_properties ← valid_user_props n;
  mret (UnSubscribeProperties.mk user_properties).

(** src/v5/unsub.rs:21-37 [UnSubscribe::arbitrary] *)
Definition UnSubscribe_arbitrary : G UnSubscribe :=
  n ← arbitrary_u8;
  filters ← repeat_gen (Z.to_nat (n mod 32 + 1)) (TopicFilter_arbitrary fuel);
  packet_id ← arbitrary_u16;
  properties ← arbitrary_option UnSubscribeProperties_arbitrary;
  mret (UnSubscribe.mk packet_id properties filters).

(** * CONNECT *)

(** src/v5/connect.rs:34-61 [ConnectFlags::arbitrary] *)
Definition ConnectFlags_arbitrary : G ConnectFlags :=
  let flag (flag : ConnectFlags) : G (list ConnectFlags) :=
    set ← arbitrary_bool;
    mret (match set with true => [flag] | false => [] end) in
  clean_start ← flag CONNECT_CLEAN_START;
  will_flag ← flag CONNECT_WILL_FLAG;
  qos ← QoS_arbitrary;
  let will_qos := match qos with
                  | QoS.AtMostOnce => CONNECT_WILL_QOS0
                  | QoS.AtLeastOnce => CONNECT_WILL_QOS1
                  | QoS.ExactlyOnce => CONNECT_WILL_QOS2
                  end in
  will_retain ← flag CONNECT_WILL_RETAIN;
  username ← flag CONNECT_USERNAME;
  password ← flag CONNECT_PASSWORD;
  mret (ConnectFlags_new (clean_start ++ will_flag ++ [will_qos] ++ will_retain ++ username ++ password)).

(** src/v5/connect.rs:384-411 [ConnectProperties::arbitrary] *)
Definition ConnectProperties_arbitrary : G ConnectProperties :=
  authentication_method ← optional_choice [str ""; str "digest"];
  n ← n_user_props;
  session_expiry_interval ← arbitrary_option arbitrary_u32;
  receive_maximum ← arbitrary_option arbitrary_u16;
  max_packet_size ← arbitrary_option arbitrary_u32;
  topic_alias_max ← arbitrary_option arbitrary_u16;
  request_response_info ← arbitrary_option arbitrary_bool;
  request_problem_info ← arbitrary_option arbitrary_bool;
  authentication_data ← arbitrary_option arbitrary_bytes;
  user_properties ← valid_user_props n;
  mret (ConnectProperties.mk session_expiry_interval
          ((λ x, Z.min (x + 1) (2 ^ 16 - 1)) <$> receive_maximum)
          ((λ x, Z.min (x + 1) (2 ^ 32 - 1)) <$> max_packet_size)
          topic_alias_max request_response_info request_problem_info
          authentication_method authentication_data user_properties).

(** src/v5/connect.rs:552-578 [WillProperties::arbitrary] *)
Definition WillProperties_arbitrary : G WillProperties :=
  content_type ← optional_choice [str ""; str "img/png"];
  n ← n_user_props;
  will_delay_interval ← arbitrary_option arbitrary_u32;
  payload_format_indicator ← PayloadFormat_arbitrary;
  message_expiry_interval ← arbitrary_option arbitrary_u32;
  response_topic ← arbitrary_option (TopicName_arbitrary fuel);
  correlation_data ← arbitrary_option arbitrary_bytes;
  user_properties ← valid_user_props n;
  mret (WillProperties.mk will_delay_interval payload_format_indicator message_expiry_interval
          content_type response_topic correlation_data user_properties).

(** [match uns.arbitrary::<u8>()? % 3 { 0 => None, 1 => Some(""), 2 => Some(..), .. }] *)
Definition optional_text (x : bytes) : G (option bytes) :=
  c ← arbitrary_u8;
  match c mod 3 with
  | 0 => mret None
  | 1 => mret (Some (str ""))
  | 2 => mret (Some x)
  | _ => gen_end Panic
  end.

(** src/v5/connect.rs:149-184 [Connect::arbitrary] *)
Definition Connect_arbitrary : G Connect :=
  user_name ← optional_text (str "usern");
  password ← optional_text (str "passw");
  client_id ← ClientID_arbitrary;
  will_properties ← arbitrary_option WillProperties_arbitrary;
  will_topic ← arbitrary_option (TopicName_arbitrary fuel);
  will_payload ← arbitrary_option arbitrary_bytes;
  flags ← ConnectFlags_arbitrary;
  keep_alive ← arbitrary_u16;
  properties ← arbitrary_option ConnectProperties_arbitrary;
  mret (Connect.mk (str "MQTT") MqttProtocol.V5 flags keep_alive properties
          (ConnectPayload.mk client_id will_properties will_topic will_payload user_name password)).

End generators.

(** * What is left out before a packet is compared with what is read back *)

(** src/v5/pubaclc.rs:302-304 [PubProperties::is_empty] *)
Definition PubProperties_is_empty (props : PubProperties) : bool :=
  bool_decide (PubProperties.reason_string props = None) && (length (PubProperties.user_properties props) =? 0)%nat.

(** src/v5/pubaclc.rs:178-184 [Pub::normalize] *)
Definition Pub_normalize (self : Pub) : Pub :=
  match Pub.properties self with
  | Some props =>
      if PubProperties_is_empty props
      then Pub.mk (Pub.packet_type self) (Pub.packet_id self) (Pub.code self) None
      else self
  | None => self
  end.

(** src/v5/suback.rs:236-238 [SubAckProperties::is_empty] *)
Definition SubAckProperties_is_empty (props : SubAckProperties) : bool :=
  bool_decide (SubAckProperties.reason_string props = None) && (length (SubAckProperties.user_properties props) =? 0)%nat.

(** src/v5/suback.rs:142-148 [SubAck::normalize] *)
Definition SubAck_normalize (self : SubAck) : SubAck :=
  match SubAck.properties self with
  | Some props =>
      if SubAckProperties_is_empty props
      then SubAck.mk (SubAck.packet_id self) None (SubAck.return_codes self)
      else self
  | None => self
  end.

(** src/v5/unsuback.rs:226-228 [UnsubAckProperties::is_empty] *)
Definition UnsubAckProperties_is_empty (props : UnsubAckProperties) : bool :=
  bool_decide (UnsubAckProperties.reason_string props = None) && (length (UnsubAckProperties.user_properties props) =? 0)%nat.

(** src/v5/unsuback.rs:132-138 [UnsubAck::normalize] *)
Definition UnsubAck_normalize (self : UnsubAck) : UnsubAck :=
  match UnsubAck.properties self with
  | Some props =>
      if UnsubAckProperties_is_empty props
      then UnsubAck.mk (UnsubAck.packet_id self) None (UnsubAck.return_codes self)
      else self
  | None => self
  end.

(** src/v5/disconnect.rs:286-291 [DisconnProperties::is_empty] *)
Definition DisconnProperties_is_empty (props : DisconnProperties) : bool :=
  bool_decide (DisconnProperties.session_expiry_interval props = None) && bool_decide (DisconnProperties.reason_string props = None) &&
  (length (DisconnProperties.user_properties props) =? 0)%nat && bool_decide (DisconnProperties.server_reference props = None).

(** src/v5/disconnect.rs:122-128 [Disconnect::normalize] *)
Definition Disconnect_normalize (self : Disconnect) : Disconnect :=
  match Disconnect.properties self with
  | Some props =>
      if DisconnProperties_is_empty props
      then Disconnect.mk (Disconnect.code self) None
      else self
  | None => self
  end.

(** src/v5/sub.rs:315-317 [SubscribeProperties::is_empty] *)
Definition SubscribeProperties_is_empty (props : SubscribeProperties) : bool :=
  bool_decide (SubscribeProperties.subscription_id props = None) && (length (SubscribeProperties.user_properties props) =? 0)%nat.

(** src/v5/sub.rs:199-205 [Subscribe::normalize] *)
Definition Subscribe_normalize (self : Subscribe) : Subscribe :=
  match Subscribe.properties self with
  | Some props =>
      if SubscribeProperties_is_empty props
      then Subscribe.mk (Subscribe.packet_id self) None (Subscribe.filters self)
      else self
  | None => self
  end.

(** src/v5/unsub.rs:135-137 [UnSubscribeProperties::is_empty] *)
Definition UnSubscribeProperties_is_empty (props : UnSubscribeProperties) : bool :=
  (length (UnSubscribeProperties.user_properties props) =? 0)%nat.

(** src/v5/unsub.rs:96-102 [UnSubscribe::normalize] *)
Definition UnSubscribe_normalize (self : UnSubscribe) : UnSubscribe :=
  match UnSubscribe.properties self with
  | Some props =>
      if UnSubscribeProperties_is_empty props
      then UnSubscribe.mk (UnSubscribe.packet_id self) None (UnSubscribe.filters self)
      else self
  | None => self
  end.
