(* ===== verification/ArbitraryTheorems.v ===== *)
(** What the generators of test data give: values of their types that pass the checks of
    the codecs, and packets that come back from the wire as they are, once normalized;
    when the generation of a topic ends; and which generated packets do not come back. *)

From S2P Require Import Prelude Error Util Codec Types V5 V5Facts PropsBlock Frame AckPackets.
From S2P Require Import SubPackets Config ConnectPackets Packets PacketTheorems.
From S2P Require Import Arbitrary ArbitraryPackets.
From stdpp Require Import strings.
Local Open Scope Z_scope.

(** * What a generator gives

    Whatever the input, a generator that ends gives a value that satisfies [P], or an
    error of the input; it does not panic, and it goes on for ever only if [stuck]. *)
Definition gives {E U A} (stuck : Prop) (P : A → Prop) (g : Gen E U A) : Prop :=
  ∀ u, match snd (g u) with
       | Ok a => P a
       | Err _ => True
       | Panic => False
       | Diverge => stuck
       end.
Definition anything {A} : A → Prop := λ _, True.

(** What the documentation of the input says: numbers are of their types, an index is one
    of the list, a UUID is text. *)
Class UnstructuredLaws (E U : Type) `{!Unstructured E U} : Prop := {
  bool_gives : gives False anything arbitrary_bool;
  u8_gives : gives False is_u8 arbitrary_u8;
  u16_gives : gives False is_u16 arbitrary_u16;
  u32_gives : gives False is_u32 arbitrary_u32;
  usize_gives : gives False (λ n, 0 <= n) arbitrary_usize;
  bytes_gives : gives False is_bytes arbitrary_bytes;
  is_some_gives : gives False anything arbitrary_is_some;
  choose_gives n : n ≠ 0%nat → gives False (λ i, (i < n)%nat) (choose_index n);
  variant_gives n : n ≠ 0%nat → gives False (λ i, (i < n)%nat) (arbitrary_variant n);
  uuid_gives : gives False valid_str new_v4_text;
}.

Section gives.
Context {E U : Type}.
Implicit Types (stuck : Prop).

Lemma gives_weaken {A} stuck stuck' (P Q : A → Prop) (g : Gen E U A) :
  gives stuck P g → (stuck → stuck') → (∀ a, P a → Q a) → gives stuck' Q g.
Proof. intros H Hs HP u. specialize (H u). destruct (snd (g u)); auto. Qed.

Lemma gives_ret {A} stuck (P : A → Prop) a : P a → gives (E := E) (U := U) stuck P (mret a).
Proof. by intros H u. Qed.

Lemma gives_bind {A B} stuck (P : A → Prop) (Q : B → Prop) (g : Gen E U A) (f : A → Gen E U B) :
  gives stuck P g → (∀ a, P a → gives stuck Q (f a)) → gives stuck Q (g ≫= f).
Proof.
  intros Hg Hf u. specialize (Hg u). unfold mbind, Gen_bind. destruct (g u) as [u' [a| | |]]; [|done..].
  by apply Hf.
Qed.

Lemma gives_any {A} stuck (P : A → Prop) (g : Gen E U A) : gives stuck P g → gives stuck anything g.
Proof. intros H. by eapply gives_weaken. Qed.

Lemma gives_lookup {A} stuck (P : A → Prop) (xs : list A) (g : Gen E U nat) :
  Forall P xs → gives False (λ i, (i < length xs)%nat) g →
  gives stuck P (i ← g; match xs !! i with Some x => mret x | None => gen_end Panic end).
Proof.
  intros Hx Hg. eapply gives_bind; [eapply gives_weaken; [exact Hg|done|done]|].
  intros i [x Ex]%lookup_lt_is_Some. rewrite Ex. apply gives_ret.
  rewrite Forall_lookup in Hx. by eapply Hx.
Qed.

Lemma gives_repeat {A} stuck (P : A → Prop) n (g : Gen E U A) :
  gives stuck P g → gives stuck (λ xs, length xs = n ∧ Forall P xs) (repeat_gen n g).
Proof.
  intros Hg. induction n as [|n IH]; cbn [repeat_gen]; [by apply gives_ret|].
  eapply gives_bind; [exact Hg|]. intros x Hx. eapply gives_bind; [exact IH|].
  intros xs [Hl Hxs]. apply gives_ret. split; [by cbn; rewrite Hl|by constructor].
Qed.
End gives.

Section laws.
Context {E U : Type} `{!Unstructured E U, !UnstructuredLaws E U}.
Implicit Types (stuck : Prop).

(** A law holds for whoever may go on for ever, too. *)
Lemma law {A} stuck (P : A → Prop) (g : Gen E U A) : gives False P g → gives stuck P g.
Proof. intros H. by eapply gives_weaken. Qed.

Lemma gives_choose {A} stuck (P : A → Prop) (xs : list A) :
  xs ≠ [] → Forall P xs → gives stuck P (choose (U := U) xs).
Proof. intros Hn Hx. apply gives_lookup; [done|]. apply choose_gives. by destruct xs. Qed.

Lemma gives_derived {A} stuck (P : A → Prop) (xs : list A) :
  xs ≠ [] → Forall P xs → gives stuck P (derived (U := U) xs).
Proof. intros Hn Hx. apply gives_lookup; [done|]. apply variant_gives. by destruct xs. Qed.

Lemma gives_derived_any {A} stuck (xs : list A) : xs ≠ [] → gives stuck anything (derived (U := U) xs).
Proof. intros Hn. apply gives_derived; [done|]. by apply Forall_true. Qed.

Lemma gives_option {A} stuck (P : A → Prop) (g : Gen E U A) :
  gives stuck P g → gives stuck (λ o, ∀ x, o = Some x → P x) (arbitrary_option g).
Proof.
  intros Hg. eapply gives_bind; [apply law, is_some_gives|]. intros [] _; [|by apply gives_ret].
  eapply gives_bind; [exact Hg|]. intros x Hx. apply gives_ret. by intros ? [= <-].
Qed.
End laws.

Create HintDb gives.
#[export] Hint Resolve bool_gives u8_gives u16_gives u32_gives usize_gives bytes_gives
  is_some_gives uuid_gives : gives.
#[export] Hint Extern 1 (gives _ _ arbitrary_u8) => apply law, u8_gives : gives.
#[export] Hint Extern 1 (gives _ _ arbitrary_u16) => apply law, u16_gives : gives.
#[export] Hint Extern 1 (gives _ _ arbitrary_u32) => apply law, u32_gives : gives.
#[export] Hint Extern 1 (gives _ _ arbitrary_bool) => apply law, bool_gives : gives.
#[export] Hint Extern 1 (gives _ _ arbitrary_usize) => apply law, usize_gives : gives.
#[export] Hint Extern 1 (gives _ _ arbitrary_bytes) => apply law, bytes_gives : gives.
#[export] Hint Extern 1 (gives _ _ new_v4_text) => apply law, uuid_gives : gives.
#[export] Hint Extern 2 (gives _ _ (arbitrary_option _)) => apply gives_option : gives.
#[export] Hint Extern 2 (gives _ _ (repeat_gen _ _)) => apply gives_repeat : gives.

(** The next draw, with what it gives. *)
Ltac draw x H := eapply gives_bind; [solve [eauto with gives]|intros x H].

(** * Texts *)

Definition is_text (s : bytes) : bool := forallb (λ b, (0 <=? b) && (b <? 256)) s && from_utf8 s.

Lemma forallb_Forall {A} (f : A → bool) l : forallb f l = true → Forall (λ x, f x = true) l.
Proof. induction l as [|x l IH]; cbn; [by constructor|]. intros [? ?]%andb_true_iff. auto. Qed.

Lemma is_text_ok s : is_text s = true → valid_str s.
Proof.
  intros [Hb%forallb_Forall Hu]%andb_true_iff. split; [|done]. eapply Forall_impl; [exact Hb|].
  intros b [H1 H2]%andb_true_iff. unfold is_u8. lia.
Qed.

Lemma texts_ok xs : forallb is_text xs = true → Forall valid_str xs.
Proof.
  intros H%forallb_Forall. eapply Forall_impl; [exact H|]. apply is_text_ok.
Qed.

(** The characters of the levels: ASCII, neither NUL nor a slash. *)
Definition plain (s : bytes) : Prop := Forall (λ b, 0 < b < 128 ∧ b ≠ 0x2F) s.
Definition plain_path (s : bytes) : Prop := Forall (λ b, 0 < b < 128) s.

Lemma plain_plain_path s : plain s → plain_path s.
Proof. intros H. eapply Forall_impl; [exact H|]. by intros b [? _]. Qed.

Lemma plain_chars s : plain_path s → utf8_chars s = Some s.
Proof.
  induction 1 as [|b s Hb _ IH]; [done|]. cbn. unfold in_range.
  rewrite (proj2 (Z.leb_le 0 b)), (proj2 (Z.leb_le b 127)) by lia. cbn. by rewrite IH.
Qed.

Lemma plain_text s : plain_path s → valid_str s.
Proof.
  intros H. split; [|unfold from_utf8; by rewrite plain_chars].
  eapply Forall_impl; [exact H|]. intros b [? ?]. unfold is_u8. lia.
Qed.

Lemma plain_string s : plain_path s → string_of_chars s = s.
Proof.
  induction 1 as [|b s Hb _ IH]; [done|]. unfold string_of_chars. cbn.
  change (s ≫= char_bytes) with (string_of_chars s). rewrite IH. unfold char_bytes.
  by rewrite (proj2 (Z.ltb_lt b 0x80)) by lia.
Qed.

Lemma Forall_kept {A} (P Q : A → Prop) `{!∀ x, Decision (Q x)} l : Forall P l → Forall P (filter Q l).
Proof. rewrite !Forall_forall. intros Hl x [_ Hx]%list_elem_of_filter. auto. Qed.

(** What filtering its characters does to such a text. *)
Lemma plain_filter (f : Z → bool) s :
  plain_path s → string_of_chars (filter (λ ch, f ch = true) (chars s)) = filter (λ ch, f ch = true) s.
Proof.
  intros Hs. unfold chars. rewrite plain_chars by done. cbn. apply plain_string.
  by apply Forall_kept.
Qed.

Lemma plain_join ls : Forall plain ls → plain_path (join_slash ls).
Proof.
  induction 1 as [|l ls Hl _ IH]; [by constructor|]. cbn. apply plain_plain_path in Hl.
  destruct ls as [|l' ls]; [done|]. apply Forall_app. split; [done|]. constructor; [done|exact IH].
Qed.

Lemma split_plain l : plain l → split_slash l = [l].
Proof.
  induction 1 as [|b l [_ Hb] _ IH]; [done|]. cbn. by rewrite (proj2 (Z.eqb_neq _ _) Hb), IH.
Qed.

Lemma split_plain_app l s : plain l → split_slash (l ++ 0x2F :: s) = l :: split_slash s.
Proof.
  induction 1 as [|b l [_ Hb] _ IH]; [done|]. cbn. by rewrite (proj2 (Z.eqb_neq _ _) Hb), IH.
Qed.

Lemma split_join ls : ls ≠ [] → Forall plain ls → split_slash (join_slash ls) = ls.
Proof.
  intros Hn H. induction H as [|l ls Hl Hls IH]; [done|]. cbn.
  destruct ls as [|l' ls]; [by apply split_plain|]. rewrite split_plain_app by done. by rewrite IH.
Qed.

(** * Topics *)

(** The levels the generators choose from. *)
Ltac bytes_of c := let x := eval vm_compute in c in change c with x.

Lemma filter_levels_plain : Forall plain FILTER_LEVELS.
Proof. bytes_of FILTER_LEVELS. repeat constructor; lia. Qed.
Lemma levels_plain : Forall plain LEVELS.
Proof. bytes_of LEVELS. repeat constructor; lia. Qed.
Lemma strings_plain : Forall plain STRINGS.
Proof. bytes_of STRINGS. repeat constructor; lia. Qed.

Definition no_wildcard (s : bytes) : Prop := Forall (λ b, is_wildcard b = false) s.
Lemma strings_no_wildcard : Forall no_wildcard STRINGS.
Proof. bytes_of STRINGS. repeat constructor. Qed.

Section topics.
Context {E U : Type} `{!Unstructured E U, !UnstructuredLaws E U}.

(** The next [n] strings chosen are all empty. *)
Fixpoint all_empty (n : nat) (u : U) : Prop :=
  match n with
  | O => True
  | S n => ∃ u', choose STRINGS u = (u', Ok []) ∧ all_empty n u'
  end.

(** The generation of a topic may not end: for some input, that many are. *)
Definition stuck_at (fuel : nat) : Prop := ∃ u, all_empty fuel u.

Lemma nonempty_diverges fuel : ∀ s u,
  snd (nonempty fuel s u) = Diverge ↔ s = [] ∧ all_empty fuel u.
Proof.
  induction fuel as [|fuel IH]; intros [|b s] u; cbn [nonempty length Nat.ltb Nat.leb all_empty];
    [done|by split; [|intros [? _]]| |by split; [|intros [? _]]].
  unfold mbind, Gen_bind.
  pose proof (gives_choose (U := U) False valid_str STRINGS ltac:(done) (texts_ok STRINGS eq_refl) u) as H.
  destruct (choose STRINGS u) as [u' [s|e| |]]; cbn in H; try done.
  - rewrite IH. split; [intros [-> Ha]; split; [done|by exists u']|].
    intros (_ & u1 & [= <- ->] & Ha). done.
  - cbn. split; [done|]. by intros (_ & u1 & [= _] & _).
Qed.

(** A string that is not empty, from [s] on. *)
Lemma gives_nonempty (P : bytes → Prop) fuel s : Forall P STRINGS → P s →
  gives (stuck_at fuel) (λ s, s ≠ [] ∧ P s) (nonempty (U := U) fuel s).
Proof.
  intros Hp Hs. assert (gives True (λ s, s ≠ [] ∧ P s) (nonempty (U := U) fuel s)) as H.
  { revert s Hs. induction fuel as [|fuel IH]; intros [|b s] Hs; cbn [nonempty length Nat.ltb Nat.leb];
      [done|by apply gives_ret| |by apply gives_ret].
    eapply gives_bind; [by apply gives_choose|]. apply IH. }
  intros u. specialize (H u). destruct (snd (nonempty fuel s u)) eqn:Ex; try done.
  apply nonempty_diverges in Ex as [_ Ha]. by exists u.
Qed.

Lemma gives_levels stuck (P : bytes → Prop) special c :
  special ≠ [] → Forall P special → Forall P STRINGS →
  gives stuck (λ ls, ls ≠ [] ∧ Forall P ls) (arbitrary_levels (U := U) special c).
Proof.
  intros Hn Hp Hs. eapply gives_weaken; [apply gives_repeat with (P := P)| done |].
  - draw n Hn'. destruct (_ <=? _); by apply gives_choose.
  - intros ls [Hl Hls]. split; [|done]. intros ->. cbn in Hl.
    pose proof (Z.mod_pos_bound c 10). lia.
Qed.

(** What does not go on for ever with [n] more choices does the same with more of them. *)
Lemma nonempty_more n : ∀ m s u, (n ≤ m)%nat →
  snd (nonempty n s u) ≠ Diverge → nonempty (U := U) m s u = nonempty n s u.
Proof.
  induction n as [|n IH]; intros m [|b s] u Hm Hn; [by destruct Hn|by destruct m| |by destruct m].
  destruct m as [|m]; [lia|]. cbn [nonempty length Nat.ltb Nat.leb] in Hn |- *. unfold mbind, Gen_bind in *.
  destruct (choose STRINGS u) as [u' [s'|e| |]]; [|done..]. apply IH; [lia|done].
Qed.

(** A generator that goes on for ever goes on exactly while the strings that it chooses are
    empty, from a text that is: with no choice more ([g 0]) it stops where it chooses again.
    When it ends it has a value or an error of the input, which more choices do not change. *)
Definition ends_when_chosen {A} (g : nat → Gen E U A) (u : U) : Prop :=
  ∀ n,
    (snd (g n u) = Diverge ↔ snd (g 0%nat u) = Diverge ∧ all_empty n (fst (g 0%nat u))) ∧
    (snd (g n u) ≠ Diverge → settled (snd (g n u)) ∧ ∀ m, (n ≤ m)%nat → g m u = g n u).

Lemma drafts_end {A} (draft : Gen E U bytes) (f : bytes → A) (g : nat → Gen E U A) u :
  gives False anything draft → (∀ n, g n u = (s ← draft; s ← nonempty n s; mret (f s)) u) → ends_when_chosen g u.
Proof.
  intros Hd Hg n. rewrite !Hg. specialize (Hd u). unfold mbind, Gen_bind, mret, Gen_ret.
  destruct (draft u) as [u' [s|e| |]] eqn:Ed; cbn in Hd; [| |done..].
  2: { split; [by split; [|intros []]|]. intros _. split; [done|]. intros m _. rewrite Hg.
       unfold mbind, Gen_bind. by rewrite Ed. }
  assert (∀ k, snd (let '(u2, r) := nonempty k s u' in
                    match r with Ok a => (u2, Ok (f a)) | Err e => (u2, Err e) | Panic => (u2, Panic) | Diverge => (u2, Diverge) end)
               = Diverge ↔ s = [] ∧ all_empty k u') as Hk.
  { intros k. rewrite <- nonempty_diverges. by destruct (nonempty k s u') as [u2 [| | |]]. }
  split.
  - rewrite !Hk. split.
    + intros [-> Ha]. split; [done|]. exact Ha.
    + intros [[-> _] Ha]. split; [done|]. exact Ha.
  - intros Hn. assert (snd (nonempty n s u') ≠ Diverge) as Hs by (rewrite nonempty_diverges; by rewrite <- Hk).
    split.
    + pose proof (gives_nonempty (λ _, True) n s ltac:(by repeat constructor) I u') as H.
      destruct (nonempty n s u') as [u2 [| | |]]; done.
    + intros m Hm. rewrite Hg. unfold mbind, Gen_bind, mret, Gen_ret. rewrite Ed.
      by rewrite (nonempty_more n m s u' Hm Hs).
Qed.

Lemma gives_levels_any special c : special ≠ [] → gives False anything (arbitrary_levels (U := U) special c).
Proof. intros Hn. eapply gives_any, (gives_levels False (λ _, True)); [done|by apply Forall_true..]. Qed.

Lemma gives_choose_any {A} (xs : list A) : xs ≠ [] → gives False anything (choose (U := U) xs).
Proof. intros Hn. eapply gives_any, (gives_choose False (λ _, True)); [done|by apply Forall_true]. Qed.

Lemma one_of_any xs : xs ≠ [] → gives False anything (l ← choose (U := U) xs; mret [l] : Gen E U (list bytes)).
Proof. intros Hn. eapply gives_bind; [by apply gives_choose_any|]. intros l _. by apply gives_ret. Qed.

Lemma TopicName_ends u : ends_when_chosen TopicName_arbitrary u.
Proof.
  apply (drafts_end
    (c ← arbitrary_u8;
     levels ← (if c <=? 9 then l ← choose STRINGS; mret [l] else arbitrary_levels LEVELS c);
     mret (string_of_chars
             (filter (λ ch, negb (is_wildcard ch || (ch =? 0)) = true) (chars (join_slash levels))))) mkTopicName).
  - eapply gives_bind; [apply u8_gives|]. intros c _. eapply gives_bind with (P := anything); [|intros ls _; by apply gives_ret].
    destruct (c <=? 9); [by apply one_of_any|by apply gives_levels_any].
  - intros n. unfold TopicName_arbitrary, mbind, Gen_bind.
    destruct (arbitrary_u8 u) as [u1 [c|e| |]]; [|done..].
    destruct (c <=? 9); [by destruct (choose STRINGS u1) as [u2 [l|e| |]]|].
    by destruct (arbitrary_levels LEVELS c u1) as [u2 [ls|e| |]].
Qed.

Lemma TopicFilter_ends u : ends_when_chosen TopicFilter_arbitrary u.
Proof.
  apply (drafts_end
    (c ← arbitrary_u8;
     levels ← (if c <=? 9 then l ← choose FILTER_LEVELS; mret [l]
               else if c <=? 20 then l ← choose STRINGS; mret [l]
               else levels ← arbitrary_levels FILTER_LEVELS c; mret (up_to_hash levels));
     mret (string_of_chars (filter (λ ch, negb (ch =? 0) = true) (chars (join_slash levels))))) mkTopicFilter).
  - eapply gives_bind; [apply u8_gives|]. intros c _. eapply gives_bind with (P := anything); [|intros ls _; by apply gives_ret].
    destruct (c <=? 9); [by apply one_of_any|]. destruct (c <=? 20); [by apply one_of_any|].
    eapply gives_bind; [by apply gives_levels_any|]. intros ls _. by apply gives_ret.
  - intros n. unfold TopicFilter_arbitrary, mbind, Gen_bind.
    destruct (arbitrary_u8 u) as [u1 [c|e| |]]; [|done..].
    destruct (c <=? 9); [by destruct (choose FILTER_LEVELS u1) as [u2 [l|e| |]]|].
    destruct (c <=? 20); [by destruct (choose STRINGS u1) as [u2 [l|e| |]]|].
    by destruct (arbitrary_levels FILTER_LEVELS c u1) as [u2 [ls|e| |]].
Qed.

(** A generated topic name passes the validation. *)
Lemma gives_TopicName fuel : gives (stuck_at fuel) checked_TopicName (TopicName_arbitrary (U := U) fuel).
Proof.
  draw c Hc. eapply gives_bind with (P := Forall plain).
  { destruct (_ <=? _).
    - eapply gives_bind; [by apply gives_choose, strings_plain|]. intros l Hl. apply gives_ret. by constructor.
    - eapply gives_weaken; [by apply (gives_levels (stuck_at fuel)); [|apply levels_plain|apply strings_plain]|done|].
      by intros ls [_ ?]. }
  intros levels Hl. apply plain_join in Hl. rewrite plain_filter by done.
  eapply gives_bind.
  { apply (gives_nonempty (λ s, plain_path s ∧ no_wildcard s)).
    - apply Forall_and. split; [|exact strings_no_wildcard].
      eapply Forall_impl; [exact strings_plain|exact plain_plain_path].
    - split; [by apply Forall_kept|]. apply Forall_forall. intros b [Hb _]%list_elem_of_filter.
      by apply negb_true_iff, orb_false_iff in Hb as [? _]. }
  intros s (Hn & Hs & Hw). apply gives_ret. split; [by apply plain_text|].
  unfold TopicName_validate. cbn [topic_name_str]. destruct s as [|b s]; [done|]. cbn [length Nat.eqb].
  unfold chars. rewrite plain_chars by done. cbn [default].
  rewrite (proj2 (existsb_false_Forall _ _)); [done|].
  eapply Forall_impl; [exact (proj2 (Forall_and _ _) (conj Hs Hw))|].
  intros x [Hx ->]. cbn. lia.
Qed.

(** The levels of a filter: no [#] but the last. *)
Lemma choices_level_wf : Forall level_wf FILTER_LEVELS ∧ Forall level_wf STRINGS.
Proof.
  split; [bytes_of FILTER_LEVELS|bytes_of STRINGS];
    repeat (apply Forall_cons; split; [first [by left|by right; left|right; right; by repeat constructor]|]);
    constructor.
Qed.

Lemma up_to_hash_last ls i : up_to_hash ls !! i = Some HASH → S i = length (up_to_hash ls).
Proof.
  unfold up_to_hash. destruct (list_find _ ls) as [[j l]|] eqn:F.
  - apply list_find_Some in F as (Hj & -> & Hlt). intros [Hi Hlen]%lookup_take_Some.
    rewrite length_take_le by (apply lookup_lt_Some in Hj; lia).
    destruct (decide (i < j)%nat) as [Hd|]; [|lia]. by destruct (Hlt i HASH Hi Hd).
  - intros Hi%list_elem_of_lookup_2. apply list_find_None in F. rewrite Forall_forall in F.
    by destruct (F _ Hi).
Qed.

Lemma up_to_hash_Forall P ls : ls ≠ [] ∧ Forall P ls → up_to_hash ls ≠ [] ∧ Forall P (up_to_hash ls).
Proof.
  intros [Hn H]. unfold up_to_hash. destruct (list_find _ ls) as [[j l]|] eqn:F; [|done].
  split; [|by apply Forall_take]. rewrite Nat.add_comm. by destruct ls.
Qed.

(** A path whose levels are those of a filter. *)
Definition filter_path (s : bytes) : Prop := plain_path s ∧ filter_levels_wf (split_slash s).

Lemma single_filter l : plain l → level_wf l → filter_path l.
Proof.
  intros Hp Hl. split; [by apply plain_plain_path|]. rewrite split_plain by done.
  split; [by constructor|]. by intros [|i] Hi.
Qed.

Lemma no_nul s : plain_path s → filter (λ ch, negb (ch =? 0) = true) s = s.
Proof.
  induction 1 as [|b s Hb _ IH]; [done|]. rewrite filter_cons, IH, decide_True; [done|].
  by rewrite (proj2 (Z.eqb_neq _ _)) by lia.
Qed.

(** A generated topic filter passes the validation. *)
Lemma gives_TopicFilter fuel : gives (stuck_at fuel) checked_TopicFilter (TopicFilter_arbitrary (U := U) fuel).
Proof.
  destruct choices_level_wf as [Hfw Hsw]. draw c Hc.
  eapply gives_bind with (P := λ ls, filter_path (join_slash ls)).
  { assert (∀ xs, xs ≠ [] → Forall plain xs → Forall level_wf xs →
      gives (stuck_at fuel) (λ ls, filter_path (join_slash ls)) (l ← choose (U := U) xs; mret [l])) as Hone.
    { intros xs Hn Hp Hw. eapply gives_bind.
      { apply (gives_choose _ (λ l, plain l ∧ level_wf l)); [done|by apply Forall_and]. }
      intros l [? ?]. apply gives_ret. by apply single_filter. }
    destruct (c <=? 9); [apply Hone; [done|apply filter_levels_plain|done]|].
    destruct (c <=? 20); [apply Hone; [done|apply strings_plain|done]|].
    eapply gives_bind.
    { apply (gives_levels _ (λ l, plain l ∧ level_wf l)); [done|apply Forall_and; split..]; try done;
        [apply filter_levels_plain|apply strings_plain]. }
    intros ls Hls. apply gives_ret. apply up_to_hash_Forall in Hls as [Hn [Hp Hw]%Forall_and].
    split; [by apply plain_join|]. rewrite split_join by done. split; [done|]. apply up_to_hash_last. }
  intros levels Hl. rewrite plain_filter, no_nul by apply Hl.
  eapply gives_bind.
  { apply (gives_nonempty filter_path); [|exact Hl].
    pose proof strings_plain as Hp. rewrite Forall_forall in *. intros l Hin. apply single_filter; auto. }
  intros s (Hn & Hs & Hw). apply gives_ret. split; [by apply plain_text|].
  apply TopicFilter_validate_spec. cbn [topic_filter_str]. split; [done|]. split; [|done].
  unfold chars. rewrite plain_chars by done. cbn. intros Hin.
  apply (proj1 (Forall_forall _ _) Hs) in Hin. cbn in Hin. lia.
Qed.

(** * Headers and properties *)

Lemma gives_VarU32 stuck :
  gives stuck (λ v, is_VarU32 v ∧ varu32 v < VarU32_MAX) (VarU32_arbitrary (U := U)).
Proof.
  draw val Hv. apply gives_ret. unfold is_VarU32, VarU32_MAX. cbn.
  pose proof (Z.mod_pos_bound val 268435455). lia.
Qed.

(** The first length is less than the greatest. *)
Lemma gives_rem_len fuel : gives (fuel = 0%nat) is_VarU32 (arbitrary_rem_len (U := U) fuel).
Proof.
  destruct fuel as [|fuel]; [done|]. cbn [arbitrary_rem_len].
  eapply gives_bind; [apply gives_VarU32|]. intros v [Hv Hl].
  rewrite (proj2 (Z.ltb_lt _ _)) by done. by apply gives_ret.
Qed.

Lemma gives_try {A} stuck (P : A → Prop) (r : Result A) :
  settled r → (∀ a, r = Ok a → P a) → gives stuck P (gen_try (U := U) r).
Proof. intros Hs HP u. destruct r; cbn; try done. by apply HP. Qed.

(** A generated header passes the validation. *)
Lemma gives_FixedHeader fuel :
  gives (fuel = 0%nat) checked_FixedHeader (FixedHeader_arbitrary (U := U) fuel).
Proof.
  eapply gives_bind; [by apply gives_derived_any|]. intros pt _.
  eapply gives_bind; [apply gives_rem_len|]. intros rl Hrl.
  assert (∀ mk : VarU32 → Result FixedHeader, HeaderMaker mk →
    (∀ fh, mk rl = Ok fh → FixedHeader_validate fh = Ok ()) →
    gives (fuel = 0%nat) checked_FixedHeader (gen_try (U := U) (mk rl))) as Hmk.
  { intros mk Hm Hv. destruct (Hm rl) as [Hs Ho]. apply gives_try; [done|]. intros fh Hfh.
    destruct (Ho fh Hfh) as (El & Hb & _). split; [|by apply Hv]. split; [done|by rewrite El]. }
  destruct pt; try (apply Hmk; [exact _|]; intros fh; unfold FixedHeader_new, FixedHeader_new_pubrel,
    FixedHeader_new_subscribe, FixedHeader_new_unsubscribe; destruct (_ <? _); [done|];
    intros [= <-]; reflexivity).
  draw retain Hr. eapply gives_bind; [by apply gives_derived_any|]. intros qos _. draw dup Hd.
  apply (Hmk (FixedHeader_new_publish retain qos dup)); [exact _|]. intros fh.
  unfold FixedHeader_new_publish. destruct (_ <? _); [done|]. intros [= <-].
  by destruct retain, qos, dup.
Qed.

(** ** Client identifiers and user properties *)

Lemma gives_ClientID stuck :
  gives stuck (λ c, valid_str (client_id_str c)) (ClientID_arbitrary (U := U)).
Proof.
  draw c Hc. pose proof (Z.mod_pos_bound c 2).
  assert (c mod 2 = 0 ∨ c mod 2 = 1) as [-> | ->] by lia.
  - draw uuid Hu. by apply gives_ret.
  - apply gives_ret. by apply is_text_ok.
Qed.

Lemma gives_user_props stuck n :
  gives stuck (λ ps, length ps = n ∧ Forall valid_UserProperty ps) (valid_user_props (U := U) n).
Proof.
  apply gives_repeat. eapply gives_bind; [apply gives_choose, texts_ok; done|]. intros k Hk.
  eapply gives_bind; [apply gives_choose, texts_ok; done|]. intros v Hv. by apply gives_ret.
Qed.

Lemma gives_n_user_props stuck : gives stuck anything (n_user_props (U := U)).
Proof. draw n Hn. by apply gives_ret. Qed.

Lemma gives_optional_choice stuck xs : xs ≠ [] → forallb is_text xs = true →
  gives stuck (λ o, ∀ s, o = Some s → valid_str s) (optional_choice (U := U) xs).
Proof.
  intros Hn Hx. draw c Hc. pose proof (Z.mod_pos_bound c 2).
  assert (c mod 2 = 0 ∨ c mod 2 = 1) as [-> | ->] by lia; [|by apply gives_ret].
  eapply gives_bind; [by apply gives_choose, texts_ok|]. intros s Hs. apply gives_ret. by intros ? [= <-].
Qed.

(** A generated property is one of its type. *)
Lemma gives_Property fuel : gives (stuck_at fuel) valid_Property (Property_arbitrary (U := U) fuel).
Proof.
  eapply gives_bind; [by apply gives_derived_any|]. intros pt _.
  destruct pt; try (draw val Hv; by apply gives_ret);
    try (eapply gives_bind; [apply gives_choose, texts_ok; done|]; intros val Hv; by apply gives_ret).
  - eapply gives_bind; [apply gives_TopicName|]. intros val [Hv _]. by apply gives_ret.
  - eapply gives_bind; [apply gives_VarU32|]. intros val [Hv _]. by apply gives_ret.
  - eapply gives_bind; [apply gives_ClientID|]. intros val Hv. by apply gives_ret.
  - eapply gives_bind; [by apply gives_ret with (P := valid_str), is_text_ok|].
    intros val Hv. by apply gives_ret.
  - eapply gives_bind; [by apply gives_derived_any|]. intros val _. by apply gives_ret.
  - eapply gives_bind; [apply gives_user_props|]. intros [|p [|]] [Hl Hp]; try done.
    apply gives_ret. by apply Forall_cons in Hp as [? _].
Qed.
End topics.

(** * Packets *)

Lemma user_props_valid ps : Forall valid_UserProperty ps → Forall valid_Property (Property.UserProp <$> ps).
Proof. intros H. by apply Forall_fmap. Qed.

(** The properties of a structure, one list after the other. *)
Ltac valid_props :=
  repeat first
    [ apply Forall_app_2
    | apply user_props_valid; assumption
    | apply opt_prop_valid; cbn [valid_Property]; solve [auto | intros ? [= <-]; auto] ].

Section packets.
Context {E U : Type} `{!Unstructured E U, !UnstructuredLaws E U}.
Implicit Types (stuck : Prop).

Lemma gives_PubProperties stuck : gives stuck valid_PubProperties (PubProperties_arbitrary (U := U)).
Proof.
  eapply gives_bind; [by apply gives_optional_choice|]. intros rs Hrs.
  eapply gives_bind; [apply gives_n_user_props|]. intros n _.
  eapply gives_bind; [apply gives_user_props|]. intros ps [_ Hps]. apply gives_ret.
  unfold valid_PubProperties, PubProperties_to_props. cbn. valid_props.
Qed.

Lemma gives_SubAckProperties stuck : gives stuck valid_SubAckProperties (SubAckProperties_arbitrary (U := U)).
Proof.
  eapply gives_bind; [by apply gives_optional_choice|]. intros rs Hrs.
  eapply gives_bind; [apply gives_n_user_props|]. intros n _.
  eapply gives_bind; [apply gives_user_props|]. intros ps [_ Hps]. apply gives_ret.
  unfold valid_SubAckProperties, SubAckProperties_to_props. cbn. valid_props.
Qed.

Lemma gives_DisconnProperties stuck : gives stuck valid_DisconnProperties (DisconnProperties_arbitrary (U := U)).
Proof.
  eapply gives_bind; [by apply gives_optional_choice|]. intros rs Hrs. draw c Hc.
  eapply gives_bind with (P := λ o, ∀ s, o = Some s → valid_str s).
  { pose proof (Z.mod_pos_bound c 3).
    assert (c mod 3 = 0 ∨ c mod 3 = 1 ∨ c mod 3 = 2) as [-> |[-> | ->]] by lia; apply gives_ret;
      intros ? [= <-]; by apply is_text_ok. }
  intros sr Hsr. eapply gives_bind; [apply gives_n_user_props|]. intros n _. draw sei Hsei.
  eapply gives_bind; [apply gives_user_props|]. intros ps [_ Hps]. apply gives_ret.
  unfold valid_DisconnProperties, DisconnProperties_to_props. cbn. valid_props.
Qed.

Lemma gives_AuthProperties stuck : gives stuck valid_AuthProperties (AuthProperties_arbitrary (U := U)).
Proof.
  eapply gives_bind; [by apply gives_optional_choice|]. intros rs Hrs.
  eapply gives_bind; [apply gives_n_user_props|]. intros n _.
  eapply gives_bind; [apply gives_choose, texts_ok; done|]. intros am Ham. draw ad Had.
  eapply gives_bind; [apply gives_user_props|]. intros ps [_ Hps]. apply gives_ret.
  unfold valid_AuthProperties, AuthProperties_to_props. cbn -[opt_prop]. valid_props.
Qed.

Lemma gives_SubscribeProperties stuck :
  gives stuck (λ x, Forall valid_Property (SubscribeProperties_to_props x))
    (SubscribeProperties_arbitrary (U := U)).
Proof.
  eapply gives_bind; [apply gives_n_user_props|]. intros n _.
  eapply gives_bind; [apply gives_option, gives_VarU32|]. intros id Hid.
  eapply gives_bind; [apply gives_user_props|]. intros ps [_ Hps]. apply gives_ret.
  unfold SubscribeProperties_to_props. cbn. valid_props. apply opt_prop_valid.
  intros v Hv. by apply Hid.
Qed.

Lemma gives_UnSubscribeProperties stuck :
  gives stuck valid_UnSubscribeProperties (UnSubscribeProperties_arbitrary (U := U)).
Proof.
  eapply gives_bind; [apply gives_n_user_props|]. intros n _.
  eapply gives_bind; [apply gives_user_props|]. intros ps [_ Hps]. apply gives_ret.
  unfold valid_UnSubscribeProperties, UnSubscribeProperties_to_props. cbn. valid_props.
Qed.

(** ** Normalized packets *)

(** The four acknowledgements: of their type, with a code it admits. *)
Lemma gives_Pub stuck :
  gives stuck (λ p, is_pub_ack (Pub.packet_type p) = true ∧ valid_Pub (Pub_normalize p))
    (Pub_arbitrary (U := U)).
Proof.
  eapply gives_bind; [apply (gives_choose _ (λ pt, is_pub_ack pt = true)); [done|by repeat constructor]|].
  intros pt Hpt.
  eapply gives_bind with (P := λ v, ∃ c, ReasonCode_try_from v = Ok c ∧
    ∀ id props, Pub_validate (Pub.mk pt id c props) = Ok ()).
  { destruct pt; try done; (eapply gives_bind; [by apply gives_derived_any|]); intros c _;
      apply gives_ret; destruct c; by eexists. }
  intros v (c & Ec & Hv). rewrite Ec. eapply gives_bind; [by apply (gives_ret _ (λ c', c' = c))|].
  intros c' ->. draw pid Hid. eapply gives_bind; [apply gives_option, gives_PubProperties|].
  intros props Hp. apply gives_ret. split; [done|]. unfold Pub_normalize.
  cbn [Pub.properties].
  destruct props as [x|]; [destruct (PubProperties_is_empty x) eqn:Ee|];
    (split; [exact Hid|]); (split; [apply Hv|]); try done.
  intros y [= <-]. split; [by apply Hp|]. by intros ->.
Qed.

Lemma gives_SubAck stuck : gives stuck (λ p, valid_SubAck (SubAck_normalize p)) (SubAck_arbitrary (U := U)).
Proof.
  draw n Hn. eapply gives_bind; [by apply gives_repeat, gives_derived_any|]. intros codes [Hl _].
  draw pid Hid. eapply gives_bind; [apply gives_option, gives_SubAckProperties|].
  intros props Hp. apply gives_ret.
  assert (codes ≠ []) as Hc by (intros ->; pose proof (Z.mod_pos_bound n 32); cbn in Hl; lia).
  unfold SubAck_normalize. cbn. destruct props as [x|]; [destruct (SubAckProperties_is_empty x) eqn:Ee|];
    split; cbn; try done. split; [done|]. intros y [= <-]. split; [by apply Hp|]. by intros ->.
Qed.

Lemma gives_Disconnect stuck :
  gives stuck (λ p, valid_Disconnect (Disconnect_normalize p)) (Disconnect_arbitrary (U := U)).
Proof.
  eapply gives_bind; [by apply gives_derived_any|]. intros code _.
  eapply gives_bind; [apply gives_option, gives_DisconnProperties|]. intros props Hp. apply gives_ret.
  unfold Disconnect_normalize. cbn.
  destruct props as [x|]; [destruct (DisconnProperties_is_empty x) eqn:Ee|]; try done.
  intros y [= <-]. split; [by apply Hp|]. by intros ->.
Qed.

Lemma gives_Auth stuck : gives stuck valid_Auth (Auth_arbitrary (U := U)).
Proof.
  eapply gives_bind; [by apply gives_derived_any|]. intros code _.
  eapply gives_bind; [apply gives_option, gives_AuthProperties|]. intros props Hp. by apply gives_ret.
Qed.

Lemma gives_SubscriptionOpt stuck :
  gives stuck (λ o, is_u8 (sub_opt o)) (SubscriptionOpt_arbitrary (U := U)).
Proof.
  eapply gives_bind; [by apply gives_derived_any|]. intros rfr _. draw rap H1. draw nl H2.
  eapply gives_bind; [by apply gives_derived_any|]. intros qos _. apply gives_ret.
  by destruct rfr, rap, nl, qos.
Qed.

(** A SUBSCRIBE that does not carry the identifier zero. *)
Lemma gives_Subscribe fuel :
  gives (stuck_at (U := U) fuel)
    (λ p, (∀ x, Subscribe.properties p = Some x →
             SubscribeProperties.subscription_id x ≠ Some (mkVarU32 0)) →
          valid_Subscribe (Subscribe_normalize p))
    (Subscribe_arbitrary (U := U) fuel).
Proof.
  draw n Hn. eapply gives_bind.
  { apply gives_repeat with (P := valid_SubscribeFilter).
    eapply gives_bind; [apply gives_TopicFilter|]. intros f [Hf _].
    eapply gives_bind; [apply gives_SubscriptionOpt|]. intros o Ho. by apply gives_ret. }
  intros fs [_ Hfs]. draw pid Hid. eapply gives_bind; [apply gives_option, gives_SubscribeProperties|].
  intros props Hp. apply gives_ret. intros H0. unfold Subscribe_normalize. cbn in *.
  destruct props as [x|]; [destruct (SubscribeProperties_is_empty x) eqn:Ee|];
    split; cbn; try done; (split; [done|]); try done.
  intros y [= <-]. split; [split; [by apply Hp|by apply H0]|]. by intros ->.
Qed.

Lemma gives_UnSubscribe fuel :
  gives (stuck_at (U := U) fuel) (λ p, valid_UnSubscribe (UnSubscribe_normalize p))
    (UnSubscribe_arbitrary (U := U) fuel).
Proof.
  draw n Hn. eapply gives_bind.
  { apply gives_repeat. eapply gives_weaken; [apply gives_TopicFilter|done|]. by intros f [Hf _]. }
  intros fs [Hl Hfs]. draw pid Hid. eapply gives_bind; [apply gives_option, gives_UnSubscribeProperties|].
  intros props Hp. apply gives_ret.
  assert (fs ≠ []) as Hc by (intros ->; pose proof (Z.mod_pos_bound n 32); cbn in Hl; lia).
  unfold UnSubscribe_normalize. cbn.
  destruct props as [x|]; [destruct (UnSubscribeProperties_is_empty x) eqn:Ee|];
    split; cbn; try done; (split; [done|]); (split; [done|]); try done.
  intros y [= <-]. split; [by apply Hp|]. by intros ->.
Qed.

(** ** CONNECT *)

Lemma gives_ConnectFlags stuck : gives stuck (λ f, is_u8 (connect_flags f)) (ConnectFlags_arbitrary (U := U)).
Proof.
  assert (∀ f : ConnectFlags, gives stuck (λ fs, fs = [f] ∨ fs = [])
    (set ← arbitrary_bool (U := U); mret (match set with true => [f] | false => [] end))) as Hf.
  { intros f. draw set Hs. apply gives_ret. destruct set; auto. }
  eapply gives_bind; [apply Hf|]. intros cs Hcs. eapply gives_bind; [apply Hf|]. intros wf Hwf.
  eapply gives_bind; [by apply gives_derived_any|]. intros qos _.
  eapply gives_bind; [apply Hf|]. intros wr Hwr. eapply gives_bind; [apply Hf|]. intros un Hun.
  eapply gives_bind; [apply Hf|]. intros pw Hpw. apply gives_ret.
  destruct Hcs as [-> | ->], Hwf as [-> | ->], Hwr as [-> | ->], Hun as [-> | ->], Hpw as [-> | ->];
    by destruct qos.
Qed.

Lemma gives_ConnectProperties stuck :
  gives stuck (λ x, ConnectProperties.authentication_data x = ConnectProperties.authentication_method x →
                    valid_ConnectProperties x) (ConnectProperties_arbitrary (U := U)).
Proof.
  eapply gives_bind; [by apply gives_optional_choice|]. intros am Ham.
  eapply gives_bind; [apply gives_n_user_props|]. intros n _.
  draw sei Hsei. draw rm Hrm. draw mp Hmp. draw ta Hta. draw rr Hrr. draw rp Hrp. draw ad Had.
  eapply gives_bind; [apply gives_user_props|]. intros ps [_ Hps]. apply gives_ret. intros Ha.
  assert (∀ w (o : option Z), 1 < w → (∀ x, o = Some x → 0 <= x < w) → ∀ y,
    (λ x, Z.min (x + 1) (w - 1)) <$> o = Some y → 0 < y < w) as Hsat.
  { intros w [x|] Hw Ho y; [|done]. intros [= <-]. specialize (Ho x eq_refl). lia. }
  split; [|split; [|split; [|exact Ha]]].
  - unfold ConnectProperties_to_props. cbn -[opt_prop Z.min Z.pow].
    repeat apply Forall_app_2; [apply opt_prop_valid; cbn [valid_Property]; intros x Hx..|];
      [by apply Hsei| | |by apply Hta|by destruct x|by destruct x|by apply Ham|by apply Ham in Hx as [? _]|].
    + apply (Hsat (2 ^ 16)) in Hx; [unfold is_u16; lia|done|exact Hrm].
    + apply (Hsat (2 ^ 32)) in Hx; [unfold is_u32; lia|done|exact Hmp].
    + by apply user_props_valid.
  - intros Hx. apply (Hsat (2 ^ 16)) in Hx; [lia|done|exact Hrm].
  - intros Hx. apply (Hsat (2 ^ 32)) in Hx; [lia|done|exact Hmp].
Qed.

Lemma gives_WillProperties fuel :
  gives (stuck_at (U := U) fuel) valid_WillProperties (WillProperties_arbitrary (U := U) fuel).
Proof.
  eapply gives_bind; [by apply gives_optional_choice|]. intros ct Hct.
  eapply gives_bind; [apply gives_n_user_props|]. intros n _. draw wd Hwd.
  eapply gives_bind; [by apply gives_derived_any|]. intros pf _. draw me Hme.
  eapply gives_bind; [apply gives_option, gives_TopicName|]. intros rt Hrt. draw cd Hcd.
  eapply gives_bind; [apply gives_user_props|]. intros ps [_ Hps]. apply gives_ret.
  unfold valid_WillProperties, WillProperties_to_props. cbn -[opt_prop format_prop].
  repeat apply Forall_app_2; [|destruct pf; by repeat constructor|..];
    try (apply opt_prop_valid; cbn [valid_Property]; intros x Hx; by eauto); [|by apply user_props_valid].
  apply opt_prop_valid. intros x Hx. by apply Hrt.
Qed.

Lemma gives_optional_text stuck x : is_text x = true →
  gives stuck (λ o, ∀ s, o = Some s → valid_str s) (optional_text (U := U) x).
Proof.
  intros Hx. draw c Hc. pose proof (Z.mod_pos_bound c 3).
  assert (c mod 3 = 0 ∨ c mod 3 = 1 ∨ c mod 3 = 2) as [-> |[-> | ->]] by lia; apply gives_ret;
    intros ? [= <-]; by apply is_text_ok.
Qed.

(** What the generator of CONNECT leaves to chance: there is a will, with properties that
    are not empty; the flags say whether there is a login; the properties are not empty,
    and have data for authentication that are the method. *)
Definition consistent (c : Connect) : Prop :=
  is_will_flag (Connect.flags c) = true ∧
  (is_Some (ConnectPayload.user_name (Connect.payload c)) ↔ is_username (Connect.flags c) = true) ∧
  (is_Some (ConnectPayload.password (Connect.payload c)) ↔ is_password (Connect.flags c) = true) ∧
  (∀ x, Connect.properties c = Some x → x ≠ ConnectProperties_default ∧
     ConnectProperties.authentication_data x = ConnectProperties.authentication_method x) ∧
  (∀ x, ConnectPayload.will_properties (Connect.payload c) = Some x → x ≠ WillProperties_default).

Lemma gives_Connect fuel :
  gives (stuck_at (U := U) fuel) (λ c, consistent c → valid_Connect c) (Connect_arbitrary (U := U) fuel).
Proof.
  eapply gives_bind; [by apply gives_optional_text|]. intros un Hun.
  eapply gives_bind; [by apply gives_optional_text|]. intros pw Hpw.
  eapply gives_bind; [apply gives_ClientID|]. intros cid Hcid.
  eapply gives_bind; [apply gives_option, gives_WillProperties|]. intros wp Hwp.
  eapply gives_bind; [apply gives_option, gives_TopicName|]. intros wt Hwt. draw wd Hwd.
  eapply gives_bind; [apply gives_ConnectFlags|]. intros fl Hfl. draw ka Hka.
  eapply gives_bind; [apply gives_option, gives_ConnectProperties|]. intros props Hp. apply gives_ret.
  intros (Hw & Hu & Hpass & Hc & Hwc). unfold valid_Connect, valid_Connect_head, valid_Connect_login.
  cbn [Connect.flags Connect.keep_alive Connect.properties Connect.payload ConnectPayload.client_id
    ConnectPayload.will_properties ConnectPayload.will_topic ConnectPayload.will_payload
    ConnectPayload.user_name ConnectPayload.password] in *.
  split; [split; [done|split; [done|split; [|done]]]|].
  { intros x Hx. destruct (Hc x Hx) as [Hd Ha]. split; [by apply Hp|done]. }
  do 2 (split; [done|]). split; [|split; [|exact Hwd]].
  - intros x Hx. split; [by apply Hwp|by apply Hwc].
  - intros t Ht. by apply Hwt in Ht as [? _].
Qed.
End packets.

(** * The theorems *)

Section outcomes.
Context {E U : Type}.

Lemma gives_Ok {A} (stuck : Prop) (P : A → Prop) (g : Gen E U A) u u' a :
  gives stuck P g → g u = (u', Ok a) → P a.
Proof. intros H Eg. specialize (H u). by rewrite Eg in H. Qed.

Lemma gives_settled {A} (stuck : Prop) (P : A → Prop) (g : Gen E U A) :
  gives stuck P g → ¬ stuck → ∀ u, settled (snd (g u)).
Proof. intros H Hs u. specialize (H u). by destruct (snd (g u)). Qed.
End outcomes.

Definition pub_packet (p : Pub) : Packet :=
  match Pub.packet_type p with
  | PacketType.PubAck => Packet.PubAck p
  | PacketType.PubRec => Packet.PubRec p
  | PacketType.PubRel => Packet.PubRel p
  | _ => Packet.PubComp p
  end.

Section theorems.
Context {E U : Type} `{!Unstructured E U, !UnstructuredLaws E U} (fuel : nat).

(** The packets generated from an input, normalized: those of a codec that reads what it
    writes, and a CONNECT or a SUBSCRIBE when the generator happened to make it right. *)
Inductive generated (u : U) : Packet → Prop :=
| generated_Pub u' p : Pub_arbitrary u = (u', Ok p) → generated u (pub_packet (Pub_normalize p))
| generated_SubAck u' p : SubAck_arbitrary u = (u', Ok p) → generated u (Packet.SubAck (SubAck_normalize p))
| generated_UnSubscribe u' p :
    UnSubscribe_arbitrary fuel u = (u', Ok p) → generated u (Packet.UnSubscribe (UnSubscribe_normalize p))
| generated_Subscribe u' p :
    Subscribe_arbitrary fuel u = (u', Ok p) →
    (∀ x, Subscribe.properties p = Some x → SubscribeProperties.subscription_id x ≠ Some (mkVarU32 0)) →
    generated u (Packet.Subscribe (Subscribe_normalize p))
| generated_Disconnect u' p :
    Disconnect_arbitrary u = (u', Ok p) → generated u (Packet.Disconnect (Disconnect_normalize p))
| generated_Auth u' p : Auth_arbitrary u = (u', Ok p) → generated u (Packet.Auth p)
| generated_Connect u' p :
    Connect_arbitrary fuel u = (u', Ok p) → consistent p → generated u (Packet.Connect p).

Lemma generated_valid u p : generated u p → valid_Packet p.
Proof.
  intros [u' q Eq|u' q Eq|u' q Eq|u' q Eq H0|u' q Eq|u' q Eq|u' q Eq Hc].
  - apply (gives_Ok _ _ _ _ _ _ (gives_Pub False)) in Eq as [Hpt Hv].
    assert (Pub.packet_type (Pub_normalize q) = Pub.packet_type q) as El.
    { unfold Pub_normalize. destruct (Pub.properties q); [|done]. by destruct (PubProperties_is_empty _). }
    unfold pub_packet. rewrite El. by destruct (Pub.packet_type q); split.
  - exact (gives_Ok _ _ _ _ _ _ (gives_SubAck False) Eq).
  - exact (gives_Ok _ _ _ _ _ _ (gives_UnSubscribe fuel) Eq).
  - exact (gives_Ok _ _ _ _ _ _ (gives_Subscribe fuel) Eq H0).
  - exact (gives_Ok _ _ _ _ _ _ (gives_Disconnect False) Eq).
  - exact (gives_Ok _ _ _ _ _ _ (gives_Auth False) Eq).
  - exact (gives_Ok _ _ _ _ _ _ (gives_Connect fuel) Eq Hc).
Qed.

(** C39: what the generators make comes back from the wire: whatever the input they consume, a
    generated acknowledgement of PUBLISH, SUBACK, UNSUBSCRIBE, DISCONNECT or AUTH, once
    normalized, encodes to bytes or is refused, and the bytes decode to the packet itself,
    whatever follows them.  So does a SUBSCRIBE, once normalized, whose subscription
    identifier is not zero, and a CONNECT that is [consistent]: it has a will; its user name and
    password are there as the flags say; its properties, if there are any, are not all the
    defaults, and their authentication data is the authentication method's bytes, both or
    neither there; its will properties, if there are any, are not all the defaults.  The
    generators leave that to chance ([generated_packets_refused],
    [connect_authentication_data_lost], [connect_without_will_is_refused]). *)
Theorem generated_packets_round_trip u p :
  generated u p →
  settled (Packet_encode p) ∧
  ∀ b, Packet_encode p = Ok b → is_bytes (as_ref b) ∧
    ∀ rest, Packet_decode (as_ref b ++ rest) = Ok (p, length (as_ref b)).
Proof.
  intros Hv%generated_valid. destruct (Packet_encode_valid p Hv) as [Hs Hb]. split; [done|].
  intros b Eb. split; [by apply Hb|]. intros rest. by apply Packet_wire.
Qed.

(** C35: what the generators of the parts of packets give passes the checks of the codecs:
    topic names and filters are text that the validation accepts, all 27 properties have
    values of their types, headers are those the validation accepts, and client
    identifiers and user properties are text. *)
Theorem generated_values_are_valid u :
  (∀ u' t, TopicName_arbitrary fuel u = (u', Ok t) → checked_TopicName t) ∧
  (∀ u' t, TopicFilter_arbitrary fuel u = (u', Ok t) → checked_TopicFilter t) ∧
  (∀ u' p, Property_arbitrary fuel u = (u', Ok p) → valid_Property p) ∧
  (∀ u' fh, FixedHeader_arbitrary fuel u = (u', Ok fh) → checked_FixedHeader fh) ∧
  (∀ u' c, ClientID_arbitrary u = (u', Ok c) → valid_str (client_id_str c)) ∧
  (∀ n u' ps, valid_user_props n u = (u', Ok ps) → length ps = n ∧ Forall valid_UserProperty ps).
Proof.
  split; [intros u' t; exact (gives_Ok _ _ _ u u' t (gives_TopicName fuel))|].
  split; [intros u' t; exact (gives_Ok _ _ _ u u' t (gives_TopicFilter fuel))|].
  split; [intros u' t; exact (gives_Ok _ _ _ u u' t (gives_Property fuel))|].
  split; [intros u' t; exact (gives_Ok _ _ _ u u' t (gives_FixedHeader fuel))|].
  split; [intros u' t; exact (gives_Ok _ _ _ u u' t (gives_ClientID False))|].
  intros n u' ps. exact (gives_Ok _ _ _ u u' ps (gives_user_props False n)).
Qed.

(** C29: when the generation of a topic ends.  A topic name or filter is drawn, and while its
    text is empty a string is chosen in its place.  As soon as the text, or a string chosen,
    is not empty, or the input gives an error, the generator ends, with a value or that error;
    until then it goes on, after any number of choices.  Input that is exhausted, of which
    every number is zero and every choice the first, gives the empty text and then nothing
    but empty strings: both generators go on for ever. *)
Theorem topic_generation_ends u :
  ends_when_chosen TopicName_arbitrary u ∧ ends_when_chosen TopicFilter_arbitrary u ∧
  (arbitrary_u8 u = (u, Ok 0) → (∀ n, n ≠ 0%nat → choose_index n u = (u, Ok 0%nat)) →
   ∀ n, snd (TopicName_arbitrary n u) = Diverge ∧ snd (TopicFilter_arbitrary n u) = Diverge).
Proof.
  split; [apply TopicName_ends|]. split; [apply TopicFilter_ends|]. intros H8 Hc n.
  assert (∀ x xs, choose (x :: xs : list bytes) u = (u, Ok x)) as Hs.
  { intros x xs. unfold choose, pick, mbind, Gen_bind. by rewrite Hc. }
  assert (∀ k, all_empty k u) as Ha by (intros k; induction k; cbn; eauto).
  assert (TopicName_arbitrary 0 u = (u, Diverge) ∧ TopicFilter_arbitrary 0 u = (u, Diverge)) as [E1 E2].
  { unfold TopicName_arbitrary, TopicFilter_arbitrary, mbind, Gen_bind. rewrite H8. cbn -[choose nonempty].
    unfold STRINGS, FILTER_LEVELS, mbind, Gen_bind. by rewrite !Hs. }
  destruct (TopicName_ends u n) as [[_ H1] _], (TopicFilter_ends u n) as [[_ H2] _].
  rewrite E1 in H1. rewrite E2 in H2. split; [by apply H1|by apply H2].
Qed.
End theorems.

(** * Examples

    Input that is a source of numbers, each taken modulo what is asked for. *)
Section numbers.
Context {U : Type} (next : U → U * Z).

Definition number (w : Z) : Gen unit U Z := λ u, let '(u, x) := next u in (u, Ok (x mod w)).
Definition index (n : nat) : Gen unit U nat :=
  match n with
  | O => λ u, (u, Err ())
  | S _ => i ← number (Z.of_nat n); mret (Z.to_nat i)
  end.

Definition numbers : Unstructured unit U := {|
  arbitrary_bool := (x ← number 2; mret (x =? 1));
  arbitrary_u8 := number (2 ^ 8);
  arbitrary_u16 := number (2 ^ 16);
  arbitrary_u32 := number (2 ^ 32);
  arbitrary_usize := number (2 ^ 64);
  arbitrary_bytes := (n ← number 8; repeat_gen (Z.to_nat n) (number (2 ^ 8)));
  arbitrary_is_some := (x ← number 2; mret (x =? 1));
  choose_index := index;
  arbitrary_variant := index;
  new_v4_text := mret (str "67e55044-10b1-426f-9247-bb680e5fe0c8");
  incorrect_format := ();
|}.

Lemma gives_number stuck w : 0 < w → gives stuck (λ x, 0 <= x < w) (number w).
Proof.
  intros Hw u. unfold number. destruct (next u) as [u' x]. cbn. by apply Z.mod_pos_bound.
Qed.

Lemma gives_index n : n ≠ 0%nat → gives False (λ i, (i < n)%nat) (index n).
Proof.
  destruct n as [|n]; [done|]. intros _.
  eapply gives_bind; [by apply gives_number|]. intros x [? ?]. apply gives_ret. lia.
Qed.

Lemma numbers_laws : @UnstructuredLaws unit U numbers.
Proof.
  split; cbn; try (by apply gives_number).
  - eapply gives_bind; [by apply gives_number|]. intros x _. by apply gives_ret.
  - eapply gives_weaken; [by apply (gives_number False (2 ^ 64))|done|]. by intros x [? _].
  - eapply gives_bind; [by apply gives_number|]. intros n _.
    eapply gives_weaken; [by apply gives_repeat, (gives_number False (2 ^ 8))|done|].
    intros xs [_ Hx]. exact Hx.
  - eapply gives_bind; [by apply gives_number|]. intros x _. by apply gives_ret.
  - apply gives_index.
  - apply gives_index.
  - apply gives_ret. by apply is_text_ok.
Qed.
End numbers.

(** Numbers on a tape, and zeros after them; and only zeros. *)
Definition tape : Unstructured unit (list Z) :=
  numbers (λ u, match u with [] => ([], 0) | x :: u => (u, x) end).
Definition zeros : Unstructured unit unit := numbers (λ u, (u, 0)).

(** A PUBREL for packet 7 with two user properties. *)
Lemma generated_packets_round_trip_witness :
  let p := Pub.mk PacketType.PubRel 7 ReasonCode.PacketIdNotFound
             (Some (PubProperties.mk None [(str "key", str ""); (str "", str "val")])) in
  ∃ b, Packet_encode (Packet.PubRel p) = Ok b ∧ Packet_decode (as_ref b) = Ok (Packet.PubRel p, length (as_ref b)).
Proof.
  intros p.
  pose proof (@generated_packets_round_trip unit (list Z) tape (numbers_laws _) 0%nat
                [2; 1; 7; 1; 1; 2; 1; 0; 0; 1] (Packet.PubRel p)) as H.
  destruct H as [_ H].
  - apply (generated_Pub 0 _ [] p). vm_compute. reflexivity.
  - destruct (Packet_encode (Packet.PubRel p)) as [b| | |] eqn:Eb; [|vm_compute in Eb; discriminate..].
    exists b. split; [reflexivity|]. destruct (H b eq_refl) as [_ Hd]. specialize (Hd []).
    rewrite app_nil_r in Hd. exact Hd.
Defined.

(** The filter [$/a/#] of four levels drawn, with the one after the [#] left out. *)
Lemma generated_values_are_valid_witness :
  checked_TopicFilter (mkTopicFilter (str "$/a/#")).
Proof.
  pose proof (@generated_values_are_valid unit (list Z) tape (numbers_laws _) 0%nat
                [33; 255; 1; 0; 1; 255; 3; 0; 2]) as (_ & H & _).
  apply (H [] (mkTopicFilter (str "$/a/#"))). vm_compute. reflexivity.
Defined.

(** A tape of zeros: the fourth string is [abc] where the tape ends in a three. *)
Lemma topic_generation_ends_witness :
  snd (@TopicName_arbitrary unit (list Z) tape 1 [0; 0; 0; 3]) = Diverge ∧
  (∀ n, (2 ≤ n)%nat →
     @TopicName_arbitrary unit (list Z) tape n [0; 0; 0; 3] = ([], Ok (mkTopicName (str "abc")))) ∧
  ∀ n, snd (@TopicFilter_arbitrary unit unit zeros n ()) = Diverge.
Proof.
  split; [reflexivity|split].
  - intros n Hn. destruct (@topic_generation_ends unit (list Z) tape (numbers_laws _) [0; 0; 0; 3]) as (H & _ & _).
    destruct (H 2%nat) as [_ Hm]. destruct Hm as [_ Hm]; [discriminate|]. rewrite (Hm n Hn). reflexivity.
  - intros n. destruct (@topic_generation_ends unit unit zeros (numbers_laws _) ()) as (_ & _ & H).
    apply H; [reflexivity|intros [|k] Hk; [done|reflexivity]].
Defined.

(** What was left to chance: a CONNECT whose flags promise a user name it does not carry,
    and a SUBSCRIBE with the identifier zero, are generated, encoded, and refused. *)
Definition ex_connect_tape : list Z :=
  [0; 0; 1; 1; 1; 0; 1; 5; 0; 0; 0; 0; 1; 0; 1; 1; 1; 9; 0; 1; 0; 0; 1; 0; 60; 0].
Definition ex_subscribe_tape : list Z := [0; 10; 1; 0; 0; 0; 0; 7; 1; 0; 1; 0].

(** What becomes of a generated packet that is encoded and decoded. *)
Definition sent {A} (packet : A → Packet) (generated : outcome unit A) : option (Result (Packet * nat)) :=
  match generated with
  | Ok a => match Packet_encode (packet a) with
            | Ok b => Some (Packet_decode (as_ref b))
            | _ => None
            end
  | _ => None
  end.

Lemma generated_packets_refused :
  sent Packet.Connect (snd (@Connect_arbitrary unit (list Z) tape 0 ex_connect_tape))
  = Some (Err (mkError ErrorKind.InsufficientBytes (Some ReasonCode.MalformedPacket))) ∧
  sent (λ p, Packet.Subscribe (Subscribe_normalize p))
    (snd (@Subscribe_arbitrary unit (list Z) tape 0 ex_subscribe_tape))
  = Some (Err (mkError ErrorKind.ProtocolError (Some ReasonCode.ProtocolError))).
Proof. split; vm_compute; reflexivity. Qed.
